(* ===== verification/_CoqProject ===== *)
-Q . S2P
Prelude.v
Errors.v
Monad.v
Text.v
Netip.v
Encoding.v
Identity.v
Schema.v
World.v
HttpClient.v
UserStore.v
SessionStore.v
TokenStore.v
GroupStore.v
GuestStore.v
OAuthStore.v
SSOStore.v
UsageQueue.v
SSOProvider.v
RateLimit.v
RateLimitMemory.v
RateLimitDB.v
RateLimitProps.v
Session.v
PasswordHash.v
SignIn.v
Confirmation.v
Passwords.v
AuditTrail.v
Retention.v
Maintenance.v
AdminStore.v
Guests.v
Groups.v
Settings.v
Admin.v
ProviderRegistry.v
OAuth.v
SSOClient.v
AdminReports.v
Locale.v
Catalog.v
ClientAddress.v
Migrations.v
Config.v
Adapters.v
Http.v
AdminState.v
Middleware.v
WebSession.v
WebPage.v
Steps.v
Changes.v
Invariants.v
History.v
App.v
WebAuth.v
WebFlows.v
WebSettings.v
WebGroups.v
WebAdminViews.v
WebAdmin.v
Routes.v
AppSteps.v
Demo.v
Safety.v
Upkeep.v
WebSteps.v
AccountProps.v
GroupProps.v
GuestProps.v
OAuthProps.v
SSOProps.v
WebProps.v
WebDemo.v
Oidc.v
OidcProps.v
Start.v
Process.v
Findings.v
