(* ===== verification/Prelude.v ===== *)
(** * goweb: a verification library of a multi-user web application

    goweb (Go, [src/]) is a web application with accounts, sessions, groups,
    guests, external sign-in and an administrator area.  It runs alone, or as
    the single sign-on provider of a family of sites (in front of an Ory Hydra
    server), or as a client of such a provider.  The library follows the
    program's layers; a file's first comment names the Go files it models, and
    definitions keep the names of the code (a trailing underscore where Rocq or
    a neighbour has the name, [service_] or [smtp_] where two Go types share a
    method name).

    ** The program and the files

    Prelude      generic lemmas, [wrap64] and tactics shared by all files
    Errors       Go errors: sentinels, wrapping, joining, [errors.Is]
    Monad        [M], state passing with errors; the hint database [go_preserves]
    Text, Netip, Encoding, HttpClient, Http
                 the parts of Go's standard library that the program uses
    Identity     e-mail, user name, password, name and code rules
                 (service/identity.go, password.go and the small normalizers)
    Schema       the tables of [migrations/] with their constraints
    World        database, clock, random source, outbox and fault schedule

    Storage, internal/store/postgres: UserStore (users.go), SessionStore and
    TokenStore (sessions.go, tokens.go), GroupStore (groups.go), GuestStore
    (guest.go), OAuthStore (oauth.go, login_attempts.go, audit.go, usage.go),
    SSOStore (sso.go), RateLimitDB (rate_limit.go), Retention (retention.go),
    AdminStore (the administrator's lists).  A method is its statements in
    order; a statement is an atomic function on [Schema]'s tables; a
    transaction that fails leaves the tables unchanged.

    Services, internal/service: Session, PasswordHash, SignIn (with sign-up),
    Confirmation, Passwords, Guests, Groups, Settings, Admin, AdminReports,
    AuditTrail, RateLimit and RateLimitMemory, ProviderRegistry, OAuth,
    SSOProvider, SSOClient, UsageQueue, Retention, Maintenance.  They call the
    storage as internal/app/app.go wires them: App names each entry point as a
    [use_case] and runs it with [serve]; Upkeep adds the maintenance jobs.

    Clients of other systems: Oidc (adapter/oidc), Adapters (adapter/hydra,
    adapter/oauth, adapter/mail).  The services see Hydra, the issuer and the
    OAuth providers as records of functions; Adapters discharges two of them.

    The web layer, internal/adapter/http and internal/locale: Locale, Catalog,
    ClientAddress, Middleware, WebSession, WebPage, WebAuth, WebFlows,
    WebSettings, WebGroups, AdminState, WebAdminViews, WebAdmin, Routes.  A
    handler is a function of the request in [Web], the monad of a world and the
    response written so far; [Routes.router] is the whole site.

    The process: Config (internal/config), Migrations (store/migrator.go and
    app/runtime.go), Start ([New] with every constructor, the bootstrap
    administrator and the site that cmd/web composes), Process
    (internal/server and [main]).

    Facts: Steps and Changes (every write of the repositories, as a relation),
    Invariants and History (what all writes keep), AppSteps and WebSteps (every
    use case and every handler moves the database along those writes), then the
    properties in Safety, Upkeep, AccountProps, GroupProps, GuestProps,
    OAuthProps, SSOProps, OidcProps, RateLimitProps, WebProps, Start, Process.
    Demo, WebDemo and the last sections of other files evaluate the
    model on concrete sites; Findings shows where code and documentation part.

    ** What is proved

    - The data: every sequence of use cases, of requests to the router, and of
      maintenance runs between them, with any failures of the database, keeps
      keys, constraints, uniqueness and references; the site keeps an
      administrator, and groups keep theirs unless an account is deleted.
      [db_step] has one constructor per write; the theorems go by induction
      over the reflexive-transitive closure of these steps.
    - Credentials: sign-in authenticates and its refusals look alike, links work
      once, revocation is final, sessions expire in time, hashes round-trip.
    - Groups and guests: who may change or see what; what cleanup, upgrade and
      joining do.
    - External sign-in: callbacks need their state and their browser,
      identities never merge into foreign accounts, a guest's conversion is all
      or nothing; tokens are vouched for by the issuer, and logout tokens are
      no identity tokens.
    - Budgets and queues: the fixed window of both limiter stores against one
      interface ([FixedWindow]), the usage queue as a refinement of a list
      under any interleaving, the worker's passes, invisible cleanup.
    - The browser: state changes carry the site's token, cookies are
      protected, traces are not forged, signing out and in replaces sessions, the administrator area
      is for administrators, the client address is not forged.
    - Operation: a configuration that loads in production is safe, what loads
      starts (four settings apart), diagnostics hide secrets, migrations are
      all or nothing and agree with a fresh installation, the process serves
      only what is prepared and closes what it opened, and a deployment built
      this way keeps the promises about data and cookies.

    ** Conventions and bounds

    A computation [S -> S * outcome A] returns a value or an error and keeps
    what it changed before an error, as Go does.  [int64] arithmetic is exact
    [Z], wrapped with [wrap64] where the code guards against overflow; times are
    Unix seconds in the tables, milliseconds in the rate buckets and
    nanoseconds in durations, as stored.  The world fixes in advance
    how the clock advances, which random bytes come and which database round
    trips fail, before or after taking effect; theorems hold for all of them.

    Recursion is structural but for decoding UTF-8 and rendering messages,
    where the length of the text is the fuel ([segments_next] and
    [interpolate_fuel_irrel] show that it is enough), and loops the
    code itself bounds (five tries for an invite code, the attempts of a usage
    event), which keep the code's bound.

    Code from elsewhere is a parameter, a type class with its laws: Argon2id,
    SHA-256, RSA, PostgreSQL's identifiers and text comparison, the Unicode
    tables outside ASCII, the grammars of addresses, URLs, floats, durations
    and JSON, HTML templates, the network, the effect of a migration script,
    the order of map iteration.  The laws are documented behaviour and
    have instances in the demos.  For theorems about the data, services of
    other systems are assumed not to write this database ([quiet]); the
    clients in Adapters are proved so.

    ** Not modelled

    - the line that a recovered panic logs, the sink of the audit log and the
      logging of workers: formatting with no effect on state;
    - the theme endpoint (theme.go), which no route uses, and static files;
    - the connection pool (store/database.go): opening a handle and its limits;
    - timeouts, [context] cancellation inside a statement, and the goroutines
      that [main] starts (their loops are in Maintenance and UsageQueue, their
      interleaving with requests in Upkeep and UsageQueue);
    - the text of HTML templates, catalogs and scripts: assets;
    - the isolation of transactions: each is one step of the database;
    - nil receivers and nil dependencies of the services, which [New] excludes. *)
From Stdlib Require Export ZArith Lia Ascii String.
From stdpp Require Export base gmap strings list sorting relations pretty.
Export ListNotations.

#[global] Open Scope string_scope.
#[global] Open Scope list_scope.
#[global] Open Scope Z_scope.
Declare Scope go_scope.
Delimit Scope go_scope with go.
#[global] Open Scope go_scope.

(** ** Machine integers *)
Definition max_int64 : Z := 9223372036854775807.
Definition min_int64 : Z := -9223372036854775808.

(** The value of a Go [int64] expression whose exact value is [z]. *)
Definition wrap64 (z : Z) : Z :=
  (z + 9223372036854775808) mod 18446744073709551616 - 9223372036854775808.

Definition int64 (z : Z) : Prop := min_int64 ≤ z ≤ max_int64.

Lemma wrap64_id z : int64 z → wrap64 z = z.
Proof. unfold int64, wrap64, min_int64, max_int64. intros. rewrite Z.mod_small; lia. Qed.

Lemma wrap64_range z : int64 (wrap64 z).
Proof.
  unfold int64, wrap64, min_int64, max_int64.
  pose proof (Z.mod_pos_bound (z + 9223372036854775808) 18446744073709551616). lia.
Qed.

(** Adding a non-negative [int64] wraps exactly when the sum falls below. *)
Lemma wrap64_add_nonneg a b :
  int64 a → int64 b → 0 ≤ b → a < wrap64 (a + b) → wrap64 (a + b) = a + b.
Proof.
  unfold int64, min_int64, max_int64. intros Ha Hb Hb0 Hlt.
  destruct (decide (a + b ≤ max_int64)) as [Hle|Hgt]; unfold max_int64 in *.
  - apply wrap64_id. unfold int64, min_int64, max_int64. lia.
  - exfalso. unfold wrap64 in Hlt.
    replace (a + b + 9223372036854775808)
      with (a + b - 9223372036854775808 + 1 * 18446744073709551616) in Hlt by lia.
    rewrite Z.mod_add, Z.mod_small in Hlt; lia.
Qed.

(** ** Tables *)
Section tables.
Context `{Countable K} {A : Type}.

(** [SELECT ... WHERE P LIMIT 1] over a table. *)
Definition find_row (P : A → bool) (m : gmap K A) : option (K * A) :=
  r ← list_find (λ kv, P (snd kv) = true) (map_to_list m); Some (snd r).

Lemma find_row_Some (P : A → bool) (m : gmap K A) k a :
  find_row P m = Some (k, a) → m !! k = Some a ∧ P a = true.
Proof.
  unfold find_row. intros Hf. apply bind_Some in Hf as ([i [k' a']] & Hf & Heq).
  simpl in Heq. injection Heq as -> ->.
  apply list_find_Some in Hf as (Hl & HP & _). simpl in HP. split; [|done].
  apply elem_of_map_to_list. by eapply list_elem_of_lookup_2.
Qed.

Lemma find_row_None (P : A → bool) (m : gmap K A) :
  find_row P m = None ↔ ∀ k a, m !! k = Some a → P a = false.
Proof.
  unfold find_row. split.
  - intros Hf k a Hk. destruct (list_find _ _) eqn:E; [done|].
    apply list_find_None in E. rewrite Forall_forall in E.
    specialize (E (k, a)). rewrite elem_of_map_to_list in E. specialize (E Hk).
    simpl in E. by destruct (P a).
  - intros Hall. destruct (list_find _ _) as [[i [k a]]|] eqn:E; [|done].
    apply list_find_Some in E as (Hl & HP & _). simpl in HP.
    apply list_elem_of_lookup_2, elem_of_map_to_list in Hl.
    by rewrite (Hall _ _ Hl) in HP.
Qed.

Lemma find_row_unique (P : A → bool) (m : gmap K A) k a :
  m !! k = Some a → P a = true →
  (∀ k' a', m !! k' = Some a' → P a' = true → k' = k) →
  find_row P m = Some (k, a).
Proof.
  intros Hk HP Huniq. destruct (find_row P m) as [[k' a']|] eqn:E.
  - apply find_row_Some in E as [Hk' HP'].
    assert (k' = k) as -> by eauto. congruence.
  - rewrite find_row_None in E. specialize (E _ _ Hk). congruence.
Qed.

(** [SELECT count( * ) ... WHERE P]. *)
Definition count_rows (P : K * A → bool) (m : gmap K A) : Z :=
  Z.of_nat (length (filter (λ kv, P kv = true) (map_to_list m))).

Lemma count_rows_nonneg (P : K * A → bool) (m : gmap K A) : 0 ≤ count_rows P m.
Proof. unfold count_rows. lia. Qed.

Lemma count_rows_pos (P : K * A → bool) (m : gmap K A) :
  0 < count_rows P m ↔ ∃ k a, m !! k = Some a ∧ P (k, a) = true.
Proof.
  unfold count_rows. split.
  - intros Hlt. destruct (filter _ _) as [|[k a] l] eqn:E; [simpl in Hlt; lia|].
    assert ((k, a) ∈ filter (λ kv, P kv = true) (map_to_list m)) as Hin by (rewrite E; left).
    apply list_elem_of_filter in Hin as [HP Hin]. apply elem_of_map_to_list in Hin. eauto.
  - intros (k & a & Hk & HP).
    assert ((k, a) ∈ filter (λ kv, P kv = true) (map_to_list m)) as Hin.
    { apply list_elem_of_filter. by rewrite elem_of_map_to_list. }
    destruct (filter _ _); [by apply not_elem_of_nil in Hin | simpl; lia].
Qed.

Lemma count_rows_zero (P : K * A → bool) (m : gmap K A) :
  count_rows P m = 0 ↔ ∀ k a, m !! k = Some a → P (k, a) = false.
Proof.
  pose proof (count_rows_nonneg P m). pose proof (count_rows_pos P m) as Hpos. split.
  - intros Hz k a Hk. destruct (P (k, a)) eqn:E; [|done].
    assert (0 < count_rows P m) by (apply Hpos; eauto). lia.
  - intros Hall. destruct (decide (0 < count_rows P m)) as [Hlt|]; [|lia].
    apply Hpos in Hlt as (k & a & Hk & HP). by rewrite (Hall _ _ Hk) in HP.
Qed.

Lemma count_rows_two (P : K * A → bool) (m : gmap K A) k :
  1 < count_rows P m → ∃ k' a, k' ≠ k ∧ m !! k' = Some a ∧ P (k', a) = true.
Proof.
  unfold count_rows. intros Hlt.
  assert (Hnd : NoDup (filter (λ kv, P kv = true) (map_to_list m))) by apply NoDup_filter, NoDup_map_to_list.
  assert (Hin : ∀ kv, kv ∈ filter (λ kv, P kv = true) (map_to_list m) → m !! kv.1 = Some kv.2 ∧ P kv = true).
  { intros [k1 a1] [HP Hl]%list_elem_of_filter. by apply elem_of_map_to_list in Hl. }
  destruct (filter _ _) as [|[k1 a1] [|[k2 a2] l]]; [simpl in Hlt; lia..|].
  destruct (Hin (k1, a1)) as [H1 P1]; [by left|]. destruct (Hin (k2, a2)) as [H2 P2]; [by right; left|].
  destruct (decide (k1 = k)) as [->|]; [|eauto 10]. exists k2, a2. split_and!; try done.
  intros ->. apply NoDup_cons in Hnd as [Hni _]. simpl in *. simplify_eq. apply Hni. by left.
Qed.
End tables.

(** Boolean tests on decidable propositions read as propositions. *)
Ltac bool_props :=
  repeat match goal with
  | H : bool_decide _ = true |- _ => apply bool_decide_eq_true in H
  | H : bool_decide _ = false |- _ => apply bool_decide_eq_false in H
  | H : (_ && _)%bool = true |- _ => apply andb_true_iff in H as [? ?]
  | H : (_ || _)%bool = false |- _ => apply orb_false_iff in H as [? ?]
  | H : negb _ = true |- _ => apply negb_true_iff in H
  | H : negb _ = false |- _ => apply negb_false_iff in H
  | H : (_ <=? _) = true |- _ => apply Z.leb_le in H
  | H : (_ <=? _) = false |- _ => apply Z.leb_gt in H
  | H : (_ <? _) = true |- _ => apply Z.ltb_lt in H
  | H : (_ <? _) = false |- _ => apply Z.ltb_ge in H
  | H : (_ =? _) = true |- _ => apply Z.eqb_eq in H
  | H : (_ =? _) = false |- _ => apply Z.eqb_neq in H
  | H : String.eqb _ _ = true |- _ => apply String.eqb_eq in H
  | H : String.eqb _ _ = false |- _ => apply String.eqb_neq in H
  end.

(** Whether an optional column is NULL. *)
Definition is_nil {A} (o : option A) : bool := match o with None => true | Some _ => false end.
