(* ===== verification/Errors.v ===== *)
(** * Errors

    Go error values: the sentinel variables of [internal/service] and
    [internal/store/postgres], the wrappers [fmt.Errorf("...: %w", err)] and
    [errors.Join], the typed [RateLimitError] and the driver's
    [pgconn.PgError]; [errors.Is] walks the chain as the standard library
    does. *)
From S2P Require Export Prelude.

(** Identity of a package-level [var Err... = errors.New(...)]. *)
Inductive sentinel :=
(* database/sql and context *)
| ErrNoRows | Canceled | DeadlineExceeded
(* internal/store/postgres/adapter.go *)
| ErrNotFound | ErrConflict | ErrInvalidData | ErrDatabase | ErrNilDatabase
(* internal/service *)
| ErrOptimisticLockConflict | ErrRecordNotFound
| ErrInvalidRateLimitConfig | ErrInvalidRateLimitKey | ErrRateLimitCapacity
| ErrRateLimited | ErrUnknownRateLimitAction
| ErrNilSessionRepository | ErrInvalidSessionUserID | ErrInvalidSessionLifetime
| ErrInvalidSessionID | ErrSessionNotFound | ErrInvalidSession | ErrSessionExpired
| ErrSessionRevoked | ErrSessionIDGeneration
| ErrInvalidEmail | ErrInvalidUsername
| ErrInvalidPassword | ErrPasswordTooShort | ErrPasswordTooLong
| ErrInvalidPasswordHashConfig | ErrInvalidPasswordHash
| ErrInvalidCredentials | ErrEmailUnconfirmed
| ErrUserNotFound | ErrDuplicateEmail | ErrDuplicateUsername | ErrInvalidSignupInput
| ErrInvalidDisplayName | ErrInvalidCreatedUser | ErrInvalidUserID
| ErrInvalidConfirmationConfig | ErrInvalidConfirmationUser | ErrInvalidConfirmationToken
| ErrEmailConfirmationTokenNotFound | ErrConfirmationTokenGeneration
| ErrInvalidPasswordResetConfig | ErrInvalidPasswordResetToken
| ErrPasswordResetTokenNotFound | ErrPasswordResetTokenGeneration
| ErrInvalidGroup | ErrInvalidGroupName | ErrGroupNotFound | ErrNotGroupMember
| ErrNotGroupAdmin | ErrGroupInviteNotFound | ErrLastGroupAdmin | ErrMembershipNotFound
| ErrMembershipExists | ErrGroupInviteTaken | ErrGroupInviteGeneration
| ErrInvalidGuestCreation | ErrInvalidCreatedGuest | ErrGuestUsernameGeneration
| ErrGuestClaimCodeNotFound | ErrNotGuest | ErrInvalidGuestClaimCode
| ErrGuestClaimCodeGeneration
| ErrInvalidGuestUpgrade | ErrGuestUpgradeRequiresGuest | ErrInvalidUpgradedUser
| ErrInvalidTheme | ErrInvalidSettings | ErrUsernameUnavailable | ErrInvalidLocale
| ErrCurrentPasswordRequired | ErrCurrentPasswordMismatch | ErrRecentSignInRequired
| ErrInvalidAdminQuery | ErrAdminSelfAction | ErrLastAdministrator
| ErrInvalidAuditEntry
| ErrOAuthProviderUnavailable | ErrOAuthStateInvalid | ErrOAuthAuthenticationFailed
| ErrOAuthEmailConflict | ErrOAuthIdentityNotFound | ErrOAuthIdentityConflict
| ErrOAuthLastSignInMethod
| ErrInvalidConfirmationAccount | ErrNilRateLimitAdmin
| ErrInvalidOAuthState | ErrInvalidProvider | ErrUnknownProvider
| ErrNilSSOAdmin | ErrNilSSOLoginSessionRepository | ErrInvalidSSOChallenge
| ErrSSOChallengeExpired | ErrSSOUnavailable
| ErrNilSSORelyingParty | ErrSSOSignInFailed | ErrSSOLogoutTokenInvalid
| ErrSSOGuestIdentityTaken
| ErrInvalidRetentionConfig
| ErrInvalidMaintenanceConfig | ErrInvalidMaintenanceJob | ErrUnknownMaintenanceJob
| ErrInvalidUsageConfig | ErrInvalidUsageEvent | ErrUsageQueueFull
(* internal/adapter/http *)
| ErrUnauthenticated | ErrSessionAuthentication
| ErrInvalidSessionCookieConfig | ErrInvalidSessionCookieValue.

#[export] Instance sentinel_eq_dec : EqDecision sentinel.
Proof. solve_decision. Defined.

Inductive error :=
| Sentinel (s : sentinel)
| Errorf (prefix : string) (e : error)          (** [fmt.Errorf(prefix + ": %w", e)] *)
| Join (e1 e2 : error)                          (** [errors.Join(e1, e2)] *)
| RateLimitError (retry_after : Z)              (** [service.RateLimitError] *)
| PgError (code constraint : string)            (** [pgconn.PgError] *)
| Opaque (message : string).                    (** [errors.New] with no variable *)
Coercion Sentinel : sentinel >-> error.

(** [errors.Is(err, target)]; [RateLimitError.Unwrap] gives [ErrRateLimited]. *)
Fixpoint errors_Is (e : error) (target : sentinel) : bool :=
  match e with
  | Sentinel s => bool_decide (s = target)
  | Errorf _ e => errors_Is e target
  | Join e1 e2 => errors_Is e1 target || errors_Is e2 target
  | RateLimitError _ => bool_decide (ErrRateLimited = target)
  | PgError _ _ => false
  | Opaque _ => false
  end.

(** [errors.Join(failures...)]: nil when there is none. *)
Fixpoint errors_Join (es : list error) : option error :=
  match es with
  | [] => None
  | e :: es => Some (match errors_Join es with Some e' => Join e e' | None => e end)
  end.

(** [errors.As(err, &pgErr)]. *)
Fixpoint errors_As_Pg (e : error) : option (string * string) :=
  match e with
  | PgError code constraint => Some (code, constraint)
  | Errorf _ e => errors_As_Pg e
  | Join e1 e2 => match errors_As_Pg e1 with Some r => Some r | None => errors_As_Pg e2 end
  | _ => None
  end.

(** [ClassifyError] of adapter.go: driver errors become safe adapter errors. *)
Definition ClassifyError (e : error) : error :=
  if errors_Is e Canceled then Canceled
  else if errors_Is e DeadlineExceeded then DeadlineExceeded
  else if errors_Is e ErrNoRows then ErrNotFound
  else if errors_Is e ErrNotFound then ErrNotFound
  else if errors_Is e ErrConflict then ErrConflict
  else if errors_Is e ErrInvalidData then ErrInvalidData
  else if errors_Is e ErrDatabase then ErrDatabase
  else match errors_As_Pg e with
       | Some (code, _) =>
         if String.eqb code "23505" then ErrConflict
         else if existsb (String.eqb code) ["23502"; "23503"; "23514"; "22001"; "22003"; "22P02"]
         then ErrInvalidData
         else ErrDatabase
       | None => ErrDatabase
       end.

(** [wrapOperation] of adapter.go. *)
Definition wrapOperation (operation : string) (e : error) : error :=
  Errorf operation (ClassifyError e).

(** ** Lemmas on error chains *)

Lemma errors_Is_Sentinel_refl s : errors_Is (Sentinel s) s = true.
Proof. simpl. by rewrite bool_decide_true. Qed.

Lemma errors_Is_Errorf p e t : errors_Is (Errorf p e) t = errors_Is e t.
Proof. done. Qed.

(** [ClassifyError] returns one of the adapter's own sentinels, whatever the
    driver reported, so no driver detail reaches a caller. *)
Lemma ClassifyError_cases e :
  ∃ s, ClassifyError e = Sentinel s ∧
       s ∈ [Canceled; DeadlineExceeded; ErrNotFound; ErrConflict; ErrInvalidData; ErrDatabase].
Proof.
  unfold ClassifyError.
  repeat case_match; (eexists; split; [reflexivity | set_solver]).
Qed.

Lemma ClassifyError_idemp e : ClassifyError (ClassifyError e) = ClassifyError e.
Proof.
  destruct (ClassifyError_cases e) as (s & -> & Hs).
  repeat (apply elem_of_cons in Hs as [->|Hs]; [reflexivity|]). by apply not_elem_of_nil in Hs.
Qed.
