(* ===== verification/Monad.v ===== *)
(** * Results and state passing

    A Go function that returns [(value, error)] and reads or changes shared
    state is a function [S → S * outcome A].  The notations live in
    [go_scope]. *)
From S2P Require Export Errors.


(** The result of a Go call returning [(value, error)]; the value is only
    meaningful when the error is nil. *)
Inductive outcome (A : Type) : Type :=
| Ok (a : A)
| Err (e : error).
Arguments Ok {A} a.
Arguments Err {A} e.

Definition is_ok {A} (r : outcome A) : bool :=
  match r with Ok _ => true | Err _ => false end.

(** ** State passing with errors

    [ST S A] is a Go function that reads and changes the state [S] and
    returns a value or an error.  An error keeps the state changes made before
    it, as in Go. *)
Definition ST (S A : Type) : Type := S → S * outcome A.

Section monad.
Context {S : Type}.
Implicit Types (A B : Type).

Definition ret {A} (a : A) : ST S A := λ s, (s, Ok a).
Definition throw {A} (e : error) : ST S A := λ s, (s, Err e).
Definition bind {A B} (m : ST S A) (f : A → ST S B) : ST S B := λ s,
  match m s with
  | (s', Ok a) => f a s'
  | (s', Err e) => (s', Err e)
  end.
(** [r, err := m]: the caller inspects the error itself. *)
Definition attempt {A} (m : ST S A) : ST S (outcome A) := λ s,
  match m s with (s', r) => (s', Ok r) end.
(** [return err] for a result that was already inspected. *)
Definition lift {A} (r : outcome A) : ST S A := λ s, (s, r).
(** [if cond { return err }]. *)
Definition guard (refuse : bool) (e : error) : ST S unit :=
  if refuse then throw e else ret tt.
(** [if err := m; err != nil { return f(err) }]. *)
Definition map_err {A} (f : error → error) (m : ST S A) : ST S A := λ s,
  match m s with
  | (s', Ok a) => (s', Ok a)
  | (s', Err e) => (s', Err (f e))
  end.
(** [_ = m]: the error is dropped. *)
Definition ignore {A} (m : ST S A) : ST S unit := λ s, (fst (m s), Ok tt).
Definition gets {A} (f : S → A) : ST S A := λ s, (s, Ok (f s)).
Definition modify (f : S → S) : ST S unit := λ s, (f s, Ok tt).
(** [for _, x := range xs { if err := f(x); err != nil { return err } }]. *)
Fixpoint for_each {A} (xs : list A) (f : A → ST S unit) : ST S unit :=
  match xs with
  | [] => ret tt
  | x :: xs => bind (f x) (λ _, for_each xs f)
  end.
End monad.

Notation "'let!' x ':=' m 'in' k" := (bind m (λ x, k))
  (at level 10, x pattern, m at level 200, k at level 200) : go_scope.
Notation "m ';;;' k" := (bind m (λ _, k))
  (at level 199, right associativity) : go_scope.

(** ** Relations kept by a program

    [preserves R m] says that running [m] from any state relates the state
    before to the state after, whether [m] returns or fails.  For a preorder
    [R] it composes, so a fact proved of every atomic operation extends to
    every program built from them. *)
Section preserves.
Context {S : Type} (R : relation S) `{!PreOrder R}.

Definition preserves {A} (m : ST S A) : Prop := ∀ s, R s (fst (m s)).

Lemma preserves_ret {A} (a : A) : preserves (ret a).
Proof. intros s. reflexivity. Qed.
Lemma preserves_throw {A} (e : error) : preserves (A := A) (throw e).
Proof. intros s. reflexivity. Qed.
Lemma preserves_lift {A} (r : outcome A) : preserves (lift r).
Proof. intros s. reflexivity. Qed.
Lemma preserves_gets {A} (f : S → A) : preserves (gets f).
Proof. intros s. reflexivity. Qed.
Lemma preserves_guard b (e : error) : preserves (guard b e).
Proof. destruct b; [apply preserves_throw | apply preserves_ret]. Qed.
Lemma preserves_bind {A B} (m : ST S A) (f : A → ST S B) :
  preserves m → (∀ a, preserves (f a)) → preserves (bind m f).
Proof.
  intros Hm Hf s. unfold bind. specialize (Hm s).
  destruct (m s) as [s' [a|e]]; simpl in *; [|done].
  etransitivity; [exact Hm | apply Hf].
Qed.
(** The continuation only runs on values [m] returns. *)
Lemma preserves_bind_ok {A B} (m : ST S A) (f : A → ST S B) :
  preserves m → (∀ a s s', m s = (s', Ok a) → preserves (f a)) → preserves (bind m f).
Proof.
  intros Hm Hf s. unfold bind. specialize (Hm s).
  destruct (m s) as [s' [a|e]] eqn:E; simpl in *; [|done].
  etransitivity; [exact Hm | by eapply Hf].
Qed.
Lemma preserves_attempt {A} (m : ST S A) : preserves m → preserves (attempt m).
Proof. intros Hm s. specialize (Hm s). unfold attempt. by destruct (m s). Qed.
Lemma preserves_map_err {A} f (m : ST S A) : preserves m → preserves (map_err f m).
Proof. intros Hm s. specialize (Hm s). unfold map_err. by destruct (m s) as [? []]. Qed.
Lemma preserves_ignore {A} (m : ST S A) : preserves m → preserves (ignore m).
Proof. intros Hm s. apply Hm. Qed.
Lemma preserves_for_each {A} (xs : list A) f :
  (∀ x, preserves (f x)) → preserves (for_each xs f).
Proof.
  intros Hf. induction xs; simpl; [apply preserves_ret|].
  apply preserves_bind; auto.
Qed.
End preserves.
Arguments preserves {S} R {A} m.

Create HintDb go_preserves discriminated.
#[export] Hint Resolve preserves_ret preserves_throw preserves_lift preserves_gets
  preserves_guard preserves_for_each preserves_attempt preserves_map_err
  preserves_ignore : go_preserves.

#[export] Hint Extern 1 (PreOrder _) => typeclasses eauto : go_preserves.

(** One step of the syntax-directed proof that a program preserves [R]. *)
Ltac preserves_step :=
  match goal with
  | |- preserves _ (bind _ _) => apply preserves_bind; [ typeclasses eauto | | intro ]
  | |- preserves _ (match ?x with _ => _ end) => destruct x
  | |- preserves _ _ => solve [eauto with go_preserves]
  | |- preserves _ (attempt _) => apply preserves_attempt
  | |- preserves _ (map_err _ _) => apply preserves_map_err
  | |- preserves _ (ignore _) => apply preserves_ignore
  | |- preserves _ (for_each _ _) => apply preserves_for_each; [ typeclasses eauto | intro ]
  | |- PreOrder _ => typeclasses eauto
  end.
Ltac preserves_tac := repeat preserves_step.

(** ** Inverting a successful run *)
Section inversion.
Context {S : Type}.

Lemma bind_ok {A B} (m : ST S A) (f : A → ST S B) s s' b :
  bind m f s = (s', Ok b) → ∃ s1 a, m s = (s1, Ok a) ∧ f a s1 = (s', Ok b).
Proof. unfold bind. destruct (m s) as [s1 [a|e]]; naive_solver. Qed.
Lemma bind_of_ok {A B} (m : ST S A) (f : A → ST S B) s s1 a :
  m s = (s1, Ok a) → bind m f s = f a s1.
Proof. unfold bind. by intros ->. Qed.
Lemma bind_of_err {A B} (m : ST S A) (f : A → ST S B) s s1 e :
  m s = (s1, Err e) → bind m f s = (s1, Err e).
Proof. unfold bind. by intros ->. Qed.
Lemma map_err_ok {A} f (m : ST S A) s s' a :
  map_err f m s = (s', Ok a) → m s = (s', Ok a).
Proof. unfold map_err. destruct (m s) as [? []]; naive_solver. Qed.
Lemma attempt_ok {A} (m : ST S A) s s' r :
  attempt m s = (s', Ok r) → m s = (s', r).
Proof. unfold attempt. destruct (m s). naive_solver. Qed.
Lemma guard_ok b (e : error) (s s' : S) u : guard b e s = (s', Ok u) → b = false ∧ s' = s.
Proof. destruct b; simpl; [intros [=] | by intros [= <- _]]. Qed.
Lemma ret_ok {A} (a b : A) (s s' : S) : ret a s = (s', Ok b) → a = b ∧ s = s'.
Proof. by intros [= <- <-]. Qed.
Lemma throw_ok {A} (e : error) (b : A) (s s' : S) : throw e s = (s', Ok b) → False.
Proof. intros [=]. Qed.
End inversion.

(** [inv_ok]: take every hypothesis [prog s = (s', Ok v)] apart into the run of
    its parts, dropping the branches that return an error. *)
Ltac inv_ok_step :=
  match goal with
  | H : bind _ _ _ = (_, Ok _) |- _ => apply bind_ok in H as (? & ? & ? & H)
  | H : map_err _ _ _ = (_, Ok _) |- _ => apply map_err_ok in H
  | H : attempt _ _ = (_, Ok _) |- _ => apply attempt_ok in H
  | H : guard _ _ _ = (_, Ok _) |- _ => apply guard_ok in H as [? ->]
  | H : ret _ _ = (_, Ok _) |- _ => apply ret_ok in H as [? ?]
  | H : lift _ _ = (_, Ok _) |- _ => unfold lift in H
  | H : throw _ _ = (_, Ok _) |- _ => destruct (throw_ok _ _ _ _ H)
  | H : (_, _) = (_, _) |- _ => injection H as ? ?
  | H : Ok _ = Ok _ |- _ => injection H as ?
  | H : Err _ = Ok _ |- _ => discriminate H
  | H : Ok _ = Err _ |- _ => discriminate H
  end; subst.
Ltac inv_ok := repeat inv_ok_step; simpl in *.

(** Case analysis on the innermost scrutinee of a hypothesis. *)
Ltac case_in H :=
  match type of H with
  | context [match ?x with _ => _ end] =>
    lazymatch x with
    | context [match _ with _ => _ end] => fail
    | _ => let E := fresh "E" in destruct x eqn:E; simpl in H; try discriminate H
    end
  end.

