(* ===== verification/Text.v ===== *)
(** * Text

    Go strings are byte strings.  This file gives the part of the standard
    library that the program's identity rules use: decoding to runes as
    [range], [utf8.RuneCountInString] and [utf8.ValidString] do, trimming,
    case mapping and substring tests.  The Unicode case tables outside ASCII
    are data of the Go standard library and stay a parameter ([Unicode]). *)
From S2P Require Export Monad.


Definition runeError : Z := 65533.  (* U+FFFD *)

Definition byte_of (c : ascii) : Z := Z.of_nat (nat_of_ascii c).
Definition char_of (b : Z) : ascii := ascii_of_nat (Z.to_nat b).
Definition in_range (lo hi x : Z) : bool := (lo <=? x) && (x <=? hi).

(** Width of the sequence a first byte announces and the range its second byte
    must fall in; [None] for a byte that starts no sequence. *)
Definition first_byte (b : Z) : option (Z * Z * Z) :=
  if in_range 194 223 b then Some (2, 128, 191)
  else if b =? 224 then Some (3, 160, 191)
  else if b =? 237 then Some (3, 128, 159)
  else if in_range 225 239 b then Some (3, 128, 191)
  else if b =? 240 then Some (4, 144, 191)
  else if b =? 244 then Some (4, 128, 143)
  else if in_range 241 243 b then Some (4, 128, 191)
  else None.

(** [utf8.DecodeRuneInString] at the front of a string: the rune, the bytes it
    was decoded from, and what follows.  An invalid byte decodes to U+FFFD with
    width one. *)
Definition next_segment (s : string) : option (Z * string * string) :=
  match s with
  | EmptyString => None
  | String c0 s1 =>
    let b0 := byte_of c0 in
    let bad := Some (runeError, String c0 "", s1) in
    if b0 <? 128 then Some (b0, String c0 "", s1)
    else match first_byte b0, s1 with
    | Some (width, lo, hi), String c1 s2 =>
      let b1 := byte_of c1 in
      if negb (in_range lo hi b1) then bad
      else if width =? 2 then
        Some (Z.land b0 31 * 64 + Z.land b1 63, String c0 (String c1 ""), s2)
      else match s2 with
      | String c2 s3 =>
        let b2 := byte_of c2 in
        if negb (in_range 128 191 b2) then bad
        else if width =? 3 then
          Some (Z.land b0 15 * 4096 + Z.land b1 63 * 64 + Z.land b2 63,
                String c0 (String c1 (String c2 "")), s3)
        else match s3 with
        | String c3 s4 =>
          let b3 := byte_of c3 in
          if negb (in_range 128 191 b3) then bad
          else Some (Z.land b0 7 * 262144 + Z.land b1 63 * 4096 + Z.land b2 63 * 64 + Z.land b3 63,
                     String c0 (String c1 (String c2 (String c3 ""))), s4)
        | EmptyString => bad
        end
      | EmptyString => bad
      end
    | _, _ => bad
    end
  end.

(** All runes of a string with their bytes; every step consumes at least one
    byte, so the length is enough fuel ([segments_next]). *)
Fixpoint segments_fuel (fuel : nat) (s : string) : list (Z * string) :=
  match fuel with
  | O => []
  | S fuel => match next_segment s with
              | None => []
              | Some (g, rest) => g :: segments_fuel fuel rest
              end
  end.
Definition segments (s : string) : list (Z * string) := segments_fuel (String.length s) s.

(** [[]rune(s)], and what [range s] yields. *)
Definition runes (s : string) : list Z := fst <$> segments s.
(** [utf8.RuneCountInString]. *)
Definition RuneCountInString (s : string) : Z := Z.of_nat (length (segments s)).
(** A segment that is a decoding error. *)
Definition invalid_segment (g : Z * string) : bool :=
  (g.1 =? runeError) && (String.length (g.2) =? 1)%nat.
(** [utf8.ValidString]. *)
Definition ValidString (s : string) : bool := forallb (λ g, negb (invalid_segment g)) (segments s).

Definition join_segments (gs : list (Z * string)) : string :=
  fold_right (λ g acc, g.2 +:+ acc) "" gs.

(** [string(rune)]: UTF-8 encoding; a surrogate or out-of-range value encodes
    as U+FFFD. *)
Definition encode_rune (r : Z) : string :=
  let c b := char_of b in
  if in_range 0 127 r then String (c r) ""
  else if in_range 128 2047 r then
    String (c (192 + r / 64)) (String (c (128 + r mod 64)) "")
  else if in_range 55296 57343 r || (r <? 0) || (1114111 <? r) then
    String (c 239) (String (c 191) (String (c 189) ""))
  else if r <? 65536 then
    String (c (224 + r / 4096)) (String (c (128 + r / 64 mod 64)) (String (c (128 + r mod 64)) ""))
  else
    String (c (240 + r / 262144)) (String (c (128 + r / 4096 mod 64))
      (String (c (128 + r / 64 mod 64)) (String (c (128 + r mod 64)) ""))).

Definition encode_runes (rs : list Z) : string :=
  fold_right (λ r acc, encode_rune r +:+ acc) "" rs.

(** [unicode.IsSpace]. *)
Definition IsSpace (r : Z) : bool :=
  existsb (Z.eqb r) [9; 10; 11; 12; 13; 32; 133; 160; 5760; 8232; 8233; 8239; 8287; 12288]
  || in_range 8192 8202 r.

Fixpoint drop_space (gs : list (Z * string)) : list (Z * string) :=
  match gs with
  | g :: gs' => if IsSpace g.1 then drop_space gs' else gs
  | [] => []
  end.

(** [strings.TrimSpace]. *)
Definition TrimSpace (s : string) : string :=
  join_segments (rev (drop_space (rev (drop_space (segments s))))).

(** Simple case mapping outside ASCII: the tables of package [unicode]. *)
Class Unicode := {
  unicode_ToLower : Z → Z;
  unicode_ToUpper : Z → Z;
}.

Section case_mapping.
Context `{Unicode}.

Definition rune_ToLower (r : Z) : Z :=
  if in_range 65 90 r then r + 32 else if r <? 128 then r else unicode_ToLower r.
Definition rune_ToUpper (r : Z) : Z :=
  if in_range 97 122 r then r - 32 else if r <? 128 then r else unicode_ToUpper r.

(** [strings.ToLower], [strings.ToUpper]: [strings.Map] over the runes,
    which re-encodes an invalid byte as U+FFFD. *)
Definition ToLower (s : string) : string := encode_runes (rune_ToLower <$> runes s).
Definition ToUpper (s : string) : string := encode_runes (rune_ToUpper <$> runes s).
End case_mapping.

(** [strings.Contains(s, "c")], [strings.ContainsAny] for ASCII characters. *)
Fixpoint contains_char (c : ascii) (s : string) : bool :=
  match s with
  | EmptyString => false
  | String d s' => Ascii.eqb c d || contains_char c s'
  end.
Fixpoint ContainsAny (s : string) (chars : list ascii) : bool :=
  match chars with
  | [] => false
  | c :: cs => contains_char c s || ContainsAny s cs
  end.

(** [len(s)]. *)
Definition len (s : string) : Z := Z.of_nat (String.length s).

(** [strings.Repeat(s, n)]. *)
Fixpoint Repeat (s : string) (n : nat) : string :=
  match n with O => "" | S n => s +:+ Repeat s n end.

(** [hex.EncodeToString] and whether [hex.DecodeString] succeeds. *)
Definition hex_digit (n : Z) : ascii := char_of (if n <? 10 then 48 + n else 87 + n).
Fixpoint hex_encode (s : string) : string :=
  match s with
  | EmptyString => ""
  | String c s => String (hex_digit (byte_of c / 16)) (String (hex_digit (byte_of c mod 16)) (hex_encode s))
  end.
Definition is_hex_digit (c : ascii) : bool :=
  let b := byte_of c in in_range 48 57 b || in_range 97 102 b || in_range 65 70 b.
Fixpoint all_chars (P : ascii → bool) (s : string) : bool :=
  match s with EmptyString => true | String c s => P c && all_chars P s end.
Definition hex_decodes (s : string) : bool :=
  (String.length s mod 2 =? 0)%nat && all_chars is_hex_digit s.

(** [strconv.FormatInt(n, 10)]. *)
Definition FormatInt (n : Z) : string := pretty n.

(** ** Byte strings *)

Lemma str_app_nil_l t : "" +:+ t = t.
Proof. done. Qed.
Lemma str_app_cons c s t : String c s +:+ t = String c (s +:+ t).
Proof. done. Qed.
Lemma str_app_nil_r s : s +:+ "" = s.
Proof. induction s; [done|]. by rewrite str_app_cons, IHs. Qed.
Lemma str_app_assoc s t u : (s +:+ t) +:+ u = s +:+ (t +:+ u).
Proof. induction s; [done|]. by rewrite !str_app_cons, IHs. Qed.
Lemma str_length_app s t : String.length (s +:+ t) = (String.length s + String.length t)%nat.
Proof. induction s; [done|]. rewrite str_app_cons. simpl. by rewrite IHs. Qed.

Lemma contains_char_app c s t : contains_char c (s +:+ t) = contains_char c s || contains_char c t.
Proof.
  induction s as [|d s IH]; [done|]. rewrite str_app_cons. simpl. rewrite IH. by rewrite orb_assoc.
Qed.

Ltac str_simpl := repeat rewrite ?str_app_cons, ?str_app_nil_l, ?str_app_nil_r in *; simplify_eq.

(** ** Decoding *)

Lemma next_segment_app s g rest : next_segment s = Some (g, rest) → s = g.2 +:+ rest.
Proof.
  destruct s as [|c0 [|c1 [|c2 [|c3 s]]]]; [done|..];
    cbn [next_segment]; intros H; repeat case_match; simplify_eq; done.
Qed.

Lemma next_segment_None s : next_segment s = None → s = "".
Proof.
  destruct s as [|c0 [|c1 [|c2 [|c3 s]]]]; [done|..];
    cbn [next_segment]; intros H; repeat case_match; simplify_eq; done.
Qed.

Lemma next_segment_shorter s g rest :
  next_segment s = Some (g, rest) → (String.length rest < String.length s)%nat.
Proof.
  destruct s as [|c0 [|c1 [|c2 [|c3 s]]]]; [done|..];
    cbn [next_segment]; intros H; repeat case_match; simplify_eq; simpl; lia.
Qed.

(** Cutting a string at a later segment boundary leaves the segments before it
    as they were. *)
Lemma next_segment_cut s g rest rest' t :
  next_segment s = Some (g, rest) → rest = rest' +:+ t →
  next_segment (g.2 +:+ rest') = Some (g, rest').
Proof.
  destruct s as [|c0 [|c1 [|c2 [|c3 s]]]]; [done|..];
    cbn [next_segment]; intros H Hr; repeat case_match; simplify_eq; simpl in *;
    destruct rest' as [|d1 [|d2 [|d3 rest']]]; str_simpl; simpl;
    repeat first [done | congruence | case_match; simplify_eq; simpl in *].
Qed.

Lemma segments_fuel_irrel n m s :
  (String.length s ≤ n)%nat → (String.length s ≤ m)%nat →
  segments_fuel n s = segments_fuel m s.
Proof.
  revert m s. induction n as [|n IH]; intros [|m] s Hn Hm; simpl; try done.
  - destruct s; [done | simpl in Hn; lia].
  - destruct s; [done | simpl in Hm; lia].
  - destruct (next_segment s) as [[g rest]|] eqn:E; [|done].
    pose proof (next_segment_shorter _ _ _ E). f_equal. apply IH; lia.
Qed.

(** The fuel of [segments] is enough: it satisfies the decoding equation. *)
Lemma segments_next s :
  segments s = match next_segment s with
               | None => []
               | Some (g, rest) => g :: segments rest
               end.
Proof.
  unfold segments. destruct s as [|c s]; [done|].
  change (String.length (String c s)) with (S (String.length s)).
  cbn [segments_fuel]. destruct (next_segment (String c s)) as [[g rest]|] eqn:E; [|done].
  f_equal. pose proof (next_segment_shorter _ _ _ E). simpl in *.
  apply segments_fuel_irrel; lia.
Qed.

(** Induction along the decoding of a string. *)
Lemma segments_ind (P : string → Prop) :
  P "" → (∀ s g rest, next_segment s = Some (g, rest) → P rest → P s) → ∀ s, P s.
Proof.
  intros H0 HS. enough (∀ n s, (String.length s ≤ n)%nat → P s) by eauto.
  induction n as [|n IH]; intros s Hs.
  - destruct s; [done | simpl in Hs; lia].
  - destruct (next_segment s) as [[g rest]|] eqn:E.
    + eapply HS; [done|]. apply IH. apply next_segment_shorter in E. lia.
    + apply next_segment_None in E. by subst.
Qed.

(** Decoding loses no byte. *)
Lemma join_segments_id s : join_segments (segments s) = s.
Proof.
  induction s as [|s g rest E IH] using segments_ind; [done|].
  rewrite segments_next, E. simpl. rewrite IH. symmetry. by apply next_segment_app.
Qed.

Lemma join_segments_app gs hs :
  join_segments (gs ++ hs) = join_segments gs +:+ join_segments hs.
Proof. induction gs; simpl; [done|]. by rewrite IHgs, str_app_assoc. Qed.

(** A sublist of consecutive segments decodes to itself again. *)
Lemma segments_prefix gs hs s :
  segments s = gs ++ hs → segments (join_segments gs) = gs.
Proof.
  revert s. induction gs as [|g gs IH]; intros s Hs; [done|].
  rewrite segments_next in Hs.
  destruct (next_segment s) as [[g' rest]|] eqn:E; [|done].
  injection Hs as -> Hrest. simpl.
  assert (rest = join_segments gs +:+ join_segments hs) as Hr.
  { by rewrite <- join_segments_app, <- Hrest, join_segments_id. }
  rewrite segments_next, (next_segment_cut _ _ _ _ _ E Hr). f_equal. by eapply IH.
Qed.

Lemma segments_suffix gs hs s : segments s = gs ++ hs → segments (join_segments hs) = hs.
Proof.
  revert s. induction gs as [|g gs IH]; intros s Hs; simpl in Hs.
  - rewrite <- Hs, join_segments_id. done.
  - rewrite segments_next in Hs. destruct (next_segment s) as [[g' rest]|] eqn:E; [|done].
    injection Hs as _ Hrest. by eapply IH.
Qed.

(** ** Trimming *)

Definition trim_segments (gs : list (Z * string)) : list (Z * string) :=
  rev (drop_space (rev (drop_space gs))).

Lemma drop_space_split gs :
  ∃ pre, gs = pre ++ drop_space gs ∧ Forall (λ g, IsSpace g.1 = true) pre.
Proof.
  induction gs as [|g gs (pre & IH & Hp)]; [by exists []|]. cbn [drop_space].
  destruct (IsSpace g.1) eqn:E.
  - exists (g :: pre). simpl. rewrite <- IH. auto.
  - exists []. auto.
Qed.

Lemma drop_space_head gs g hs : drop_space gs = g :: hs → IsSpace g.1 = false.
Proof. induction gs; simpl; [done|]. case_match; naive_solver. Qed.

Lemma drop_space_id gs :
  (∀ g hs, gs = g :: hs → IsSpace g.1 = false) → drop_space gs = gs.
Proof. destruct gs as [|g gs]; [done|]. intros Hg. simpl. by rewrite (Hg g gs eq_refl). Qed.

Lemma trim_split gs :
  ∃ pre post, gs = pre ++ trim_segments gs ++ post ∧
              Forall (λ g, IsSpace g.1 = true) pre ∧ Forall (λ g, IsSpace g.1 = true) post.
Proof.
  destruct (drop_space_split gs) as (pre & E1 & Hpre).
  destruct (drop_space_split (rev (drop_space gs))) as (post & E2 & Hpost).
  exists pre, (rev post). split; [|split; [done | by apply Forall_rev]].
  unfold trim_segments. rewrite <- rev_app_distr, <- E2, rev_involutive. done.
Qed.

Lemma trim_last_not_space gs hs g : trim_segments gs = hs ++ [g] → IsSpace g.1 = false.
Proof.
  unfold trim_segments. intros E. apply (f_equal (@rev _)) in E.
  rewrite rev_involutive, rev_app_distr in E. simpl in E. by eapply drop_space_head.
Qed.

Lemma trim_head_not_space gs g hs : trim_segments gs = g :: hs → IsSpace g.1 = false.
Proof.
  intros E. destruct (drop_space_split (rev (drop_space gs))) as (post & E2 & _).
  apply (f_equal (@rev _)) in E2. rewrite rev_involutive, rev_app_distr in E2.
  fold (trim_segments gs) in E2. rewrite E in E2. simpl in E2. by eapply drop_space_head.
Qed.

Lemma trim_segments_id gs :
  (∀ g hs, gs = g :: hs → IsSpace g.1 = false) →
  (∀ g hs, gs = hs ++ [g] → IsSpace g.1 = false) → trim_segments gs = gs.
Proof.
  intros Hh Hl. unfold trim_segments. rewrite (drop_space_id gs Hh), drop_space_id.
  - apply rev_involutive.
  - intros g hs E. apply (f_equal (@rev _)) in E. rewrite rev_involutive in E. by eapply Hl.
Qed.

Lemma trim_segments_idemp gs : trim_segments (trim_segments gs) = trim_segments gs.
Proof.
  apply trim_segments_id; intros; [by eapply trim_head_not_space | by eapply trim_last_not_space].
Qed.

Lemma segments_TrimSpace s : segments (TrimSpace s) = trim_segments (segments s).
Proof.
  destruct (trim_split (segments s)) as (pre & post & E & _).
  pose proof (segments_suffix _ _ _ E) as Hs.
  exact (segments_prefix _ _ _ Hs).
Qed.

Lemma first_byte_high b width lo hi : first_byte b = Some (width, lo, hi) → 128 ≤ lo.
Proof. unfold first_byte. intros E. repeat case_match; simplify_eq; lia. Qed.
(** A segment is one ASCII byte, or has none. *)
Lemma segment_bytes s g rest :
  next_segment s = Some (g, rest) →
  (∃ c, g = (byte_of c, String c "") ∧ byte_of c < 128) ∨ all_chars (λ c, 128 <=? byte_of c) g.2 = true.
Proof.
  destruct s as [|c0 s1]; [done|]. cbn [next_segment]. destruct (byte_of c0 <? 128) eqn:E0.
  { intros [= <- <-]. left. exists c0. split; [done|lia]. }
  apply Z.ltb_ge in E0. intros E. right.
  destruct (first_byte (byte_of c0)) as [[[width lo] hi]|] eqn:Ef; [apply first_byte_high in Ef|];
    destruct s1 as [|c1 s2]; [| |injection E as <- <-..]; try (injection E as <- <-); simpl; unfold in_range in *; rewrite ?andb_true_iff; try lia.
  all: repeat case_match; simplify_eq; simpl; bool_props; lia.
Qed.
Lemma all_chars_app f s t : all_chars f (s +:+ t) = all_chars f s && all_chars f t.
Proof. induction s as [|c s IH]; simpl; [done|]. by rewrite IH, andb_assoc. Qed.
Lemma last_segment s hs g : segments s = hs ++ [g] → ∃ p, s = p +:+ g.2 ∧ next_segment g.2 = Some (g, "").
Proof.
  intros E. exists (join_segments hs). pose proof (segments_suffix _ _ _ E) as Hs. simpl in Hs. rewrite str_app_nil_r in Hs. split.
  - rewrite <- (join_segments_id s), E, join_segments_app. simpl. by rewrite str_app_nil_r.
  - rewrite segments_next in Hs. destruct (next_segment g.2) as [[g' rest]|] eqn:En; [|done]. injection Hs as -> Hs.
    apply next_segment_app in En as Ea. assert (rest = "") as ->; [|done]. rewrite <- (join_segments_id rest), Hs. done.
Qed.
Lemma str_last_app p q c d : p +:+ String c "" = q +:+ String d "" → c = d.
Proof.
  revert q. induction p as [|a p IH]; intros [|b q]; simpl; intros E; injection E; [done|by destruct q|by destruct p|]. intros Eq _. by apply (IH q).
Qed.
Lemma str_snoc s : s ≠ "" → ∃ p c, s = p +:+ String c "".
Proof.
  induction s as [|a s IH]; [done|]. intros _. destruct (decide (s = "")) as [->|Hs]; [by exists "", a|].
  destruct (IH Hs) as (p & c & ->). by exists (String a p), c.
Qed.
(** Nothing is trimmed from a string with visible ASCII at both ends. *)
Definition visible (c : ascii) : bool := (byte_of c <? 128) && negb (IsSpace (byte_of c)).
Lemma TrimSpace_id c s p d :
  String c s = p +:+ String d "" → visible c = true → visible d = true → TrimSpace (String c s) = String c s.
Proof.
  unfold visible. intros Es [Hc Hcs]%andb_true_iff [Hd Hds]%andb_true_iff. rewrite negb_true_iff in *.
  unfold TrimSpace. fold (trim_segments (segments (String c s))). rewrite trim_segments_id; [apply join_segments_id| |].
  - intros g hs E. rewrite segments_next in E. cbn [next_segment] in E. rewrite Hc in E. by injection E as <- _.
  - intros g hs E. apply last_segment in E as (q & Eq & Hn). rewrite Es in Eq.
    destruct (str_snoc g.2) as (p' & e & He); [intros He; by rewrite He in Hn|].
    rewrite He, <- str_app_assoc in Eq. apply str_last_app in Eq as <-.
    destruct (segment_bytes _ _ _ Hn) as [(e & -> & _)|Hb].
    + simpl in He. destruct p' as [|x p']; [by injection He as ->|]. injection He as _ He. by destruct p'.
    + rewrite He, all_chars_app in Hb. simpl in Hb. bool_props. lia.
Qed.

(** Text that starts with a visible ASCII character is not blank. *)
Lemma TrimSpace_visible c s :
  (byte_of c <? 128) = true → IsSpace (byte_of c) = false → TrimSpace (String c s) ≠ "".
Proof.
  intros Hb Hs He. pose proof (segments_TrimSpace (String c s)) as Ht. rewrite He in Ht.
  assert (segments (String c s) = (byte_of c, String c "") :: segments s) as Hg.
  { rewrite segments_next. cbn [next_segment]. by rewrite Hb. }
  rewrite Hg in Ht. destruct (trim_split ((byte_of c, String c "") :: segments s)) as (pre & post & E & Hpre & Hpost).
  rewrite <- Ht in E. simpl in E. assert (Forall (λ g, IsSpace g.1 = true) (pre ++ post)) as Hall by by apply Forall_app.
  rewrite <- E in Hall. apply Forall_cons in Hall as [Hall _]. simpl in Hall. congruence.
Qed.

Lemma TrimSpace_idemp s : TrimSpace (TrimSpace s) = TrimSpace s.
Proof.
  unfold TrimSpace at 1. rewrite segments_TrimSpace.
  fold (trim_segments (trim_segments (segments s))). by rewrite trim_segments_idemp.
Qed.

(** ** Encoding *)

(** Unicode scalar values. *)
Definition scalar (r : Z) : Prop := 0 ≤ r < 55296 ∨ 57344 ≤ r ≤ 1114111.

Lemma byte_of_range c : 0 ≤ byte_of c < 256.
Proof. unfold byte_of. pose proof (nat_ascii_bounded c). lia. Qed.

Lemma byte_of_char_of b : 0 ≤ b < 256 → byte_of (char_of b) = b.
Proof. intros. unfold byte_of, char_of. rewrite nat_ascii_embedding by lia. lia. Qed.

(** Hex digits are visible ASCII, and an encoding is twice as long. *)
Lemma hex_digit_visible n : 0 ≤ n < 16 →
  (byte_of (hex_digit n) <? 128) = true ∧ IsSpace (byte_of (hex_digit n)) = false ∧ is_hex_digit (hex_digit n) = true.
Proof.
  intros Hn. assert (Hd : n ∈ [0; 1; 2; 3; 4; 5; 6; 7; 8; 9; 10; 11; 12; 13; 14; 15]).
  { rewrite !elem_of_cons. lia. }
  repeat (apply elem_of_cons in Hd as [->|Hd]; [by vm_compute|]). by apply not_elem_of_nil in Hd.
Qed.
Lemma hex_encode_length s : String.length (hex_encode s) = (2 * String.length s)%nat.
Proof. induction s; simpl; lia. Qed.
Lemma hex_encode_decodes s : hex_decodes (hex_encode s) = true.
Proof.
  unfold hex_decodes. rewrite hex_encode_length, Nat.mul_comm, Nat.Div0.mod_mul. simpl.
  induction s as [|c s IH]; [done|]. simpl. pose proof (byte_of_range c) as Hb.
  destruct (hex_digit_visible (byte_of c / 16)) as (_ & _ & ->);
    [split; [apply Z.div_pos|apply Z.div_lt_upper_bound]; lia|].
  destruct (hex_digit_visible (byte_of c mod 16)) as (_ & _ & ->); [apply Z.mod_pos_bound; lia|]. done.
Qed.
Lemma TrimSpace_hex_encode s : s ≠ "" → TrimSpace (hex_encode s) ≠ "".
Proof.
  destruct s as [|c s]; [done|]. intros _. simpl. pose proof (byte_of_range c) as Hb.
  destruct (hex_digit_visible (byte_of c / 16)) as (Hv & Hs & _);
    [split; [apply Z.div_pos|apply Z.div_lt_upper_bound]; lia|].
  by apply TrimSpace_visible.
Qed.

Lemma land_63 b : Z.land b 63 = b mod 64.
Proof. apply (Z.land_ones b 6). lia. Qed.
Lemma land_31 b : Z.land b 31 = b mod 32.
Proof. apply (Z.land_ones b 5). lia. Qed.
Lemma land_15 b : Z.land b 15 = b mod 16.
Proof. apply (Z.land_ones b 4). lia. Qed.
Lemma land_7 b : Z.land b 7 = b mod 8.
Proof. apply (Z.land_ones b 3). lia. Qed.

Ltac utf8_arith :=
  unfold first_byte, in_range, scalar, runeError in *;
  rewrite ?land_63, ?land_31, ?land_15, ?land_7 in *;
  repeat match goal with c : ascii |- _ =>
    lazymatch goal with H : 0 ≤ byte_of c < 256 |- _ => fail
    | _ => pose proof (byte_of_range c) end end;
  repeat case_match; simplify_eq; bool_props; try lia;
  try (Z.to_euclidean_division_equations; lia).

Lemma next_segment_scalar s g rest : next_segment s = Some (g, rest) → scalar g.1.
Proof.
  destruct s as [|c0 [|c1 [|c2 [|c3 s]]]]; [done|..];
    cbn [next_segment]; intros H;
    repeat match type of H with context [match ?x with _ => _ end] =>
      destruct x eqn:?; try discriminate H end;
    injection H as <- <-; simpl; utf8_arith.
Qed.

Lemma runes_scalar s : Forall scalar (runes s).
Proof.
  unfold runes. induction s as [|s g rest E IH] using segments_ind; [by constructor|].
  rewrite segments_next, E. simpl. constructor; [by eapply next_segment_scalar | done].
Qed.

Ltac euclid := Z.to_euclidean_division_equations; lia.

Lemma next_segment_encode r t :
  scalar r → next_segment (encode_rune r +:+ t) = Some (r, encode_rune r, t).
Proof.
  intros Hr. unfold encode_rune.
  destruct (in_range 0 127 r) eqn:E1; [|destruct (in_range 128 2047 r) eqn:E2;
    [|destruct (in_range 55296 57343 r || (r <? 0) || (1114111 <? r)) eqn:E3;
      [|destruct (r <? 65536) eqn:E4]]];
    unfold in_range, scalar in *; rewrite ?str_app_cons, ?str_app_nil_l; cbn [next_segment];
    try (exfalso; lia);
    rewrite ?byte_of_char_of by euclid; rewrite ?land_63, ?land_31, ?land_15, ?land_7;
    unfold first_byte, in_range;
    repeat match goal with
    | |- context [if ?b then _ else _] => let E := fresh in destruct b eqn:E; try (exfalso; euclid)
    end; repeat f_equal; euclid.
Qed.

Lemma segments_encode rs :
  Forall scalar rs → segments (encode_runes rs) = (λ r, (r, encode_rune r)) <$> rs.
Proof.
  induction 1 as [|r rs Hr Hrs IH]; [done|].
  simpl. rewrite segments_next, next_segment_encode by done. by rewrite IH.
Qed.

Lemma runes_encode rs : Forall scalar rs → runes (encode_runes rs) = rs.
Proof.
  intros Hrs. unfold runes. rewrite segments_encode by done.
  rewrite <- list_fmap_compose. apply list_fmap_id.
Qed.

(** ** Case mapping *)

(** What the program relies on of the Unicode tables: lowering gives a scalar
    value that is lower case already, and neither turns a character into white
    space nor into the sign that marks an email address. *)
Class UnicodeLaws `{Unicode} : Prop := {
  ToLower_scalar r : scalar r → scalar (unicode_ToLower r);
  ToLower_idemp r : 128 ≤ r → rune_ToLower (unicode_ToLower r) = unicode_ToLower r;
  ToLower_space r : 128 ≤ r → IsSpace r = false → IsSpace (unicode_ToLower r) = false;
  ToLower_at r : 128 ≤ r → unicode_ToLower r ≠ 64;
}.

Section lower.
Context `{UnicodeLaws}.

Ltac lower_cases := unfold rune_ToLower; repeat case_match; unfold in_range in *; bool_props.

Lemma rune_ToLower_scalar r : scalar r → scalar (rune_ToLower r).
Proof.
  intros Hr. lower_cases; [unfold scalar; lia | done | by apply ToLower_scalar].
Qed.
Lemma rune_ToLower_idemp r : rune_ToLower (rune_ToLower r) = rune_ToLower r.
Proof.
  unfold rune_ToLower at 2 3. destruct (in_range 65 90 r) eqn:E1;
    [|destruct (r <? 128) eqn:E2; [|apply ToLower_idemp; lia]];
    lower_cases; lia.
Qed.
Lemma rune_ToLower_space r : IsSpace r = false → IsSpace (rune_ToLower r) = false.
Proof.
  intros Hr. unfold rune_ToLower. destruct (in_range 65 90 r) eqn:E1.
  - unfold IsSpace, in_range in *. simpl. lia.
  - destruct (r <? 128) eqn:E2; [done|]. apply ToLower_space; [lia | done].
Qed.
Lemma rune_ToLower_not_at r : r ≠ 64 → rune_ToLower r ≠ 64.
Proof.
  intros Hr. lower_cases; [lia | done | apply ToLower_at; lia].
Qed.

Lemma runes_ToLower s : runes (ToLower s) = rune_ToLower <$> runes s.
Proof.
  unfold ToLower. apply runes_encode, Forall_fmap.
  eapply Forall_impl; [apply runes_scalar|]. intros r. apply rune_ToLower_scalar.
Qed.

Lemma ToLower_ToLower s : ToLower (ToLower s) = ToLower s.
Proof.
  unfold ToLower at 1. rewrite runes_ToLower. unfold ToLower. f_equal.
  rewrite <- list_fmap_compose. apply list_fmap_ext. intros ? r _.
  apply rune_ToLower_idemp.
Qed.

Lemma RuneCount_ToLower s : RuneCountInString (ToLower s) = RuneCountInString s.
Proof.
  unfold RuneCountInString. f_equal.
  assert (length (runes (ToLower s)) = length (runes s)) as E.
  { by rewrite runes_ToLower, length_fmap. }
  unfold runes in E. by rewrite !length_fmap in E.
Qed.

(** Lowering a trimmed string leaves nothing to trim. *)
Lemma TrimSpace_ToLower s :
  TrimSpace s = s → TrimSpace (ToLower s) = ToLower s.
Proof.
  intros Ht. change (join_segments (trim_segments (segments (ToLower s))) = ToLower s).
  assert (Hseg : segments s = trim_segments (segments s)).
  { by rewrite <- segments_TrimSpace, Ht. }
  assert (E : segments (ToLower s) =
              (λ g, (rune_ToLower g.1, encode_rune (rune_ToLower g.1))) <$> segments s).
  { unfold ToLower. rewrite segments_encode, <- list_fmap_compose.
    - unfold runes. by rewrite <- list_fmap_compose.
    - apply Forall_fmap. eapply Forall_impl; [apply runes_scalar|]. apply rune_ToLower_scalar. }
  rewrite trim_segments_id; [apply join_segments_id|..]; rewrite E; clear E.
  - intros g hs E. destruct (segments s) as [|g0 gs]; [done|]. injection E as <- _.
    simpl. apply rune_ToLower_space. symmetry in Hseg. by eapply trim_head_not_space.
  - intros g hs E. destruct (segments s) as [|g0 gs _] using rev_ind.
    { by apply app_cons_not_nil in E. }
    rewrite fmap_app in E. apply app_inj_tail in E as [_ <-]. simpl.
    apply rune_ToLower_space. symmetry in Hseg. by eapply trim_last_not_space.
Qed.

(** The normal form used for every identity: trimmed and lower case. *)
Lemma normal_form_idemp raw :
  let n := ToLower (TrimSpace raw) in ToLower (TrimSpace n) = n.
Proof.
  simpl. rewrite TrimSpace_ToLower by apply TrimSpace_idemp. apply ToLower_ToLower.
Qed.
End lower.

(** Case tables of the Latin-1 letters, for evaluation on concrete input. *)
Definition latin1_ToLower (r : Z) : Z :=
  if in_range 192 222 r && negb (r =? 215) then r + 32 else r.
Definition latin1_ToUpper (r : Z) : Z :=
  if in_range 224 254 r && negb (r =? 247) then r - 32 else r.
Definition latin1 : Unicode :=
  {| unicode_ToLower := latin1_ToLower; unicode_ToUpper := latin1_ToUpper |}.

Lemma latin1_laws : @UnicodeLaws latin1.
Proof.
  constructor; intros r; cbn [unicode_ToLower latin1]; unfold latin1_ToLower.
  - unfold scalar. case_match; unfold in_range in *; bool_props; lia.
  - unfold rune_ToLower. cbn [unicode_ToLower latin1]. unfold latin1_ToLower, in_range.
    intros. repeat case_match; bool_props; lia.
  - intros Hr. case_match; [|done]. unfold IsSpace, in_range in *. simpl. lia.
  - intros Hr. case_match; unfold in_range in *; bool_props; lia.
Qed.
