(* ===== verification/Netip.v ===== *)
(** * IP addresses: the part of package [net/netip] the limiter keys use

    [ParseAddr], [Unmap], [Prefix(64)] and [String] as the Go standard library
    defines them.  An IPv6 address is its eight 16-bit groups. *)
From S2P Require Export Text.

Inductive Addr :=
| Addr4 (octets : list Z)
| Addr6 (groups : list Z) (zone : string).

Definition digit_value (c : ascii) : option Z :=
  if in_range 48 57 (byte_of c) then Some (byte_of c - 48) else None.
Definition hex_value (c : ascii) : option Z :=
  let b := byte_of c in
  if in_range 48 57 b then Some (b - 48)
  else if in_range 97 102 b then Some (b - 87)
  else if in_range 65 70 b then Some (b - 55)
  else None.

(** [parseIPv4Fields]: [val] and [digLen] describe the octet being read,
    [fields] the octets before it. *)
Fixpoint ipv4_fields (s : string) (val : Z) (digLen : nat) (fields : list Z) : option (list Z) :=
  match s with
  | EmptyString =>
    if (length fields <? 3)%nat then None else Some (fields ++ [val])
  | String c s' =>
    match digit_value c with
    | Some d =>
      if (digLen =? 1)%nat && (val =? 0) then None
      else if 255 <? val * 10 + d then None
      else ipv4_fields s' (val * 10 + d) (S digLen) fields
    | None =>
      if Ascii.eqb c "." then
        if (digLen =? 0)%nat || String.eqb s' "" then None
        else if (length fields =? 3)%nat then None
        else ipv4_fields s' 0 0 (fields ++ [val])
      else None
    end
  end.
Definition parseIPv4Fields (s : string) : option (list Z) := ipv4_fields s 0 0 [].

(** One hexadecimal group: its value, its number of digits and the rest. *)
Fixpoint hex_group (s : string) (off : nat) (acc : Z) : option (Z * nat * string) :=
  match s with
  | EmptyString => Some (acc, off, s)
  | String c s' =>
    match hex_value c with
    | Some d => if (3 <? off)%nat then None else hex_group s' (S off) (acc * 16 + d)
    | None => Some (acc, off, s)
    end
  end.

(** The main loop of [parseIPv6]; at most eight rounds. *)
Fixpoint ipv6_groups (rounds : nat) (gs : list Z) (ellipsis : option nat) (s : string)
    : option (list Z * option nat * string) :=
  match rounds with
  | O => Some (gs, ellipsis, s)
  | S rounds =>
    match hex_group s 0 0 with
    | None | Some (_, O, _) => None
    | Some (acc, _, EmptyString) => Some (gs ++ [acc], ellipsis, "")
    | Some (acc, _, String c rest) =>
      if Ascii.eqb c "." then
        if match ellipsis with None => negb (length gs =? 6)%nat | Some _ => false end then None
        else if (6 <? length gs)%nat then None
        else match parseIPv4Fields s with
             | Some [a; b; c; d] => Some (gs ++ [a * 256 + b; c * 256 + d], ellipsis, "")
             | _ => None
             end
      else if negb (Ascii.eqb c ":") then None
      else match rest with
           | EmptyString => None
           | String c' rest' =>
             if Ascii.eqb c' ":" then
               match ellipsis with
               | Some _ => None
               | None =>
                 if String.eqb rest' "" then Some (gs ++ [acc], Some (length (gs ++ [acc])), "")
                 else ipv6_groups rounds (gs ++ [acc]) (Some (length (gs ++ [acc]))) rest'
               end
             else ipv6_groups rounds (gs ++ [acc]) ellipsis rest
           end
    end
  end.

Fixpoint cut_zone (s : string) : string * option string :=
  match s with
  | EmptyString => ("", None)
  | String c s' =>
    if Ascii.eqb c "%" then ("", Some s')
    else let (l, z) := cut_zone s' in (String c l, z)
  end.

(** "expand ellipsis". *)
Definition expand_ellipsis (gs : list Z) (ellipsis : option nat) : option (list Z) :=
  if (length gs <? 8)%nat then
    match ellipsis with
    | None => None
    | Some at_ => Some (take at_ gs ++ replicate (8 - length gs) 0 ++ drop at_ gs)
    end
  else match ellipsis with Some _ => None | None => Some gs end.

Definition parse_ipv6_body (s : string) : option (list Z) :=
  let '(ellipsis, s) := match s with
    | String c1 (String c2 s') =>
      if Ascii.eqb c1 ":" && Ascii.eqb c2 ":" then (Some O, s') else (None, s)
    | _ => (None, s)
    end in
  if bool_decide (ellipsis = Some O) && String.eqb s "" then Some (replicate 8 0)
  else match ipv6_groups 8 [] ellipsis s with
       | Some (gs, ellipsis, "") => expand_ellipsis gs ellipsis
       | _ => None
       end.

Definition parseIPv6 (s : string) : option Addr :=
  match cut_zone s with
  | (_, Some "") => None
  | (s, zone) =>
    match parse_ipv6_body s with
    | Some gs => Some (Addr6 gs (match zone with Some z => z | None => "" end))
    | None => None
    end
  end.

(** Which parser the first of [.], [:] and [%] selects. *)
Fixpoint first_separator (s : string) : option ascii :=
  match s with
  | EmptyString => None
  | String c s' =>
    if Ascii.eqb c "." || Ascii.eqb c ":" || Ascii.eqb c "%" then Some c else first_separator s'
  end.
Definition ParseAddr (s : string) : option Addr :=
  match first_separator s with
  | Some c =>
    if Ascii.eqb c "." then Addr4 <$> parseIPv4Fields s
    else if Ascii.eqb c ":" then parseIPv6 s
    else None
  | None => None
  end.

Definition Zone (a : Addr) : string := match a with Addr4 _ => "" | Addr6 _ z => z end.
Definition Is4 (a : Addr) : bool := match a with Addr4 _ => true | Addr6 _ _ => false end.

(** [::ffff:a.b.c.d] becomes [a.b.c.d]. *)
Definition Unmap (a : Addr) : Addr :=
  match a with
  | Addr6 [0; 0; 0; 0; 0; 65535; hi; lo] _ => Addr4 [hi / 256; hi mod 256; lo / 256; lo mod 256]
  | _ => a
  end.

(** [Prefix(64)] masks the host half. *)
Definition mask64 (gs : list Z) : list Z := take 4 gs ++ [0; 0; 0; 0].

(** ** Printing *)

(** Lower-case hexadecimal without leading zeros, for 16 bits. *)
Definition append_hex (x : Z) : string :=
  let digit k := String (hex_digit (x / k mod 16)) "" in
  (if 4096 <=? x then digit 4096 else "") +:+ (if 256 <=? x then digit 256 else "")
  +:+ (if 16 <=? x then digit 16 else "") +:+ digit 1.

Fixpoint zero_run (gs : list Z) : nat :=
  match gs with 0 :: gs => S (zero_run gs) | _ => O end.
(** The longest run of at least two zero groups, the first one on ties. *)
Fixpoint longest_run (i : nat) (gs : list Z) (best : nat * nat) : nat * nat :=
  match gs with
  | [] => best
  | _ :: gs' =>
    let l := zero_run gs in
    longest_run (S i) gs' (if (2 <=? l)%nat && (best.2 <? l)%nat then (i, l) else best)
  end.
Fixpoint join_groups (gs : list Z) : string :=
  match gs with
  | [] => ""
  | [g] => append_hex g
  | g :: gs => append_hex g +:+ ":" +:+ join_groups gs
  end.
Definition string_of_groups (gs : list Z) : string :=
  let '(start, l) := longest_run 0 gs (O, O) in
  if (l =? 0)%nat then join_groups gs
  else join_groups (take start gs) +:+ "::" +:+ join_groups (drop (start + l) gs).
Fixpoint join_octets (os : list Z) : string :=
  match os with
  | [] => ""
  | [o] => pretty o
  | o :: os => pretty o +:+ "." +:+ join_octets os
  end.
(** [addr.String] of an IPv4 address; [addr.Prefix(64)] and its [String] for an
    IPv6 address. *)
Definition String4 (octets : list Z) : string := join_octets octets.
Definition Prefix64_String (gs : list Z) : string := string_of_groups (mask64 gs) +:+ "/64".

Example parse_v4 : ParseAddr "192.0.2.7" = Some (Addr4 [192; 0; 2; 7]).
Proof. vm_compute. reflexivity. Qed.
Example parse_v6 : ParseAddr "2001:db8::1" = Some (Addr6 [8193; 3512; 0; 0; 0; 0; 0; 1] "").
Proof. vm_compute. reflexivity. Qed.
Example parse_mapped : Unmap <$> ParseAddr "::ffff:192.0.2.7" = Some (Addr4 [192; 0; 2; 7]).
Proof. vm_compute. reflexivity. Qed.
Example print_v6 : string_of_groups [8193; 3512; 0; 0; 1; 0; 0; 1] = "2001:db8::1:0:0:1".
Proof. vm_compute. reflexivity. Qed.
Example print_prefix : Prefix64_String [8193; 3512; 0; 10; 1; 2; 3; 4] = "2001:db8:0:a::/64".
Proof. vm_compute. reflexivity. Qed.

(** ** Facts *)

Lemma parseIPv4Fields_length s os : parseIPv4Fields s = Some os → length os = 4%nat.
Proof.
  unfold parseIPv4Fields.
  assert (∀ s val dl fields, (length fields ≤ 3)%nat →
    ipv4_fields s val dl fields = Some os → length os = 4%nat) as Hgen; [|by apply Hgen; simpl; lia].
  clear s. intros s. induction s as [|c s IH]; intros val dl fields Hlen; simpl.
  - destruct (length fields <? 3)%nat eqn:E; [done|]. apply Nat.ltb_ge in E.
    intros [= <-]. rewrite length_app. simpl. lia.
  - repeat case_match; try done; [by apply IH|].
    apply IH. apply Nat.eqb_neq in H2. rewrite length_app. simpl. lia.
Qed.
