(* ===== verification/Encoding.v ===== *)
(** * Standard-library encodings the services use

    [strings.Split] on one byte, [strconv.ParseUint(s, 10, 32)] and
    [strconv.ParseInt(s, 10, 64)], [base64.RawStdEncoding], and the links of
    package [net/url] that the mail services build, with their round trips. *)
From S2P Require Export Text.

(** ** strings.Split *)

Fixpoint Split (sep : ascii) (s : string) : list string :=
  match s with
  | EmptyString => [""]
  | String c s' =>
    if Ascii.eqb c sep then "" :: Split sep s'
    else match Split sep s' with
         | p :: ps => String c p :: ps
         | [] => [String c ""]
         end
  end.

Lemma Split_none sep s : contains_char sep s = false → Split sep s = [s].
Proof.
  induction s as [|c s IH]; simpl; [done|]. intros [Hc Hs]%orb_false_iff.
  rewrite Ascii.eqb_sym, Hc, IH by done. done.
Qed.

Lemma Split_app sep s t : contains_char sep s = false → Split sep (s +:+ String sep t) = s :: Split sep t.
Proof.
  induction s as [|c s IH]; simpl.
  - intros _. by rewrite Ascii.eqb_refl.
  - intros [Hc Hs]%orb_false_iff. rewrite Ascii.eqb_sym, Hc, IH by done. done.
Qed.

(** ** strconv.ParseUint(s, 10, 32) *)

Definition max_uint32 : Z := 4294967295.
Fixpoint digits_value (acc : Z) (s : string) : option Z :=
  match s with
  | EmptyString => Some acc
  | String c s =>
    if in_range 48 57 (byte_of c) then
      let acc := acc * 10 + (byte_of c - 48) in
      if max_uint32 <? acc then None else digits_value acc s
    else None
  end.
Definition ParseUint32 (s : string) : option Z :=
  if String.eqb s "" then None else digits_value 0 s.

Lemma in_range_true lo hi x : lo ≤ x ≤ hi → in_range lo hi x = true.
Proof. intros. unfold in_range. apply andb_true_iff. split; apply Z.leb_le; lia. Qed.

Lemma pretty_N_char_byte x : (x < 10)%N → byte_of (pretty_N_char x) = 48 + Z.of_N x.
Proof.
  intros. assert (x = 0 ∨ x = 1 ∨ x = 2 ∨ x = 3 ∨ x = 4 ∨ x = 5 ∨ x = 6 ∨ x = 7 ∨ x = 8 ∨ x = 9)%N by lia.
  by destruct_or!; subst.
Qed.

Lemma digits_value_pretty x s :
  Z.of_N x ≤ max_uint32 → digits_value 0 (pretty_N_go x s) = digits_value (Z.of_N x) s.
Proof.
  revert s. induction (N.lt_wf_0 x) as [x _ IH]. intros s Hx.
  destruct (decide (x = 0)%N) as [->|Hne]; [by rewrite pretty_N_go_0|].
  rewrite pretty_N_go_step by lia. rewrite IH.
  - cbn [digits_value]. rewrite pretty_N_char_byte by (apply N.mod_lt; lia).
    pose proof (N.mod_lt x 10 ltac:(lia)) as Hm. rewrite in_range_true.
    2:{ revert Hm. generalize (x `mod` 10)%N. lia. }
    cbv zeta.
    assert (Z.of_N (x `div` 10) * 10 + (48 + Z.of_N (x mod 10) - 48) = Z.of_N x) as Heq.
    { pose proof (N.div_mod x 10 ltac:(lia)) as Hdm. revert Hdm.
      generalize (x `div` 10)%N, (x mod 10)%N. intros; subst; lia. }
    rewrite Heq. by rewrite (proj2 (Z.ltb_ge _ _)).
  - apply N.div_lt; lia.
  - assert (x `div` 10 ≤ x)%N as Hle by (apply N.Div0.div_le_upper_bound; lia).
    revert Hle. generalize (x `div` 10)%N. lia.
Qed.

Lemma pretty_digits x s : all_chars (λ c, in_range 48 57 (byte_of c)) s = true →
  all_chars (λ c, in_range 48 57 (byte_of c)) (pretty_N_go x s) = true.
Proof.
  revert s. induction (N.lt_wf_0 x) as [x _ IH]. intros s Hs.
  destruct (decide (x = 0)%N) as [->|Hne]; [by rewrite pretty_N_go_0|].
  rewrite pretty_N_go_step by lia. apply IH; [apply N.div_lt; lia|]. cbn [all_chars].
  pose proof (N.mod_lt x 10 ltac:(lia)) as Hm. rewrite pretty_N_char_byte, Hs by done.
  rewrite in_range_true; [done|]. revert Hm. generalize (x `mod` 10)%N. lia.
Qed.

(** A non-negative number prints as its decimal digits. *)
Lemma FormatInt_nonneg x : 0 ≤ x → FormatInt x = pretty (Z.to_N x).
Proof. intros. unfold FormatInt. by destruct x as [|p|p]. Qed.

Lemma ParseUint32_FormatInt x : 0 ≤ x ≤ max_uint32 → ParseUint32 (FormatInt x) = Some x.
Proof.
  intros Hx. rewrite FormatInt_nonneg by lia. unfold ParseUint32, pretty, pretty_N.
  case_decide as Hz; [|].
  - assert (x = 0) as -> by lia. done.
  - assert (∀ n s, pretty_N_go n s ≠ "" ∨ s = "") as Hne.
    { intros n. induction (N.lt_wf_0 n) as [n _ IH]. intros s.
      destruct (decide (n = 0)%N) as [->|]; [rewrite pretty_N_go_0; destruct s; auto|].
      rewrite pretty_N_go_step by lia.
      destruct (IH (n `div` 10)%N ltac:(apply N.div_lt; lia) (String (pretty_N_char (n mod 10)) s)); [by left|done]. }
    rewrite pretty_N_go_step by lia.
    destruct (Hne (Z.to_N x `div` 10)%N (String (pretty_N_char (Z.to_N x mod 10)) "")) as [Hn|]; [|done].
    rewrite (proj2 (String.eqb_neq _ _) Hn). rewrite <- pretty_N_go_step by lia.
    rewrite digits_value_pretty by lia. simpl. f_equal. lia.
Qed.

Lemma FormatInt_no_char c x :
  0 ≤ x → in_range 48 57 (byte_of c) = false → contains_char c (FormatInt x) = false.
Proof.
  intros Hx Hc. rewrite FormatInt_nonneg by done.
  assert (∀ s, all_chars (λ c, in_range 48 57 (byte_of c)) s = true → contains_char c s = false) as Hs.
  { intros s. induction s as [|d s IH]; simpl; [done|]. intros [Hd Hs]%andb_true_iff. rewrite IH by done.
    destruct (Ascii.eqb_spec c d) as [->|]; [congruence | done]. }
  apply Hs. unfold pretty, pretty_N. case_decide; [done|]. by apply pretty_digits.
Qed.

(** ** strconv.ParseInt(s, 10, 64) *)

Fixpoint decimal_value (acc : Z) (s : string) : option Z :=
  match s with
  | EmptyString => Some acc
  | String c s =>
    if in_range 48 57 (byte_of c) then decimal_value (acc * 10 + (byte_of c - 48)) s else None
  end.
(** An optional sign, then digits. *)
Definition ParseInt (s : string) : option Z :=
  let (sign, digits) := match s with
    | String "-" s => (-1, s) | String "+" s => (1, s) | _ => (1, s) end in
  if String.eqb digits "" then None else
  match decimal_value 0 digits with
  | Some v => if in_range min_int64 max_int64 (sign * v) then Some (sign * v) else None
  | None => None
  end.

Lemma decimal_value_pretty x s : decimal_value 0 (pretty_N_go x s) = decimal_value (Z.of_N x) s.
Proof.
  revert s. induction (N.lt_wf_0 x) as [x _ IH]. intros s.
  destruct (decide (x = 0)%N) as [->|Hne]; [by rewrite pretty_N_go_0|].
  rewrite pretty_N_go_step by lia. rewrite IH by (apply N.div_lt; lia). cbn [decimal_value].
  pose proof (N.mod_lt x 10 ltac:(lia)) as Hm. rewrite pretty_N_char_byte, in_range_true.
  - f_equal. pose proof (N.div_mod x 10 ltac:(lia)) as Hdm. revert Hdm.
    generalize (x `div` 10)%N, (x mod 10)%N. intros; subst; lia.
  - revert Hm. generalize (x `mod` 10)%N. lia.
  - done.
Qed.

(** A positive number prints as a digit other than zero and more digits. *)
Lemma FormatInt_head x : 0 < x → ∃ c s, FormatInt x = String c s ∧ in_range 48 57 (byte_of c) = true.
Proof.
  intros Hx. rewrite FormatInt_nonneg by lia. unfold pretty, pretty_N. case_decide; [lia|].
  assert (∀ n s, n ≠ 0%N → ∃ c s', pretty_N_go n s = String c s' ∧ in_range 48 57 (byte_of c) = true) as Hg.
  { intros n. induction (N.lt_wf_0 n) as [n _ IH]. intros s Hn. rewrite pretty_N_go_step by lia.
    destruct (decide (n `div` 10 = 0)%N) as [E|E]; [|apply IH; [apply N.div_lt; lia|done]].
    rewrite E, pretty_N_go_0. eexists _, _. split; [done|].
    pose proof (N.mod_lt n 10 ltac:(lia)) as Hm. rewrite pretty_N_char_byte by done.
    apply in_range_true. revert Hm. generalize (n `mod` 10)%N. lia. }
  by apply Hg.
Qed.

Lemma ParseInt_FormatInt_pos x : 0 < x → ParseInt (FormatInt x) = if in_range min_int64 max_int64 x then Some x else None.
Proof.
  intros Hx. destruct (FormatInt_head x Hx) as (c & s & E & Hc).
  assert (Hv : decimal_value 0 (FormatInt x) = Some x).
  { rewrite FormatInt_nonneg by lia. unfold pretty, pretty_N. case_decide; [lia|].
    rewrite decimal_value_pretty. simpl. f_equal. lia. }
  unfold ParseInt. rewrite E in *.
  assert (Hsplit : match String c s with String "-" s => (-1, s) | String "+" s => (1, s) | _ => (1, String c s) end
                   = (1, String c s)).
  { clear -Hc. destruct c as [[] [] [] [] [] [] [] []]; vm_compute in Hc; try discriminate Hc; reflexivity. }
  rewrite Hsplit. cbn [String.eqb]. by rewrite Hv, Z.mul_1_l.
Qed.
Lemma ParseInt_FormatInt x : 0 < x ≤ max_int64 → ParseInt (FormatInt x) = Some x.
Proof. intros Hx. rewrite ParseInt_FormatInt_pos, in_range_true; [done|unfold min_int64; lia|lia]. Qed.

(** ** base64.RawStdEncoding *)

Definition b64_char (v : Z) : ascii :=
  char_of (if v <? 26 then 65 + v else if v <? 52 then 71 + v else if v <? 62 then v - 4
           else if v =? 62 then 43 else 47).
Definition b64_value (c : ascii) : option Z :=
  let b := byte_of c in
  if in_range 65 90 b then Some (b - 65)
  else if in_range 97 122 b then Some (b - 71)
  else if in_range 48 57 b then Some (b + 4)
  else if b =? 43 then Some 62
  else if b =? 47 then Some 63
  else None.

(** [EncodeToString]. *)
Fixpoint b64_encode (s : string) : string :=
  match s with
  | EmptyString => ""
  | String a EmptyString =>
    String (b64_char (byte_of a / 4)) (String (b64_char (byte_of a mod 4 * 16)) "")
  | String a (String b EmptyString) =>
    String (b64_char (byte_of a / 4))
      (String (b64_char (byte_of a mod 4 * 16 + byte_of b / 16))
         (String (b64_char (byte_of b mod 16 * 4)) ""))
  | String a (String b (String c s)) =>
    String (b64_char (byte_of a / 4))
      (String (b64_char (byte_of a mod 4 * 16 + byte_of b / 16))
         (String (b64_char (byte_of b mod 16 * 4 + byte_of c / 64))
            (String (b64_char (byte_of c mod 64)) (b64_encode s))))
  end.

(** [DecodeString]: newlines are skipped; a last group of two or three
    characters gives one or two bytes, whatever its unused bits. *)
Fixpoint b64_sextets (s : string) : option (list Z) :=
  match s with
  | EmptyString => Some []
  | String c s =>
    if (byte_of c =? 10) || (byte_of c =? 13) then b64_sextets s
    else match b64_value c, b64_sextets s with
         | Some v, Some vs => Some (v :: vs)
         | _, _ => None
         end
  end.
Fixpoint b64_bytes (vs : list Z) : option string :=
  match vs with
  | [] => Some ""
  | [_] => None
  | [v; w] => Some (String (char_of (v * 4 + w / 16)) "")
  | [v; w; x] => Some (String (char_of (v * 4 + w / 16)) (String (char_of (w mod 16 * 16 + x / 4)) ""))
  | v :: w :: x :: y :: vs =>
    match b64_bytes vs with
    | Some s => Some (String (char_of (v * 4 + w / 16))
                        (String (char_of (w mod 16 * 16 + x / 4)) (String (char_of (x mod 4 * 64 + y)) s)))
    | None => None
    end
  end.
Definition b64_decode (s : string) : option string :=
  match b64_sextets s with Some vs => b64_bytes vs | None => None end.

Lemma b64_char_facts v : 0 ≤ v < 64 →
  b64_value (b64_char v) = Some v ∧ byte_of (b64_char v) ≠ 10 ∧ byte_of (b64_char v) ≠ 13 ∧
  b64_char v ≠ "$"%char.
Proof.
  intros Hv. unfold b64_char.
  assert (∀ n, (n < 64)%nat →
    let c := char_of (let v := Z.of_nat n in if v <? 26 then 65 + v else if v <? 52 then 71 + v
                      else if v <? 62 then v - 4 else if v =? 62 then 43 else 47) in
    (bool_decide (b64_value c = Some (Z.of_nat n)) && negb (byte_of c =? 10) && negb (byte_of c =? 13)
     && negb (Ascii.eqb c "$")) = true) as Hall.
  { intros n Hn. do 64 (destruct n as [|n]; [vm_compute; reflexivity|]). lia. }
  specialize (Hall (Z.to_nat v) ltac:(lia)). simpl in Hall. rewrite Z2Nat.id in Hall by lia.
  apply andb_true_iff in Hall as [Hall Hd]. bool_props. repeat split; try done.
  intros Heq. rewrite Heq in Hd. done.
Qed.

Lemma str_ind3 (P : string → Prop) :
  P "" → (∀ a, P (String a "")) → (∀ a b, P (String a (String b ""))) →
  (∀ a b c s, P s → P (String a (String b (String c s)))) → ∀ s, P s.
Proof.
  intros H0 H1 H2 H3 s.
  assert (∀ n s, (String.length s ≤ n)%nat → P s) as Hn; [|by apply (Hn (String.length s))].
  clear s. intros n. induction n as [n IH] using lt_wf_ind.
  intros [|a [|b [|c s]]] Hl; auto. apply H3. simpl in Hl. apply (IH (n - 1)%nat); lia.
Qed.

Lemma char_of_byte_eq z c : z = byte_of c → char_of z = c.
Proof. intros ->. unfold char_of, byte_of. by rewrite Nat2Z.id, ascii_nat_embedding. Qed.

Ltac b64_lia :=
  repeat match goal with
  | c : ascii |- _ => lazymatch goal with
      | _ : 0 ≤ byte_of c < 256 |- _ => fail
      | _ => pose proof (byte_of_range c) end
  end; Z.div_mod_to_equations; lia.

Lemma b64_sextets_cons v s : 0 ≤ v < 64 →
  b64_sextets (String (b64_char v) s) = match b64_sextets s with Some vs => Some (v :: vs) | None => None end.
Proof.
  intros Hv. simpl. destruct (b64_char_facts v Hv) as (-> & H10 & H13 & _).
  by rewrite (proj2 (Z.eqb_neq _ _) H10), (proj2 (Z.eqb_neq _ _) H13).
Qed.

Lemma b64_round_trip s : b64_decode (b64_encode s) = Some s.
Proof.
  unfold b64_decode. induction s as [|a|a b|a b c s IH] using str_ind3; [done| | |]; cbn [b64_encode].
  - rewrite !b64_sextets_cons by b64_lia. simpl. do 2 f_equal. apply char_of_byte_eq. b64_lia.
  - rewrite !b64_sextets_cons by b64_lia. simpl. do 2 f_equal; [|f_equal]; apply char_of_byte_eq; b64_lia.
  - rewrite !b64_sextets_cons by b64_lia.
    destruct (b64_sextets (b64_encode s)) as [vs|]; [|done]. cbn [b64_bytes] in *. rewrite IH.
    do 2 f_equal; [|f_equal; [|f_equal]]; apply char_of_byte_eq; b64_lia.
Qed.

Lemma b64_no_dollar s : contains_char "$" (b64_encode s) = false.
Proof.
  assert (∀ v, 0 ≤ v < 64 → Ascii.eqb "$" (b64_char v) = false) as Hc.
  { intros v Hv. apply Ascii.eqb_neq. intros Heq. symmetry in Heq. by apply b64_char_facts in Hv as (_ & _ & _ & ?). }
  induction s as [|a|a b|a b c s IH] using str_ind3; [done| | |]; cbn [b64_encode contains_char];
    rewrite ?Hc by b64_lia; done.
Qed.

(** ** Links: the part of package [net/url] the mail services use

    [url.URL] with the fields [NewEmailConfirmationService] and
    [NewPasswordResetService] accept (no user, query or fragment),
    [url.Values.Encode] of one parameter and [URL.String]. *)

Record URL := mkURL { url_Scheme : string; url_Host : string; url_Path : string }.

Definition upper_hex (n : Z) : ascii := char_of (if n <? 10 then 48 + n else 55 + n).
Definition percent (c : ascii) : string :=
  String "%" (String (upper_hex (byte_of c / 16)) (String (upper_hex (byte_of c mod 16)) "")).
Definition unreserved (c : ascii) : bool :=
  let b := byte_of c in
  in_range 48 57 b || in_range 65 90 b || in_range 97 122 b || existsb (Ascii.eqb c) ["-"; "_"; "."; "~"]%char.

(** [escape] in the modes encodePath, encodeHost and encodeQueryComponent. *)
Definition path_safe (c : ascii) : bool :=
  unreserved c || existsb (Ascii.eqb c) ["$"; "&"; "+"; ","; "/"; ":"; ";"; "="; "@"]%char.
Definition host_safe (c : ascii) : bool :=
  unreserved c || existsb (Ascii.eqb c)
    ["!"; "$"; "&"; "'"; "("; ")"; "*"; "+"; ","; ";"; "="; ":"; "["; "]"; "<"; ">"; ascii_of_nat 34]%char.
Fixpoint escape (safe : ascii → bool) (s : string) : string :=
  match s with
  | EmptyString => ""
  | String c s => (if safe c then String c "" else percent c) +:+ escape safe s
  end.
Fixpoint query_escape (s : string) : string :=
  match s with
  | EmptyString => ""
  | String c s =>
    (if unreserved c then String c "" else if Ascii.eqb c " " then "+" else percent c) +:+ query_escape s
  end.

(** [strings.TrimRight(s, "/")]. *)
Fixpoint TrimRightSlash (s : string) : string :=
  match s with
  | EmptyString => ""
  | String c s =>
    let t := TrimRightSlash s in
    if Ascii.eqb c "/" && String.eqb t "" then "" else String c t
  end.

(** [u.Path = TrimRight(u.Path, "/") + path; u.RawQuery = {"token": token}.Encode();
    u.String()]. *)
Definition token_link (u : URL) (path token : string) : string :=
  let p := escape path_safe (TrimRightSlash (url_Path u) +:+ path) in
  url_Scheme u +:+ "://" +:+ escape host_safe (url_Host u)
  +:+ (if String.eqb (url_Host u) "" then "" else match p with
       | String "/" _ => ""
       | _ => "/"
       end) +:+ p +:+ "?token=" +:+ query_escape token.

(** [u.String()]. *)
Definition url_String (u : URL) : string :=
  let p := escape path_safe (url_Path u) in
  url_Scheme u +:+ "://" +:+ escape host_safe (url_Host u)
  +:+ (if String.eqb (url_Host u) "" then "" else match p with
       | String "/" _ | "" => ""
       | _ => "/"
       end) +:+ p.

Example link : token_link (mkURL "https" "goweb.example:8443" "/app/") "/confirm-email" "0aff"
  = "https://goweb.example:8443/app/confirm-email?token=0aff".
Proof. vm_compute. reflexivity. Qed.

(** [url.Values] as its pairs in the order they were set; [Encode] sorts them by
    name. *)
Definition url_Values : Type := list (string * string).
Definition by_name : relation (string * string) := λ a b, String.leb a.1 b.1 = true.
#[export] Instance by_name_dec : RelDecision by_name := λ a b, decide (String.leb a.1 b.1 = true).
Definition Encode (values : url_Values) : string :=
  String.concat "&" ((λ kv, query_escape kv.1 +:+ "=" +:+ query_escape kv.2) <$> merge_sort by_name values).
