(* ===== verification/Identity.v ===== *)
(** * Identity rules

    The validation and normalization rules of [internal/service]: identity.go
    (email, username), password.go, and the small normalizers of signup.go,
    group.go, theme.go, settings.go, signin.go, guest_claim.go,
    confirmation.go and audit.go.  [net/mail.ParseAddress] is a parameter
    ([MailParser]). *)
From S2P Require Export Text.

(** [mail.ParseAddress(s)]: the address part of the parsed mailbox. *)
Class MailParser := { ParseAddress : string → option string }.

Definition maxEmailLength : Z := 255.
Definition maxUsernameLength : Z := 32.
Definition maxDisplayNameLength : Z := 255.
Definition maxGroupNameLength : Z := 64.
Definition MinimumPasswordLength : Z := 8.
Definition MaximumPasswordLength : Z := 128.

Section identity.
Context `{Unicode, MailParser}.

Definition NormalizeEmail (raw : string) : outcome string :=
  let normalized := ToLower (TrimSpace raw) in
  if String.eqb normalized "" then Ok ""
  else if maxEmailLength <? RuneCountInString normalized then Err ErrInvalidEmail
  else match ParseAddress normalized with
       | Some address => if String.eqb address normalized then Ok normalized
                         else Err ErrInvalidEmail
       | None => Err ErrInvalidEmail
       end.

Definition username_char_refused (r : Z) : bool := (r =? 64) || IsSpace r.

Definition NormalizeUsername (raw : string) : outcome string :=
  let normalized := ToLower (TrimSpace raw) in
  if String.eqb normalized "" then Ok ""
  else if maxUsernameLength <? RuneCountInString normalized then Err ErrInvalidUsername
  else if existsb username_char_refused (runes normalized) then Err ErrInvalidUsername
  else Ok normalized.

(** [normalizeSignInIdentifier]: the identifier and whether it is an email;
    the flag is returned with the error too. *)
Definition normalizeSignInIdentifier (raw : string) : bool * outcome string :=
  let trimmed := TrimSpace raw in
  if contains_char "@" trimmed then
    (true, match NormalizeEmail trimmed with
           | Ok identifier => if String.eqb identifier "" then Err ErrInvalidCredentials
                              else Ok identifier
           | Err _ => Err ErrInvalidCredentials
           end)
  else
    (false, match NormalizeUsername trimmed with
            | Ok identifier => if String.eqb identifier "" then Err ErrInvalidCredentials
                               else Ok identifier
            | Err _ => Err ErrInvalidCredentials
            end).

Definition normalizedAttemptEmail (raw : string) : string :=
  match normalizeSignInIdentifier raw with
  | (_, Ok identifier) => identifier
  | (_, Err _) => ToLower (TrimSpace raw)
  end.

Definition normalizeTheme (raw : string) : outcome string :=
  let theme := ToLower (TrimSpace raw) in
  if negb (String.eqb theme "light") && negb (String.eqb theme "dark")
  then Err ErrInvalidTheme else Ok theme.

Definition normalizeGroupName (raw : string) : outcome string :=
  let trimmed := TrimSpace raw in
  if String.eqb trimmed "" || (maxGroupNameLength <? RuneCountInString trimmed)
  then Err ErrInvalidGroupName
  else if existsb (λ r, (r <? 32) || (r =? 127)) (runes trimmed) then Err ErrInvalidGroupName
  else Ok (ToLower trimmed).
End identity.

Definition normalizeDisplayName (raw : string) : outcome string :=
  let displayName := TrimSpace raw in
  if maxDisplayNameLength <? RuneCountInString displayName then Err ErrInvalidDisplayName
  else Ok displayName.

Definition ValidatePassword (password : string) : outcome unit :=
  if negb (ValidString password) then Err ErrInvalidPassword
  else let length := RuneCountInString password in
       if length <? MinimumPasswordLength then Err ErrPasswordTooShort
       else if MaximumPasswordLength <? length then Err ErrPasswordTooLong
       else Ok tt.

Definition optionalString (value : string) : option string :=
  if String.eqb value "" then None else Some value.
Definition optionalNormalized (value : string) : option string :=
  if String.eqb value "" then None else Some value.
Definition sameOptionalString (current : option string) (value : string) : bool :=
  match current with None => String.eqb value "" | Some c => String.eqb c value end.
Definition canonicalProviderName `{Unicode} (name : string) : string := ToLower (TrimSpace name).

(** [printable] of audit.go. *)
Definition printable (value : string) : bool :=
  forallb (λ r, negb ((r =? 0) || ((r <? 32) && negb (r =? 9)) || (r =? 127))) (runes value).

(** Invite and transfer codes share one alphabet without look-alikes. *)
Definition guestClaimAlphabet : string := "ABCDEFGHJKMNPQRSTUVWXYZ23456789".
Definition groupInviteAlphabet : string := "ABCDEFGHJKMNPQRSTUVWXYZ23456789".
Definition guestClaimCodeLength : Z := 10.
Definition groupInviteCodeLength : Z := 12.

Definition containsGuestClaimCharacter (target : ascii) : bool :=
  contains_char target guestClaimAlphabet.

Definition normalizeGuestClaimCode `{Unicode} (raw : string) : outcome string :=
  let code := ToUpper (TrimSpace raw) in
  if negb (len code =? guestClaimCodeLength) then Err ErrInvalidGuestClaimCode
  else if all_chars containsGuestClaimCharacter code then Ok code
  else Err ErrInvalidGuestClaimCode.

(** Confirmation tokens, reset tokens and OAuth states: 64 hex digits. *)
Definition maxConfirmationTokenLength : Z := 64.
Definition normalizeConfirmationToken (raw : string) : outcome string :=
  if negb (len raw =? maxConfirmationTokenLength) then Err ErrInvalidConfirmationToken
  else if negb (hex_decodes raw) then Err ErrInvalidConfirmationToken
  else Ok raw.
Definition maxPasswordResetTokenLength : Z := 64.
Definition normalizePasswordResetToken (raw : string) : outcome string :=
  if negb (len raw =? maxPasswordResetTokenLength) then Err ErrInvalidPasswordResetToken
  else if negb (hex_decodes raw) then Err ErrInvalidPasswordResetToken
  else Ok raw.

(** ** Facts used by the services *)
Section facts.
Context `{Unicode, MailParser}.

Lemma NormalizeEmail_form raw e :
  NormalizeEmail raw = Ok e → e = "" ∨
  (e = ToLower (TrimSpace raw) ∧ e ≠ "" ∧ RuneCountInString e ≤ maxEmailLength ∧
   ParseAddress e = Some e).
Proof.
  unfold NormalizeEmail. intros Hn. repeat case_match; simplify_eq; bool_props; subst; eauto.
Qed.

Lemma NormalizeUsername_form raw u :
  NormalizeUsername raw = Ok u → u = "" ∨
  (u = ToLower (TrimSpace raw) ∧ u ≠ "" ∧ RuneCountInString u ≤ maxUsernameLength ∧
   Forall (λ r, r ≠ 64 ∧ IsSpace r = false) (runes u)).
Proof.
  unfold NormalizeUsername. intros Hn. repeat case_match; simplify_eq; bool_props; eauto.
  right. repeat split; try done.
  apply Forall_forall. intros r Hr.
  destruct (username_char_refused r) eqn:E.
  - exfalso. assert (existsb username_char_refused (runes (ToLower (TrimSpace raw))) = true) as Ht.
    { apply existsb_exists. exists r. split; [by apply list_elem_of_In | done]. }
    congruence.
  - unfold username_char_refused in E. bool_props. done.
Qed.

Lemma normalizeSignInIdentifier_ok raw b i :
  normalizeSignInIdentifier raw = (b, Ok i) →
  i ≠ "" ∧ if b then NormalizeEmail (TrimSpace raw) = Ok i
           else NormalizeUsername (TrimSpace raw) = Ok i.
Proof.
  unfold normalizeSignInIdentifier. intros Hn.
  repeat case_match; simplify_eq; bool_props; done.
Qed.

Context `{!UnicodeLaws}.

Lemma NormalizeEmail_idemp raw e : NormalizeEmail raw = Ok e → NormalizeEmail e = Ok e.
Proof.
  intros Hn. apply NormalizeEmail_form in Hn as [->|(-> & Hne & Hlen & Hp)]; [done|].
  unfold NormalizeEmail. rewrite normal_form_idemp.
  rewrite (proj2 (String.eqb_neq _ _) Hne), (proj2 (Z.ltb_ge _ _) Hlen), Hp.
  by rewrite String.eqb_refl.
Qed.

Lemma NormalizeUsername_idemp raw u : NormalizeUsername raw = Ok u → NormalizeUsername u = Ok u.
Proof.
  intros Hn. destruct (String.eqb u "") eqn:E.
  { apply String.eqb_eq in E. by subst. }
  destruct (NormalizeUsername_form _ _ Hn) as [->|(Hu & _)]; [done|].
  unfold NormalizeUsername in *. rewrite Hu, normal_form_idemp.
  rewrite <- Hu in *. by repeat case_match.
Qed.
End facts.

(** ** A concrete parser for evaluation: one [@] with non-empty sides, no
    spaces.  Its answers agree with [net/mail] on plain addresses. *)
Fixpoint split_at (s : string) : option (string * string) :=
  match s with
  | EmptyString => None
  | String c s' =>
    if Ascii.eqb c "@" then Some ("", s')
    else match split_at s' with Some (l, r) => Some (String c l, r) | None => None end
  end.
Definition plain_address (s : string) : option string :=
  match split_at s with
  | Some (l, r) =>
    if String.eqb l "" || String.eqb r "" || contains_char "@" r || contains_char " " s
    then None else Some s
  | None => None
  end.
Definition plain_mail : MailParser := {| ParseAddress := plain_address |}.
