(* ===== verification/Schema.v ===== *)
(** * Persistent data

    The records of [internal/service] that are persisted and the PostgreSQL
    schema of [migrations/] they are stored in: one finite map per table,
    keyed by the column (or unique pair) every statement uses, with the CHECK,
    VARCHAR, UNIQUE and FOREIGN KEY constraints the statements can violate.
    A nullable column is an [option]. *)
From S2P Require Export Identity.

(** ** Records *)

Record User := mkUser {
  user_ID : Z;
  user_Email : option string;
  user_PasswordHash : option string;
  user_Username : option string;
  user_DisplayName : option string;
  user_IsGuest : bool;
  user_IsAdmin : bool;
  user_Theme : string;
  user_Locale : string;
  user_CreatedAt : Z;
  user_EmailVerifiedAt : option Z;
  user_Version : Z;
}.

Record Session := mkSession {
  session_ID : string;
  session_UserID : Z;
  session_CreatedAt : Z;
  session_ExpiresAt : Z;
  session_RevokedAt : option Z;
  session_SSOSessionID : string;
  session_SSOIDToken : string;
}.

(** [EmailConfirmationToken] and [PasswordResetToken] have the same fields. *)
Record Token := mkToken {
  token_UserID : Z;
  token_Token : string;
  token_CreatedAt : Z;
  token_ExpiresAt : Z;
  token_ConsumedAt : option Z;
}.

Record GuestClaimCode := mkClaim {
  claim_UserID : Z;
  claim_Code : string;
  claim_CreatedAt : Z;
  claim_LastUsedAt : option Z;
  claim_RevokedAt : option Z;
}.

Record Group := mkGroup {
  group_ID : Z;
  group_Name : string;
  group_NameNorm : string;
  group_InviteCode : string;
  group_CreatedBy : option Z;
  group_CreatedAt : Z;
  group_Version : Z;
}.

Record GroupMembership := mkMembership {
  member_ID : Z;
  member_GroupID : Z;
  member_UserID : Z;
  member_Role : string;
  member_CreatedAt : Z;
  member_Version : Z;
}.

Record OAuthIdentity := mkIdentity {
  identity_ID : Z;
  identity_UserID : Z;
  identity_Provider : string;
  identity_Subject : string;
  identity_Email : string;
  identity_CreatedAt : Z;
}.

(** [OAuthState]; the column [consumed_at] is kept beside the row. *)
Record OAuthState := mkOAuthState {
  state_State : string;
  state_Provider : string;
  state_Action : string;
  state_UserID : Z;
  state_CodeVerifier : string;
  state_CreatedAt : Z;
  state_ExpiresAt : Z;
}.

Record LoginAttempt := mkAttempt {
  attempt_Email : string;
  attempt_UserID : option Z;
  attempt_IP : option string;
  attempt_Outcome : string;
  attempt_CreatedAt : Z;
}.

Record AuditEntry := mkAudit {
  audit_OccurredAt : Z;
  audit_ActorUserID : option Z;
  audit_ActorEmail : option string;
  audit_Action : string;
  audit_TargetType : option string;
  audit_TargetID : option string;
  audit_Detail : option string;
  audit_IP : option string;
}.

(** A row of [rate_limit_buckets]; times are Unix milliseconds. *)
Record RateBucket := mkBucket {
  bucket_hint : string;
  bucket_count : Z;
  bucket_started : Z;
  bucket_expires : Z;
}.

(** One request observation; the empty string is NULL in [request_id] and
    [trace_id]. *)
Record UsageEvent := mkUsageEvent {
  usage_CreatedAt : Z;
  usage_Method : string;
  usage_Route : string;
  usage_Status : Z;
  usage_RequestID : string;
  usage_TraceID : string;
  usage_UserID : option Z;
  usage_IP : option string;
}.

(** A Hydra login session seen for an account. *)
Record SSOLoginSession := mkLoginSession {
  login_SessionID : string;
  login_UserID : Z;
  login_CreatedAt : Z;
  login_ExpiresAt : Z;
}.

Definition GroupRoleAdmin : string := "admin".
Definition GroupRoleMember : string := "member".

(** ** Field updates *)
Definition with_Email e (u : User) : User :=
  mkUser (user_ID u) e (user_PasswordHash u) (user_Username u) (user_DisplayName u)
    (user_IsGuest u) (user_IsAdmin u) (user_Theme u) (user_Locale u) (user_CreatedAt u)
    (user_EmailVerifiedAt u) (user_Version u).
Definition with_PasswordHash h (u : User) : User :=
  mkUser (user_ID u) (user_Email u) h (user_Username u) (user_DisplayName u)
    (user_IsGuest u) (user_IsAdmin u) (user_Theme u) (user_Locale u) (user_CreatedAt u)
    (user_EmailVerifiedAt u) (user_Version u).
Definition with_Username n (u : User) : User :=
  mkUser (user_ID u) (user_Email u) (user_PasswordHash u) n (user_DisplayName u)
    (user_IsGuest u) (user_IsAdmin u) (user_Theme u) (user_Locale u) (user_CreatedAt u)
    (user_EmailVerifiedAt u) (user_Version u).
Definition with_DisplayName n (u : User) : User :=
  mkUser (user_ID u) (user_Email u) (user_PasswordHash u) (user_Username u) n
    (user_IsGuest u) (user_IsAdmin u) (user_Theme u) (user_Locale u) (user_CreatedAt u)
    (user_EmailVerifiedAt u) (user_Version u).
Definition with_IsGuest g (u : User) : User :=
  mkUser (user_ID u) (user_Email u) (user_PasswordHash u) (user_Username u) (user_DisplayName u)
    g (user_IsAdmin u) (user_Theme u) (user_Locale u) (user_CreatedAt u)
    (user_EmailVerifiedAt u) (user_Version u).
Definition with_IsAdmin a (u : User) : User :=
  mkUser (user_ID u) (user_Email u) (user_PasswordHash u) (user_Username u) (user_DisplayName u)
    (user_IsGuest u) a (user_Theme u) (user_Locale u) (user_CreatedAt u)
    (user_EmailVerifiedAt u) (user_Version u).
Definition with_Theme t (u : User) : User :=
  mkUser (user_ID u) (user_Email u) (user_PasswordHash u) (user_Username u) (user_DisplayName u)
    (user_IsGuest u) (user_IsAdmin u) t (user_Locale u) (user_CreatedAt u)
    (user_EmailVerifiedAt u) (user_Version u).
Definition with_Locale l (u : User) : User :=
  mkUser (user_ID u) (user_Email u) (user_PasswordHash u) (user_Username u) (user_DisplayName u)
    (user_IsGuest u) (user_IsAdmin u) (user_Theme u) l (user_CreatedAt u)
    (user_EmailVerifiedAt u) (user_Version u).
Definition with_EmailVerifiedAt v (u : User) : User :=
  mkUser (user_ID u) (user_Email u) (user_PasswordHash u) (user_Username u) (user_DisplayName u)
    (user_IsGuest u) (user_IsAdmin u) (user_Theme u) (user_Locale u) (user_CreatedAt u)
    v (user_Version u).
Definition with_RevokedAt r (s : Session) : Session :=
  mkSession (session_ID s) (session_UserID s) (session_CreatedAt s) (session_ExpiresAt s) r
    (session_SSOSessionID s) (session_SSOIDToken s).
Definition with_SessionID i (s : Session) : Session :=
  mkSession i (session_UserID s) (session_CreatedAt s) (session_ExpiresAt s) (session_RevokedAt s)
    (session_SSOSessionID s) (session_SSOIDToken s).
Definition with_State i (s : OAuthState) : OAuthState :=
  mkOAuthState i (state_Provider s) (state_Action s) (state_UserID s) (state_CodeVerifier s)
    (state_CreatedAt s) (state_ExpiresAt s).
Definition with_ConsumedAt c (t : Token) : Token :=
  mkToken (token_UserID t) (token_Token t) (token_CreatedAt t) (token_ExpiresAt t) c.
Definition with_Token s (t : Token) : Token :=
  mkToken (token_UserID t) s (token_CreatedAt t) (token_ExpiresAt t) (token_ConsumedAt t).
Definition with_InviteCode c (g : Group) : Group :=
  mkGroup (group_ID g) (group_Name g) (group_NameNorm g) c (group_CreatedBy g) (group_CreatedAt g)
    (group_Version g).
Definition with_Names n norm (g : Group) : Group :=
  mkGroup (group_ID g) n norm (group_InviteCode g) (group_CreatedBy g) (group_CreatedAt g)
    (group_Version g).
Definition with_Role r (m : GroupMembership) : GroupMembership :=
  mkMembership (member_ID m) (member_GroupID m) (member_UserID m) r (member_CreatedAt m)
    (member_Version m).

(** ** Tables *)

(** [sessions] and the token tables are keyed by the SHA-256 hex digest that is
    stored in place of the credential; token rows carry their identity column
    for ordering.  [group_members] is keyed by its unique pair. *)
Record DB := mkDB {
  users : gmap Z User;
  users_seq : Z;
  sessions : gmap string Session;
  email_tokens : gmap string (Z * Token);
  reset_tokens : gmap string (Z * Token);
  tokens_seq : Z;
  claim_codes : gmap string (Z * GuestClaimCode);
  claims_seq : Z;
  groups : gmap Z Group;
  groups_seq : Z;
  group_members : gmap (Z * Z) GroupMembership;
  members_seq : Z;
  oauth_identities : gmap Z OAuthIdentity;
  identities_seq : Z;
  rate_buckets : gmap (string * string * string) RateBucket;
  login_attempts : list LoginAttempt;
  audit_log : list AuditEntry;
  oauth_states : gmap string (OAuthState * option Z);
  usage_events : list UsageEvent;
  sso_login_sessions : gmap string SSOLoginSession;
}.

Definition empty_db : DB := mkDB ∅ 0 ∅ ∅ ∅ 0 ∅ 0 ∅ 0 ∅ 0 ∅ 0 ∅ [] [] ∅ [] ∅.

Definition set_users us seq d := mkDB us seq (sessions d) (email_tokens d) (reset_tokens d)
  (tokens_seq d) (claim_codes d) (claims_seq d) (groups d) (groups_seq d) (group_members d)
  (members_seq d) (oauth_identities d) (identities_seq d) (rate_buckets d) (login_attempts d) (audit_log d) (oauth_states d)
  (usage_events d) (sso_login_sessions d).
Definition set_sessions ss d := mkDB (users d) (users_seq d) ss (email_tokens d) (reset_tokens d)
  (tokens_seq d) (claim_codes d) (claims_seq d) (groups d) (groups_seq d) (group_members d)
  (members_seq d) (oauth_identities d) (identities_seq d) (rate_buckets d) (login_attempts d) (audit_log d) (oauth_states d)
  (usage_events d) (sso_login_sessions d).
Definition set_email_tokens ts seq d := mkDB (users d) (users_seq d) (sessions d) ts (reset_tokens d)
  seq (claim_codes d) (claims_seq d) (groups d) (groups_seq d) (group_members d)
  (members_seq d) (oauth_identities d) (identities_seq d) (rate_buckets d) (login_attempts d) (audit_log d) (oauth_states d)
  (usage_events d) (sso_login_sessions d).
Definition set_reset_tokens ts seq d := mkDB (users d) (users_seq d) (sessions d) (email_tokens d) ts
  seq (claim_codes d) (claims_seq d) (groups d) (groups_seq d) (group_members d)
  (members_seq d) (oauth_identities d) (identities_seq d) (rate_buckets d) (login_attempts d) (audit_log d) (oauth_states d)
  (usage_events d) (sso_login_sessions d).
Definition set_claim_codes cs seq d := mkDB (users d) (users_seq d) (sessions d) (email_tokens d)
  (reset_tokens d) (tokens_seq d) cs seq (groups d) (groups_seq d) (group_members d)
  (members_seq d) (oauth_identities d) (identities_seq d) (rate_buckets d) (login_attempts d) (audit_log d) (oauth_states d)
  (usage_events d) (sso_login_sessions d).
Definition set_groups gs seq d := mkDB (users d) (users_seq d) (sessions d) (email_tokens d)
  (reset_tokens d) (tokens_seq d) (claim_codes d) (claims_seq d) gs seq (group_members d)
  (members_seq d) (oauth_identities d) (identities_seq d) (rate_buckets d) (login_attempts d) (audit_log d) (oauth_states d)
  (usage_events d) (sso_login_sessions d).
Definition set_group_members ms seq d := mkDB (users d) (users_seq d) (sessions d) (email_tokens d)
  (reset_tokens d) (tokens_seq d) (claim_codes d) (claims_seq d) (groups d) (groups_seq d) ms
  seq (oauth_identities d) (identities_seq d) (rate_buckets d) (login_attempts d) (audit_log d) (oauth_states d)
  (usage_events d) (sso_login_sessions d).
Definition set_oauth_identities ids seq d := mkDB (users d) (users_seq d) (sessions d) (email_tokens d)
  (reset_tokens d) (tokens_seq d) (claim_codes d) (claims_seq d) (groups d) (groups_seq d)
  (group_members d) (members_seq d) ids seq (rate_buckets d) (login_attempts d) (audit_log d) (oauth_states d)
  (usage_events d) (sso_login_sessions d).
Definition set_rate_buckets bs d := mkDB (users d) (users_seq d) (sessions d) (email_tokens d)
  (reset_tokens d) (tokens_seq d) (claim_codes d) (claims_seq d) (groups d) (groups_seq d)
  (group_members d) (members_seq d) (oauth_identities d) (identities_seq d) bs (login_attempts d) (audit_log d) (oauth_states d)
  (usage_events d) (sso_login_sessions d).
Definition set_login_attempts la d := mkDB (users d) (users_seq d) (sessions d) (email_tokens d)
  (reset_tokens d) (tokens_seq d) (claim_codes d) (claims_seq d) (groups d) (groups_seq d)
  (group_members d) (members_seq d) (oauth_identities d) (identities_seq d) (rate_buckets d) la (audit_log d) (oauth_states d)
  (usage_events d) (sso_login_sessions d).
Definition set_audit_log al d := mkDB (users d) (users_seq d) (sessions d) (email_tokens d)
  (reset_tokens d) (tokens_seq d) (claim_codes d) (claims_seq d) (groups d) (groups_seq d)
  (group_members d) (members_seq d) (oauth_identities d) (identities_seq d) (rate_buckets d)
  (login_attempts d) al (oauth_states d)
  (usage_events d) (sso_login_sessions d).
Definition set_oauth_states os d := mkDB (users d) (users_seq d) (sessions d) (email_tokens d)
  (reset_tokens d) (tokens_seq d) (claim_codes d) (claims_seq d) (groups d) (groups_seq d)
  (group_members d) (members_seq d) (oauth_identities d) (identities_seq d) (rate_buckets d)
  (login_attempts d) (audit_log d) os
  (usage_events d) (sso_login_sessions d).
Definition set_usage_events ue d := mkDB (users d) (users_seq d) (sessions d) (email_tokens d)
  (reset_tokens d) (tokens_seq d) (claim_codes d) (claims_seq d) (groups d) (groups_seq d)
  (group_members d) (members_seq d) (oauth_identities d) (identities_seq d) (rate_buckets d)
  (login_attempts d) (audit_log d) (oauth_states d) ue (sso_login_sessions d).
Definition set_sso_login_sessions ls d := mkDB (users d) (users_seq d) (sessions d) (email_tokens d)
  (reset_tokens d) (tokens_seq d) (claim_codes d) (claims_seq d) (groups d) (groups_seq d)
  (group_members d) (members_seq d) (oauth_identities d) (identities_seq d) (rate_buckets d)
  (login_attempts d) (audit_log d) (oauth_states d) (usage_events d) ls.

(** ** Constraints *)

(** PostgreSQL's [lower()] and text order, which depend on the database locale. *)
Class Postgres := {
  sql_lower : string → string;
  sql_text_compare : string → string → comparison;
}.

Fixpoint ltrim_blanks (s : string) : string :=
  match s with
  | String c s' => if Ascii.eqb c " " then ltrim_blanks s' else s
  | EmptyString => ""
  end.
Fixpoint str_rev_onto (s acc : string) : string :=
  match s with EmptyString => acc | String c s => str_rev_onto s (String c acc) end.
(** [btrim(s)]: blanks only. *)
Definition btrim (s : string) : string :=
  str_rev_onto (ltrim_blanks (str_rev_onto (ltrim_blanks s) "")) "".

(** A text parameter of a statement: the server accepts well-formed UTF-8
    without NUL. *)
Definition text_param (s : string) : outcome unit :=
  if negb (ValidString s) || contains_char (ascii_of_nat 0) s then Err (PgError "22021" "") else Ok tt.
(** A text value for a [VARCHAR(n)] column. *)
Definition varchar (n : Z) (s : string) : outcome unit :=
  if negb (ValidString s) || contains_char (ascii_of_nat 0) s then Err (PgError "22021" "")
  else if n <? RuneCountInString s then Err (PgError "22001" "")
  else Ok tt.
Definition varchar_opt (n : Z) (s : option string) : outcome unit :=
  match s with None => Ok tt | Some s => varchar n s end.
Definition check (c : bool) (constraint : string) : outcome unit :=
  if c then Ok tt else Err (PgError "23514" constraint).
Fixpoint first_violation (cs : list (outcome unit)) : outcome unit :=
  match cs with
  | [] => Ok tt
  | Ok _ :: cs => first_violation cs
  | Err e :: _ => Err e
  end.

(** A SELECT with the given text parameters. *)
Definition with_params {A} (params : list string) (rows : A) : outcome A :=
  match first_violation (text_param <$> params) with Ok _ => Ok rows | Err e => Err e end.

(** The column types and CHECK constraints of table [users]. *)
Definition users_constraints `{Postgres} (u : User) : outcome unit :=
  first_violation
    [varchar_opt 255 (user_Email u); varchar_opt 255 (user_PasswordHash u);
     varchar_opt 32 (user_Username u); varchar_opt 255 (user_DisplayName u);
     varchar 20 (user_Theme u); varchar 10 (user_Locale u);
     check (negb (user_IsGuest u)
            || (is_nil (user_Email u) && is_nil (user_PasswordHash u) && is_nil (user_EmailVerifiedAt u)))
       "users_guest_credentials";
     check (match user_Email u with None => true | Some e => String.eqb e (sql_lower (btrim e)) end)
       "users_email_normalized";
     check (match user_Username u with None => true | Some n => String.eqb n (sql_lower (btrim n)) end)
       "users_username_normalized";
     check (match user_Username u with None => true | Some n => negb (String.eqb n "") end)
       "users_username_nonempty";
     check (match user_Username u with None => true | Some n => negb (contains_char "@" n) end)
       "users_username_no_at";
     check (String.eqb (user_Theme u) "light" || String.eqb (user_Theme u) "dark") "users_theme_allowed";
     check (0 <=? user_Version u) "users_version_nonnegative"].

(** Another row holding the same non-null value. *)
Definition taken_by_other {A} (id : Z) (column : A → option string) (key : A → Z)
    (value : option string) (t : gmap Z A) : bool :=
  match value with
  | None => false
  | Some v => negb (is_nil (find_row (λ a, negb (key a =? id) && bool_decide (column a = Some v)) t))
  end.

(** The unique indexes of table [users]. *)
Definition users_unique (u : User) (t : gmap Z User) : outcome unit :=
  if taken_by_other (user_ID u) user_Email user_ID (user_Email u) t
  then Err (PgError "23505" "users_email_unique_idx")
  else if taken_by_other (user_ID u) user_Username user_ID (user_Username u) t
  then Err (PgError "23505" "users_username_unique_idx")
  else Ok tt.

Definition sessions_constraints (s : Session) : outcome unit :=
  first_violation
    [varchar 64 (session_ID s); varchar 128 (session_SSOSessionID s); text_param (session_SSOIDToken s);
     check (session_CreatedAt s <? session_ExpiresAt s) "sessions_expiry_after_creation";
     check (String.eqb (session_SSOIDToken s) ""
            || (RuneCountInString (session_SSOIDToken s) <=? 16384)) "sessions_sso_id_token_size"].

Definition tokens_constraints (t : Token) : outcome unit :=
  first_violation
    [varchar 64 (token_Token t);
     check (token_CreatedAt t <? token_ExpiresAt t) "tokens_expiry_after_creation"].

(** [user_id] and [code_verifier] are NULL for the zero value of the field. *)
Definition oauth_states_constraints (s : OAuthState) : outcome unit :=
  first_violation
    [varchar 64 (state_State s); varchar 32 (state_Provider s); varchar 16 (state_Action s);
     varchar 128 (state_CodeVerifier s);
     check (String.eqb (state_Action s) "sign-in" || String.eqb (state_Action s) "link")
       "oauth_states_action_allowed";
     check (state_CreatedAt s <? state_ExpiresAt s) "oauth_states_expiry_after_creation"].

Definition groups_constraints `{Postgres} (g : Group) : outcome unit :=
  first_violation
    [varchar 64 (group_Name g); varchar 64 (group_NameNorm g); varchar 64 (group_InviteCode g);
     check (negb (String.eqb (btrim (group_Name g)) "")) "groups_name_nonempty";
     check (String.eqb (group_NameNorm g) (sql_lower (btrim (group_NameNorm g)))) "groups_name_norm_normalized";
     check (negb (String.eqb (group_NameNorm g) "")) "groups_name_norm_nonempty";
     check (negb (String.eqb (group_InviteCode g) "")) "groups_invite_code_nonempty";
     check (0 <=? group_Version g) "groups_version_nonnegative"].

Definition members_constraints (m : GroupMembership) : outcome unit :=
  first_violation
    [varchar 16 (member_Role m);
     check (String.eqb (member_Role m) GroupRoleAdmin || String.eqb (member_Role m) GroupRoleMember)
       "group_members_role_allowed";
     check (0 <=? member_Version m) "group_members_version_nonnegative"].

Definition claims_constraints (c : GuestClaimCode) : outcome unit := first_violation [varchar 64 (claim_Code c)].

Definition identities_constraints (i : OAuthIdentity) : outcome unit :=
  first_violation
    [varchar 32 (identity_Provider i); varchar 255 (identity_Subject i); varchar 255 (identity_Email i)].

Definition attempts_constraints (a : LoginAttempt) : outcome unit :=
  first_violation
    [varchar 255 (attempt_Email a); varchar_opt 64 (attempt_IP a); varchar 32 (attempt_Outcome a)].

Definition audit_constraints (a : AuditEntry) : outcome unit :=
  first_violation
    [varchar_opt 255 (audit_ActorEmail a); varchar 64 (audit_Action a);
     varchar_opt 32 (audit_TargetType a); varchar_opt 64 (audit_TargetID a);
     varchar_opt 1000 (audit_Detail a); varchar_opt 64 (audit_IP a)].

Definition usage_constraints (e : UsageEvent) : outcome unit :=
  first_violation
    [varchar 8 (usage_Method e); varchar 255 (usage_Route e); varchar 64 (usage_RequestID e);
     varchar 32 (usage_TraceID e); varchar_opt 64 (usage_IP e);
     check (negb (String.eqb (usage_Method e) "")) "usage_events_method_nonempty";
     check (negb (String.eqb (usage_Route e) "")) "usage_events_route_nonempty";
     check (negb (contains_char "?" (usage_Route e))) "usage_events_route_without_query";
     check ((100 <=? usage_Status e) && (usage_Status e <=? 599)) "usage_events_status_valid"].

Definition login_sessions_constraints (s : SSOLoginSession) : outcome unit :=
  first_violation
    [varchar 128 (login_SessionID s);
     check (negb (String.eqb (login_SessionID s) "")) "sso_login_sessions_sid_nonempty";
     check (login_CreatedAt s <? login_ExpiresAt s) "sso_login_sessions_expiry_after_creation"].

Definition foreign_key (present : bool) (constraint : string) : outcome unit :=
  if present then Ok tt else Err (PgError "23503" constraint).
Definition user_exists (d : DB) (id : Z) : bool := negb (is_nil (users d !! id)).
Definition group_exists (d : DB) (id : Z) : bool := negb (is_nil (groups d !! id)).

(** ** Lemmas *)
Lemma first_violation_ok cs : first_violation cs = Ok tt ↔ Forall (λ c, c = Ok tt) cs.
Proof.
  induction cs as [|[[]|e] cs IH]; simpl.
  - split; [by constructor | done].
  - rewrite IH. split; [by constructor | by inversion 1].
  - split; [done | by inversion 1].
Qed.

Lemma check_ok b c : check b c = Ok tt ↔ b = true.
Proof. unfold check. by destruct b. Qed.

Lemma taken_by_other_false {A} id (column : A → option string) key v (t : gmap Z A) :
  taken_by_other id column key (Some v) t = false ↔
  ∀ k a, t !! k = Some a → column a = Some v → key a = id.
Proof.
  unfold taken_by_other. destruct (find_row _ t) as [[k a]|] eqn:E; simpl.
  - split; [done|]. intros Hall. apply find_row_Some in E as [Hk HP]. bool_props.
    by rewrite (Hall _ _ Hk) in *.
  - rewrite find_row_None in E. split; [|done]. intros _ k a Hk Ha.
    specialize (E _ _ Hk). apply andb_false_iff in E as [E|E]; bool_props; done.
Qed.
