(* ===== verification/World.v ===== *)
(** * The world a use case runs in

    A use case reads and changes the database, the clock, the random source
    and the mail outbox.  What the environment does is fixed in advance by
    oracles in the state: how far the clock advances before each reading, what
    the random source yields (or that it is unavailable), and which database
    round trips fail.  A failed round trip may or may not have reached the
    server ([fault_applied]), as when a connection is lost. *)
From S2P Require Export Schema.

Record Mail := mkMail { mail_To : string; mail_Subject : string; mail_TextBody : string }.

(** Why a round trip fails: the request's context ended, the server reported an
    error of its own, or the connection was lost.  The store only tells apart
    the codes of violated constraints, which the statements report themselves,
    so one code stands for all others. *)
Inductive failure := RequestCanceled | RequestTimedOut | ServerError | ConnectionLost.
Record fault := mkFault { fault_cause : failure; fault_applied : bool }.
Definition fault_error (f : fault) : error :=
  match fault_cause f with
  | RequestCanceled => Canceled
  | RequestTimedOut => DeadlineExceeded
  | ServerError => PgError "XX000" ""
  | ConnectionLost => Opaque "connection lost"
  end.

Record World := mkWorld {
  db : DB;
  clock : Z;                       (** nanoseconds since the Unix epoch *)
  ticks : list N;                  (** advance before each reading *)
  entropy : list (option Z);       (** one value per draw *)
  faults : list (option fault);    (** one entry per database round trip *)
  mail_faults : list (option error);
  outbox : list Mail;              (** delivered mail, newest first *)
}.

Definition M : Type → Type := ST World.

Definition set_db d (w : World) : World :=
  mkWorld d (clock w) (ticks w) (entropy w) (faults w) (mail_faults w) (outbox w).

(** ** Clock *)

(** [time.Now()] in nanoseconds. *)
Definition time_Now : M Z := λ w,
  let now := clock w + match ticks w with t :: _ => Z.of_N t | [] => 0 end in
  (mkWorld (db w) now (tail (ticks w)) (entropy w) (faults w) (mail_faults w) (outbox w), Ok now).
Definition second : Z := 1000000000.
Definition millisecond : Z := 1000000.
Definition Unix (nanos : Z) : Z := nanos / second.
Definition UnixMilli (nanos : Z) : Z := nanos / millisecond.
(** [time.Now().Unix()]. *)
Definition unix_now : M Z := let! t := time_Now in ret (Unix t).

(** ** Random source *)

Fixpoint random_bytes (n : nat) (v : Z) : string :=
  match n with
  | O => ""
  | S n => String (char_of (v mod 256)) (random_bytes n (v / 256))
  end.
Lemma random_bytes_length n v : String.length (random_bytes n v) = n.
Proof. revert v. induction n; intros; simpl; [done|]. by rewrite IHn. Qed.
Definition draw (unavailable : error) : M Z := λ w,
  let w' := mkWorld (db w) (clock w) (ticks w) (tail (entropy w)) (faults w) (mail_faults w) (outbox w) in
  match entropy w with
  | Some v :: _ => (w', Ok v)
  | _ => (w', Err unavailable)
  end.
(** [rand.Read] of [n] bytes; [rand.Int(rand.Reader, max)]. *)
Definition rand_Read (n : nat) (unavailable : error) : M string :=
  let! v := draw unavailable in ret (random_bytes n v).
Definition rand_Int (max : Z) (unavailable : error) : M Z :=
  let! v := draw unavailable in ret (v mod max).

(** ** Mail *)
Definition mailer_Send (m : Mail) : M unit := λ w,
  let deliver o := mkWorld (db w) (clock w) (ticks w) (entropy w) (faults w) (tail (mail_faults w)) o in
  match mail_faults w with
  | Some e :: _ => (deliver (outbox w), Err e)
  | _ => (deliver (m :: outbox w), Ok tt)
  end.

(** ** Database round trips *)

Definition next_fault (w : World) : option fault * World :=
  (match faults w with f :: _ => f | [] => None end,
   mkWorld (db w) (clock w) (ticks w) (entropy w) (tail (faults w)) (mail_faults w) (outbox w)).

(** One statement: it applies completely or not at all. *)
Definition statement {A} (sql : DB → outcome (DB * A)) : M A := λ w,
  let (f, w1) := next_fault w in
  match f, sql (db w1) with
  | None, Ok (d, a) => (set_db d w1, Ok a)
  | None, Err e => (w1, Err e)
  | Some f, Ok (d, _) => (if fault_applied f then set_db d w1 else w1, Err (fault_error f))
  | Some f, Err _ => (w1, Err (fault_error f))
  end.

(** A [SELECT]. *)
Definition query {A} (sql : DB → outcome A) : M A :=
  statement (λ d, match sql d with Ok a => Ok (d, a) | Err e => Err e end).

(** [BeginTx ... Commit] with the deferred [Rollback]: when the body fails the
    database is as it was at the start.  [mapError] is what the caller does to
    the errors of [BeginTx] and [Commit].  The body is atomic with respect to
    other transactions; the code takes row and advisory locks for that. *)
Definition transaction {A} (mapError : error → error) (body : M A) : M A := λ w,
  let (f, w1) := next_fault w in
  match f with
  | Some f => (w1, Err (mapError (fault_error f)))
  | None =>
    match body w1 with
    | (w2, Err e) => (set_db (db w1) w2, Err e)
    | (w2, Ok a) =>
      let (f, w3) := next_fault w2 in
      match f with
      | None => (w3, Ok a)
      | Some f => (if fault_applied f then w3 else set_db (db w1) w3, Err (mapError (fault_error f)))
      end
    end
  end.

(** ** What a program does to the database *)

Definition on_db (R : relation DB) : relation World := λ w w', R (db w) (db w').

#[export] Instance on_db_preorder R : PreOrder R → PreOrder (on_db R).
Proof.
  intros [Hr Ht]. split.
  - intros w. apply Hr.
  - intros w1 w2 w3. apply Ht.
Qed.

Section on_db.
Context (R : relation DB) `{!PreOrder R}.

Lemma preserves_time_Now : preserves (on_db R) time_Now.
Proof. intros w. unfold on_db. simpl. reflexivity. Qed.
Lemma preserves_unix_now : preserves (on_db R) unix_now.
Proof. intros w. unfold on_db. simpl. reflexivity. Qed.
Lemma preserves_draw e : preserves (on_db R) (draw e).
Proof. intros w. unfold on_db, draw. repeat case_match; simpl; reflexivity. Qed.
Lemma preserves_rand_Read n e : preserves (on_db R) (rand_Read n e).
Proof. unfold rand_Read. preserves_tac. apply preserves_draw. Qed.
Lemma preserves_rand_Int n e : preserves (on_db R) (rand_Int n e).
Proof. unfold rand_Int. preserves_tac. apply preserves_draw. Qed.
Lemma preserves_mailer_Send m : preserves (on_db R) (mailer_Send m).
Proof. intros w. unfold on_db, mailer_Send. repeat case_match; simpl; reflexivity. Qed.

Lemma preserves_statement {A} (sql : DB → outcome (DB * A)) :
  (∀ d d' a, sql d = Ok (d', a) → R d d') → preserves (on_db R) (statement sql).
Proof.
  intros Hs w. unfold on_db, statement, next_fault. simpl.
  destruct (match faults w with f :: _ => f | [] => None end) as [f|];
    destruct (sql (db w)) as [[d a]|e] eqn:E; simpl; try reflexivity; [|by eapply Hs].
  destruct (fault_applied f); simpl; [by eapply Hs | reflexivity].
Qed.

Lemma preserves_query {A} (sql : DB → outcome A) : preserves (on_db R) (query sql).
Proof.
  apply preserves_statement. intros d d' a. case_match; intros; simplify_eq. reflexivity.
Qed.

Lemma preserves_transaction {A} mapError (body : M A) :
  preserves (on_db R) body → preserves (on_db R) (transaction mapError body).
Proof.
  intros Hb w. unfold on_db, transaction, next_fault. simpl.
  destruct (match faults w with f :: _ => f | [] => None end) as [f|]; simpl; [reflexivity|].
  set (w1 := mkWorld _ _ _ _ _ _ _).
  specialize (Hb w1). unfold on_db in Hb. simpl in Hb.
  destruct (body w1) as [w2 [a|e]]; simpl in *; [|reflexivity].
  destruct (match faults w2 with f :: _ => f | [] => None end) as [f|]; simpl; [|done].
  destruct (fault_applied f); simpl; [done | reflexivity].
Qed.
End on_db.
#[export] Hint Resolve preserves_time_Now preserves_unix_now preserves_draw preserves_rand_Read
  preserves_rand_Int preserves_mailer_Send preserves_query : go_preserves.

(** The clock never goes back. *)
Definition later : relation World := λ w w', clock w ≤ clock w'.
#[export] Instance later_preorder : PreOrder later.
Proof. unfold later. split; [intros w; lia | intros w1 w2 w3; lia]. Qed.

Lemma later_time_Now : preserves later time_Now.
Proof. intros w. unfold later, time_Now. simpl. destruct (ticks w); lia. Qed.
Lemma later_unix_now : preserves later unix_now.
Proof. unfold unix_now. preserves_tac. apply later_time_Now. Qed.
Lemma later_draw e : preserves later (draw e).
Proof. intros w. unfold later, draw. repeat case_match; simpl; lia. Qed.
Lemma later_rand_Read n e : preserves later (rand_Read n e).
Proof. unfold rand_Read. preserves_tac. apply later_draw. Qed.
Lemma later_rand_Int n e : preserves later (rand_Int n e).
Proof. unfold rand_Int. preserves_tac. apply later_draw. Qed.
Lemma later_mailer_Send m : preserves later (mailer_Send m).
Proof. intros w. unfold later, mailer_Send. repeat case_match; simpl; lia. Qed.
Lemma later_statement {A} (sql : DB → outcome (DB * A)) : preserves later (statement sql).
Proof. intros w. unfold later, statement, next_fault. simpl. repeat case_match; simpl; lia. Qed.
Lemma later_query {A} (sql : DB → outcome A) : preserves later (query sql).
Proof. apply later_statement. Qed.
Lemma later_transaction {A} mapError (body : M A) :
  preserves later body → preserves later (transaction mapError body).
Proof.
  intros Hb w. unfold later, transaction, next_fault. simpl.
  destruct (match faults w with f :: _ => f | [] => None end) as [f|]; simpl; [lia|].
  set (w1 := mkWorld _ _ _ _ _ _ _). specialize (Hb w1). unfold later in Hb. simpl in Hb.
  destruct (body w1) as [w2 [a|e]]; simpl in *; [|lia].
  destruct (match faults w2 with f :: _ => f | [] => None end) as [f|]; simpl; [|lia].
  destruct (fault_applied f); simpl; lia.
Qed.
#[export] Hint Resolve later_time_Now later_unix_now later_draw later_rand_Read later_rand_Int
  later_mailer_Send later_statement later_query later_transaction : go_preserves.

(** ** Runs without failures *)

(** A successful run of a statement or transaction is its run with no fault. *)
Lemma statement_ok {A} (sql : DB → outcome (DB * A)) w w' a :
  statement sql w = (w', Ok a) → sql (db w) = Ok (db w', a).
Proof.
  unfold statement, next_fault. simpl.
  destruct (match faults w with f :: _ => f | [] => None end) as [f|];
    destruct (sql (db w)) as [[d b]|e] eqn:E; simpl; intros; simplify_eq; done.
Qed.

Lemma query_ok {A} (sql : DB → outcome A) w w' a :
  query sql w = (w', Ok a) → sql (db w) = Ok a ∧ db w' = db w.
Proof.
  intros H%statement_ok. case_match; simplify_eq. done.
Qed.

(** Without a fault a round trip is the run of its statement. *)
Lemma statement_run {A} (sql : DB → outcome (DB * A)) w :
  faults w = [] →
  statement sql w = match sql (db w) with Ok (d, a) => (set_db d w, Ok a) | Err e => (w, Err e) end.
Proof.
  intros Hf. unfold statement, next_fault. rewrite Hf. destruct w as [d ? ? ? fs ? ?]. simpl in *. subst fs.
  by destruct (sql d) as [[? ?]|].
Qed.
Lemma query_run {A} (sql : DB → outcome A) w : faults w = [] → query sql w = (w, sql (db w)).
Proof.
  intros Hf. unfold query. rewrite statement_run by done. destruct (sql (db w)); [|done].
  by destruct w.
Qed.

(** A failed query or statement without a fault leaves the database alone. *)
Lemma query_db {A} (sql : DB → outcome A) w : db (fst (query sql w)) = db w.
Proof.
  symmetry. apply (preserves_query eq sql w).
Qed.

(** A query that reports no rows found none: no failure looks like that. *)
Lemma fault_error_NoRows f : errors_Is (fault_error f) ErrNoRows = false.
Proof. unfold fault_error. by destruct (fault_cause f). Qed.

Lemma query_NoRows {A} (sql : DB → outcome A) w w' e :
  query sql w = (w', Err e) → errors_Is e ErrNoRows = true → sql (db w) = Err e.
Proof.
  unfold query, statement, next_fault. simpl. intros Hq He.
  destruct (match faults w with f :: _ => f | [] => None end) as [f|];
    destruct (sql (db w)) as [a|e'] eqn:E; simplify_eq; try done;
    by rewrite fault_error_NoRows in He.
Qed.

Lemma transaction_ok {A} f (body : M A) w w' a :
  transaction f body w = (w', Ok a) →
  ∃ w1 w2, db w1 = db w ∧ body w1 = (w2, Ok a) ∧ db w' = db w2.
Proof.
  unfold transaction, next_fault. intros H. simpl in H.
  destruct (match faults w with f :: _ => f | [] => None end) as [ft|]; [simplify_eq|].
  match type of H with context [body ?w1] => set (v := w1) in * end.
  destruct (body v) as [w2 [b|e]] eqn:E; [|simplify_eq].
  destruct (match faults w2 with f :: _ => f | [] => None end) as [ft|]; simplify_eq.
  by exists v, w2.
Qed.

(** Whatever the faults, a statement or transaction either did nothing or did
    all of it. *)
Lemma statement_effect {A} (sql : DB → outcome (DB * A)) w :
  db (fst (statement sql w)) = db w ∨
  ∃ d a, sql (db w) = Ok (d, a) ∧ db (fst (statement sql w)) = d.
Proof.
  unfold statement, next_fault. simpl.
  destruct (match faults w with f :: _ => f | [] => None end) as [f|];
    destruct (sql (db w)) as [[d b]|e] eqn:E; simpl; eauto.
  destruct (fault_applied f); simpl; eauto.
Qed.

Lemma transaction_effect {A} f (body : M A) w :
  db (fst (transaction f body w)) = db w ∨
  ∃ w1 w2 a, db w1 = db w ∧ body w1 = (w2, Ok a) ∧ db (fst (transaction f body w)) = db w2.
Proof.
  unfold transaction, next_fault. simpl.
  destruct (match faults w with f :: _ => f | [] => None end) as [ft|]; [by left|].
  set (v := mkWorld _ _ _ _ _ _ _).
  destruct (body v) as [w2 [b|e]] eqn:E; [|by left]. simpl.
  destruct (match faults w2 with f :: _ => f | [] => None end) as [ft|]; simpl; [|right; by exists v, w2, b].
  destruct (fault_applied ft); simpl; [right; by exists v, w2, b | by left].
Qed.

Lemma statement_clock {A} (sql : DB → outcome (DB * A)) w : clock (fst (statement sql w)) = clock w.
Proof. unfold statement, next_fault. simpl. repeat case_match; done. Qed.

(** A statement's result, when it reports one, is that of its run; when it
    reports an error it ran or did not. *)
Lemma statement_cases {A} (sql : DB → outcome (DB * A)) w :
  (∃ d a, sql (db w) = Ok (d, a) ∧ db (fst (statement sql w)) = d ∧
     (snd (statement sql w) = Ok a ∨ ∃ e, snd (statement sql w) = Err e)) ∨
  (db (fst (statement sql w)) = db w ∧ ∃ e, snd (statement sql w) = Err e).
Proof.
  unfold statement, next_fault. simpl.
  destruct (match faults w with f :: _ => f | [] => None end) as [f|];
    destruct (sql (db w)) as [[d b]|e] eqn:E; simpl; eauto 10.
  destruct (fault_applied f); simpl; eauto 10.
Qed.

(** Only the record of single sign-on sessions changes. *)
Definition logins_only : relation DB := λ d d', ∃ ls, d' = set_sso_login_sessions ls d.
#[export] Instance logins_only_preorder : PreOrder logins_only.
Proof.
  split.
  - intros d. exists (sso_login_sessions d). by destruct d.
  - intros d d1 d2 [l1 ->] [l2 ->]. by exists l2.
Qed.

(** [inv_db]: [inv_ok] extended to database round trips. *)
Ltac inv_db := repeat first
  [ inv_ok_step
  | match goal with
    | H : query _ _ = (_, Ok _) |- _ => apply query_ok in H as [H ?]
    | H : statement _ _ = (_, Ok _) |- _ => apply statement_ok in H
    | H : transaction _ _ _ = (_, Ok _) |- _ => apply transaction_ok in H as (? & ? & ? & H & ?)
    end ].

Lemma unix_now_ok w w' t : unix_now w = (w', Ok t) → db w' = db w ∧ t = Unix (clock w') ∧ clock w ≤ clock w'.
Proof.
  unfold unix_now, time_Now. intros H. inv_ok. repeat split. destruct (ticks w); lia.
Qed.

Lemma rand_Read_ok n e w w' bs :
  rand_Read n e w = (w', Ok bs) → db w' = db w ∧ clock w' = clock w ∧ String.length bs = n.
Proof.
  unfold rand_Read. intros Hr. apply bind_ok in Hr as (w1 & v & Hd & [= <- <-]).
  unfold draw in Hd. split_and!; [..|apply random_bytes_length]; by destruct (entropy w) as [|[u|] es]; simplify_eq.
Qed.

(** Replace every intermediate database by what it is equal to. *)
Ltac db_eqs := repeat match goal with
  | H : ?t = db ?y |- _ =>
    lazymatch t with db _ => fail | _ => symmetry in H end
  | H : db ?y = ?t |- _ =>
    lazymatch t with context [db y] => fail | _ => rewrite H in *; clear H end
  end.

(** ** Text of times, durations and sizes: the part of packages [time] and [fmt]
    pages and logs use *)

Definition pad (width : nat) (n : Z) : string :=
  let s := FormatInt n in
  String.concat "" (replicate (width - String.length s) "0") +:+ s.

(** The civil date of a day, counted from 1970-01-01: [Time.Date] in UTC. *)
Definition civil_date (days : Z) : Z * Z * Z :=
  let z := days + 719468 in
  let era := z / 146097 in
  let doe := z mod 146097 in
  let yoe := (doe - doe / 1460 + doe / 36524 - doe / 146096) / 365 in
  let doy := doe - (365 * yoe + yoe / 4 - yoe / 100) in
  let mp := (5 * doy + 2) / 153 in
  let month := if mp <? 10 then mp + 3 else mp - 9 in
  (yoe + era * 400 + (if month <=? 2 then 1 else 0), month, doy - (153 * mp + 2) / 5 + 1).
(** [time.Unix(unix, 0).UTC().Format("2006-01-02 15:04")] from year 0 on. *)
Definition format_minute (unix : Z) : string :=
  let '(year, month, day) := civil_date (unix / 86400) in
  let seconds := unix mod 86400 in
  pad 4 year +:+ "-" +:+ pad 2 month +:+ "-" +:+ pad 2 day +:+ " " +:+ pad 2 (seconds / 3600) +:+ ":" +:+ pad 2 (seconds mod 3600 / 60).

(** [Duration.String]. *)
Fixpoint drop_zeros (s : string) : string :=
  match s with
  | EmptyString => ""
  | String c s => match drop_zeros s with "" => if Ascii.eqb c "0" then "" else String c "" | rest => String c rest end
  end.
(** [fmtFrac]: a number of units of [10^-prec]. *)
Definition fraction (prec : nat) (v : Z) : string :=
  let f := v mod 10 ^ Z.of_nat prec in
  if f =? 0 then "" else "." +:+ drop_zeros (pad prec f).
Definition microsecond_sign : string := String (ascii_of_nat 194) (String (ascii_of_nat 181) "s").
Definition duration_String (d : Z) : string :=
  let u := Z.abs d in
  let sign := if d <? 0 then "-" else "" in
  if u =? 0 then "0s" else
  if u <? 1000 then sign +:+ FormatInt u +:+ "ns" else
  if u <? 1000000 then sign +:+ FormatInt (u / 1000) +:+ fraction 3 u +:+ microsecond_sign else
  if u <? second then sign +:+ FormatInt (u / 1000000) +:+ fraction 6 u +:+ "ms" else
  let total := u / second in
  let seconds := FormatInt (total mod 60) +:+ fraction 9 u +:+ "s" in
  sign +:+ (if total <? 60 then seconds else
            if total <? 3600 then FormatInt (total / 60) +:+ "m" +:+ seconds
            else FormatInt (total / 3600) +:+ "h" +:+ FormatInt (total / 60 mod 60) +:+ "m" +:+ seconds).
(** [d.Round(time.Second)] of a positive duration. *)
Definition round_second (d : Z) : Z :=
  let r := d mod second in
  if r + r <? second then d - r else Z.min max_int64 (d - r + second).
(** [fmt.Sprintf("%.1f", float64(n) / (1 << 20))]: half to even; [float64] of a
    size is exact up to 2^53. *)
Definition format_mib (n : Z) : string :=
  let q := n * 10 / 1048576 in
  let r := n * 10 mod 1048576 in
  let tenths := if (524288 <? r) || ((r =? 524288) && Z.odd q) then q + 1 else q in
  FormatInt (tenths / 10) +:+ "." +:+ FormatInt (tenths mod 10).

Example format_cases :
  format_minute 1709210096 = "2024-02-29 12:34" ∧ duration_String (5025 * second) = "1h23m45s" ∧ duration_String 1500000 = "1.5ms" ∧
  duration_String (90 * 86400 * second) = "2160h0m0s" ∧ format_mib 1572864 = "1.5".
Proof. vm_compute. done. Qed.
