(* ===== verification/HttpClient.v ===== *)
(** * Outgoing requests: the parts of packages [net/http] and [encoding/json] the
    clients of other services use

    The network is a parameter, [HTTPClient]; so is the grammar of JSON. *)
From S2P Require Export World Encoding.

(** ** Decoding JSON into records: the part of package [encoding/json] in use

    The grammar of JSON is a parameter ([JSONParser]: a text and the value it
    is); what [Unmarshal] makes of a value for the fields of a struct is written
    out: members match a field by name up to case, a [null] leaves a field as it
    is, a value of another type is an error, and of repeated members the last
    counts. *)

(** A number keeps its literal. *)
Inductive json :=
| JNull
| JBool (b : bool)
| JNumber (literal : string)
| JString (s : string)
| JArray (values : list json)
| JObject (members : list (string * json)).
(** [json.Unmarshal] wants the whole text, [json.Decoder] takes its first value. *)
Class JSONParser := { json_text : string → option json; json_first : string → option json }.

(** [foldName]: ASCII case, and the two other runes that fold to ASCII letters,
    U+017F and U+212A. *)
Definition fold_byte (c : ascii) : ascii := if in_range 65 90 (byte_of c) then char_of (byte_of c + 32) else c.
Fixpoint fold_name (s : string) : string :=
  match s with
  | EmptyString => ""
  | String a s1 =>
    match s1 with
    | String b s2 =>
      if (byte_of a =? 197) && (byte_of b =? 191) then String "s" (fold_name s2) else
      match s2 with
      | String c s3 =>
        if (byte_of a =? 226) && (byte_of b =? 132) && (byte_of c =? 170) then String "k" (fold_name s3)
        else String (fold_byte a) (fold_name s1)
      | EmptyString => String (fold_byte a) (fold_name s1)
      end
    | EmptyString => String (fold_byte a) (fold_name s1)
    end
  end.
Definition names_field (field key : string) : bool := String.eqb (fold_name key) (fold_name field).

(** One field of a struct, from the members in order. *)
Fixpoint decode_field {A} (decode : A → json → option A) (field : string) (members : list (string * json)) (current : A) : option A :=
  match members with
  | [] => Some current
  | (key, value) :: members =>
    if names_field field key
    then match decode current value with Some current => decode_field decode field members current | None => None end
    else decode_field decode field members current
  end.
(** A struct: an object, or [null] for the zero value. *)
Definition decode_struct {A} (fields : list (string * json) → option A) (value : json) : option A :=
  match value with JObject members => fields members | JNull => fields [] | _ => None end.

(** ** Field types *)
Definition as_string (current : string) (v : json) : option string :=
  match v with JNull => Some current | JString s => Some s | _ => None end.
Definition as_bool (current : bool) (v : json) : option bool :=
  match v with JNull => Some current | JBool b => Some b | _ => None end.
Definition as_int64 (current : Z) (v : json) : option Z :=
  match v with JNull => Some current | JNumber n => ParseInt n | _ => None end.
(** A pointer: [null] is nil. *)
Definition as_string_pointer (_ : option string) (v : json) : option (option string) :=
  match v with JNull => Some None | JString s => Some (Some s) | _ => None end.
(** [json.RawMessage]: any value, kept. *)
Definition as_raw (_ : option json) (v : json) : option (option json) := Some (Some v).
(** A map to raw messages: [null] is nil, members are added. *)
Definition as_raw_map (current : option (gmap string json)) (v : json) : option (option (gmap string json)) :=
  match v with
  | JNull => Some None
  | JObject members => Some (Some (fold_left (λ m kv, <[kv.1 := kv.2]> m) members (match current with Some m => m | None => ∅ end)))
  | _ => None
  end.
(** A slice of structs, each from the zero value. *)
Fixpoint decode_all {A} (decode : json → option A) (values : list json) : option (list A) :=
  match values with
  | [] => Some []
  | v :: values => match decode v, decode_all decode values with Some a, Some xs => Some (a :: xs) | _, _ => None end
  end.
Definition as_list {A} (decode : json → option A) (_ : list A) (v : json) : option (list A) :=
  match v with JNull => Some [] | JArray values => decode_all decode values | _ => None end.

Example field_cases : decode_field as_string "kid" [("KID", JString "a"); ("Kid", JNull); ("k", JString "b")] "" = Some "a".
Proof. vm_compute. reflexivity. Qed.

(** ** Requests *)
(** What a request carries: nothing, an encoded form, or the JSON of a value. *)
Inductive content := NoBody | FormBody (fields : url_Values) | JSONBody (value : json).
Record HTTPRequest := mkHTTPRequest {
  http_Method : string; http_URL : string; http_Headers : list (string * string); http_BasicAuth : option (string * string);
  http_Content : content }.
Record HTTPResponse := mkHTTPResponse { http_Status : Z; http_Body : string }.
(** [http.Client.Do] with the body read; [None] when the request fails. *)
Class HTTPClient := { http_Do : HTTPRequest → M (option HTTPResponse) }.
