(* ===== verification/UserStore.v ===== *)
(** * Account storage: internal/store/postgres/users.go

    Each method is the statements it sends, in order, with the mapping of
    their errors.  [insert_user], [update_user] and [delete_user] are the SQL
    statements against the tables of [Schema]. *)
From S2P Require Export World.

Module UserRepository.
Section users.
Context `{Unicode, MailParser, Postgres}.

Definition mapUserError (e : error) : error :=
  if errors_Is e Canceled then Canceled
  else if errors_Is e DeadlineExceeded then DeadlineExceeded
  else if errors_Is e ErrNoRows || errors_Is e ErrNotFound then ErrUserNotFound
  else match errors_As_Pg e with
       | Some (code, constraint) =>
         if String.eqb code "23505" && String.eqb constraint "users_email_unique_idx"
         then ErrDuplicateEmail
         else if String.eqb code "23505" && String.eqb constraint "users_username_unique_idx"
         then ErrDuplicateUsername
         else ClassifyError e
       | None => ClassifyError e
       end.

Definition scanUser (row : User) : outcome User :=
  if (user_ID row <=? 0) || (user_Version row <? 0) then Err ErrInvalidData else Ok row.

(** A row passes the column constraints and the unique indexes. *)
Definition admit_user (row : User) (d : DB) : outcome unit :=
  match users_constraints row with
  | Err e => Err e
  | Ok _ => users_unique row (users d)
  end.

(** [INSERT INTO users ... RETURNING]. *)
Definition insert_user (u : User) (d : DB) : outcome (DB * User) :=
  let id := users_seq d + 1 in
  let row := mkUser id (user_Email u) (user_PasswordHash u) (user_Username u) (user_DisplayName u)
    (user_IsGuest u) (user_IsAdmin u) (user_Theme u) (user_Locale u) (user_CreatedAt u)
    (user_EmailVerifiedAt u) (user_Version u) in
  match admit_user row d with
  | Err e => Err e
  | Ok _ => Ok (set_users (<[id := row]> (users d)) id d, row)
  end.

(** [UPDATE users SET ..., version = version + 1 WHERE id = $10 AND version = $11 RETURNING]. *)
Definition update_user (u : User) (expectedVersion : Z) (d : DB) : outcome (DB * User) :=
  match users d !! user_ID u with
  | Some old =>
    if user_Version old =? expectedVersion then
      if max_int64 <? user_Version old + 1 then Err (PgError "22003" "") else
      let row := mkUser (user_ID old) (user_Email u) (user_PasswordHash u) (user_Username u)
        (user_DisplayName u) (user_IsGuest u) (user_IsAdmin u) (user_Theme u) (user_Locale u)
        (user_CreatedAt old) (user_EmailVerifiedAt u) (user_Version old + 1) in
      match admit_user row d with
      | Err e => Err e
      | Ok _ => Ok (set_users (<[user_ID u := row]> (users d)) (users_seq d) d, row)
      end
    else Err ErrNoRows
  | None => Err ErrNoRows
  end.

(** What the foreign keys do when a [users] row goes: ON DELETE CASCADE for
    dependent rows, ON DELETE SET NULL for history and group authorship. *)
Definition null_user (id : Z) (o : option Z) : option Z :=
  if bool_decide (o = Some id) then None else o.
Definition cascade_user (id : Z) (d : DB) : DB :=
  mkDB (delete id (users d)) (users_seq d)
    (filter (λ kv, session_UserID kv.2 ≠ id) (sessions d))
    (filter (λ kv, token_UserID kv.2.2 ≠ id) (email_tokens d))
    (filter (λ kv, token_UserID kv.2.2 ≠ id) (reset_tokens d))
    (tokens_seq d)
    (filter (λ kv, claim_UserID kv.2.2 ≠ id) (claim_codes d)) (claims_seq d)
    ((λ g, mkGroup (group_ID g) (group_Name g) (group_NameNorm g) (group_InviteCode g)
             (null_user id (group_CreatedBy g)) (group_CreatedAt g) (group_Version g)) <$> groups d)
    (groups_seq d)
    (filter (λ kv, kv.1.2 ≠ id) (group_members d)) (members_seq d)
    (filter (λ kv, identity_UserID kv.2 ≠ id) (oauth_identities d)) (identities_seq d)
    (rate_buckets d)
    ((λ a, mkAttempt (attempt_Email a) (null_user id (attempt_UserID a)) (attempt_IP a)
             (attempt_Outcome a) (attempt_CreatedAt a)) <$> login_attempts d)
    ((λ a, mkAudit (audit_OccurredAt a) (null_user id (audit_ActorUserID a)) (audit_ActorEmail a)
             (audit_Action a) (audit_TargetType a) (audit_TargetID a) (audit_Detail a) (audit_IP a))
       <$> audit_log d)
    (filter (λ kv, state_UserID kv.2.1 ≠ id) (oauth_states d))
    ((λ e, mkUsageEvent (usage_CreatedAt e) (usage_Method e) (usage_Route e) (usage_Status e)
             (usage_RequestID e) (usage_TraceID e) (null_user id (usage_UserID e)) (usage_IP e))
       <$> usage_events d)
    (filter (λ kv, login_UserID kv.2 ≠ id) (sso_login_sessions d)).

(** [DELETE FROM users WHERE id = $1 AND version = $2]: the rows affected. *)
Definition delete_user (id expectedVersion : Z) (d : DB) : outcome (DB * Z) :=
  match users d !! id with
  | Some u => if user_Version u =? expectedVersion then Ok (cascade_user id d, 1) else Ok (d, 0)
  | None => Ok (d, 0)
  end.

Definition is_administrator (u : User) : bool := user_IsAdmin u && negb (user_IsGuest u).

(** [SELECT is_admin AND NOT is_guest FROM users WHERE id = $1]. *)
Definition select_is_admin (id : Z) (d : DB) : outcome bool :=
  match users d !! id with Some u => Ok (is_administrator u) | None => Err ErrNoRows end.
(** [SELECT COUNT( * ) FROM users WHERE is_admin AND NOT is_guest AND id <> $1]. *)
Definition count_other_admins (id : Z) (d : DB) : Z :=
  count_rows (λ kv, is_administrator kv.2 && negb (kv.1 =? id)) (users d).

Definition keepAnotherAdministrator (id : Z) : M unit :=
  let! first := attempt (query (select_is_admin id)) in
  match first with
  | Ok false => ret tt
  | Err e => if errors_Is e ErrNoRows then ret tt else throw (mapUserError e)
  | Ok true =>
    map_err mapUserError (query (λ _, Ok tt)) ;;;
    let! others := map_err mapUserError (query (λ d, Ok (count_other_admins id d))) in
    let! again := attempt (query (select_is_admin id)) in
    match again with
    | Err e => if errors_Is e ErrNoRows then guard (others =? 0) ErrLastAdministrator
               else throw (mapUserError e)
    | Ok isAdmin => guard (isAdmin && (others =? 0)) ErrLastAdministrator
    end
  end.

Definition classifyMissingWrite (id : Z) : M User :=
  if id <=? 0 then throw ErrUserNotFound else
  let! exists_ := map_err mapUserError (query (λ d, Ok (user_exists d id))) in
  if negb exists_ then throw ErrUserNotFound else throw ErrOptimisticLockConflict.

Definition find (sql : DB → outcome User) : M User :=
  map_err mapUserError (let! row := query sql in lift (scanUser row)).

Definition CreateUser (user : User) : M User :=
  let user := if String.eqb (user_Theme user) "" then with_Theme "light" user else user in
  let user := if String.eqb (user_Locale user) "" then with_Locale "en" user else user in
  map_err mapUserError (let! row := statement (insert_user user) in lift (scanUser row)).

Definition FindUserByID (id : Z) : M User :=
  if id <=? 0 then throw ErrUserNotFound else
  find (λ d, match users d !! id with Some u => Ok u | None => Err ErrNoRows end).

Definition select_where (P : User → bool) (d : DB) : outcome User :=
  match find_row P (users d) with Some (_, u) => Ok u | None => Err ErrNoRows end.

Definition FindUserByEmail (email : string) : M User :=
  match NormalizeEmail email with
  | Ok normalized =>
    if String.eqb normalized "" then throw ErrUserNotFound
    else find (select_where (λ u, bool_decide (user_Email u = Some normalized)))
  | Err _ => throw ErrUserNotFound
  end.

Definition FindUserByUsername (username : string) : M User :=
  match NormalizeUsername username with
  | Ok normalized =>
    if String.eqb normalized "" then throw ErrUserNotFound
    else find (select_where (λ u, bool_decide (user_Username u = Some normalized)))
  | Err _ => throw ErrUserNotFound
  end.

(** The transaction of [UpdateUser]; [ErrNoRows] means no row had the
    expected revision. *)
Definition update_user_tx (user : User) (expectedVersion : Z) : M User :=
  transaction mapUserError (
    (if negb (user_IsAdmin user) || user_IsGuest user
     then keepAnotherAdministrator (user_ID user) else ret tt) ;;;
    map_err (λ e, if errors_Is e ErrNoRows then ErrNoRows else mapUserError e)
      (let! row := statement (update_user user expectedVersion) in lift (scanUser row))).

Definition UpdateUser (user : User) (expectedVersion : Z) : M User :=
  let! r := attempt (update_user_tx user expectedVersion) in
  match r with
  | Ok updated => ret updated
  | Err e => if errors_Is e ErrNoRows then classifyMissingWrite (user_ID user) else throw e
  end.

Definition delete_user_tx (id expectedVersion : Z) : M unit :=
  transaction mapUserError (
    keepAnotherAdministrator id ;;;
    let! rows := map_err mapUserError (statement (delete_user id expectedVersion)) in
    guard (negb (rows =? 1)) ErrNoRows).

Definition DeleteUser (id expectedVersion : Z) : M unit :=
  let! r := attempt (delete_user_tx id expectedVersion) in
  match r with
  | Ok _ => ret tt
  | Err e => if errors_Is e ErrNoRows
             then classifyMissingWrite id ;;; ret tt else throw e
  end.

(** ** Statements *)

Lemma mapUserError_not_NoRows e : errors_Is (mapUserError e) ErrNoRows = false.
Proof.
  assert (Hc : errors_Is (ClassifyError e) ErrNoRows = false).
  { destruct (ClassifyError_cases e) as (sn & -> & Hs).
    repeat (apply elem_of_cons in Hs as [->|Hs]; [done|]). by apply not_elem_of_nil in Hs. }
  unfold mapUserError. by repeat case_match.
Qed.

Lemma scanUser_ok row u : scanUser row = Ok u → u = row ∧ 0 < user_ID row ∧ 0 ≤ user_Version row.
Proof. unfold scanUser. case_match; [done|]. intros [= <-]. bool_props. done. Qed.

Lemma insert_user_ok u d d' row :
  insert_user u d = Ok (d', row) →
  d' = set_users (<[users_seq d + 1 := row]> (users d)) (users_seq d + 1) d ∧
  admit_user row d = Ok tt ∧ user_ID row = users_seq d + 1 ∧
  row = mkUser (users_seq d + 1) (user_Email u) (user_PasswordHash u) (user_Username u)
          (user_DisplayName u) (user_IsGuest u) (user_IsAdmin u) (user_Theme u) (user_Locale u)
          (user_CreatedAt u) (user_EmailVerifiedAt u) (user_Version u).
Proof.
  unfold insert_user. destruct (admit_user _ d) as [[]|] eqn:E; intros; simplify_eq. done.
Qed.

Lemma update_user_ok u v d d' row :
  update_user u v d = Ok (d', row) →
  ∃ old, users d !! user_ID u = Some old ∧ user_Version old = v ∧ v + 1 ≤ max_int64 ∧
    d' = set_users (<[user_ID u := row]> (users d)) (users_seq d) d ∧
    admit_user row d = Ok tt ∧
    row = mkUser (user_ID old) (user_Email u) (user_PasswordHash u) (user_Username u)
        (user_DisplayName u) (user_IsGuest u) (user_IsAdmin u) (user_Theme u) (user_Locale u)
        (user_CreatedAt old) (user_EmailVerifiedAt u) (v + 1).
Proof.
  unfold update_user. intros Hu. destruct (users d !! user_ID u) as [old|] eqn:E; [|done].
  destruct (user_Version old =? v) eqn:Ev; [|done].
  destruct (max_int64 <? user_Version old + 1) eqn:Eo; [done|].
  destruct (admit_user _ d) as [[]|] eqn:Ea; [|done]. bool_props. simplify_eq.
  eexists. split; [done|]. repeat split; auto; lia.
Qed.

Lemma delete_user_ok id v d d' n :
  delete_user id v d = Ok (d', n) →
  (n = 0 ∧ d' = d) ∨
  (n = 1 ∧ d' = cascade_user id d ∧ ∃ u, users d !! id = Some u ∧ user_Version u = v).
Proof.
  unfold delete_user. repeat case_match; intros; simplify_eq; bool_props; eauto.
  right. eauto.
Qed.

(** ** Methods *)

Lemma keepAnotherAdministrator_db id w : db (fst (keepAnotherAdministrator id w)) = db w.
Proof.
  symmetry. change (on_db eq w (fst (keepAnotherAdministrator id w))).
  revert w. change (preserves (on_db eq) (keepAnotherAdministrator id)).
  unfold keepAnotherAdministrator. preserves_tac.
Qed.

Lemma find_ok sql w w' u :
  find sql w = (w', Ok u) → db w' = db w ∧ sql (db w) = Ok u ∧ 0 < user_ID u.
Proof.
  unfold find. intros Hf. inv_db. unfold lift in *. simplify_eq.
  match goal with H : scanUser _ = Ok _ |- _ => apply scanUser_ok in H as (-> & ? & ?) end. done.
Qed.

Lemma FindUserByID_ok id w w' u :
  FindUserByID id w = (w', Ok u) → db w' = db w ∧ users (db w) !! id = Some u ∧ 0 < id ∧ 0 < user_ID u.
Proof.
  unfold FindUserByID. intros Hf. case_match eqn:E; [done|]. bool_props.
  apply find_ok in Hf as (? & Hs & ?). destruct (users (db w) !! id); simplify_eq. done.
Qed.

Lemma select_where_ok P d u : select_where P d = Ok u → ∃ k, users d !! k = Some u ∧ P u = true.
Proof.
  unfold select_where. destruct (find_row P (users d)) as [[k v]|] eqn:E; [|done].
  intros [= <-]. apply find_row_Some in E. eauto.
Qed.

Lemma FindUserByEmail_ok e w w' u :
  FindUserByEmail e w = (w', Ok u) →
  db w' = db w ∧ ∃ k n, NormalizeEmail e = Ok n ∧ n ≠ "" ∧ users (db w) !! k = Some u ∧ user_Email u = Some n ∧ 0 < user_ID u.
Proof.
  unfold FindUserByEmail. intros Hf. destruct (NormalizeEmail e) as [n|]; [|done].
  case_match eqn:E; [done|]. apply find_ok in Hf as (? & Hs & ?). apply select_where_ok in Hs as (k & ? & ?).
  bool_props. eauto 10.
Qed.

Lemma FindUserByUsername_ok n w w' u :
  FindUserByUsername n w = (w', Ok u) →
  db w' = db w ∧ ∃ k m, NormalizeUsername n = Ok m ∧ m ≠ "" ∧ users (db w) !! k = Some u ∧ user_Username u = Some m ∧ 0 < user_ID u.
Proof.
  unfold FindUserByUsername. intros Hf. destruct (NormalizeUsername n) as [m|]; [|done].
  case_match eqn:E; [done|]. apply find_ok in Hf as (? & Hs & ?). apply select_where_ok in Hs as (k & ? & ?).
  bool_props. eauto 10.
Qed.

Lemma CreateUser_ok u w w' row :
  CreateUser u w = (w', Ok row) →
  db w' = set_users (<[users_seq (db w) + 1 := row]> (users (db w))) (users_seq (db w) + 1) (db w) ∧
  users_unique row (users (db w)) = Ok tt ∧
  row = mkUser (users_seq (db w) + 1) (user_Email u) (user_PasswordHash u) (user_Username u)
          (user_DisplayName u) (user_IsGuest u) (user_IsAdmin u)
          (if String.eqb (user_Theme u) "" then "light" else user_Theme u)
          (if String.eqb (user_Locale u) "" then "en" else user_Locale u)
          (user_CreatedAt u) (user_EmailVerifiedAt u) (user_Version u).
Proof.
  unfold CreateUser. intros Hc. inv_db. unfold lift in *. simplify_eq.
  match goal with H : scanUser _ = Ok _ |- _ => apply scanUser_ok in H as (-> & _) end.
  match goal with H : insert_user _ _ = Ok _ |- _ => apply insert_user_ok in H as (Hd & Ha & _ & Hr) end.
  unfold admit_user in Ha. destruct (users_constraints _) as [[]|]; [|done].
  split_and!; [done|done|]. rewrite Hr. by destruct (String.eqb (user_Theme u) ""), (String.eqb _ "").
Qed.

Lemma keepAnotherAdministrator_if (b : bool) id w w' u :
  (if b then keepAnotherAdministrator id else ret tt) w = (w', Ok u) → db w' = db w.
Proof.
  destruct b; [|by intros [= <- _]]. intros Hk. pose proof (keepAnotherAdministrator_db id w) as Hd.
  by rewrite Hk in Hd.
Qed.

(** A successful update replaced the row that had the expected revision. *)
Lemma UpdateUser_ok u v w w' row :
  UpdateUser u v w = (w', Ok row) →
  ∃ old, users (db w) !! user_ID u = Some old ∧ user_Version old = v ∧
    db w' = set_users (<[user_ID u := row]> (users (db w))) (users_seq (db w)) (db w) ∧
    row = mkUser (user_ID old) (user_Email u) (user_PasswordHash u) (user_Username u)
        (user_DisplayName u) (user_IsGuest u) (user_IsAdmin u) (user_Theme u) (user_Locale u)
        (user_CreatedAt old) (user_EmailVerifiedAt u) (v + 1).
Proof.
  unfold UpdateUser. intros Hu. apply bind_ok in Hu as (w1 & r & Hr & Hu). apply attempt_ok in Hr.
  destruct r as [upd|e].
  - apply ret_ok in Hu as [-> ->]. unfold update_user_tx in Hr. inv_db.
    match goal with H : (if _ then _ else _) _ = _ |- _ => apply keepAnotherAdministrator_if in H as Hd end.
    unfold lift in *. simplify_eq.
    match goal with H : scanUser _ = Ok _ |- _ => apply scanUser_ok in H as (-> & _) end.
    match goal with H : update_user _ _ _ = Ok _ |- _ => apply update_user_ok in H as (old & Ho & Hv & _ & Hdb & _ & Hrow) end.
    db_eqs. eauto 10.
  - case_match; [|done]. unfold classifyMissingWrite in Hu. case_match; [done|]. inv_ok. case_match; inv_ok.
Qed.

(** Whatever the answer, an update replaced that row or did nothing. *)
Lemma UpdateUser_effect u v w :
  db (fst (UpdateUser u v w)) = db w ∨
  ∃ old row, users (db w) !! user_ID u = Some old ∧ user_Version old = v ∧
    db (fst (UpdateUser u v w)) = set_users (<[user_ID u := row]> (users (db w))) (users_seq (db w)) (db w) ∧
    row = mkUser (user_ID old) (user_Email u) (user_PasswordHash u) (user_Username u)
        (user_DisplayName u) (user_IsGuest u) (user_IsAdmin u) (user_Theme u) (user_Locale u)
        (user_CreatedAt old) (user_EmailVerifiedAt u) (v + 1).
Proof.
  assert (Hrest : db (fst (UpdateUser u v w)) = db (fst (update_user_tx u v w))).
  { unfold UpdateUser, bind at 1, attempt. destruct (update_user_tx u v w) as [w1 [r|e]]; [done|].
    destruct (errors_Is e ErrNoRows); [|done]. unfold classifyMissingWrite. case_match; [done|].
    unfold bind, map_err. pose proof (query_db (λ d, Ok (user_exists d (user_ID u))) w1) as Hq.
    destruct (query _ w1) as [w2 [[]|]]; exact Hq. }
  rewrite Hrest. unfold update_user_tx.
  match goal with |- context [transaction ?f ?b w] => destruct (transaction_effect f b w) as [->|(w1 & w2 & row & Hd1 & Hr & ->)] end; [by left|right].
  inv_db. match goal with H : (if _ then _ else _) _ = _ |- _ => apply keepAnotherAdministrator_if in H as Hd end.
  unfold lift in *. simplify_eq.
  match goal with H : scanUser _ = Ok _ |- _ => apply scanUser_ok in H as (-> & _) end.
  match goal with H : update_user _ _ _ = Ok _ |- _ => apply update_user_ok in H as (old & Ho & Hv & _ & Hdb & _ & Hrow) end.
  rewrite Hd, Hd1 in *. eauto 10.
Qed.

Lemma users_constraints_version u : users_constraints u = Ok tt → 0 ≤ user_Version u.
Proof.
  intros Hc%first_violation_ok. rewrite !Forall_cons in Hc.
  destruct Hc as (_ & _ & _ & _ & _ & _ & _ & _ & _ & _ & _ & _ & Hc & _). apply check_ok in Hc. by bool_props.
Qed.
Lemma scanUser_stored u : 0 < user_ID u → users_constraints u = Ok tt → scanUser u = Ok u.
Proof.
  intros Hid Hc%users_constraints_version. unfold scanUser.
  by rewrite (proj2 (Z.leb_gt _ _) Hid), (proj2 (Z.ltb_ge _ _) Hc).
Qed.
Lemma find_run sql w :
  faults w = [] →
  find sql w = (w, match sql (db w) with
                   | Ok row => match scanUser row with Ok u => Ok u | Err e => Err (mapUserError e) end
                   | Err e => Err (mapUserError e)
                   end).
Proof.
  intros Hf. unfold find, map_err, bind. rewrite query_run by done.
  destruct (sql (db w)) as [row|]; [|done]. unfold lift. by destruct (scanUser row).
Qed.
End users.
End UserRepository.
