(* ===== verification/SessionStore.v ===== *)
(** * Session and single-use token storage

    internal/store/postgres/sessions.go and tokens.go.  Credentials are stored
    as SHA-256 hex digests; the hash itself is a parameter ([Crypto]). *)
From S2P Require Export World.

(** [sha256.Sum256], and its documented collision resistance: no two
    credentials with the same digest are ever presented. *)
Class Crypto := { sha256 : string → string }.
Class CryptoLaws `{Crypto} : Prop := {
  sha256_inj s t : sha256 s = sha256 t → s = t;
}.

(** A SHA-256 digest has 32 bytes. *)
Class DigestSize `{Crypto} : Prop := { sha256_length s : String.length (sha256 s) = 32%nat }.

Definition sessionDigest `{Crypto} (id : string) : string := hex_encode (sha256 id).
Definition tokenDigest `{Crypto} (value : string) : string := sessionDigest value.

Lemma sessionDigest_length `{DigestSize} id : String.length (sessionDigest id) = 64%nat.
Proof. unfold sessionDigest. by rewrite hex_encode_length, sha256_length. Qed.

Module SessionRepository.
Section sessions.
Context `{Crypto}.

Definition mapSessionError (e : error) : error :=
  if errors_Is e Canceled then Canceled
  else if errors_Is e DeadlineExceeded then DeadlineExceeded
  else if errors_Is e ErrSessionNotFound || errors_Is e ErrNoRows then ErrSessionNotFound
  else match errors_As_Pg e with
       | Some (code, _) => if String.eqb code "23505" then ErrConflict else ClassifyError e
       | None => ClassifyError e
       end.

Definition scanSession (row : Session) : outcome Session :=
  if String.eqb (session_ID row) "" || (64 <? len (session_ID row)) || (session_UserID row <=? 0)
     || (session_ExpiresAt row <=? session_CreatedAt row)
  then Err ErrInvalidData
  else Ok (mkSession (session_ID row) (session_UserID row) (session_CreatedAt row)
             (session_ExpiresAt row) (session_RevokedAt row) "" "").

(** [lockUserSessions]: an advisory lock, no rows. *)
Definition lockUserSessions : M unit := query (λ _, Ok tt).

(** [INSERT INTO sessions]. *)
Definition insert_session (row : Session) (d : DB) : outcome (DB * unit) :=
  match sessions_constraints row with
  | Err e => Err e
  | Ok _ =>
    match sessions d !! session_ID row with
    | Some _ => Err (PgError "23505" "sessions_pkey")
    | None =>
      match foreign_key (user_exists d (session_UserID row)) "sessions_user_id_fk" with
      | Err e => Err e
      | Ok _ => Ok (set_sessions (<[session_ID row := row]> (sessions d)) d, tt)
      end
    end
  end.

Definition CreateSession (s : Session) : M unit :=
  if String.eqb (session_ID s) "" || (64 <? len (session_ID s)) || (session_UserID s <=? 0)
  then throw ErrInvalidData else
  transaction mapSessionError (map_err mapSessionError (
    lockUserSessions ;;;
    statement (insert_session (with_SessionID (sessionDigest (session_ID s)) s)))).

Definition FindSession (id : string) : M Session :=
  if String.eqb id "" || (64 <? len id) then throw ErrSessionNotFound else
  let! row := map_err mapSessionError (
    let! row := query (λ d, match sessions d !! sessionDigest id with
                            | Some s => Ok s | None => Err ErrSessionNotFound end) in
    lift (scanSession row)) in
  ret (with_SessionID id row).

(** [UPDATE sessions SET revoked_at = COALESCE(revoked_at, $2)]. *)
Definition coalesce_revoked (now : Z) (s : Session) : Session :=
  with_RevokedAt (match session_RevokedAt s with Some t => Some t | None => Some now end) s.

Definition revoke_session (digest : string) (now : Z) (d : DB) : outcome (DB * Z) :=
  match sessions d !! digest with
  | Some s => Ok (set_sessions (<[digest := coalesce_revoked now s]> (sessions d)) d, 1)
  | None => Ok (d, 0)
  end.

Definition RevokeSession (id : string) (revokedAt : Z) : M unit :=
  if String.eqb id "" || (64 <? len id) then throw ErrSessionNotFound else
  let! rows := map_err mapSessionError (statement (revoke_session (sessionDigest id) revokedAt)) in
  guard (rows =? 0) ErrSessionNotFound.

Definition revoke_user_sessions (userID now : Z) (d : DB) : outcome (DB * unit) :=
  Ok (set_sessions ((λ s, if session_UserID s =? userID then coalesce_revoked now s else s)
                      <$> sessions d) d, tt).

Definition RevokeUserSessions (userID : Z) : M unit :=
  if userID <=? 0 then throw ErrInvalidSessionUserID else
  transaction mapSessionError (
    map_err mapSessionError lockUserSessions ;;;
    let! now := unix_now in
    map_err mapSessionError (statement (revoke_user_sessions userID now))).

(** [WHERE user_id = $1 AND revoked_at IS NULL AND expires_at > $2]. *)
Definition is_active (userID now : Z) (s : Session) : bool :=
  (session_UserID s =? userID) && is_nil (session_RevokedAt s) && (now <? session_ExpiresAt s).

Definition CountActiveSessions (userID : Z) : M Z :=
  if userID <=? 0 then throw ErrInvalidSessionUserID else
  let! now := unix_now in
  map_err mapSessionError
    (query (λ d, Ok (count_rows (λ kv, is_active userID now kv.2) (sessions d)))).

(** [UPDATE sessions SET revoked_at = $2 WHERE sso_sid = $1 AND revoked_at IS NULL]. *)
Definition bound_to (sid : string) (s : Session) : bool :=
  String.eqb (session_SSOSessionID s) sid && is_nil (session_RevokedAt s).
Definition revoke_sso_sessions (sid : string) (now : Z) (d : DB) : outcome (DB * Z) :=
  match text_param sid with
  | Err e => Err e
  | Ok _ =>
    Ok (set_sessions ((λ s, if bound_to sid s then with_RevokedAt (Some now) s else s) <$> sessions d) d,
        count_rows (λ kv, bound_to sid kv.2) (sessions d))
  end.
Definition RevokeSSOSessions (sid : string) (revokedAt : Z) : M Z :=
  if String.eqb sid "" || (128 <? len sid) then throw ErrInvalidData else
  map_err mapSessionError (statement (revoke_sso_sessions sid revokedAt)).

Definition FindSSOIDToken (id : string) : M string :=
  if String.eqb id "" || (64 <? len id) then throw ErrSessionNotFound else
  map_err (λ e, if errors_Is e ErrNoRows then ErrSessionNotFound else mapSessionError e)
    (query (λ d, match sessions d !! sessionDigest id with
                 | Some s => Ok (session_SSOIDToken s) | None => Err ErrNoRows end)).

(** ** Statements and methods *)

Lemma insert_session_ok row d d' u :
  insert_session row d = Ok (d', u) →
  sessions d !! session_ID row = None ∧ user_exists d (session_UserID row) = true ∧
  sessions_constraints row = Ok tt ∧
  d' = set_sessions (<[session_ID row := row]> (sessions d)) d.
Proof.
  unfold insert_session, foreign_key. intros Hi.
  destruct (sessions_constraints row) as [[]|]; [|done].
  destruct (sessions d !! session_ID row); [done|].
  destruct (user_exists _ _); simplify_eq. done.
Qed.

Lemma CreateSession_ok s w w' :
  CreateSession s w = (w', Ok tt) →
  let row := with_SessionID (sessionDigest (session_ID s)) s in
  sessions (db w) !! sessionDigest (session_ID s) = None ∧
  user_exists (db w) (session_UserID s) = true ∧ sessions_constraints row = Ok tt ∧
  db w' = set_sessions (<[sessionDigest (session_ID s) := row]> (sessions (db w))) (db w).
Proof.
  unfold CreateSession, lockUserSessions. intros Hc. case_match; [done|]. inv_db.
  match goal with H : insert_session _ _ = _ |- _ => apply insert_session_ok in H end.
  destruct_and!. db_eqs. done.
Qed.

Lemma later_CreateSession x : preserves later (CreateSession x).
Proof. unfold CreateSession. case_match; preserves_tac. apply later_transaction. preserves_tac. Qed.

Lemma FindSession_ok id w w' s :
  FindSession id w = (w', Ok s) →
  db w' = db w ∧ ∃ row, sessions (db w) !! sessionDigest id = Some row ∧
    session_ID s = id ∧ session_UserID s = session_UserID row ∧
    session_CreatedAt s = session_CreatedAt row ∧ session_ExpiresAt s = session_ExpiresAt row ∧
    session_RevokedAt s = session_RevokedAt row.
Proof.
  unfold FindSession. intros Hf. case_match; [done|]. inv_db.
  repeat match goal with H : lift _ _ = _ |- _ => unfold lift in H end. simplify_eq.
  split; [done|]. case_match; [|done]. unfold scanSession in *. case_match; [done|].
  simplify_eq. eauto 10.
Qed.

Lemma RevokeUserSessions_ok userID w w' :
  RevokeUserSessions userID w = (w', Ok tt) →
  ∃ now, db w' = set_sessions ((λ s, if session_UserID s =? userID then coalesce_revoked now s else s)
                                 <$> sessions (db w)) (db w).
Proof.
  unfold RevokeUserSessions, lockUserSessions. intros Hr. case_match; [done|]. inv_db.
  match goal with H : unix_now _ = _ |- _ => apply unix_now_ok in H as (? & ? & ?) end.
  unfold revoke_user_sessions in *. simplify_eq. eexists.
  db_eqs. done.
Qed.
End sessions.
End SessionRepository.
