(* ===== verification/TokenStore.v ===== *)
(** * Confirmation and password-reset links: internal/store/postgres/tokens.go *)
From S2P Require Export SessionStore.

Module TokenRepository.
Section tokens.
Context `{Crypto}.

Definition mapTokenError (e : error) (notFound : sentinel) : error :=
  if errors_Is e Canceled then Canceled
  else if errors_Is e DeadlineExceeded then DeadlineExceeded
  else if errors_Is e ErrNoRows || errors_Is e ErrNotFound then notFound
  else ClassifyError e.

Definition scanToken (t : Token) : outcome Token :=
  if (token_UserID t <=? 0) || String.eqb (token_Token t) "" || (64 <? len (token_Token t))
     || (token_ExpiresAt t <=? token_CreatedAt t)
  then Err ErrInvalidData else Ok t.

(** ** Statements, on one token table *)

Abbreviation table := (gmap string (Z * Token)).

Definition insert_token (row : Token) (t : table) (seq : Z) (d : DB) : outcome (table * Z) :=
  match tokens_constraints row with
  | Err e => Err e
  | Ok _ =>
    match t !! token_Token row with
    | Some _ => Err (PgError "23505" "token_key")
    | None =>
      match foreign_key (user_exists d (token_UserID row)) "tokens_user_id_fk" with
      | Err e => Err e
      | Ok _ => Ok (<[token_Token row := (seq + 1, row)]> t, seq + 1)
      end
    end
  end.

(** [consumed_at IS NULL AND expires_at > $2]. *)
Definition usable (now : Z) (t : Token) : bool :=
  is_nil (token_ConsumedAt t) && (now <? token_ExpiresAt t).

(** [UPDATE ... SET consumed_at = $2 WHERE token = $1 AND usable RETURNING]. *)
Definition consume_token (digest : string) (now : Z) (t : table) : outcome (table * Token) :=
  match t !! digest with
  | Some (i, row) =>
    if usable now row
    then Ok (<[digest := (i, with_ConsumedAt (Some now) row)]> t, with_ConsumedAt None row)
    else Err ErrNoRows
  | None => Err ErrNoRows
  end.

(** [ORDER BY expires_at DESC, id DESC LIMIT 1]. *)
Definition newer (a b : Z * Token) : bool :=
  (token_ExpiresAt b.2 <? token_ExpiresAt a.2)
  || ((token_ExpiresAt b.2 =? token_ExpiresAt a.2) && (b.1 <? a.1)).
Definition newest (userID now : Z) (t : table) : option (Z * Token) :=
  foldr (λ row best,
           if (token_UserID row.2 =? userID) && usable now row.2
           then match best with
                | Some b => if newer row b then Some row else best
                | None => Some row
                end
           else best) None (snd <$> map_to_list t).

(** ** EmailConfirmationTokenRepository *)

Definition CreateEmailConfirmationToken (token : Token) : M unit :=
  map_err (λ e, mapTokenError e ErrEmailConfirmationTokenNotFound) (statement (λ d,
    match insert_token (with_Token (tokenDigest (token_Token token)) token)
            (email_tokens d) (tokens_seq d) d with
    | Ok (t, seq) => Ok (set_email_tokens t seq d, tt)
    | Err e => Err e
    end)).

Definition consume_email (digest : string) (now : Z) (d : DB) : outcome (DB * Token) :=
  match consume_token digest now (email_tokens d) with
  | Ok (t, row) => Ok (set_email_tokens t (tokens_seq d) d, row)
  | Err e => Err e
  end.
Definition ConsumeEmailConfirmationToken (token : string) (now : Z) : M Token :=
  let! consumed := map_err (λ e, mapTokenError e ErrEmailConfirmationTokenNotFound)
    (let! row := statement (consume_email (tokenDigest token) now) in lift (scanToken row)) in
  ret (with_Token token consumed).

Definition FindActiveEmailConfirmationToken (userID now : Z) : M Token :=
  if userID <=? 0 then throw ErrEmailConfirmationTokenNotFound else
  map_err (λ e, mapTokenError e ErrEmailConfirmationTokenNotFound)
    (let! row := query (λ d, match newest userID now (email_tokens d) with
                             | Some (_, row) => Ok row | None => Err ErrNoRows end) in
     lift (scanToken row)).

(** ** PasswordResetTokenRepository *)

Definition CreatePasswordResetToken (token : Token) : M unit :=
  map_err (λ e, mapTokenError e ErrPasswordResetTokenNotFound) (statement (λ d,
    match insert_token (with_Token (tokenDigest (token_Token token)) token)
            (reset_tokens d) (tokens_seq d) d with
    | Ok (t, seq) => Ok (set_reset_tokens t seq d, tt)
    | Err e => Err e
    end)).

Definition consume_reset (digest : string) (now : Z) (d : DB) : outcome (DB * Token) :=
  match consume_token digest now (reset_tokens d) with
  | Ok (t, row) => Ok (set_reset_tokens t (tokens_seq d) d, row)
  | Err e => Err e
  end.
Definition ConsumePasswordResetToken (token : string) (now : Z) : M Token :=
  let! consumed := map_err (λ e, mapTokenError e ErrPasswordResetTokenNotFound)
    (let! row := statement (consume_reset (tokenDigest token) now) in lift (scanToken row)) in
  ret (with_Token token consumed).

(** ** Facts *)

Lemma consume_token_ok digest now t t' row :
  consume_token digest now t = Ok (t', row) →
  ∃ i old, t !! digest = Some (i, old) ∧ usable now old = true ∧
    row = with_ConsumedAt None old ∧
    t' = <[digest := (i, with_ConsumedAt (Some now) old)]> t.
Proof.
  unfold consume_token. intros Hc. destruct (t !! digest) as [[i old]|] eqn:E; [|done].
  destruct (usable now old) eqn:Eu; [|done]. simplify_eq. by exists i, old.
Qed.

(** Once consumed, a link is not usable at any time. *)
Lemma consumed_not_usable digest now now' i old (t : table) :
  consume_token digest now' (<[digest := (i, with_ConsumedAt (Some now) old)]> t) = Err ErrNoRows.
Proof. unfold consume_token. by rewrite lookup_insert_eq. Qed.

Lemma scanToken_ok t r : scanToken t = Ok r → r = t ∧ 0 < token_UserID t.
Proof. unfold scanToken. case_match; intros; simplify_eq. bool_props. done. Qed.

Lemma ConsumePasswordResetToken_ok token now w w' t :
  ConsumePasswordResetToken token now w = (w', Ok t) →
  ∃ i old, reset_tokens (db w) !! tokenDigest token = Some (i, old) ∧ usable now old = true ∧
    0 < token_UserID old ∧ t = with_Token token (with_ConsumedAt None old) ∧
    db w' = set_reset_tokens
              (<[tokenDigest token := (i, with_ConsumedAt (Some now) old)]> (reset_tokens (db w)))
              (tokens_seq (db w)) (db w).
Proof.
  unfold ConsumePasswordResetToken. intros Hc. inv_db. unfold lift in *. simplify_eq.
  unfold consume_reset in *. destruct (consume_token _ _ _) as [[t' row]|] eqn:E; simplify_eq.
  apply consume_token_ok in E as (i & old & Hl & Hu & -> & ->).
  match goal with H : scanToken _ = _ |- _ => apply scanToken_ok in H as [-> ?] end.
  simpl in *. eauto 10.
Qed.

Lemma ConsumeEmailConfirmationToken_ok token now w w' t :
  ConsumeEmailConfirmationToken token now w = (w', Ok t) →
  ∃ i old, email_tokens (db w) !! tokenDigest token = Some (i, old) ∧ usable now old = true ∧
    0 < token_UserID old ∧ t = with_Token token (with_ConsumedAt None old) ∧
    db w' = set_email_tokens
              (<[tokenDigest token := (i, with_ConsumedAt (Some now) old)]> (email_tokens (db w)))
              (tokens_seq (db w)) (db w).
Proof.
  unfold ConsumeEmailConfirmationToken. intros Hc. inv_db. unfold lift in *. simplify_eq.
  unfold consume_email in *. destruct (consume_token _ _ _) as [[t' row]|] eqn:E; simplify_eq.
  apply consume_token_ok in E as (i & old & Hl & Hu & -> & ->).
  match goal with H : scanToken _ = _ |- _ => apply scanToken_ok in H as [-> ?] end.
  simpl in *. eauto 10.
Qed.
End tokens.
End TokenRepository.
