(* ===== verification/GroupStore.v ===== *)
(** * Group and membership storage: internal/store/postgres/groups.go *)
From S2P Require Export World.

(** [GroupMember], [GroupSummary] of service/group.go. *)
Record GroupMember := mkGroupMember {
  roster_UserID : Z;
  roster_Role : string;
  roster_Version : Z;
  roster_Username : option string;
  roster_DisplayName : option string;
  roster_Email : option string;
}.
Record GroupSummary := mkSummary {
  summary_Group : Group;
  summary_MemberCount : Z;
  summary_Role : string;
}.

Module GroupRepository.
Section groups.
Context `{Postgres}.

Definition mapGroupError (e : error) : error :=
  if errors_Is e Canceled then Canceled
  else if errors_Is e DeadlineExceeded then DeadlineExceeded
  else if errors_Is e ErrGroupNotFound || errors_Is e ErrNoRows then ErrGroupNotFound
  else match errors_As_Pg e with
       | Some (code, constraint) =>
         if String.eqb code "23505" then
           if String.eqb constraint "groups_invite_code_key"
              || String.eqb constraint "groups_invite_code_unique_idx" then ErrGroupInviteTaken
           else if String.eqb constraint "group_members_group_user_unique" then ErrMembershipExists
           else ErrConflict
         else ClassifyError e
       | None => ClassifyError e
       end.

Definition mapMembershipError (e : error) : error :=
  if errors_Is e Canceled then Canceled
  else if errors_Is e DeadlineExceeded then DeadlineExceeded
  else if errors_Is e ErrMembershipNotFound || errors_Is e ErrNoRows then ErrMembershipNotFound
  else match errors_As_Pg e with
       | Some (code, _) => if String.eqb code "23505" then ErrMembershipExists else ClassifyError e
       | None => ClassifyError e
       end.

(** [findGroup]: scan one row. *)
Definition scanGroup (g : Group) : outcome Group :=
  if (group_ID g <=? 0) || (group_Version g <? 0) || String.eqb (group_Name g) ""
     || String.eqb (group_NameNorm g) "" || String.eqb (group_InviteCode g) ""
  then Err ErrInvalidData else Ok g.
Definition findGroup (row : M Group) : M Group :=
  let! g := map_err mapGroupError row in lift (scanGroup g).

Definition scanMembership (m : GroupMembership) : outcome GroupMembership :=
  if (member_ID m <=? 0) || (member_GroupID m <=? 0) || (member_UserID m <=? 0) || (member_Version m <? 0)
  then Err ErrInvalidData
  else if negb (String.eqb (member_Role m) GroupRoleAdmin)
          && negb (String.eqb (member_Role m) GroupRoleMember)
  then Err ErrInvalidData
  else Ok m.

(** ** Statements *)

Definition groups_unique (g : Group) (t : gmap Z Group) : outcome unit :=
  if taken_by_other (group_ID g) (λ g, Some (group_InviteCode g)) group_ID
       (Some (group_InviteCode g)) t
  then Err (PgError "23505" "groups_invite_code_key") else Ok tt.

Definition insert_group (g : Group) (d : DB) : outcome (DB * Group) :=
  let id := groups_seq d + 1 in
  let row := mkGroup id (group_Name g) (group_NameNorm g) (group_InviteCode g) (group_CreatedBy g)
    (group_CreatedAt g) (group_Version g) in
  match first_violation
          [groups_constraints row; groups_unique row (groups d);
           foreign_key (match group_CreatedBy g with Some u => user_exists d u | None => true end)
             "groups_created_by_fk"] with
  | Err e => Err e
  | Ok _ => Ok (set_groups (<[id := row]> (groups d)) id d, row)
  end.

Definition update_group (g : Group) (expectedVersion : Z) (d : DB) : outcome (DB * Group) :=
  match groups d !! group_ID g with
  | Some old =>
    if group_Version old =? expectedVersion then
      if max_int64 <? group_Version old + 1 then Err (PgError "22003" "") else
      let row := mkGroup (group_ID old) (group_Name g) (group_NameNorm g) (group_InviteCode g)
        (group_CreatedBy old) (group_CreatedAt old) (group_Version old + 1) in
      match first_violation [groups_constraints row; groups_unique row (groups d)] with
      | Err e => Err e
      | Ok _ => Ok (set_groups (<[group_ID g := row]> (groups d)) (groups_seq d) d, row)
      end
    else Err ErrNoRows
  | None => Err ErrNoRows
  end.

Definition insert_member (groupID userID : Z) (role : string) (createdAt version : Z) (d : DB)
    : outcome (DB * GroupMembership) :=
  let id := members_seq d + 1 in
  let row := mkMembership id groupID userID role createdAt version in
  match first_violation
          [members_constraints row;
           match group_members d !! (groupID, userID) with
           | Some _ => Err (PgError "23505" "group_members_group_user_unique") | None => Ok tt end;
           foreign_key (group_exists d groupID) "group_members_group_id_fk";
           foreign_key (user_exists d userID) "group_members_user_id_fk"] with
  | Err e => Err e
  | Ok _ => Ok (set_group_members (<[(groupID, userID) := row]> (group_members d)) id d, row)
  end.

Definition select_member (groupID userID : Z) (d : DB) : outcome GroupMembership :=
  match group_members d !! (groupID, userID) with Some m => Ok m | None => Err ErrNoRows end.

Definition update_role (role : string) (groupID userID expectedVersion : Z) (d : DB)
    : outcome (DB * GroupMembership) :=
  match group_members d !! (groupID, userID) with
  | Some m =>
    if member_Version m =? expectedVersion then
      if max_int64 <? member_Version m + 1 then Err (PgError "22003" "") else
      let row := mkMembership (member_ID m) (member_GroupID m) (member_UserID m) role
        (member_CreatedAt m) (member_Version m + 1) in
      match members_constraints row with
      | Err e => Err e
      | Ok _ => Ok (set_group_members (<[(groupID, userID) := row]> (group_members d)) (members_seq d) d, row)
      end
    else Err ErrNoRows
  | None => Err ErrNoRows
  end.

Definition delete_member (groupID userID expectedVersion : Z) (d : DB) : outcome (DB * Z) :=
  match group_members d !! (groupID, userID) with
  | Some m => if member_Version m =? expectedVersion
              then Ok (set_group_members (delete (groupID, userID) (group_members d)) (members_seq d) d, 1)
              else Ok (d, 0)
  | None => Ok (d, 0)
  end.

(** [role = 'admin' AND group_id = $1 AND user_id <> $2]. *)
Definition is_other_admin (groupID excludeUserID : Z) (kv : Z * Z * GroupMembership) : bool :=
  (kv.1.1 =? groupID) && negb (kv.1.2 =? excludeUserID) && String.eqb (member_Role kv.2) GroupRoleAdmin.
Definition count_other_admins (groupID excludeUserID : Z) (d : DB) : Z :=
  count_rows (is_other_admin groupID excludeUserID) (group_members d).
Definition count_members (groupID : Z) (d : DB) : Z :=
  count_rows (λ kv, kv.1.1 =? groupID) (group_members d).

(** ** GroupRepository *)

Definition createGroup (g : Group) : M Group := findGroup (statement (insert_group g)).
Definition CreateGroup (g : Group) : M Group := createGroup g.

Definition FindGroupByID (id : Z) : M Group :=
  if id <=? 0 then throw ErrGroupNotFound else
  findGroup (query (λ d, match groups d !! id with Some g => Ok g | None => Err ErrNoRows end)).

Definition FindGroupByInviteCode (code : string) : M Group :=
  if String.eqb code "" then throw ErrGroupInviteNotFound else
  findGroup (query (λ d,
    match find_row (λ g, String.eqb (group_InviteCode g) code) (groups d) with
    | Some (_, g) => Ok g | None => Err ErrNoRows end)).

(** [ORDER BY g.name_norm, g.id], as an insertion into a sorted list. *)
Definition summary_le (a b : GroupSummary) : bool :=
  match sql_text_compare (group_NameNorm (summary_Group a)) (group_NameNorm (summary_Group b)) with
  | Lt => true
  | Eq => group_ID (summary_Group a) <=? group_ID (summary_Group b)
  | Gt => false
  end.
Definition summary_rel : relation GroupSummary := λ a b, summary_le a b = true.
#[global] Instance summary_rel_dec : RelDecision summary_rel := λ a b, decide (summary_le a b = true).
Definition order_summaries (l : list GroupSummary) : list GroupSummary := merge_sort summary_rel l.

Definition summary_for (d : DB) (userID : Z) (kg : Z * Group) : option GroupSummary :=
  match group_members d !! (kg.1, userID) with
  | Some m => Some (mkSummary kg.2 (count_members kg.1 d) (member_Role m))
  | None => None
  end.
Definition ListGroupsForUser (userID : Z) : M (list GroupSummary) :=
  if userID <=? 0 then throw ErrInvalidUserID else
  map_err mapGroupError (query (λ d,
    Ok (order_summaries (omap (summary_for d userID) (map_to_list (groups d)))))).

Definition ListAllGroupsForUser (userID : Z) : M (list GroupSummary) :=
  if userID <=? 0 then throw ErrInvalidUserID else
  map_err mapGroupError (query (λ d,
    Ok (order_summaries ((λ kg, match summary_for d userID kg with
                                | Some s => s
                                | None => mkSummary kg.2 (count_members kg.1 d) ""
                                end) <$> map_to_list (groups d))))).

Definition classifyMissingWrite (id : Z) : M Group :=
  if id <=? 0 then throw ErrGroupNotFound else
  let! exists_ := map_err mapGroupError (query (λ d, Ok (group_exists d id))) in
  if negb exists_ then throw ErrGroupNotFound else throw ErrOptimisticLockConflict.

Definition UpdateGroup (g : Group) (expectedVersion : Z) : M Group :=
  let! r := attempt (findGroup (statement (update_group g expectedVersion))) in
  match r with
  | Ok updated => ret updated
  | Err e => if negb (errors_Is e ErrGroupNotFound) then throw e else classifyMissingWrite (group_ID g)
  end.

(** ** GroupMembershipRepository *)

Definition CreateGroupWithAdmin (g : Group) (userID : Z) (role : string) : M (Group * GroupMembership) :=
  transaction mapGroupError (
    let! created := createGroup g in
    let! membership := map_err mapGroupError (
      let! m := statement (insert_member (group_ID created) userID role (group_CreatedAt created) 0) in
      lift (scanMembership m)) in
    ret (created, membership)).

Definition CreateMembership (m : GroupMembership) : M GroupMembership :=
  map_err mapMembershipError (
    let! row := statement (insert_member (member_GroupID m) (member_UserID m) (member_Role m)
                             (member_CreatedAt m) (member_Version m)) in
    lift (scanMembership row)).

Definition FindMembership (groupID userID : Z) : M GroupMembership :=
  if (groupID <=? 0) || (userID <=? 0) then throw ErrMembershipNotFound else
  map_err mapMembershipError (
    let! row := query (select_member groupID userID) in lift (scanMembership row)).

(** [ORDER BY (role = 'admin') DESC, lower(display_name), lower(username), user_id];
    NULL sorts last. *)
Definition compare_nullable (a b : option string) : comparison :=
  match a, b with
  | Some a, Some b => sql_text_compare (sql_lower a) (sql_lower b)
  | Some _, None => Lt
  | None, Some _ => Gt
  | None, None => Eq
  end.
Definition roster_le (a b : GroupMember) : bool :=
  match String.eqb (roster_Role a) GroupRoleAdmin, String.eqb (roster_Role b) GroupRoleAdmin with
  | true, false => true
  | false, true => false
  | _, _ =>
    match compare_nullable (roster_DisplayName a) (roster_DisplayName b) with
    | Lt => true
    | Gt => false
    | Eq => match compare_nullable (roster_Username a) (roster_Username b) with
            | Lt => true
            | Gt => false
            | Eq => roster_UserID a <=? roster_UserID b
            end
    end
  end.
Definition roster_rel : relation GroupMember := λ a b, roster_le a b = true.
#[global] Instance roster_rel_dec : RelDecision roster_rel := λ a b, decide (roster_le a b = true).

(** [group_members gm JOIN users u ON u.id = gm.user_id WHERE gm.group_id = $1]. *)
Definition roster_row (groupID : Z) (d : DB) (kv : Z * Z * GroupMembership) : option GroupMember :=
  if kv.1.1 =? groupID then
    match users d !! kv.1.2 with
    | Some u => Some (mkGroupMember kv.1.2 (member_Role kv.2) (member_Version kv.2)
                        (user_Username u) (user_DisplayName u) (user_Email u))
    | None => None
    end
  else None.
Definition roster (groupID : Z) (d : DB) : list GroupMember :=
  merge_sort roster_rel (omap (roster_row groupID d) (map_to_list (group_members d))).
Definition ListMembers (groupID : Z) : M (list GroupMember) :=
  map_err mapMembershipError (query (λ d, Ok (roster groupID d))).

Definition CountMembers (groupID : Z) : M Z :=
  map_err mapMembershipError (query (λ d, Ok (count_members groupID d))).

Definition lockGroupMembers : M unit := query (λ _, Ok tt).

Definition ensureAnotherAdmin (groupID excludeUserID : Z) : M unit :=
  let! otherAdmins := map_err mapMembershipError
    (query (λ d, Ok (count_other_admins groupID excludeUserID d))) in
  guard (otherAdmins =? 0) ErrLastGroupAdmin.

Definition UpdateMembershipRole (m : GroupMembership) (expectedVersion : Z) : M GroupMembership :=
  transaction mapMembershipError (
    map_err mapMembershipError lockGroupMembers ;;;
    let! current := map_err mapMembershipError (query (select_member (member_GroupID m) (member_UserID m))) in
    (if String.eqb (member_Role current) GroupRoleAdmin && negb (String.eqb (member_Role m) GroupRoleAdmin)
     then ensureAnotherAdmin (member_GroupID m) (member_UserID m) else ret tt) ;;;
    map_err (λ e, if errors_Is e ErrNoRows then ErrOptimisticLockConflict else mapMembershipError e)
      (let! row := statement (update_role (member_Role m) (member_GroupID m) (member_UserID m) expectedVersion) in
       lift (scanMembership row))).

Definition DeleteMembership (groupID userID expectedVersion : Z) : M unit :=
  transaction mapMembershipError (
    map_err mapMembershipError lockGroupMembers ;;;
    let! current := map_err mapMembershipError (query (select_member groupID userID)) in
    (if String.eqb (member_Role current) GroupRoleAdmin
     then ensureAnotherAdmin groupID userID else ret tt) ;;;
    let! rows := map_err mapMembershipError (statement (delete_member groupID userID expectedVersion)) in
    guard (rows =? 0) ErrOptimisticLockConflict).
End groups.
End GroupRepository.
