(* ===== verification/GuestStore.v ===== *)
(** * Guest transfer codes and cleanup: internal/store/postgres/guest.go *)
From S2P Require Export UserStore.

Module GuestClaimCodeRepository.
Section guest.

Definition mapGuestClaimError (e : error) : error :=
  if errors_Is e Canceled then Canceled
  else if errors_Is e DeadlineExceeded then DeadlineExceeded
  else if errors_Is e ErrGuestClaimCodeNotFound || errors_Is e ErrNoRows then ErrGuestClaimCodeNotFound
  else match errors_As_Pg e with
       | Some (code, _) => if String.eqb code "23505" then ErrConflict else ClassifyError e
       | None => ClassifyError e
       end.

Definition scanGuestClaimCode (c : GuestClaimCode) : outcome GuestClaimCode :=
  if (claim_UserID c <=? 0) || String.eqb (claim_Code c) "" || (64 <? len (claim_Code c))
  then Err ErrInvalidData else Ok c.

(** ** Statements *)

Definition active_for (userID : Z) (row : Z * GuestClaimCode) : bool :=
  (claim_UserID row.2 =? userID) && is_nil (claim_RevokedAt row.2).

(** The partial unique index keeps at most one active code per account, so
    [ORDER BY id DESC LIMIT 1] picks it. *)
Definition select_active (userID : Z) (d : DB) : outcome GuestClaimCode :=
  match find_row (active_for userID) (claim_codes d) with
  | Some (_, row) => Ok row.2 | None => Err ErrNoRows end.

Definition select_code (code : string) (d : DB) : outcome GuestClaimCode :=
  match claim_codes d !! code with
  | Some row => if is_nil (claim_RevokedAt row.2) then Ok row.2 else Err ErrNoRows
  | None => Err ErrNoRows
  end.

Definition insert_claim (c : GuestClaimCode) (d : DB) : outcome (DB * GuestClaimCode) :=
  match first_violation
          [claims_constraints c;
           match claim_codes d !! claim_Code c with
           | Some _ => Err (PgError "23505" "guest_claim_codes_code_key") | None => Ok tt end;
           (if is_nil (claim_RevokedAt c) && negb (is_nil (find_row (active_for (claim_UserID c)) (claim_codes d)))
            then Err (PgError "23505" "guest_claim_codes_active_user_idx") else Ok tt);
           foreign_key (user_exists d (claim_UserID c)) "guest_claim_codes_user_id_fk"] with
  | Err e => Err e
  | Ok _ => Ok (set_claim_codes (<[claim_Code c := (claims_seq d + 1, c)]> (claim_codes d))
                  (claims_seq d + 1) d, c)
  end.

(** [last_used_at = GREATEST(COALESCE(last_used_at, $2), $2)]. *)
Definition mark_used (usedAt : Z) (c : GuestClaimCode) : GuestClaimCode :=
  mkClaim (claim_UserID c) (claim_Code c) (claim_CreatedAt c)
    (Some (Z.max (match claim_LastUsedAt c with Some t => t | None => usedAt end) usedAt))
    (claim_RevokedAt c).
Definition update_used (code : string) (usedAt : Z) (d : DB) : outcome (DB * Z) :=
  match claim_codes d !! code with
  | Some row =>
    if is_nil (claim_RevokedAt row.2)
    then Ok (set_claim_codes (<[code := (row.1, mark_used usedAt row.2)]> (claim_codes d)) (claims_seq d) d, 1)
    else Ok (d, 0)
  | None => Ok (d, 0)
  end.

Definition revoke_claim (now : Z) (c : GuestClaimCode) : GuestClaimCode :=
  mkClaim (claim_UserID c) (claim_Code c) (claim_CreatedAt c) (claim_LastUsedAt c) (Some now).
Definition revoke_active (userID now : Z) (d : DB) : outcome (DB * unit) :=
  Ok (set_claim_codes ((λ row, if active_for userID row then (row.1, revoke_claim now row.2) else row)
                         <$> claim_codes d) (claims_seq d) d, tt).

(** ** Methods *)

Definition FindActiveGuestClaimCode (userID : Z) : M GuestClaimCode :=
  if userID <=? 0 then throw ErrGuestClaimCodeNotFound else
  map_err mapGuestClaimError (let! c := query (select_active userID) in lift (scanGuestClaimCode c)).

Definition CreateGuestClaimCode (c : GuestClaimCode) : M GuestClaimCode :=
  if (claim_UserID c <=? 0) || String.eqb (claim_Code c) "" || (64 <? len (claim_Code c))
  then throw ErrInvalidData else
  map_err mapGuestClaimError (let! c := statement (insert_claim c) in lift (scanGuestClaimCode c)).

Definition FindGuestClaimCodeByCode (code : string) : M GuestClaimCode :=
  if String.eqb code "" then throw ErrGuestClaimCodeNotFound else
  map_err mapGuestClaimError (let! c := query (select_code code) in lift (scanGuestClaimCode c)).

Definition MarkGuestClaimCodeUsed (code : string) (usedAt : Z) : M unit :=
  if String.eqb code "" then throw ErrGuestClaimCodeNotFound else
  let! rows := map_err mapGuestClaimError (statement (update_used code usedAt)) in
  guard (rows =? 0) ErrGuestClaimCodeNotFound.

Definition RevokeGuestClaimCode (userID revokedAt : Z) : M unit :=
  if userID <=? 0 then ret tt else
  map_err mapGuestClaimError (statement (revoke_active userID revokedAt)).

(** ** DeleteEmptyAbandonedGuests *)

Definition abandoned (cutoff : Z) (u : User) : bool := user_IsGuest u && (user_CreatedAt u <? cutoff).
Definition candidates (cutoff : Z) (d : DB) : list Z :=
  fst <$> filter (λ kv, abandoned cutoff kv.2 = true) (map_to_list (users d)).
Definition has_membership (userID : Z) (d : DB) : bool :=
  0 <? count_rows (λ kv, kv.1.2 =? userID) (group_members d).
(** [DELETE FROM users WHERE id = $1]. *)
Definition delete_by_id (id : Z) (d : DB) : outcome (DB * Z) :=
  match users d !! id with
  | Some _ => Ok (UserRepository.cascade_user id d, 1)
  | None => Ok (d, 0)
  end.

Fixpoint delete_candidates (ids : list Z) (deleted : Z) : M Z :=
  match ids with
  | [] => ret deleted
  | userID :: ids =>
    let! hasMembership := map_err mapGuestClaimError (query (λ d, Ok (has_membership userID d))) in
    if hasMembership then delete_candidates ids deleted else
    let! affected := map_err mapGuestClaimError (statement (delete_by_id userID)) in
    delete_candidates ids (deleted + affected)
  end.

Definition DeleteEmptyAbandonedGuests (cutoff : Z) : M Z :=
  transaction mapGuestClaimError (
    let! ids := map_err mapGuestClaimError (query (λ d, Ok (candidates cutoff d))) in
    delete_candidates ids 0).
End guest.
End GuestClaimCodeRepository.
