(* ===== verification/OAuthStore.v ===== *)
(** * OAuth state, external identities, sign-in history, audit and usage storage

    internal/store/postgres/oauth.go, and the inserts of login_attempts.go,
    audit.go and usage.go. *)
From S2P Require Export SessionStore.

Module OAuthStateRepository.
Section states.
Context `{Unicode, Crypto}.

Definition mapOAuthStateError (e : error) : error :=
  if errors_Is e Canceled then Canceled
  else if errors_Is e DeadlineExceeded then DeadlineExceeded
  else if errors_Is e ErrOAuthStateInvalid || errors_Is e ErrNoRows then ErrOAuthStateInvalid
  else ClassifyError e.

Definition scanOAuthState (s : OAuthState) : outcome OAuthState :=
  if String.eqb (state_State s) "" || (64 <? len (state_State s)) || String.eqb (state_Provider s) ""
     || (32 <? len (state_Provider s)) || String.eqb (state_Action s) ""
     || (state_ExpiresAt s <=? state_CreatedAt s)
  then Err ErrInvalidData else Ok s.

(** [INSERT INTO oauth_states]; [consumed_at] starts NULL. *)
Definition insert_state (row : OAuthState) (d : DB) : outcome (DB * unit) :=
  match first_violation
          [oauth_states_constraints row;
           match oauth_states d !! state_State row with
           | Some _ => Err (PgError "23505" "oauth_states_pkey") | None => Ok tt end;
           foreign_key (if 0 <? state_UserID row then user_exists d (state_UserID row) else true)
             "oauth_states_user_id_fk"] with
  | Err e => Err e
  | Ok _ => Ok (set_oauth_states (<[state_State row := (row, None)]> (oauth_states d)) d, tt)
  end.

(** [UPDATE oauth_states SET consumed_at = $2 WHERE state = $1 AND consumed_at
    IS NULL AND expires_at > $2 RETURNING]. *)
Definition consume_state (digest : string) (now : Z) (d : DB) : outcome (DB * OAuthState) :=
  match oauth_states d !! digest with
  | Some (row, None) =>
    if now <? state_ExpiresAt row
    then Ok (set_oauth_states (<[digest := (row, Some now)]> (oauth_states d)) d, row)
    else Err ErrNoRows
  | _ => Err ErrNoRows
  end.

Definition CreateOAuthState (s : OAuthState) : M unit :=
  let s := mkOAuthState (state_State s) (ToLower (TrimSpace (state_Provider s))) (state_Action s)
    (state_UserID s) (state_CodeVerifier s) (state_CreatedAt s) (state_ExpiresAt s) in
  guard ((state_UserID s <? 0) || String.eqb (state_State s) "" || String.eqb (state_Provider s) ""
         || String.eqb (state_Action s) "") ErrInvalidData ;;;
  guard (128 <? len (state_CodeVerifier s)) ErrInvalidData ;;;
  map_err mapOAuthStateError (statement (insert_state (with_State (tokenDigest (state_State s)) s))).

Definition ConsumeOAuthState (state : string) (now : Z) : M OAuthState :=
  let! consumed := map_err (λ e, if errors_Is e ErrNoRows then ErrOAuthStateInvalid else mapOAuthStateError e)
    (let! row := statement (consume_state (tokenDigest state) now) in lift (scanOAuthState row)) in
  ret (with_State state consumed).

Lemma consume_state_ok digest now d d' row :
  consume_state digest now d = Ok (d', row) →
  oauth_states d !! digest = Some (row, None) ∧ now < state_ExpiresAt row ∧
  d' = set_oauth_states (<[digest := (row, Some now)]> (oauth_states d)) d.
Proof. unfold consume_state. repeat case_match; intros; simplify_eq; bool_props; done. Qed.

Lemma ConsumeOAuthState_ok state now w w' x :
  ConsumeOAuthState state now w = (w', Ok x) →
  ∃ row, oauth_states (db w) !! tokenDigest state = Some (row, None) ∧ now < state_ExpiresAt row ∧
    x = with_State state row ∧
    db w' = set_oauth_states (<[tokenDigest state := (row, Some now)]> (oauth_states (db w))) (db w).
Proof.
  unfold ConsumeOAuthState. intros Hc. inv_db.
  match goal with H : consume_state _ _ _ = _ |- _ => apply consume_state_ok in H as (? & ? & Hd) end.
  match goal with H : scanOAuthState ?r = Ok ?y |- _ =>
    unfold scanOAuthState in H; destruct (_ || _)%bool in H; inv_ok end.
  eauto 6.
Qed.
End states.
End OAuthStateRepository.

Module OAuthIdentityRepository.
Section identities.
Context `{Unicode}.

Definition canonicalProvider (provider : string) : string := ToLower (TrimSpace provider).

Definition mapOAuthIdentityError (e : error) : error :=
  if errors_Is e Canceled then Canceled
  else if errors_Is e DeadlineExceeded then DeadlineExceeded
  else if errors_Is e ErrOAuthIdentityNotFound || errors_Is e ErrNoRows then ErrOAuthIdentityNotFound
  else match errors_As_Pg e with
       | Some (code, constraint) =>
         if String.eqb code "23505" && String.eqb constraint "oauth_identities_provider_subject_unique"
         then ErrOAuthIdentityConflict else ClassifyError e
       | None => ClassifyError e
       end.

Definition scanOAuthIdentity (i : OAuthIdentity) : outcome OAuthIdentity :=
  if (identity_ID i <=? 0) || (identity_UserID i <=? 0) || String.eqb (identity_Provider i) ""
     || (32 <? len (identity_Provider i)) || String.eqb (identity_Subject i) ""
     || (255 <? len (identity_Subject i))
  then Err ErrInvalidData else Ok i.

Definition is_subject (provider subject : string) (i : OAuthIdentity) : bool :=
  String.eqb (identity_Provider i) provider && String.eqb (identity_Subject i) subject.

Definition insert_identity (i : OAuthIdentity) (d : DB) : outcome (DB * unit) :=
  let id := identities_seq d + 1 in
  let row := mkIdentity id (identity_UserID i) (identity_Provider i) (identity_Subject i)
    (identity_Email i) (identity_CreatedAt i) in
  match first_violation
          [identities_constraints row;
           match find_row (is_subject (identity_Provider i) (identity_Subject i)) (oauth_identities d) with
           | Some _ => Err (PgError "23505" "oauth_identities_provider_subject_unique") | None => Ok tt end;
           foreign_key (user_exists d (identity_UserID i)) "oauth_identities_user_id_fk"] with
  | Err e => Err e
  | Ok _ => Ok (set_oauth_identities (<[id := row]> (oauth_identities d)) id d, tt)
  end.

Definition delete_identity (identityID userID : Z) (d : DB) : outcome (DB * Z) :=
  match oauth_identities d !! identityID with
  | Some i => if identity_UserID i =? userID
              then Ok (set_oauth_identities (delete identityID (oauth_identities d)) (identities_seq d) d, 1)
              else Ok (d, 0)
  | None => Ok (d, 0)
  end.
Definition count_identities (userID : Z) (d : DB) : Z :=
  count_rows (λ kv, identity_UserID kv.2 =? userID) (oauth_identities d).

Definition FindOAuthIdentity (provider subject : string) : M OAuthIdentity :=
  let provider := canonicalProvider provider in
  if String.eqb provider "" || String.eqb subject "" then throw ErrOAuthIdentityNotFound else
  map_err mapOAuthIdentityError (
    let! i := query (λ d, match find_row (is_subject provider subject) (oauth_identities d) with
                          | Some (_, i) => Ok i | None => Err ErrOAuthIdentityNotFound end) in
    lift (scanOAuthIdentity i)).

Definition CreateOAuthIdentity (i : OAuthIdentity) : M unit :=
  let i := mkIdentity (identity_ID i) (identity_UserID i) (canonicalProvider (identity_Provider i))
    (identity_Subject i) (identity_Email i) (identity_CreatedAt i) in
  if (identity_UserID i <=? 0) || String.eqb (identity_Provider i) "" || String.eqb (identity_Subject i) ""
  then throw ErrInvalidData
  else if (32 <? len (identity_Provider i)) || (255 <? len (identity_Subject i)) || (255 <? len (identity_Email i))
  then throw ErrInvalidData
  else map_err mapOAuthIdentityError (statement (insert_identity i)).

(** [ORDER BY created_at, id]. *)
Definition identity_rel : relation OAuthIdentity := λ a b,
  identity_CreatedAt a < identity_CreatedAt b
  ∨ (identity_CreatedAt a = identity_CreatedAt b ∧ identity_ID a ≤ identity_ID b).
#[global] Instance identity_rel_dec : RelDecision identity_rel.
Proof. intros a b. unfold identity_rel. apply _. Defined.
Definition select_identities (userID : Z) (d : DB) : list OAuthIdentity :=
  merge_sort identity_rel
    (snd <$> filter (λ kv, (identity_UserID kv.2 =? userID) = true) (map_to_list (oauth_identities d))).
Fixpoint scan_identities (rows : list OAuthIdentity) : outcome (list OAuthIdentity) :=
  match rows with
  | [] => Ok []
  | i :: rows => match scanOAuthIdentity i, scan_identities rows with
                 | Ok i, Ok is_ => Ok (i :: is_) | Err e, _ | _, Err e => Err e end
  end.
Definition ListOAuthIdentities (userID : Z) : M (list OAuthIdentity) :=
  guard (userID <=? 0) ErrOAuthIdentityNotFound ;;;
  map_err mapOAuthIdentityError (
    let! rows := query (λ d, Ok (select_identities userID d)) in lift (scan_identities rows)).

Definition DeleteOAuthIdentity (userID identityID : Z) : M unit :=
  if (userID <=? 0) || (identityID <=? 0) then throw ErrOAuthIdentityNotFound else
  transaction mapOAuthIdentityError (
    let! hasPassword := map_err (λ e, if errors_Is e ErrNoRows then ErrOAuthIdentityNotFound
                                      else mapOAuthIdentityError e)
      (query (λ d, match users d !! userID with
                   | Some u => Ok (negb (is_nil (user_PasswordHash u))) | None => Err ErrNoRows end)) in
    let! identities := map_err mapOAuthIdentityError (query (λ d, Ok (count_identities userID d))) in
    let! rows := map_err mapOAuthIdentityError (statement (delete_identity identityID userID)) in
    guard (rows =? 0) ErrOAuthIdentityNotFound ;;;
    guard (negb hasPassword && (identities <=? 1)) ErrOAuthLastSignInMethod).
End identities.
End OAuthIdentityRepository.

Module LoginAttemptRepository.
Definition insert_attempt (a : LoginAttempt) (d : DB) : outcome (DB * unit) :=
  match first_violation
          [attempts_constraints a;
           foreign_key (match attempt_UserID a with Some u => user_exists d u | None => true end)
             "login_attempts_user_id_fk"] with
  | Err e => Err e
  | Ok _ => Ok (set_login_attempts (a :: login_attempts d) d, tt)
  end.

Definition RecordLoginAttempt (a : LoginAttempt) : M unit :=
  if String.eqb (attempt_Email a) "" || String.eqb (attempt_Outcome a) "" then throw ErrInvalidData else
  let! createdAt := (if attempt_CreatedAt a <=? 0 then unix_now else ret (attempt_CreatedAt a)) in
  map_err (wrapOperation "record login attempt") (statement (insert_attempt
    (mkAttempt (attempt_Email a) (attempt_UserID a) (attempt_IP a) (attempt_Outcome a) createdAt))).
End LoginAttemptRepository.

Module AuditLogRepository.
Definition insert_audit (a : AuditEntry) (d : DB) : outcome (DB * unit) :=
  match first_violation
          [audit_constraints a;
           foreign_key (match audit_ActorUserID a with Some u => user_exists d u | None => true end)
             "audit_log_actor_user_id_fk"] with
  | Err e => Err e
  | Ok _ => Ok (set_audit_log (a :: audit_log d) d, tt)
  end.

Definition CreateAuditEntry (a : AuditEntry) : M unit :=
  if String.eqb (audit_Action a) "" || (audit_OccurredAt a <=? 0) then throw ErrInvalidData else
  map_err (wrapOperation "create audit entry") (statement (insert_audit a)).
End AuditLogRepository.

(** ** Usage events: internal/store/postgres/usage.go *)

Module UsageEventRepository.

Definition insert_usage (e : UsageEvent) (d : DB) : outcome (DB * unit) :=
  match first_violation
          [usage_constraints e;
           foreign_key (match usage_UserID e with Some u => user_exists d u | None => true end)
             "usage_events_user_id_fk"] with
  | Err er => Err er
  | Ok _ => Ok (set_usage_events (e :: usage_events d) d, tt)
  end.

Definition RecordUsageEvent (e : UsageEvent) : M unit :=
  if String.eqb (usage_Method e) "" || String.eqb (usage_Route e) "" || (usage_Status e <? 100)
     || (599 <? usage_Status e)
  then throw ErrInvalidData else
  let! createdAt := (if usage_CreatedAt e <=? 0 then unix_now else ret (usage_CreatedAt e)) in
  map_err (wrapOperation "record usage event") (statement (insert_usage
    (mkUsageEvent createdAt (usage_Method e) (usage_Route e) (usage_Status e) (usage_RequestID e)
       (usage_TraceID e) (usage_UserID e) (usage_IP e)))).
End UsageEventRepository.
