(* ===== verification/SSOStore.v ===== *)
(** * Single sign-on storage

    internal/store/postgres/sso.go and [UpgradeGuestWithIdentity] of
    internal/store/postgres/users.go. *)
From S2P Require Export GuestStore OAuthStore.

Module SSOLoginSessionRepository.
Section sso.

(** [INSERT INTO sso_login_sessions ... ON CONFLICT (sid) DO UPDATE SET
    expires_at = GREATEST(...) WHERE user_id = EXCLUDED.user_id]: the row a
    repeat of the same account leaves, and nothing for another account. *)
Definition merge_login_session (old new : SSOLoginSession) : SSOLoginSession :=
  if login_UserID old =? login_UserID new
  then mkLoginSession (login_SessionID old) (login_UserID old) (login_CreatedAt old)
         (Z.max (login_ExpiresAt old) (login_ExpiresAt new))
  else old.
Definition upsert_login_session (s : SSOLoginSession) (d : DB) : outcome (DB * unit) :=
  match first_violation [login_sessions_constraints s;
          match sso_login_sessions d !! login_SessionID s with
          | Some _ => Ok tt
          | None => foreign_key (user_exists d (login_UserID s)) "sso_login_sessions_user_id_fk" end] with
  | Err e => Err e
  | Ok _ =>
    let row := match sso_login_sessions d !! login_SessionID s with
               | Some old => merge_login_session old s | None => s end in
    Ok (set_sso_login_sessions (<[login_SessionID s := row]> (sso_login_sessions d)) d, tt)
  end.

Definition RecordSSOLoginSession `{Unicode} (s : SSOLoginSession) : M unit :=
  if String.eqb (TrimSpace (login_SessionID s)) "" || (login_UserID s <=? 0)
     || (login_ExpiresAt s <=? login_CreatedAt s)
  then throw ErrInvalidData
  else map_err (wrapOperation "record sso login session") (statement (upsert_login_session s)).

(** [ORDER BY created_at, sid]. *)
Definition login_rel `{Postgres} : relation SSOLoginSession := λ a b,
  login_CreatedAt a < login_CreatedAt b
  ∨ (login_CreatedAt a = login_CreatedAt b ∧ sql_text_compare (login_SessionID a) (login_SessionID b) ≠ Gt).
#[global] Instance login_rel_dec `{Postgres} : RelDecision login_rel.
Proof. intros a b. unfold login_rel. apply _. Defined.
Definition select_login_sessions `{Postgres} (userID : Z) (d : DB) : list SSOLoginSession :=
  merge_sort login_rel
    (snd <$> filter (λ kv, (login_UserID kv.2 =? userID) = true) (map_to_list (sso_login_sessions d))).
Definition ListSSOLoginSessions `{Postgres} (userID : Z) : M (list string) :=
  if userID <=? 0 then throw ErrInvalidSessionUserID else
  map_err (wrapOperation "list sso login sessions")
    (query (λ d, Ok (login_SessionID <$> select_login_sessions userID d))).

Definition delete_login_session (sid : string) (d : DB) : outcome (DB * unit) :=
  match text_param sid with
  | Err e => Err e
  | Ok _ => Ok (set_sso_login_sessions (delete sid (sso_login_sessions d)) d, tt)
  end.
Definition DeleteSSOLoginSession (sid : string) : M unit :=
  map_err (wrapOperation "delete sso login session") (statement (delete_login_session sid)).

(** ** Lemmas *)

Lemma upsert_login_session_ok s d d' u :
  upsert_login_session s d = Ok (d', u) →
  ∃ row, d' = set_sso_login_sessions (<[login_SessionID s := row]> (sso_login_sessions d)) d ∧
    login_sessions_constraints s = Ok tt ∧
    ((sso_login_sessions d !! login_SessionID s = None ∧ user_exists d (login_UserID s) = true ∧ row = s) ∨
     (∃ old, sso_login_sessions d !! login_SessionID s = Some old ∧ row = merge_login_session old s)).
Proof.
  unfold upsert_login_session. intros Hu. destruct (first_violation _) as [[]|] eqn:E; [|done].
  apply first_violation_ok in E. rewrite !Forall_cons in E. destruct E as (Hc & Hf & _).
  destruct (sso_login_sessions d !! login_SessionID s) as [old|] eqn:Eo; injection Hu as <- <-.
  - exists (merge_login_session old s). split_and!; [done|done|]. right. eauto.
  - exists s. unfold foreign_key in Hf. destruct (user_exists d (login_UserID s)); [|done].
    split_and!; [done|done|]. by left.
Qed.

Lemma merge_login_session_keeps old new :
  login_SessionID (merge_login_session old new) = login_SessionID old ∧
  login_UserID (merge_login_session old new) = login_UserID old ∧
  login_CreatedAt (merge_login_session old new) = login_CreatedAt old ∧
  login_ExpiresAt old ≤ login_ExpiresAt (merge_login_session old new).
Proof. unfold merge_login_session. case_match; simpl; split_and!; try done; lia. Qed.

Lemma delete_login_session_ok sid d d' u :
  delete_login_session sid d = Ok (d', u) →
  d' = set_sso_login_sessions (delete sid (sso_login_sessions d)) d.
Proof. unfold delete_login_session. case_match; [by intros [= <- _]|done]. Qed.

Lemma select_login_sessions_In `{Postgres} userID d s :
  s ∈ select_login_sessions userID d ↔
  ∃ k, sso_login_sessions d !! k = Some s ∧ login_UserID s = userID.
Proof.
  unfold select_login_sessions. rewrite merge_sort_Permutation, list_elem_of_fmap. split.
  - intros ([k x] & -> & Hin). apply list_elem_of_filter in Hin as [Hu Hin]. apply elem_of_map_to_list in Hin.
    simpl in *. bool_props. eauto.
  - intros (k & Hk & Hu). exists (k, s). split; [done|]. apply list_elem_of_filter.
    rewrite elem_of_map_to_list. split; [|done]. simpl. by apply Z.eqb_eq.
Qed.
End sso.
End SSOLoginSessionRepository.

(** ** UpgradeGuestWithIdentity

    The conversion of a guest, the link of its issuer identity and the end of
    its transfer code in one transaction. *)
Module SSOGuestUpgradeRepository.
Section upgrade.
Context `{Unicode, Postgres}.

(** [UPDATE users SET email, display_name, is_guest = FALSE, email_verified_at,
    version = version + 1 WHERE id = $4 AND version = $5 AND is_guest]. *)
Definition converted (guest old : User) : User :=
  mkUser (user_ID guest) (user_Email guest) (user_PasswordHash old) (user_Username old)
    (user_DisplayName guest) false (user_IsAdmin old) (user_Theme old) (user_Locale old)
    (user_CreatedAt old) (user_EmailVerifiedAt guest) (user_Version old).
Definition update_guest (guest : User) (expectedVersion : Z) (d : DB) : outcome (DB * User) :=
  match users d !! user_ID guest with
  | Some old =>
    if user_IsGuest old then UserRepository.update_user (converted guest old) expectedVersion d
    else Err ErrNoRows
  | None => Err ErrNoRows
  end.

(** The statements of the transaction. *)
Definition upgrade_statements (guest : User) (expectedVersion : Z) (identity : OAuthIdentity) (revokedAt : Z) : M User :=
  map_err GuestClaimCodeRepository.mapGuestClaimError
    (statement (GuestClaimCodeRepository.revoke_active (user_ID guest) revokedAt)) ;;;
  let! updated := map_err (λ e, if errors_Is e ErrNoRows then ErrGuestUpgradeRequiresGuest
                                else UserRepository.mapUserError e)
    (let! row := statement (update_guest guest expectedVersion) in lift (UserRepository.scanUser row)) in
  map_err OAuthIdentityRepository.mapOAuthIdentityError
    (statement (OAuthIdentityRepository.insert_identity identity)) ;;;
  ret updated.

Definition UpgradeGuestWithIdentity (guest : User) (expectedVersion : Z) (identity : OAuthIdentity)
    (revokedAt : Z) : M User :=
  let identity := mkIdentity (identity_ID identity) (identity_UserID identity)
    (OAuthIdentityRepository.canonicalProvider (identity_Provider identity)) (identity_Subject identity)
    (identity_Email identity) (identity_CreatedAt identity) in
  if (user_ID guest <=? 0) || user_IsGuest guest || negb (identity_UserID identity =? user_ID guest)
     || String.eqb (identity_Provider identity) "" || String.eqb (identity_Subject identity) ""
     || (255 <? len (identity_Subject identity))
  then throw ErrInvalidData else
  transaction UserRepository.mapUserError (upgrade_statements guest expectedVersion identity revokedAt).

Lemma update_guest_ok guest v d d' row :
  update_guest guest v d = Ok (d', row) →
  ∃ old, users d !! user_ID guest = Some old ∧ user_IsGuest old = true ∧
    UserRepository.update_user (converted guest old) v d = Ok (d', row).
Proof.
  unfold update_guest. destruct (users d !! user_ID guest) as [old|]; [|done].
  destruct (user_IsGuest old) eqn:Eg; [|done]. eauto.
Qed.
End upgrade.
End SSOGuestUpgradeRepository.
