(* ===== verification/UsageQueue.v ===== *)
(** * The usage-event queue: internal/service/usage.go

    A bounded channel filled by the requests and emptied by one goroutine in
    [Run].  The state holds the channel, the calls of [EnqueueUsage] that passed
    the closed check and wait in their [select], and where [Run] is; an [action]
    is one step of any goroutine, and a schedule is a list of actions.  The mutex
    covers only the closed check and [close], so each of them is one step and the
    send is another.  The waiting time between retries is not modelled. *)
From S2P Require Export OAuthStore Identity.

(** Where the goroutine of [Run] is: before its [select], before the
    [RecordUsageEvent] call of an attempt in [persist], or past [close]. *)
Inductive consumer :=
| Receiving
| Persisting (event : UsageEvent) (attempt : Z)
| Returned.

(** [UsageQueue]; [queue_cancelled] is the state of the context of [Run], and
    [queue_panicked] tells that a send met a closed channel. *)
Record UsageQueue := mkQueue {
  queue_capacity : Z;
  queue_retries : Z;
  queue_events : list UsageEvent;
  queue_recorded : Z;
  queue_failed : Z;
  queue_dropped : Z;
  queue_closed : bool;
  queue_callers : list UsageEvent;
  queue_run : consumer;
  queue_cancelled : bool;
  queue_panicked : bool;
}.

Record UsageQueueStats := mkQueueStats {
  stats_Capacity : Z;
  stats_Pending : Z;
  stats_Recorded : Z;
  stats_Failed : Z;
  stats_Dropped : Z;
}.

Module UsageQueues.

Definition DefaultUsageQueueCapacity : Z := 1024.
Definition DefaultUsageRetryAttempts : Z := 3.
Definition MaxUsageRouteLength : Z := 255.
Definition MaxUsageMethodLength : Z := 8.
Definition MaxUsageOriginLength : Z := 64.
Definition MaxUsageRequestIDLength : Z := 64.

Definition NewUsageQueue (capacity : Z) : outcome UsageQueue :=
  if capacity <=? 0 then Err ErrInvalidUsageConfig
  else Ok (mkQueue capacity DefaultUsageRetryAttempts [] 0 0 0 false [] Receiving false false).

Definition Stats (q : UsageQueue) : UsageQueueStats :=
  mkQueueStats (queue_capacity q) (Z.of_nat (length (queue_events q)))
    (queue_recorded q) (queue_failed q) (queue_dropped q).

(** The checks of a request or trace identifier. *)
Definition invalid_id (id : string) : bool :=
  (MaxUsageRequestIDLength <? len id) || (negb (String.eqb id "") && negb (printable id)).

Definition normalizeUsageEvent (event : UsageEvent) (now : Z) : outcome UsageEvent :=
  if now <=? 0 then Err ErrInvalidUsageEvent else
  let method := TrimSpace (usage_Method event) in
  if String.eqb method "" || (MaxUsageMethodLength <? len method) || negb (printable method)
  then Err ErrInvalidUsageEvent else
  let route := TrimSpace (usage_Route event) in
  if String.eqb route "" || (MaxUsageRouteLength <? len route)
     || ContainsAny route ["?"%char; ascii_of_nat 13; ascii_of_nat 10] || negb (printable route)
  then Err ErrInvalidUsageEvent else
  if (usage_Status event <? 100) || (599 <? usage_Status event) then Err ErrInvalidUsageEvent else
  let requestID := TrimSpace (usage_RequestID event) in
  if invalid_id requestID then Err ErrInvalidUsageEvent else
  let traceID := TrimSpace (usage_TraceID event) in
  if invalid_id traceID then Err ErrInvalidUsageEvent else
  let userID := match usage_UserID event with Some u => if 0 <? u then Some u else None | None => None end in
  let ip := match usage_IP event with
            | Some ip =>
              let origin := TrimSpace ip in
              if negb (String.eqb origin "") && (len origin <=? MaxUsageOriginLength) && printable origin
              then Some origin else None
            | None => None
            end in
  Ok (mkUsageEvent now method route (usage_Status event) requestID traceID userID ip).

(** [atomic.Uint64.Add(1)]. *)
Definition add1 (counter : Z) : Z := (counter + 1) mod 2 ^ 64.

(** [EnqueueUsage] up to its [select]: the caller waits with its event. *)
Definition EnqueueUsage (event : UsageEvent) (now : Z) (q : UsageQueue) : outcome UsageQueue :=
  match normalizeUsageEvent event now with
  | Err e => Err e
  | Ok normalized =>
    if queue_closed q then Err ErrInvalidUsageConfig else
    Ok (mkQueue (queue_capacity q) (queue_retries q) (queue_events q) (queue_recorded q) (queue_failed q)
          (queue_dropped q) (queue_closed q) (queue_callers q ++ [normalized]) (queue_run q)
          (queue_cancelled q) (queue_panicked q))
  end.

(** The callers but one. *)
Definition others (i : nat) (q : UsageQueue) : list UsageEvent := base.delete i (queue_callers q).

(** [events <- normalized]: blocks when the channel is full, panics when it is closed. *)
Definition send (i : nat) (event : UsageEvent) (q : UsageQueue) : option UsageQueue :=
  if queue_closed q then
    Some (mkQueue (queue_capacity q) (queue_retries q) (queue_events q) (queue_recorded q) (queue_failed q)
            (queue_dropped q) (queue_closed q) (others i q) (queue_run q) (queue_cancelled q) true)
  else if Z.of_nat (length (queue_events q)) <? queue_capacity q then
    Some (mkQueue (queue_capacity q) (queue_retries q) (queue_events q ++ [event]) (queue_recorded q)
            (queue_failed q) (queue_dropped q) (queue_closed q) (others i q) (queue_run q)
            (queue_cancelled q) (queue_panicked q))
  else None.
(** [<-ctx.Done()] of the caller: the event is dropped. *)
Definition caller_done (i : nat) (q : UsageQueue) : UsageQueue :=
  mkQueue (queue_capacity q) (queue_retries q) (queue_events q) (queue_recorded q) (queue_failed q)
    (add1 (queue_dropped q)) (queue_closed q) (others i q) (queue_run q) (queue_cancelled q) (queue_panicked q).

Definition cancel (q : UsageQueue) : UsageQueue :=
  mkQueue (queue_capacity q) (queue_retries q) (queue_events q) (queue_recorded q) (queue_failed q)
    (queue_dropped q) (queue_closed q) (queue_callers q) (queue_run q) true (queue_panicked q).

(** [event := <-q.events], into [persist]. *)
Definition receive (q : UsageQueue) : option UsageQueue :=
  match queue_run q, queue_events q with
  | Receiving, event :: events =>
    Some (mkQueue (queue_capacity q) (queue_retries q) events (queue_recorded q) (queue_failed q)
            (queue_dropped q) (queue_closed q) (queue_callers q) (Persisting event 0)
            (queue_cancelled q) (queue_panicked q))
  | _, _ => None
  end.

(** The deferred [close]. *)
Definition close (q : UsageQueue) : UsageQueue :=
  mkQueue (queue_capacity q) (queue_retries q) (queue_events q) (queue_recorded q) (queue_failed q)
    (queue_dropped q) true (queue_callers q) Returned (queue_cancelled q) (queue_panicked q).

Definition attempts (q : UsageQueue) : Z := if queue_retries q <? 1 then 1 else queue_retries q.

(** [persist] after a failed attempt: the event is lost when the context is
    done or the attempts are used up, otherwise the next attempt follows. *)
Definition failed_attempt (event : UsageEvent) (attempt : Z) (q : UsageQueue) : UsageQueue :=
  let over := queue_cancelled q || negb (attempt + 1 <? attempts q) in
  mkQueue (queue_capacity q) (queue_retries q) (queue_events q) (queue_recorded q)
    (if over then add1 (queue_failed q) else queue_failed q)
    (queue_dropped q) (queue_closed q) (queue_callers q)
    (if over then Receiving else Persisting event (attempt + 1)) (queue_cancelled q) (queue_panicked q).
Definition recorded_attempt (q : UsageQueue) : UsageQueue :=
  mkQueue (queue_capacity q) (queue_retries q) (queue_events q) (add1 (queue_recorded q)) (queue_failed q)
    (queue_dropped q) (queue_closed q) (queue_callers q) Receiving (queue_cancelled q) (queue_panicked q).

(** ** Schedules *)

Inductive action :=
| Enqueue (event : UsageEvent) (now : Z)
| Send (caller : nat)
| GiveUp (caller : nat)
| Cancel
| Receive
| Attempt
| Return.

(** What happened to an event that was sent. *)
Inductive fate :=
| Accepted (event : UsageEvent)
| Recorded (event : UsageEvent)
| Lost (event : UsageEvent).

Definition state : Type := UsageQueue * World.

(** One action; [None] when it is not enabled. *)
Definition act (a : action) (s : state) : option (state * list fate) :=
  let (q, w) := s in
  match a with
  | Enqueue event now => match EnqueueUsage event now q with Ok q => Some ((q, w), []) | Err _ => Some ((q, w), []) end
  | Send i =>
    match queue_callers q !! i with
    | None => None
    | Some event => q' ← send i event q; Some ((q', w), if queue_closed q then [] else [Accepted event])
    end
  | GiveUp i => match queue_callers q !! i with Some _ => Some ((caller_done i q, w), []) | None => None end
  | Cancel => Some ((cancel q, w), [])
  | Receive => q' ← receive q; Some ((q', w), [])
  | Attempt =>
    match queue_run q with
    | Persisting event attempt =>
      match UsageEventRepository.RecordUsageEvent event w with
      | (w, Ok _) => Some ((recorded_attempt q, w), [Recorded event])
      | (w, Err _) =>
        let q' := failed_attempt event attempt q in
        Some ((q', w), match queue_run q' with Receiving => [Lost event] | _ => [] end)
      end
    | _ => None
    end
  | Return =>
    match queue_run q with
    | Receiving => if queue_cancelled q then Some ((close q, w), []) else None
    | _ => None
    end
  end.

Fixpoint acts (sched : list action) (s : state) : option (state * list fate) :=
  match sched with
  | [] => Some (s, [])
  | a :: sched => '(s, fs) ← act a s; '(s', fs') ← acts sched s; Some (s', fs ++ fs')
  end.
End UsageQueues.

Section facts.
Import UsageQueues UsageEventRepository.

(** ** What is queued *)

(** An event that [normalizeUsageEvent] let through. *)
Definition clean (e : UsageEvent) : Prop :=
  0 < usage_CreatedAt e ∧ usage_Method e ≠ "" ∧ len (usage_Method e) ≤ MaxUsageMethodLength ∧
  usage_Route e ≠ "" ∧ len (usage_Route e) ≤ MaxUsageRouteLength ∧ printable (usage_Route e) = true ∧
  ContainsAny (usage_Route e) ["?"%char; ascii_of_nat 13; ascii_of_nat 10] = false ∧
  100 ≤ usage_Status e ≤ 599 ∧ len (usage_RequestID e) ≤ MaxUsageRequestIDLength ∧
  len (usage_TraceID e) ≤ MaxUsageRequestIDLength ∧ (∀ u, usage_UserID e = Some u → 0 < u) ∧
  (∀ ip, usage_IP e = Some ip → ip ≠ "" ∧ len ip ≤ MaxUsageOriginLength ∧ printable ip = true).

Lemma normalizeUsageEvent_clean event now e : normalizeUsageEvent event now = Ok e → clean e ∧ usage_CreatedAt e = now.
Proof.
  unfold normalizeUsageEvent, invalid_id. intros Hn.
  repeat match type of Hn with (if ?b then _ else _) = _ => destruct b eqn:?; [done|] end.
  injection Hn as <-. bool_props. unfold clean. simpl. split_and!; try done; try lia.
  - intros u. case_match; [|done]. case_match; [|done]. intros. simplify_eq. bool_props. lia.
  - intros ip. case_match; [|done]. case_match; [|done]. intros. simplify_eq. bool_props. split_and!; [done|lia|done].
Qed.

(** The events of a queue: waiting in a [select], in the channel, with [persist]. *)
Definition in_hand (q : UsageQueue) : list UsageEvent :=
  match queue_run q with Persisting e _ => [e] | _ => [] end.
Definition pending (q : UsageQueue) : list UsageEvent := in_hand q ++ queue_events q.

Record queue_wf (q : UsageQueue) : Prop := {
  qw_capacity : Z.of_nat (length (queue_events q)) ≤ queue_capacity q;
  qw_retries : queue_retries q = DefaultUsageRetryAttempts;
  qw_attempt : ∀ e n, queue_run q = Persisting e n → 0 ≤ n < attempts q;
  qw_closed : queue_closed q = true ↔ queue_run q = Returned;
  qw_panic : queue_panicked q = true → queue_closed q = true;
  qw_counters : 0 ≤ queue_recorded q < 2 ^ 64 ∧ 0 ≤ queue_failed q < 2 ^ 64 ∧ 0 ≤ queue_dropped q < 2 ^ 64;
  qw_callers : Forall clean (queue_callers q);
  qw_clean : Forall clean (in_hand q) ∧ Forall clean (queue_events q);
}.

Lemma new_wf capacity q : NewUsageQueue capacity = Ok q → queue_wf q.
Proof.
  unfold NewUsageQueue. destruct (capacity <=? 0) eqn:E; intros; simplify_eq. bool_props. split; simpl; try done; try lia.
Qed.

Lemma add1_range n : 0 ≤ add1 n < 2 ^ 64.
Proof. unfold add1. apply Z.mod_pos_bound. lia. Qed.

Lemma others_clean i q : Forall clean (queue_callers q) → Forall clean (others i q).
Proof. unfold others. rewrite !Forall_forall. intros Hc e He. apply Hc. eapply elem_of_submseteq; [exact He|]. apply sublist_submseteq, sublist_delete. Qed.

Lemma act_wf a q w q' w' fs : act a (q, w) = Some ((q', w'), fs) → queue_wf q → queue_wf q'.
Proof.
  intros Ha Hq. pose proof Hq as [Hcap Hret Hatt Hcl Hpan Hcnt Hcallers [Hhand Hevents]].
  unfold in_hand in Hhand.
  destruct a; cbn [act] in Ha.
  - unfold EnqueueUsage in Ha. destruct (normalizeUsageEvent _ _) eqn:En; [|by simplify_eq].
    destruct (queue_closed q) eqn:Ec; simplify_eq; [done|].
    apply normalizeUsageEvent_clean in En as [? _]. split; simpl; try done; try by rewrite Ec.
    apply Forall_app. split; [done|by constructor].
  - destruct (queue_callers q !! caller) eqn:Ei; [|done]. unfold send in Ha.
    pose proof (others_clean caller q Hcallers). apply (Forall_lookup_1 _ _ _ _ Hcallers) in Ei.
    destruct (queue_closed q) eqn:Ec; [simplify_option_eq; split; simpl; try done; by rewrite Ec|].
    destruct (_ <? _) eqn:Eb; simplify_option_eq. bool_props.
    split; simpl; try done; try by rewrite Ec.
    { rewrite length_app. simpl. lia. }
    split; [done|]. apply Forall_app. split; [done|by constructor].
  - destruct (queue_callers q !! caller); simplify_eq. pose proof (others_clean caller q Hcallers).
    split; simpl; try done. pose proof (add1_range (queue_dropped q)). lia.
  - simplify_eq. by split.
  - unfold receive in Ha. destruct (queue_run q) eqn:Er; try done. destruct (queue_events q) eqn:Ee; simplify_option_eq.
    simpl in Hcap. apply Forall_cons in Hevents as [? ?].
    split; simpl; try done; [lia| |intuition congruence|].
    + intros ? ? [= <- <-]. unfold attempts. simpl. rewrite Hret. unfold DefaultUsageRetryAttempts. simpl. lia.
    + split; [by constructor|done].
  - destruct (queue_run q) as [|e n|] eqn:Er; try done. specialize (Hatt _ _ eq_refl).
    assert (Hnc : ∀ c, c ≠ Returned → (queue_closed q = true ↔ c = Returned)) by (intuition congruence).
    destruct (RecordUsageEvent e w) as [w1 [[]|er]]; simplify_eq.
    + pose proof (add1_range (queue_recorded q)). split; simpl; try done; [by apply Hnc|lia].
    + pose proof (add1_range (queue_failed q)). unfold failed_attempt.
      destruct (queue_cancelled q || negb (n + 1 <? attempts q)) eqn:Eo; split; simpl; try done; try by apply Hnc.
      * lia.
      * intros ? ? [= <- <-]. unfold attempts in *. simpl in *. bool_props. lia.
  - destruct (queue_run q) eqn:Er; try done. destruct (queue_cancelled q) eqn:Ec; simplify_eq. by split.
Qed.

(** ** The abstract queue *)

(** A list served from its head. *)
Inductive fifo : list UsageEvent → list fate → list UsageEvent → Prop :=
| fifo_nil l : fifo l [] l
| fifo_accepted l e fs l' : fifo (l ++ [e]) fs l' → fifo l (Accepted e :: fs) l'
| fifo_recorded l e fs l' : fifo l fs l' → fifo (e :: l) (Recorded e :: fs) l'
| fifo_lost l e fs l' : fifo l fs l' → fifo (e :: l) (Lost e :: fs) l'.

Lemma fifo_app l fs l1 fs' l' : fifo l fs l1 → fifo l1 fs' l' → fifo l (fs ++ fs') l'.
Proof. induction 1; simpl; intros; [done|..]; constructor; auto. Qed.

Definition recorded_events (fs : list fate) : list UsageEvent :=
  omap (λ f, match f with Recorded e => Some e | _ => None end) fs.
Definition lost_events (fs : list fate) : list UsageEvent :=
  omap (λ f, match f with Lost e => Some e | _ => None end) fs.
Definition accepted_events (fs : list fate) : list UsageEvent :=
  omap (λ f, match f with Accepted e => Some e | _ => None end) fs.
Definition count {A} (l : list A) : Z := Z.of_nat (length l).

Lemma RecordUsageEvent_cases e w w' r :
  0 < usage_CreatedAt e → RecordUsageEvent e w = (w', r) →
  (insert_usage e (db w) = Ok (db w', tt)) ∨ (usage_events (db w') = usage_events (db w) ∧ ∀ u, r ≠ Ok u).
Proof.
  intros Hc Hr. unfold RecordUsageEvent in Hr. destruct (_ || _ || _ || _); [right; by injection Hr as <- <-|].
  assert (E : (usage_CreatedAt e <=? 0) = false) by lia. rewrite E in Hr.
  unfold bind, ret in Hr. simpl in Hr. unfold map_err in Hr.
  destruct (statement _ w) as [w1 r1] eqn:Es.
  assert (w' = w1 ∧ ((∀ u, r1 ≠ Ok u) → ∀ u, r ≠ Ok u)) as [-> Hok].
  { by destruct r1; simplify_eq; split. }
  replace (mkUsageEvent _ _ _ _ _ _ _ _) with e in Es by (by destruct e).
  destruct (statement_cases (insert_usage e) w) as [(d & [] & Hd & Hw & _)|[Hw [er Her]]];
    rewrite Es in *; simpl in *; [left; by rewrite Hw|right].
  split; [by rewrite Hw|]. apply Hok. intros u. by rewrite Her.
Qed.

Lemma RecordUsageEvent_effect e w w' r :
  0 < usage_CreatedAt e → RecordUsageEvent e w = (w', r) →
  usage_events (db w') = e :: usage_events (db w) ∨
  (usage_events (db w') = usage_events (db w) ∧ ∀ u, r ≠ Ok u).
Proof.
  intros Hc [Hd|Hn]%RecordUsageEvent_cases; [left|by right|done].
  unfold insert_usage in Hd. destruct (first_violation _); [|done]. by injection Hd as <-.
Qed.

(** One action moves the abstract queue along what it reports. *)
Record simulates (q : UsageQueue) (w : World) (q' : UsageQueue) (w' : World) (fs : list fate) : Prop := {
  sim_fifo : fifo (pending q) fs (pending q');
  sim_recorded : queue_recorded q' = (queue_recorded q + count (recorded_events fs)) mod 2 ^ 64;
  sim_failed : queue_failed q' = (queue_failed q + count (lost_events fs)) mod 2 ^ 64;
  sim_stored : ∃ new, usage_events (db w') = new ++ usage_events (db w) ∧ rev (recorded_events fs) `sublist_of` new;
}.

Lemma act_simulates a q w q' w' fs :
  queue_wf q → act a (q, w) = Some ((q', w'), fs) → simulates q w q' w' fs.
Proof.
  intros Hq Ha. pose proof (qw_counters q Hq) as (Hrec & Hfail & _).
  assert (Hsame : ∀ q', pending q' = pending q → queue_recorded q' = queue_recorded q →
    queue_failed q' = queue_failed q → simulates q w q' w []).
  { intros q0 Hp Hr Hf. split; simpl; rewrite ?Hp, ?Hr, ?Hf, ?Z.add_0_r, ?Z.mod_small by done; try done; [constructor|by exists []]. }
  destruct a; cbn [act] in Ha.
  - unfold EnqueueUsage in Ha. destruct (normalizeUsageEvent _ _); [|simplify_eq; by apply Hsame].
    destruct (queue_closed q); simplify_eq; by apply Hsame.
  - destruct (queue_callers q !! caller); [|done]. unfold send in Ha.
    destruct (queue_closed q) eqn:Ec; [simplify_option_eq; by apply Hsame|].
    destruct (_ <? _); simplify_option_eq.
    split; simpl; rewrite ?Z.add_0_r, ?Z.mod_small by done; try done; [|by exists []].
    constructor. unfold pending, in_hand. simpl. rewrite app_assoc. constructor.
  - destruct (queue_callers q !! caller); simplify_eq. by apply Hsame.
  - simplify_eq. by apply Hsame.
  - unfold receive in Ha. destruct (queue_run q) eqn:Er; try done. destruct (queue_events q) eqn:Ee; simplify_option_eq.
    apply Hsame; [|done|done]. unfold pending, in_hand. simpl. by rewrite Er, Ee.
  - destruct (queue_run q) as [|e n|] eqn:Er; try done.
    assert (He : 0 < usage_CreatedAt e).
    { pose proof (proj1 (qw_clean q Hq)) as Hc. unfold in_hand in Hc. rewrite Er in Hc. apply Forall_cons in Hc as [Hc _]. exact (proj1 Hc). }
    assert (Hp : pending q = e :: queue_events q) by (unfold pending, in_hand; by rewrite Er).
    destruct (RecordUsageEvent e w) as [w1 r] eqn:Ew. apply (RecordUsageEvent_effect _ _ _ _ He) in Ew.
    assert (Hnew : ∃ new, usage_events (db w1) = new ++ usage_events (db w)).
    { destruct Ew as [->|[-> _]]; [by exists [e]|by exists []]. }
    destruct r as [[]|er]; simplify_eq.
    + split; simpl; rewrite ?Z.add_0_r, ?(Z.mod_small (queue_failed q)) by done; try done.
      * rewrite Hp. repeat constructor.
      * destruct Ew as [->|[_ Hn]]; [by exists [e]|]. by destruct (Hn tt).
    + unfold failed_attempt. destruct (queue_cancelled q || _); split; simpl;
        rewrite ?Z.add_0_r, ?(Z.mod_small (queue_failed q)), ?(Z.mod_small (queue_recorded q)) by done; try done.
      * rewrite Hp. repeat constructor.
      * destruct Hnew as [new ->]. exists new. split; [done|apply sublist_nil_l].
      * rewrite Hp. constructor.
      * destruct Hnew as [new ->]. exists new. split; [done|apply sublist_nil_l].
  - destruct (queue_run q) eqn:Er; try done. destruct (queue_cancelled q); simplify_eq. apply Hsame; [|done|done].
    unfold pending, in_hand. simpl. by rewrite Er.
Qed.

Lemma simulates_refl q w : queue_wf q → simulates q w q w [].
Proof.
  intros Hq. destruct (qw_counters q Hq) as (? & ? & _). split; simpl; rewrite ?Z.add_0_r, ?Z.mod_small by done; try done.
  - constructor.
  - by exists [].
Qed.

Lemma simulates_trans q w q1 w1 q2 w2 fs fs' :
  simulates q w q1 w1 fs → simulates q1 w1 q2 w2 fs' → simulates q w q2 w2 (fs ++ fs').
Proof.
  intros [F R L (n & S & Sub)] [F' R' L' (n' & S' & Sub')]. split.
  - by eapply fifo_app.
  - rewrite R', R. unfold recorded_events, count. rewrite omap_app, length_app, Nat2Z.inj_add, Z.add_mod_idemp_l by done.
    f_equal. lia.
  - rewrite L', L. unfold lost_events, count. rewrite omap_app, length_app, Nat2Z.inj_add, Z.add_mod_idemp_l by done.
    f_equal. lia.
  - exists (n' ++ n). rewrite S', S, app_assoc. split; [done|].
    unfold recorded_events in *. rewrite omap_app, rev_app_distr. by apply sublist_app.
Qed.

Lemma acts_simulates sched : ∀ q w q' w' fs,
  acts sched (q, w) = Some ((q', w'), fs) → queue_wf q → queue_wf q' ∧ simulates q w q' w' fs.
Proof.
  induction sched as [|a sched IH]; cbn [acts]; intros q w q' w' fs Ha Hq.
  { injection Ha as <- <- <-. split; [done|by apply simulates_refl]. }
  destruct (act a (q, w)) as [[[q1 w1] fs1]|] eqn:E1; [|done]. simpl in Ha.
  destruct (acts sched (q1, w1)) as [[[q2 w2] fs2]|] eqn:E2; [|done]. injection Ha as <- <- <-.
  pose proof (act_wf _ _ _ _ _ _ E1 Hq) as Hq1. destruct (IH _ _ _ _ _ E2 Hq1) as [Hq2 Hs].
  split; [done|]. eapply simulates_trans; [by eapply act_simulates|exact Hs].
Qed.

(** C21. The queue with its goroutine is a first-in first-out queue, under every
    interleaving of requests, retries, storage failures and shutdown: each sent
    event is recorded or given up after its attempts, in the order of the sends,
    or still pending; nothing is duplicated between these and nothing
    disappears.  The counters count the recorded and the lost events (modulo
    2^64), and the recorded events are rows of the table, in that order. *)
Theorem usage_queue_is_a_fifo capacity q0 sched w q w' fs :
  NewUsageQueue capacity = Ok q0 → acts sched (q0, w) = Some ((q, w'), fs) →
  fifo [] fs (pending q) ∧
  stats_Recorded (Stats q) = count (recorded_events fs) mod 2 ^ 64 ∧
  stats_Failed (Stats q) = count (lost_events fs) mod 2 ^ 64 ∧
  ∃ new, usage_events (db w') = new ++ usage_events (db w) ∧ rev (recorded_events fs) `sublist_of` new.
Proof.
  intros Hn Ha. destruct (acts_simulates _ _ _ _ _ _ Ha (new_wf _ _ Hn)) as [_ [F R L S]].
  unfold NewUsageQueue in Hn. case_match; [done|]. injection Hn as <-. done.
Qed.

(** Under every interleaving the channel holds at most its capacity, an
    event is attempted at most three times, the counters stay in 64 bits, a send
    only panics after shutdown closed the channel, and every event on its way to
    the table is clean: a method and a route within their widths, no query
    string or line break in the route, a status of HTTP, no foreign account
    number. *)
Theorem usage_queue_bounded capacity q0 sched w q w' fs :
  NewUsageQueue capacity = Ok q0 → acts sched (q0, w) = Some ((q, w'), fs) →
  0 ≤ stats_Pending (Stats q) ≤ stats_Capacity (Stats q) ∧
  (∀ e n, queue_run q = Persisting e n → 0 ≤ n < DefaultUsageRetryAttempts) ∧
  0 ≤ stats_Dropped (Stats q) < 2 ^ 64 ∧
  (queue_panicked q = true → queue_run q = Returned) ∧
  Forall clean (queue_callers q ++ pending q).
Proof.
  intros Hn Ha. destruct (acts_simulates _ _ _ _ _ _ Ha (new_wf _ _ Hn)) as [[Hcap Hret Hatt Hcl Hpan Hcnt Hc [Hh He]] _].
  split_and!; simpl; try lia.
  - intros e n Hr. specialize (Hatt e n Hr). unfold attempts in Hatt. rewrite Hret in Hatt. exact Hatt.
  - intros Hp. by apply Hcl, Hpan.
  - unfold pending. by rewrite !Forall_app.
Qed.

(** The storage call of the next attempt always answers. *)
Lemma attempt_enabled q w e n :
  queue_run q = Persisting e n →
  ∃ q' w' fs, act Attempt (q, w) = Some ((q', w'), fs) ∧ queue_cancelled q' = queue_cancelled q ∧
    queue_retries q' = queue_retries q ∧
    ((queue_run q' = Receiving ∧ (fs = [Recorded e] ∨ fs = [Lost e])) ∨
     (queue_run q' = Persisting e (n + 1) ∧ fs = [] ∧ queue_cancelled q = false ∧ n + 1 < attempts q)).
Proof.
  intros Hr. cbn [act]. rewrite Hr. destruct (RecordUsageEvent e w) as [w1 [[]|er]].
  - eexists _, _, _. split; [reflexivity|]. simpl. auto 10.
  - eexists _, _, _. split; [reflexivity|]. unfold failed_attempt. simpl.
    destruct (queue_cancelled q) eqn:Ec; simpl; [auto 10|].
    destruct (n + 1 <? attempts q) eqn:El; simpl; [|auto 10]. bool_props. auto 10.
Qed.

Lemma settles fuel : ∀ q w e n,
  queue_run q = Persisting e n → attempts q - n ≤ Z.of_nat fuel → 0 ≤ n < attempts q →
  ∃ k s f, (1 ≤ k ≤ fuel)%nat ∧ acts (replicate k Attempt) (q, w) = Some (s, [f]) ∧
    (f = Recorded e ∨ f = Lost e) ∧ queue_run s.1 = Receiving ∧ queue_cancelled s.1 = queue_cancelled q ∧
    (queue_cancelled q = true → k = 1%nat).
Proof.
  induction fuel as [|fuel IH]; intros q w e n Hr Hf Hn; [lia|].
  destruct (attempt_enabled q w e n Hr) as (q1 & w1 & fs & Ha & Hc & Ht & [[Hr1 Hfs]|(Hr1 & -> & Hnc & Hlt)]).
  - exists 1%nat, (q1, w1). destruct Hfs as [->| ->]; eexists; (split; [lia|]); cbn [replicate acts];
      rewrite Ha; simpl; by eauto 10.
  - assert (Hat : attempts q1 = attempts q) by (unfold attempts; by rewrite Ht).
    destruct (IH q1 w1 e (n + 1) Hr1) as (k & s & f & Hk & Hs & Hf1 & Hs1 & Hs2 & _); [lia|lia|].
    exists (S k), s, f. split; [lia|]. split; [|split_and!; [done|done|congruence|congruence]].
    cbn [replicate acts]. rewrite Ha. simpl. by rewrite Hs.
Qed.

(** C37. [persist] ends and [Run] returns: an event that was received is recorded
    or counted as failed within three storage calls, whatever they answer, and
    within one once the context of [Run] is done; then [Run] can return. *)
Theorem persist_settles capacity q0 sched w q w' fs e n :
  NewUsageQueue capacity = Ok q0 → acts sched (q0, w) = Some ((q, w'), fs) → queue_run q = Persisting e n →
  ∃ k s f, (1 ≤ k ≤ 3)%nat ∧ acts (replicate k Attempt) (q, w') = Some (s, [f]) ∧
    (f = Recorded e ∨ f = Lost e) ∧ queue_run s.1 = Receiving ∧
    (queue_cancelled q = true → k = 1%nat ∧ ∃ s', act Return s = Some (s', []) ∧ queue_run s'.1 = Returned).
Proof.
  intros Hn Ha Hr. destruct (acts_simulates _ _ _ _ _ _ Ha (new_wf _ _ Hn)) as [Hwf _].
  pose proof (qw_attempt q Hwf e n Hr) as Hb. pose proof (qw_retries q Hwf) as Ht.
  destruct (settles 3 q w' e n Hr) as (k & [q1 w1] & f & Hk & Hs & Hf & Hr1 & Hc & Hone).
  { unfold attempts in *. rewrite Ht in *. unfold DefaultUsageRetryAttempts in *. simpl in *. lia. }
  { done. }
  exists k, (q1, w1), f. split_and!; try done; try lia. intros Hcan. split; [by apply Hone|].
  simpl in *. exists (close q1, w1). rewrite Hr1, Hc, Hcan. done.
Qed.

(** ** Shutdown *)

(** A caller between the closed check and its send panics when [Run] returns in
    between: the check and the send are not one step. *)
Theorem shutdown_can_panic event now q0 capacity w :
  NewUsageQueue capacity = Ok q0 → (∃ e, normalizeUsageEvent event now = Ok e) →
  ∃ q, acts [Enqueue event now; Cancel; Return; Send 0] (q0, w) = Some ((q, w), []) ∧ queue_panicked q = true.
Proof.
  unfold NewUsageQueue. case_match; [done|]. intros [= <-] [e He].
  eexists. cbn [acts act]. unfold EnqueueUsage. rewrite He. split; reflexivity.
Qed.

(** Once [Run] returned, what is in the channel stays there: none of it is ever
    recorded, and none of it is counted. *)
Lemma stopped_act a q w q' w' fs :
  act a (q, w) = Some ((q', w'), fs) → queue_closed q = true → queue_run q = Returned →
  queue_closed q' = true ∧ queue_run q' = Returned ∧ queue_events q' = queue_events q ∧ fs = [] ∧ w' = w ∧
  queue_failed q' = queue_failed q ∧ queue_recorded q' = queue_recorded q.
Proof.
  intros Ha Hc Hr. destruct a; cbn [act] in Ha; rewrite ?Hr in Ha; try done.
  - unfold EnqueueUsage in Ha. destruct (normalizeUsageEvent _ _); [|by simplify_eq]. rewrite Hc in Ha. by simplify_eq.
  - destruct (queue_callers q !! caller); [|done]. unfold send in Ha. rewrite Hc in Ha. simpl in Ha. by simplify_eq.
  - destruct (queue_callers q !! caller); by simplify_eq.
  - by simplify_eq.
  - unfold receive in Ha. by rewrite Hr in Ha.
Qed.
Theorem stopped_queue_loses_pending sched : ∀ q w q' w' fs,
  acts sched (q, w) = Some ((q', w'), fs) → queue_closed q = true → queue_run q = Returned →
  queue_events q' = queue_events q ∧ fs = [] ∧ w' = w ∧
  queue_failed q' = queue_failed q ∧ queue_recorded q' = queue_recorded q.
Proof.
  induction sched as [|a sched IH]; cbn [acts]; intros q w q' w' fs Ha Hc Hr; [by injection Ha as <- <- <-|].
  destruct (act a (q, w)) as [[[q1 w1] fs1]|] eqn:E1; [|done]. simpl in Ha.
  destruct (acts sched (q1, w1)) as [[[q2 w2] fs2]|] eqn:E2; [|done]. injection Ha as <- <- <-.
  destruct (stopped_act _ _ _ _ _ _ E1 Hc Hr) as (Hc1 & Hr1 & He & -> & -> & Hf & Hrec).
  destruct (IH _ _ _ _ _ E2 Hc1 Hr1) as (He2 & -> & -> & Hf2 & Hrec2). split_and!; try done; congruence.
Qed.

(** A trace identifier of 33 to 64 characters passes [normalizeUsageEvent] and
    is refused by the column on every attempt. *)
Theorem long_trace_is_never_stored e w w' r :
  clean e → 32 < RuneCountInString (usage_TraceID e) → RecordUsageEvent e w = (w', r) →
  usage_events (db w') = usage_events (db w) ∧ ∀ u, r ≠ Ok u.
Proof.
  intros [Hc _] Hl [Hd|Hn]%RecordUsageEvent_cases; [exfalso|done|done].
  unfold insert_usage in Hd. destruct (first_violation [_; _]) as [[]|] eqn:E; [|done].
  apply first_violation_ok, Forall_cons in E as [E _]. unfold usage_constraints in E.
  apply first_violation_ok in E. rewrite !Forall_cons in E. destruct E as (_ & _ & _ & E & _).
  unfold varchar in E. destruct (_ || _); [done|]. destruct (32 <? _) eqn:El; [done|]. bool_props. lia.
Qed.
End facts.

(** ** Witnesses *)
Section examples.
Import UsageQueues.

Definition visit (route : string) : UsageEvent := mkUsageEvent 0 "GET" route 200 "req-1" "" None (Some "192.0.2.7").
Definition demo_queue : UsageQueue :=
  mkQueue 1 DefaultUsageRetryAttempts [] 0 0 0 false [] Receiving false false.
(** The first two storage calls fail, the second after applying its row. *)
Definition flaky_storage : World :=
  mkWorld empty_db 0 [] [] [Some (mkFault ServerError false); Some (mkFault ConnectionLost true)] [] [].

(** Three requests on a channel of one place: the first event needs three
    attempts, the third request gives up, the last action stops the queue. *)
Definition rush : list action :=
  [Enqueue (visit "/a") 5; Enqueue (visit "/b") 6; Send 0; Enqueue (visit "/c") 7; Receive; Send 0;
   Attempt; Attempt; GiveUp 0; Attempt; Receive; Attempt; Cancel; Return].

Example rush_ends :
  match acts rush (demo_queue, flaky_storage) with
  | Some ((q, w), fs) => stats_Recorded (Stats q) = 2 ∧ stats_Dropped (Stats q) = 1 ∧
      usage_Route <$> usage_events (db w) = ["/b"; "/a"; "/a"] ∧ length fs = 4%nat
  | None => False
  end.
Proof. vm_compute. done. Qed.

Lemma usage_queue_is_a_fifo_witness :
  match acts rush (demo_queue, flaky_storage) with
  | Some ((q, w), fs) => fifo [] fs (pending q) ∧ stats_Recorded (Stats q) = 2
  | None => False
  end.
Proof.
  destruct (acts rush (demo_queue, flaky_storage)) as [[[q w] fs]|] eqn:E; [|by vm_compute in E].
  destruct (usage_queue_is_a_fifo 1 demo_queue rush _ _ _ _ eq_refl E) as (Hf & Hr & _).
  split; [exact Hf|]. rewrite Hr. vm_compute in E. by injection E as <- <- <-.
Defined.

Lemma usage_queue_bounded_witness :
  match acts (take 6 rush) (demo_queue, flaky_storage) with
  | Some ((q, w), fs) => stats_Pending (Stats q) ≤ 1 ∧ length (queue_events q) = 1%nat
  | None => False
  end.
Proof.
  destruct (acts (take 6 rush) (demo_queue, flaky_storage)) as [[[q w] fs]|] eqn:E; [|by vm_compute in E].
  pose proof (usage_queue_bounded 1 demo_queue (take 6 rush) _ _ _ _ eq_refl E) as (Hb & _).
  split; [|vm_compute in E; by injection E as <- <- <-]. vm_compute in E. injection E as <- <- <-. exact (proj2 Hb).
Defined.

Lemma persist_settles_witness :
  match acts (take 6 rush) (demo_queue, flaky_storage) with
  | Some ((q, w), _) => ∃ k s f, (k ≤ 3)%nat ∧ acts (replicate k Attempt) (q, w) = Some (s, [f]) ∧ queue_run s.1 = Receiving
  | None => False
  end.
Proof.
  destruct (acts (take 6 rush) (demo_queue, flaky_storage)) as [[[q w] fs]|] eqn:E; [|by vm_compute in E].
  assert (Hr : ∃ e n, queue_run q = Persisting e n).
  { vm_compute in E. injection E as <- <- <-. by eexists _, _. }
  destruct Hr as (e & n & Hr).
  destruct (persist_settles 1 demo_queue (take 6 rush) _ _ _ _ e n eq_refl E Hr) as (k & s & f & [_ Hk] & Hs & _ & Hrun & _).
  by exists k, s, f.
Defined.
End examples.
