(* ===== verification/SSOProvider.v ===== *)
(** * The single sign-on provider: internal/service/sso_provider.go

    Login, consent and logout challenges of an external Hydra server, and the
    end of an account's single sign-on sessions.  Hydra's admin API is the
    record of functions [SSOAdmin]. *)
From S2P Require Export SSOStore Encoding.
Import UserRepository SSOLoginSessionRepository.

Record SSOLoginRequest := mkLoginRequest {
  login_Skip : bool; login_Subject : string; request_SessionID : string; login_ClientName : string }.
Record SSOConsentRequest := mkConsentRequest {
  consent_Subject : string; consent_LoginSessionID : string;
  RequestedScope : list string; RequestedAudience : list string }.
Record SSOLogoutRequest := mkLogoutRequest { logout_Subject : string; logout_SessionID : string }.

(** The values of [map[string]any] the claims use. *)
Inductive claim := ClaimString (s : string) | ClaimBool (b : bool).
Record SSOConsentGrant := mkGrant {
  grant_Scope : list string; grant_Audience : list string;
  IDTokenClaims : gmap string claim; grant_RememberFor : Z }.

Record SSOAdmin := mkSSOAdmin {
  LoginRequest : string → M SSOLoginRequest;
  AcceptLogin : string → string → Z → M string;
  RejectLogin : string → M string;
  ConsentRequest : string → M SSOConsentRequest;
  AcceptConsent : string → SSOConsentGrant → M string;
  RejectConsent : string → M string;
  LogoutRequest : string → M SSOLogoutRequest;
  AcceptLogout : string → M string;
  RevokeLoginSession : string → M unit;
  RevokeConsentSessions : string → M unit;
}.

(** [SSOProviderService]; [rememberFor] in nanoseconds. *)
Record SSOProviderService := mkSSOProvider {
  sso_admin : SSOAdmin;
  rememberFor : Z;
  sso_emailConfirmationRequired : bool;
}.

Module SSOProvider.

Definition maxSSOChallenge : Z := 4096.
Definition maxSSOClientNameRunes : Z := 64.

Definition NewSSOProviderService (admin : SSOAdmin) (rememberFor : Z) (emailConfirmationRequired : bool)
  : outcome SSOProviderService :=
  if rememberFor <? second then Err ErrInvalidSessionLifetime
  else Ok (mkSSOProvider admin rememberFor emailConfirmationRequired).

(** The account id in decimal. *)
Definition ssoSubject (userID : Z) : string := FormatInt userID.
Definition parseSSOSubject (subject : string) : outcome Z :=
  match ParseInt subject with
  | Some userID =>
    if (userID <=? 0) || negb (String.eqb (ssoSubject userID) subject)
    then Err ErrInvalidSessionUserID else Ok userID
  | None => Err ErrInvalidSessionUserID
  end.

Definition validateSSOChallenge (challenge : string) : outcome unit :=
  if String.eqb (TrimSpace challenge) "" || (maxSSOChallenge <? len challenge)
  then Err ErrInvalidSSOChallenge else Ok tt.

(** [unicode.IsControl]. *)
Definition IsControl (r : Z) : bool := in_range 0 31 r || in_range 127 159 r.

Definition ssoDisplayName (user : User) : string :=
  match user_DisplayName user with
  | Some n => if negb (String.eqb (TrimSpace n) "") then TrimSpace n
              else match user_Username user with Some u => TrimSpace u | None => "" end
  | None => match user_Username user with Some u => TrimSpace u | None => "" end
  end.

(** [slices.Contains]. *)
Definition Contains (xs : list string) (x : string) : bool := existsb (String.eqb x) xs.

Definition ssoIDTokenClaims (user : User) (scopes : list string) : gmap string claim :=
  let claims : gmap string claim := ∅ in
  let claims := match user_Email user with
    | Some e => if Contains scopes "email"
                then <["email_verified" := ClaimBool (negb (is_nil (user_EmailVerifiedAt user)))]>
                       (<["email" := ClaimString e]> claims)
                else claims
    | None => claims end in
  if Contains scopes "profile" then
    let name := ssoDisplayName user in
    let claims := if negb (String.eqb name "") then <["name" := ClaimString name]> claims else claims in
    if negb (String.eqb (user_Locale user) "")
    then <["locale" := ClaimString (user_Locale user)]> claims else claims
  else claims.

Section provider.
Context `{Unicode, MailParser, Postgres} (s : SSOProviderService).

Definition eligibleUser (userID : Z) : M (option User) :=
  if userID <=? 0 then ret None else
  let! found := attempt (FindUserByID userID) in
  match found with
  | Err _ => ret None
  | Ok user =>
    if negb (user_ID user =? userID) || user_IsGuest user then ret None
    else if sso_emailConfirmationRequired s && is_nil (user_EmailVerifiedAt user) then ret None
    else ret (Some user)
  end.
Definition eligible (userID : Z) : M bool := let! u := eligibleUser userID in ret (negb (is_nil u)).

Definition BeginLogin (challenge : string) (currentUserID : Z) : M string :=
  lift (validateSSOChallenge challenge) ;;;
  let! request := LoginRequest (sso_admin s) challenge in
  if login_Skip request then
    match parseSSOSubject (login_Subject request) with
    | Ok userID =>
      let! ok := eligible userID in
      if ok then AcceptLogin (sso_admin s) challenge (login_Subject request) (rememberFor s)
      else RejectLogin (sso_admin s) challenge
    | Err _ => RejectLogin (sso_admin s) challenge
    end
  else
    let! ok := (if 0 <? currentUserID then eligible currentUserID else ret false) in
    if ok then AcceptLogin (sso_admin s) challenge (ssoSubject currentUserID) (rememberFor s) else ret "".

Definition LoginClientName (challenge : string) : M string :=
  match validateSSOChallenge challenge with
  | Err _ => ret ""
  | Ok _ =>
    let! found := attempt (LoginRequest (sso_admin s) challenge) in
    match found with
    | Err _ => ret ""
    | Ok request =>
      let name := TrimSpace (login_ClientName request) in
      if String.eqb name "" || (maxSSOClientNameRunes <? RuneCountInString name) then ret ""
      else if existsb IsControl (runes name) then ret "" else ret name
    end
  end.

Definition CompleteLogin (challenge : string) (userID : Z) : M string :=
  lift (validateSSOChallenge challenge) ;;;
  let! ok := eligible userID in
  if negb ok then RejectLogin (sso_admin s) challenge
  else AcceptLogin (sso_admin s) challenge (ssoSubject userID) (rememberFor s).

(** [now + int64(s.rememberFor/time.Second)], at width 64. *)
Definition remember_until (now : Z) : Z := wrap64 (now + Z.quot (rememberFor s) second).

Definition Consent (challenge : string) : M string :=
  lift (validateSSOChallenge challenge) ;;;
  let! request := ConsentRequest (sso_admin s) challenge in
  match parseSSOSubject (consent_Subject request) with
  | Err _ => RejectConsent (sso_admin s) challenge
  | Ok userID =>
    let! found := eligibleUser userID in
    match found with
    | None => RejectConsent (sso_admin s) challenge
    | Some user =>
      (if negb (String.eqb (consent_LoginSessionID request) "") then
         let! now := unix_now in
         map_err (Errorf "record single sign-on session") (RecordSSOLoginSession
           (mkLoginSession (consent_LoginSessionID request) userID now (remember_until now)))
       else ret tt) ;;;
      AcceptConsent (sso_admin s) challenge
        (mkGrant (RequestedScope request) (RequestedAudience request)
           (ssoIDTokenClaims user (RequestedScope request)) (rememberFor s))
    end
  end.

Definition Logout (challenge : string) : M string :=
  lift (validateSSOChallenge challenge) ;;;
  let! request := LogoutRequest (sso_admin s) challenge in
  (if negb (String.eqb (logout_SessionID request) "")
   then ignore (DeleteSSOLoginSession (logout_SessionID request)) else ret tt) ;;;
  AcceptLogout (sso_admin s) challenge.

(** The loop over the recorded sessions: the failures, in order. *)
Fixpoint revoke_sids (sids : list string) : M (list error) :=
  match sids with
  | [] => ret []
  | sid :: sids =>
    let! revoked := attempt (RevokeLoginSession (sso_admin s) sid) in
    match revoked with
    | Err e => let! failures := revoke_sids sids in ret (e :: failures)
    | Ok _ =>
      let! deleted := attempt (DeleteSSOLoginSession sid) in
      let! failures := revoke_sids sids in
      ret (match deleted with Err e => e :: failures | Ok _ => failures end)
    end
  end.

Definition RevokeUser (userID : Z) : M unit :=
  guard (userID <=? 0) ErrInvalidSessionUserID ;;;
  let! sids := map_err (Errorf "list single sign-on sessions") (ListSSOLoginSessions userID) in
  let! failures := revoke_sids sids in
  let! consent := attempt (RevokeConsentSessions (sso_admin s) (ssoSubject userID)) in
  match errors_Join (failures ++ match consent with Err e => [e] | Ok _ => [] end) with
  | Some e => throw e
  | None => ret tt
  end.
End provider.

(** ** Subjects *)

Lemma parse_ssoSubject userID : 0 < userID ≤ max_int64 → parseSSOSubject (ssoSubject userID) = Ok userID.
Proof.
  intros Hu. unfold parseSSOSubject, ssoSubject. rewrite ParseInt_FormatInt by done.
  rewrite String.eqb_refl. by rewrite (proj2 (Z.leb_gt _ _)) by lia.
Qed.
Lemma parseSSOSubject_ok subject userID :
  parseSSOSubject subject = Ok userID → 0 < userID ∧ subject = ssoSubject userID.
Proof.
  unfold parseSSOSubject. repeat case_match; intros; simplify_eq. bool_props. split; [lia|done].
Qed.

End SSOProvider.
