(* ===== verification/RateLimit.v ===== *)
(** * Authentication budgets: internal/service/rate_limit.go

    The fixed-window limiter over a [RateLimitStore].  The store is an
    interface: [FixedWindow] states what the limiter's promises rest on, the
    theorems of this file are proved from it, and RateLimitMemory.v and
    RateLimitDB.v discharge it for the two stores. *)
From S2P Require Export Monad Netip.

Definition maxRateLimitKeyLength : Z := 255.
Definition signInIdentifierAction : string := "signin.identifier".
Definition signInOriginAction : string := "signin.origin".

Record RateLimitConfig := mkRateLimitConfig { Limit : Z; Window : Z; MaxKeys : Z }.
Record RateLimitDecision := mkDecision { Allowed : bool; Remaining : Z; RetryAfter : Z }.
(** Instants are nanoseconds; [hit_Count = 0] is the zero value, no window. *)
Record RateLimitHit := mkHit { hit_Count : Z; hit_Started : Z }.
Record RateLimitStoredBucket := mkStoredBucket {
  stored_Action : string; stored_KeyHint : string; stored_Count : Z; stored_Started : Z }.
Record RateLimitActionInfo := mkActionInfo {
  info_Action : string; info_Limit : Z; info_Window : Z; info_Buckets : Z; info_Locked : Z }.
Record RateLimitBucketInfo := mkBucketInfo {
  bucket_Action : string; bucket_KeyHint : string; bucket_Count : Z; bucket_Limit : Z;
  bucket_RetryAfter : Z }.
Record RateLimitSnapshot := mkSnapshot {
  snapshot_Count : Z; snapshot_Limit : Z; snapshot_RetryAfter : Z }.

(** [RateLimitStore]: Hit, Get, Clear, List, ClearAction, ClearAll. *)
Class RateLimitStore (S : Type) := {
  store_Hit : string → string → string → Z → Z → ST S RateLimitHit;
  store_Get : string → string → Z → ST S RateLimitHit;
  store_Clear : string → string → ST S unit;
  store_List : Z → ST S (list RateLimitStoredBucket);
  store_ClearAction : string → ST S Z;
  store_ClearAll : ST S Z;
}.

Record RateLimiter (S : Type) := mkRateLimiter {
  limiter_config : RateLimitConfig;
  limiter_now : ST S Z;
  limiter_store : RateLimitStore S;
}.
Arguments mkRateLimiter {S}.
Arguments limiter_config {S}.
Arguments limiter_now {S}.
Arguments limiter_store {S}.

(** [NewRateLimiterWithStore]. *)
Definition NewRateLimiterWithStore {S} (config : RateLimitConfig) (now : ST S Z) (store : RateLimitStore S)
    : outcome (RateLimiter S) :=
  if (Limit config <=? 0) || (Window config <=? 0) then Err ErrInvalidRateLimitConfig
  else Ok (mkRateLimiter config now store).

(** [t.Sub(u)]: saturates. *)
Definition Sub (t u : Z) : Z := Z.max min_int64 (Z.min max_int64 (t - u)).
Definition retryAfter (config : RateLimitConfig) (started now : Z) : Z :=
  wrap64 (Window config - Sub now started).

Definition validateRateLimitKey (value : string) : outcome unit :=
  if String.eqb (TrimSpace value) "" || (maxRateLimitKeyLength <? len value)
     || ContainsAny value [ascii_of_nat 0; ascii_of_nat 13; ascii_of_nat 10]
  then Err ErrInvalidRateLimitKey else Ok tt.

Definition redactRateLimitKey (key : string) : string :=
  match runes key with
  | [] => ""
  | [_] => Repeat "*" 1
  | [_; _] => Repeat "*" 2
  | first :: rest =>
    encode_rune first +:+ Repeat "*" (length rest - 1) +:+ encode_rune (List.last rest 0)
  end.

Definition originRateLimitKey (origin : string) : string :=
  match ParseAddr origin with
  | None => origin
  | Some addr =>
    if negb (String.eqb (Zone addr) "") then origin else
    match Unmap addr with
    | Addr4 octets => String4 octets
    | Addr6 groups _ => Prefix64_String groups
    end
  end.

Section limiter.
Context {S : Type} (l : RateLimiter S).
#[local] Instance limiter_store_instance : RateLimitStore S := limiter_store l.

(** The validations every method starts with. *)
Definition valid_key (key : string) : ST S unit := lift (validateRateLimitKey key).

Definition Allow (action key : string) : ST S RateLimitDecision :=
  valid_key action ;;;
  valid_key key ;;;
  let! now := limiter_now l in
  let! hit := store_Hit action key (redactRateLimitKey key) (Window (limiter_config l)) now in
  if Limit (limiter_config l) <? hit_Count hit
  then ret (mkDecision false 0 (retryAfter (limiter_config l) (hit_Started hit) now))
  else ret (mkDecision true (Limit (limiter_config l) - hit_Count hit) 0).

Definition Clear (action key : string) : ST S unit :=
  valid_key action ;;; valid_key key ;;; store_Clear action key.

(** [live]: a store failure yields no windows. *)
Definition live_windows : ST S (list RateLimitStoredBucket) :=
  let! now := limiter_now l in
  let! r := attempt (store_List now) in
  match r with Ok buckets => ret buckets | Err _ => ret [] end.

Definition locked (bucket : RateLimitStoredBucket) : bool :=
  Limit (limiter_config l) <=? stored_Count bucket.
Definition LockedCount : ST S Z :=
  let! buckets := live_windows in
  ret (Z.of_nat (length (filter (λ b, locked b = true) buckets))).

(** One round of the loop of [Actions] over the summaries built so far. *)
Fixpoint count_bucket (b : RateLimitStoredBucket) (actions : list RateLimitActionInfo)
    : list RateLimitActionInfo :=
  match actions with
  | [] => [mkActionInfo (stored_Action b) (Limit (limiter_config l)) (Window (limiter_config l)) 1
             (if locked b then 1 else 0)]
  | a :: rest =>
    if String.eqb (info_Action a) (stored_Action b)
    then mkActionInfo (info_Action a) (info_Limit a) (info_Window a) (info_Buckets a + 1)
           (info_Locked a + if locked b then 1 else 0) :: rest
    else a :: count_bucket b rest
  end.
Definition action_le : relation RateLimitActionInfo :=
  λ a b, String.leb (info_Action a) (info_Action b) = true.
#[local] Instance action_le_dec : RelDecision action_le :=
  λ a b, decide (String.leb (info_Action a) (info_Action b) = true).
Definition Actions : ST S (list RateLimitActionInfo) :=
  let! buckets := live_windows in
  ret (merge_sort action_le (fold_left (λ acc b, count_bucket b acc) buckets [])).

Definition bucket_info (now : Z) (b : RateLimitStoredBucket) : RateLimitBucketInfo :=
  mkBucketInfo (stored_Action b) (stored_KeyHint b)
    (Z.min (stored_Count b) (Limit (limiter_config l))) (Limit (limiter_config l))
    (retryAfter (limiter_config l) (stored_Started b) now).
Definition fuller : relation RateLimitBucketInfo := λ a b, bucket_Count b ≤ bucket_Count a.
#[local] Instance fuller_dec : RelDecision fuller := λ a b, decide (bucket_Count b ≤ bucket_Count a).
Definition Buckets (action : string) : ST S (list RateLimitBucketInfo) :=
  valid_key action ;;;
  let! now := limiter_now l in
  let! stored := store_List now in
  ret (merge_sort fuller
         (bucket_info now <$> filter (λ b, String.eqb (stored_Action b) action = true) stored)).

Definition ClearAction (action : string) : ST S Z :=
  valid_key action ;;; store_ClearAction action.
Definition ClearAll : ST S Z := store_ClearAll.

Definition Snapshot (action key : string) : ST S RateLimitSnapshot :=
  valid_key action ;;;
  valid_key key ;;;
  let! now := limiter_now l in
  let! hit := store_Get action key now in
  if 0 <? hit_Count hit
  then ret (mkSnapshot (Z.min (hit_Count hit) (Limit (limiter_config l))) (Limit (limiter_config l))
              (retryAfter (limiter_config l) (hit_Started hit) now))
  else ret (mkSnapshot 0 (Limit (limiter_config l)) 0).
End limiter.

(** ** What a store promises *)

Definition valid_rate_key (key : string) : Prop := validateRateLimitKey key = Ok tt.
#[export] Instance valid_rate_key_dec key : Decision (valid_rate_key key).
Proof.
  unfold valid_rate_key, validateRateLimitKey. case_match; [right; discriminate | by left].
Defined.

(** [live s t a k] is the window of [a]/[k] that a reading at [t] sees, and
    [store_wf] the store's own invariant.  A store counts every attempt in the
    live window, opens one when none is live, never forgets a window at its
    limit before it ends, and a window ends at most [Window] after it started. *)
Class FixedWindow {S} (l : RateLimiter S) := {
  live : S → Z → string → string → option RateLimitHit;
  clock_of : S → Z;
  store_wf : S → Prop;
  now_ok s s' t : limiter_now l s = (s', Ok t) → clock_of s' = t;
  now_clock s : clock_of s ≤ clock_of (fst (limiter_now l s));
  now_live s T a k : live (fst (limiter_now l s)) T a k = live s T a k;
  now_wf s : store_wf s → store_wf (fst (limiter_now l s));
  live_window s T a k h : store_wf s → live s T a k = Some h →
    0 < hit_Count h ∧ hit_Started h ≤ clock_of s ∧ T < hit_Started h + Window (limiter_config l);
  hit (a k : string) (now : Z) : ST S RateLimitHit :=
    store_Hit (RateLimitStore := limiter_store l) a k (redactRateLimitKey k) (Window (limiter_config l)) now;
  hit_clock a k now s : clock_of (fst (hit a k now s)) = clock_of s;
  hit_wf a k s : store_wf s → store_wf (fst (hit a k (clock_of s) s));
  (** the hit key, window live *)
  hit_live a k now s T h : store_wf s → now ≤ T → live s T a k = Some h →
    match hit a k now s with
    | (s', Ok r) => r = mkHit (hit_Count h + 1) (hit_Started h) ∧ live s' T a k = Some r
    | (s', Err _) => ∃ h', live s' T a k = Some h' ∧ hit_Count h ≤ hit_Count h'
    end;
  (** the hit key, no window *)
  hit_new a k now s s' r : store_wf s → live s now a k = None → hit a k now s = (s', Ok r) →
    hit_Count r = 1 ∧ now - 1000000 < hit_Started r ≤ now;
  (** other keys at their limit *)
  hit_other a k a' k' now s T h :
    valid_rate_key a → valid_rate_key k → valid_rate_key a' → valid_rate_key k' → (a, k) ≠ (a', k') →
    now ≤ T → live s T a' k' = Some h → Limit (limiter_config l) ≤ hit_Count h →
    live (fst (hit a k now s)) T a' k' = Some h;
}.

Section promises.
Context {S : Type} (l : RateLimiter S) `{!FixedWindow l}.
Context (Hlimit : 0 < Limit (limiter_config l)) (Hwindow : 0 < Window (limiter_config l) ≤ max_int64).

Lemma Allow_unfold a k s :
  valid_rate_key a → valid_rate_key k →
  Allow l a k s =
    match limiter_now l s with
    | (s1, Ok now) =>
      match hit a k now s1 with
      | (s2, Ok r) => (s2, Ok (if Limit (limiter_config l) <? hit_Count r
                               then mkDecision false 0 (retryAfter (limiter_config l) (hit_Started r) now)
                               else mkDecision true (Limit (limiter_config l) - hit_Count r) 0))
      | (s2, Err e) => (s2, Err e)
      end
    | (s1, Err e) => (s1, Err e)
    end.
Proof.
  intros Ha Hk. unfold Allow, valid_key, bind at 1 2, lift. rewrite Ha, Hk.
  unfold bind. destruct (limiter_now l s) as [s1 [now|e]]; [|done].
  change (store_Hit _ _ _ _ _ s1) with (hit a k now s1).
  destruct (hit a k now s1) as [s2 [r|e]]; [|done]. by case_match.
Qed.

Lemma Allow_invalid a k s :
  ¬ (valid_rate_key a ∧ valid_rate_key k) → Allow l a k s = (s, Err ErrInvalidRateLimitKey).
Proof.
  intros Hn. unfold Allow, valid_key, bind, lift, valid_rate_key in *.
  assert (∀ v, validateRateLimitKey v = Ok tt ∨ validateRateLimitKey v = Err ErrInvalidRateLimitKey) as Hv.
  { intros v. unfold validateRateLimitKey. case_match; auto. }
  destruct (Hv a) as [Ea|Ea], (Hv k) as [Ek|Ek]; rewrite Ea in *; try rewrite Ek in *; try done.
  exfalso. by apply Hn.
Qed.

(** The functional behaviour of [Allow] on the window that is live when it
    reads the clock. *)
Lemma Allow_decides a k s s' d :
  store_wf s → Allow l a k s = (s', Ok d) →
  let now := clock_of s' in
  match live s now a k with
  | None => d = mkDecision true (Limit (limiter_config l) - 1) 0
  | Some h =>
    if hit_Count h <? Limit (limiter_config l)
    then d = mkDecision true (Limit (limiter_config l) - hit_Count h - 1) 0
    else d = mkDecision false 0 (hit_Started h + Window (limiter_config l) - now) ∧
         0 < RetryAfter d ≤ Window (limiter_config l)
  end.
Proof.
  intros Hwf Ha.
  destruct (decide (valid_rate_key a ∧ valid_rate_key k)) as [[Va Vk]|Hn];
    [|by rewrite (Allow_invalid _ _ _ Hn) in Ha].
  rewrite (Allow_unfold _ _ _ Va Vk) in Ha.
  pose proof (now_live s) as Hlive. pose proof (now_wf s Hwf) as Hwf1.
  destruct (limiter_now l s) as [s1 [now|e]] eqn:Enow; [|done]. simpl in *.
  apply now_ok in Enow. subst now.
  pose proof (hit_clock a k (clock_of s1) s1) as Hclk.
  destruct (hit a k (clock_of s1) s1) as [s2 [r|e]] eqn:Ehit; [|done]. simpl in Hclk.
  injection Ha as <- <-. rewrite Hclk, <- Hlive.
  destruct (live s1 (clock_of s1) a k) as [h|] eqn:El.
  - pose proof (live_window _ _ _ _ _ Hwf1 El) as (Hpos & Hst & Hend).
    pose proof (hit_live a k _ _ _ _ Hwf1 (Z.le_refl _) El) as Hh. rewrite Ehit in Hh.
    destruct Hh as [-> _]. simpl.
    destruct (Z.ltb_spec (hit_Count h) (Limit (limiter_config l)));
      destruct (Z.ltb_spec (Limit (limiter_config l)) (hit_Count h + 1)); try lia; [f_equal; lia|].
    assert (retryAfter (limiter_config l) (hit_Started h) (clock_of s1) =
            hit_Started h + Window (limiter_config l) - clock_of s1) as ->.
    { unfold retryAfter, Sub. rewrite wrap64_id; unfold int64, min_int64, max_int64 in *; lia. }
    simpl. split; [done|lia].
  - pose proof (hit_new a k _ _ _ _ Hwf1 El Ehit) as (Hone & _). rewrite Hone.
    destruct (Z.ltb_spec (Limit (limiter_config l)) 1); [lia | done].
Qed.

(** A sequence of attempts on any keys. *)
Fixpoint run_allows (calls : list (string * string)) (s : S) : S * list (outcome RateLimitDecision) :=
  match calls with
  | [] => (s, [])
  | (a, k) :: calls =>
    let (s1, r) := Allow l a k s in
    let (s2, rs) := run_allows calls s1 in (s2, r :: rs)
  end.

Lemma Allow_clock a k s : clock_of s ≤ clock_of (fst (Allow l a k s)).
Proof.
  destruct (decide (valid_rate_key a ∧ valid_rate_key k)) as [[Va Vk]|Hn];
    [|by rewrite (Allow_invalid _ _ _ Hn)].
  rewrite (Allow_unfold _ _ _ Va Vk). pose proof (now_clock s) as Hc.
  destruct (limiter_now l s) as [s1 [now|e]]; simpl in *; [|done].
  pose proof (hit_clock a k now s1) as Hh. destruct (hit a k now s1) as [s2 [r|e]]; simpl in *; lia.
Qed.

Lemma Allow_wf a k s : store_wf s → store_wf (fst (Allow l a k s)).
Proof.
  intros Hwf.
  destruct (decide (valid_rate_key a ∧ valid_rate_key k)) as [[Va Vk]|Hn];
    [|by rewrite (Allow_invalid _ _ _ Hn)].
  rewrite (Allow_unfold _ _ _ Va Vk). pose proof (now_wf s Hwf) as Hwf1.
  destruct (limiter_now l s) as [s1 [now|e]] eqn:E; simpl in *; [|done].
  apply now_ok in E. subst now.
  pose proof (hit_wf a k s1 Hwf1) as Hh. by destruct (hit a k _ s1) as [s2 [r|e]].
Qed.

Lemma run_allows_clock calls s : clock_of s ≤ clock_of (fst (run_allows calls s)).
Proof.
  revert s. induction calls as [|[a k] calls IH]; intros s; simpl; [done|].
  pose proof (Allow_clock a k s). destruct (Allow l a k s) as [s1 r]. specialize (IH s1).
  destruct (run_allows calls s1). simpl in *. lia.
Qed.

(** A key at its limit until [T]: one more attempt on any key does not lift it. *)
Lemma Allow_blocked a k a' k' s T h :
  store_wf s → valid_rate_key a' → valid_rate_key k' →
  live s T a' k' = Some h → Limit (limiter_config l) ≤ hit_Count h →
  clock_of (fst (Allow l a k s)) ≤ T →
  (∃ h', live (fst (Allow l a k s)) T a' k' = Some h' ∧ Limit (limiter_config l) ≤ hit_Count h') ∧
  ((a, k) = (a', k') → ∀ d, snd (Allow l a k s) = Ok d → Allowed d = false).
Proof.
  intros Hwf Va' Vk' Hl Hle HT.
  destruct (decide (valid_rate_key a ∧ valid_rate_key k)) as [[Va Vk]|Hn].
  2:{ rewrite (Allow_invalid _ _ _ Hn). split; [by exists h | done]. }
  rewrite (Allow_unfold _ _ _ Va Vk) in *.
  pose proof (now_live s T a' k') as Hlive. pose proof (now_wf s Hwf) as Hwf1.
  destruct (limiter_now l s) as [s1 [now|e]] eqn:E; simpl in *;
    [|split; [exists h; by rewrite Hlive | done]].
  apply now_ok in E. subst now. rewrite Hl in Hlive.
  pose proof (hit_clock a k (clock_of s1) s1) as Hclk.
  assert (clock_of s1 ≤ T) as HT1.
  { destruct (hit a k _ s1) as [? []]; simpl in *; lia. }
  destruct (decide ((a, k) = (a', k'))) as [[= -> ->]|Hne].
  - pose proof (hit_live a' k' _ _ _ _ Hwf1 HT1 Hlive) as Hh.
    destruct (hit a' k' (clock_of s1) s1) as [s2 [r|e]]; simpl in *.
    + destruct Hh as [-> Hh]. split; [eexists; split; [done|simpl; lia]|].
      intros _ d [= <-]. simpl. destruct (Z.ltb_spec (Limit (limiter_config l)) (hit_Count h + 1)); [done|lia].
    + destruct Hh as (h' & Hh & ?). split; [exists h'; split; [done|lia] | done].
  - pose proof (hit_other a k a' k' _ _ _ _ Va Vk Va' Vk' Hne HT1 Hlive Hle) as Hh.
    destruct (hit a k (clock_of s1) s1) as [s2 [r|e]]; simpl in *; (split; [by exists h | by intros ?]).
Qed.

Lemma run_allows_blocked calls s T a' k' h :
  store_wf s → valid_rate_key a' → valid_rate_key k' →
  live s T a' k' = Some h → Limit (limiter_config l) ≤ hit_Count h →
  clock_of (fst (run_allows calls s)) ≤ T →
  ∀ i d, calls !! i = Some (a', k') → snd (run_allows calls s) !! i = Some (Ok d) → Allowed d = false.
Proof.
  intros Hwf Va Vk. revert s h Hwf. induction calls as [|[a k] calls IH]; intros s h Hwf Hl Hle HT i d; [done|].
  simpl in *. pose proof (Allow_blocked a k a' k' s T h Hwf Va Vk Hl Hle) as Hb.
  pose proof (Allow_wf a k s Hwf) as Hwf1.
  destruct (Allow l a k s) as [s1 r]. pose proof (run_allows_clock calls s1) as Hclk.
  specialize (IH s1). destruct (run_allows calls s1) as [s2 rs]. simpl in *.
  destruct Hb as [(h' & Hl' & Hle') Hkey]; [lia|].
  destruct i as [|i]; simpl.
  - intros [= -> ->] [= ->]. by apply Hkey.
  - by apply (IH h').
Qed.
End promises.

(** ** What a limiter promises *)

(** While a key is at its limit, no attempt on it is let through until its
    window ends, whatever attempts on other keys come in between: in particular
    evicting keys from the bounded in-process store never lifts a block. *)
Theorem limiter_blocked_until_window_ends {S} (l : RateLimiter S) `{!FixedWindow l} calls s T a k h :
  store_wf s → valid_rate_key a → valid_rate_key k →
  live s T a k = Some h → Limit (limiter_config l) ≤ hit_Count h →
  clock_of (fst (run_allows l calls s)) ≤ T →
  ∀ i d, calls !! i = Some (a, k) → snd (run_allows l calls s) !! i = Some (Ok d) → Allowed d = false.
Proof. intros Hwf Va Vk Hl Hle HT. by apply (run_allows_blocked l calls s T a k h). Qed.

(** [Allow] decides by the window that is live at the instant it reads: the
    remaining budget counts this attempt, a refusal carries the time left until
    the window ends, positive and never more than one window. *)
Theorem limiter_decision {S} (l : RateLimiter S) `{!FixedWindow l} a k s s' d :
  0 < Limit (limiter_config l) → 0 < Window (limiter_config l) ≤ max_int64 →
  store_wf s → Allow l a k s = (s', Ok d) →
  match live s (clock_of s') a k with
  | None => d = mkDecision true (Limit (limiter_config l) - 1) 0
  | Some h =>
    if hit_Count h <? Limit (limiter_config l)
    then d = mkDecision true (Limit (limiter_config l) - hit_Count h - 1) 0
    else d = mkDecision false 0 (hit_Started h + Window (limiter_config l) - clock_of s') ∧
         0 < RetryAfter d ≤ Window (limiter_config l)
  end.
Proof. intros Hlimit Hwindow Hwf Ha. by apply (Allow_decides l Hlimit Hwindow a k s s' d). Qed.

(** Two IPv6 clients of one /64 network share a budget: the key of an
    address depends only on its network half.  An IPv4-mapped address has the
    key of the IPv4 address it maps. *)
Theorem origin_key_by_network o1 o2 g1 g2 :
  ParseAddr o1 = Some (Addr6 g1 "") → ParseAddr o2 = Some (Addr6 g2 "") →
  Unmap (Addr6 g1 "") = Addr6 g1 "" → Unmap (Addr6 g2 "") = Addr6 g2 "" →
  take 4 g1 = take 4 g2 → originRateLimitKey o1 = originRateLimitKey o2.
Proof.
  intros H1 H2 U1 U2 Ht. unfold originRateLimitKey. rewrite H1, H2. simpl negb. cbn iota.
  rewrite U1, U2. unfold Prefix64_String, mask64. by rewrite Ht.
Qed.
