(* ===== verification/RateLimitMemory.v ===== *)
(** * The single-process limiter store: internal/service/rate_limit_memory.go

    A bounded map from the composite key to its window.  Go iterates a map in
    an unspecified order, given here by [range_order]. *)
From S2P Require Export RateLimit.

Record MemoryBucket := mkMemoryBucket {
  mem_action : string;
  mem_hint : string;
  mem_started : Z;
  mem_expires : Z;
  mem_count : Z;
}.

(** The store's map, with the clock its limiter reads. *)
Record Memory := mkMemory {
  mem_buckets : gmap string MemoryBucket;
  mem_clock : Z;
  mem_ticks : list N;
}.

(** The order in which [range] visits a map. *)
Class MapRange := {
  range_order : gmap string MemoryBucket → list (string * MemoryBucket);
  range_order_perm m : range_order m ≡ₚ map_to_list m;
}.

Definition nul : ascii := ascii_of_nat 0.
Definition rateLimitCompositeKey (action key : string) : string := action +:+ String nul key.

Section memory.
Context `{MapRange}.

Definition set_buckets b m := mkMemory b (mem_clock m) (mem_ticks m).
Definition memory_now : ST Memory Z := λ m,
  let t := mem_clock m + match mem_ticks m with d :: _ => Z.of_N d | [] => 0 end in
  (mkMemory (mem_buckets m) t (tail (mem_ticks m)), Ok t).

(** [!now.Before(bucket.expires)]. *)
Definition expired (now : Z) (b : MemoryBucket) : bool := mem_expires b <=? now.
Definition pruneExpired (now : Z) (bs : gmap string MemoryBucket) : gmap string MemoryBucket :=
  filter (λ kv, expired now kv.2 = false) bs.

(** The loop of [evictOldestUnblocked] over the buckets still to visit. *)
Fixpoint oldest_unblocked (limit : Z) (rows : list (string * MemoryBucket)) (oldestKey : string) (oldest : Z)
    : string :=
  match rows with
  | [] => oldestKey
  | (key, b) :: rows =>
    if (mem_count b <? limit) && (String.eqb oldestKey "" || (mem_started b <? oldest))
    then oldest_unblocked limit rows key (mem_started b)
    else oldest_unblocked limit rows oldestKey oldest
  end.
Definition evictOldestUnblocked (limit : Z) (bs : gmap string MemoryBucket)
    : option (gmap string MemoryBucket) :=
  let oldestKey := oldest_unblocked limit (range_order bs) "" 0 in
  if String.eqb oldestKey "" then None else Some (delete oldestKey bs).

Definition memory_Hit (limit maxKeys : Z) (action key hint : string) (window now : Z)
    : ST Memory RateLimitHit := λ m,
  let bs := pruneExpired now (mem_buckets m) in
  let composite := rateLimitCompositeKey action key in
  let count b bs :=
    let b := mkMemoryBucket (mem_action b) (mem_hint b) (mem_started b) (mem_expires b) (mem_count b + 1) in
    (set_buckets (<[composite := b]> bs) m, Ok (mkHit (mem_count b) (mem_started b))) in
  match bs !! composite with
  | Some b => count b bs
  | None =>
    let fresh := mkMemoryBucket action hint now (now + window) 0 in
    if maxKeys <=? Z.of_nat (size bs) then
      match evictOldestUnblocked limit bs with
      | None => (set_buckets bs m, Err ErrRateLimitCapacity)
      | Some bs => count fresh bs
      end
    else count fresh bs
  end.

Definition memory_Get (action key : string) (now : Z) : ST Memory RateLimitHit := λ m,
  (m, Ok match mem_buckets m !! rateLimitCompositeKey action key with
         | Some b => if expired now b then mkHit 0 0 else mkHit (mem_count b) (mem_started b)
         | None => mkHit 0 0
         end).

Definition memory_Clear (action key : string) : ST Memory unit := λ m,
  (set_buckets (delete (rateLimitCompositeKey action key) (mem_buckets m)) m, Ok tt).

Definition memory_List (now : Z) : ST Memory (list RateLimitStoredBucket) := λ m,
  let bs := pruneExpired now (mem_buckets m) in
  (set_buckets bs m,
   Ok ((λ kv, mkStoredBucket (mem_action kv.2) (mem_hint kv.2) (mem_count kv.2) (mem_started kv.2))
         <$> range_order bs)).

Definition memory_ClearAction (action : string) : ST Memory Z := λ m,
  (set_buckets (filter (λ kv, mem_action kv.2 ≠ action) (mem_buckets m)) m,
   Ok (count_rows (λ kv, String.eqb (mem_action kv.2) action) (mem_buckets m))).

Definition memory_ClearAll : ST Memory Z := λ m,
  (set_buckets ∅ m, Ok (Z.of_nat (size (mem_buckets m)))).

Definition newMemoryRateLimitStore (config : RateLimitConfig) : RateLimitStore Memory := {|
  store_Hit := memory_Hit (Limit config) (MaxKeys config);
  store_Get := memory_Get;
  store_Clear := memory_Clear;
  store_List := memory_List;
  store_ClearAction := memory_ClearAction;
  store_ClearAll := memory_ClearAll;
|}.

Definition memory_limiter (config : RateLimitConfig) : RateLimiter Memory :=
  mkRateLimiter config memory_now (newMemoryRateLimitStore config).
Definition NewRateLimiter (config : RateLimitConfig) : outcome (RateLimiter Memory) :=
  if (Limit config <=? 0) || (Window config <=? 0) || (MaxKeys config <=? 0)
  then Err ErrInvalidRateLimitConfig
  else Ok (memory_limiter config).
End memory.

(** ** Composite keys *)

Lemma valid_rate_key_nul k : valid_rate_key k → contains_char nul k = false.
Proof.
  unfold valid_rate_key, validateRateLimitKey. case_match eqn:E; [done|]. intros _.
  bool_props. simpl in *. bool_props. done.
Qed.

Lemma composite_key_inj a k a' k' :
  valid_rate_key a → valid_rate_key a' →
  rateLimitCompositeKey a k = rateLimitCompositeKey a' k' → (a, k) = (a', k').
Proof.
  intros Ha%valid_rate_key_nul Ha'%valid_rate_key_nul. unfold rateLimitCompositeKey.
  revert a' Ha'. induction a as [|c a IH]; intros [|c' a'] Ha'; simpl in Ha, Ha';
    rewrite ?str_app_cons, ?str_app_nil_l.
  - by intros [= ->].
  - intros [= <- _]. cbn in Ha'. done.
  - intros [= -> _]. cbn in Ha. done.
  - intros [= -> Heq]. apply orb_false_iff in Ha as [_ Ha], Ha' as [_ Ha'].
    specialize (IH Ha _ Ha' Heq). congruence.
Qed.

Lemma composite_key_nonempty a k : rateLimitCompositeKey a k ≠ "".
Proof. destruct a; unfold rateLimitCompositeKey; [done|]. by rewrite str_app_cons. Qed.

(** ** The store keeps its promises *)
Section laws.
Context `{MapRange} (config : RateLimitConfig).
Context (Hlimit : 0 < Limit config) (Hwindow : 0 < Window config) (Hkeys : 0 < MaxKeys config).

(** Keys are composite, counts positive, windows of the configured length. *)
Definition bucket_wf (m : Memory) (key : string) (b : MemoryBucket) : Prop :=
  key ≠ "" ∧ 0 < mem_count b ∧ mem_started b ≤ mem_clock m ∧ mem_expires b = mem_started b + Window config.
Definition memory_wf (m : Memory) : Prop :=
  map_Forall (bucket_wf m) (mem_buckets m) ∧ Z.of_nat (size (mem_buckets m)) ≤ MaxKeys config.
Definition memory_live (m : Memory) (t : Z) (a k : string) : option RateLimitHit :=
  match mem_buckets m !! rateLimitCompositeKey a k with
  | Some b => if expired t b then None else Some (mkHit (mem_count b) (mem_started b))
  | None => None
  end.

Lemma pruneExpired_lookup now bs key b :
  pruneExpired now bs !! key = Some b ↔ bs !! key = Some b ∧ expired now b = false.
Proof. unfold pruneExpired. by rewrite map_lookup_filter_Some. Qed.

Lemma size_pruneExpired now bs : (size (pruneExpired now bs) ≤ size bs)%nat.
Proof. apply map_subseteq_size. unfold pruneExpired. apply map_filter_subseteq. Qed.

Lemma elem_of_range_order bs key b : (key, b) ∈ range_order bs ↔ bs !! key = Some b.
Proof. rewrite (elem_of_Permutation_proper _ _ _ (range_order_perm bs)). apply elem_of_map_to_list. Qed.

Lemma oldest_unblocked_result rows key oldest :
  let r := oldest_unblocked (Limit config) rows key oldest in
  r = key ∨ ∃ b, (r, b) ∈ rows ∧ mem_count b < Limit config.
Proof.
  revert key oldest. induction rows as [|[k b] rows IH]; intros key oldest; simpl; [by left|].
  case_match eqn:E; bool_props.
  - destruct (IH k (mem_started b)) as [->|(b' & Hin & ?)]; right; [exists b | exists b'];
      (split; [|done]); [left | by right].
  - destruct (IH key oldest) as [->|(b' & Hin & ?)]; [by left|]. right. exists b'. split; [by right | done].
Qed.

(** With every key non-empty, nothing is evicted only when all are blocked. *)
Lemma oldest_unblocked_none rows key oldest :
  (∀ k b, (k, b) ∈ rows → k ≠ "") →
  oldest_unblocked (Limit config) rows key oldest = "" →
  key = "" ∧ ∀ k b, (k, b) ∈ rows → Limit config ≤ mem_count b.
Proof.
  revert key oldest. induction rows as [|[k b] rows IH]; intros key oldest Hne; simpl.
  - intros ->. split; [done|]. intros k b Hin. by apply not_elem_of_nil in Hin.
  - assert (k ≠ "") as Hk by (apply (Hne k b); left).
    assert (∀ k b, (k, b) ∈ rows → k ≠ "") as Hne' by (intros; eapply Hne; by right).
    case_match eqn:E; intros Hr; apply IH in Hr as [Hkey Hall]; auto; [done|].
    split; [done|]. intros k' b' [[= -> ->]|Hin]%elem_of_cons; [|by eapply Hall].
    subst key. simpl in E. rewrite andb_true_r in E. by bool_props.
Qed.

Lemma evict_Some bs bs' :
  evictOldestUnblocked (Limit config) bs = Some bs' →
  ∃ key b, bs !! key = Some b ∧ mem_count b < Limit config ∧ bs' = delete key bs.
Proof.
  unfold evictOldestUnblocked. case_match eqn:E; [done|]. bool_props. intros [= <-].
  destruct (oldest_unblocked_result (range_order bs) "" 0) as [Heq|(b & Hin & Hb)]; [congruence|].
  apply elem_of_range_order in Hin. eauto.
Qed.

Lemma evict_None m bs :
  map_Forall (bucket_wf m) bs →
  evictOldestUnblocked (Limit config) bs = None → map_Forall (λ _ b, Limit config ≤ mem_count b) bs.
Proof.
  unfold evictOldestUnblocked. intros Hwf. case_match eqn:E; [|done]. bool_props. intros _.
  apply oldest_unblocked_none in E as [_ Hall].
  - intros k b Hk. apply (Hall k). by apply elem_of_range_order.
  - intros k b Hin. apply elem_of_range_order in Hin.
    by apply Hwf in Hin as [? _].
Qed.

(** What [Hit] does to the map. *)
Lemma memory_Hit_cases a k hint w now m :
  let c := rateLimitCompositeKey a k in
  let bs := pruneExpired now (mem_buckets m) in
  let bump b := mkMemoryBucket (mem_action b) (mem_hint b) (mem_started b) (mem_expires b) (mem_count b + 1) in
  let fresh := mkMemoryBucket a hint now (now + w) 0 in
  (∃ b, bs !! c = Some b ∧
    memory_Hit (Limit config) (MaxKeys config) a k hint w now m =
      (set_buckets (<[c := bump b]> bs) m, Ok (mkHit (mem_count b + 1) (mem_started b)))) ∨
  (bs !! c = None ∧ MaxKeys config ≤ Z.of_nat (size bs) ∧ evictOldestUnblocked (Limit config) bs = None ∧
    memory_Hit (Limit config) (MaxKeys config) a k hint w now m =
      (set_buckets bs m, Err ErrRateLimitCapacity)) ∨
  (bs !! c = None ∧ ∃ bs',
    (Z.of_nat (size bs) < MaxKeys config ∧ bs' = bs ∨
     MaxKeys config ≤ Z.of_nat (size bs) ∧ evictOldestUnblocked (Limit config) bs = Some bs') ∧
    memory_Hit (Limit config) (MaxKeys config) a k hint w now m =
      (set_buckets (<[c := bump fresh]> bs') m, Ok (mkHit 1 now))).
Proof.
  intros c bs bump fresh. unfold memory_Hit. fold c. fold bs.
  destruct (bs !! c) as [b|] eqn:E; [left; by exists b | right].
  destruct (Z.leb_spec (MaxKeys config) (Z.of_nat (size bs))).
  - destruct (evictOldestUnblocked (Limit config) bs) as [bs'|] eqn:Ev; [right | by left].
    split; [done|]. exists bs'. split; [by right | done].
  - right. split; [done|]. exists bs. split; [by left | done].
Qed.

Let l := memory_limiter config.

Lemma memory_wf_mono m m' :
  mem_buckets m' = mem_buckets m → mem_clock m ≤ mem_clock m' → memory_wf m → memory_wf m'.
Proof.
  intros Hb Hc [Hwf Hs]. unfold memory_wf. rewrite Hb. split; [|done].
  intros key b Hk. apply Hwf in Hk as (? & ? & ? & ?). unfold bucket_wf. repeat split; try done; lia.
Qed.

Lemma memory_live_bucket m T a k h :
  memory_live m T a k = Some h ↔
  ∃ b, mem_buckets m !! rateLimitCompositeKey a k = Some b ∧ T < mem_expires b ∧
       h = mkHit (mem_count b) (mem_started b).
Proof.
  unfold memory_live. split.
  - destruct (mem_buckets m !! _) as [b|] eqn:E; [|done]. unfold expired. case_match; [done|].
    intros [= <-]. bool_props. eauto.
  - intros (b & -> & Hlt & ->). unfold expired. by rewrite (proj2 (Z.leb_gt _ _) Hlt).
Qed.

Lemma bump_wf m c b : bucket_wf m c b →
  bucket_wf m c (mkMemoryBucket (mem_action b) (mem_hint b) (mem_started b) (mem_expires b) (mem_count b + 1)).
Proof. intros (? & ? & ? & ?). unfold bucket_wf; simpl. repeat split; try done; lia. Qed.

Lemma fresh_wf m a k hint :
  bucket_wf m (rateLimitCompositeKey a k)
    (mkMemoryBucket a hint (mem_clock m) (mem_clock m + Window config) 1).
Proof. unfold bucket_wf; simpl. repeat split; try lia. apply composite_key_nonempty. Qed.

Lemma size_insert_new (bs : gmap string MemoryBucket) c b :
  bs !! c = None → Z.of_nat (size (<[c := b]> bs)) = Z.of_nat (size bs) + 1.
Proof. intros. rewrite map_size_insert_None by done. lia. Qed.

Lemma size_evict bs bs' :
  evictOldestUnblocked (Limit config) bs = Some bs' → Z.of_nat (size bs') = Z.of_nat (size bs) - 1.
Proof.
  intros (key & b & Hk & _ & ->)%evict_Some. rewrite map_size_delete_Some by eauto.
  pose proof (map_size_ne_0_lookup_2 bs key (mk_is_Some _ _ Hk)). lia.
Qed.

Lemma memory_Hit_wf a k hint m :
  memory_wf m → memory_wf (fst (memory_Hit (Limit config) (MaxKeys config) a k hint (Window config) (mem_clock m) m)).
Proof.
  intros [Hwf Hsize]. unfold memory_wf.
  assert (map_Forall (bucket_wf m) (pruneExpired (mem_clock m) (mem_buckets m))) as Hp.
  { intros key b [Hk _]%pruneExpired_lookup. by apply Hwf. }
  pose proof (size_pruneExpired (mem_clock m) (mem_buckets m)) as Hsp.
  destruct (memory_Hit_cases a k hint (Window config) (mem_clock m) m)
    as [(b & Hb & ->)|[(Hb & _ & _ & ->)|(Hb & bs' & Hbs & ->)]]; simpl.
  - split; [|rewrite map_size_insert_Some by eauto; lia].
    apply map_Forall_insert_2; [apply (bump_wf m), Hp, Hb | done].
  - split; [done | lia].
  - assert (bs' ⊆ pruneExpired (mem_clock m) (mem_buckets m)) as Hsub.
    { destruct Hbs as [[_ ->]|[_ (? & ? & _ & _ & ->)%evict_Some]]; [done | apply delete_subseteq]. }
    assert (bs' !! rateLimitCompositeKey a k = None) as Hn by by eapply lookup_weaken_None.
    split.
    + apply map_Forall_insert_2; [apply (fresh_wf m) | intros ? ? Hk; eapply Hp, lookup_weaken; [exact Hk | exact Hsub]].
    + rewrite size_insert_new by done. destruct Hbs as [[? ->]|[? Hev]]; [lia|].
      apply size_evict in Hev. lia.
Qed.

Lemma memory_Hit_clock lim mx a k hint w now m : mem_clock (fst (memory_Hit lim mx a k hint w now m)) = mem_clock m.
Proof. unfold memory_Hit. by repeat case_match. Qed.

Lemma memory_Hit_live a k hint now m T h :
  now ≤ T → memory_live m T a k = Some h →
  ∃ m', memory_Hit (Limit config) (MaxKeys config) a k hint (Window config) now m =
          (m', Ok (mkHit (hit_Count h + 1) (hit_Started h))) ∧
        memory_live m' T a k = Some (mkHit (hit_Count h + 1) (hit_Started h)).
Proof.
  intros HT (b & Hb & Hlt & ->)%memory_live_bucket.
  assert (pruneExpired now (mem_buckets m) !! rateLimitCompositeKey a k = Some b) as Hp.
  { apply pruneExpired_lookup. split; [done|]. unfold expired. apply Z.leb_gt. lia. }
  destruct (memory_Hit_cases a k hint (Window config) now m)
    as [(b' & Hb' & ->)|[(Hb' & _)|(Hb' & _)]]; [|congruence..].
  assert (b' = b) as -> by congruence. eexists. split; [done|].
  apply memory_live_bucket. simpl. rewrite lookup_insert_eq. eexists. split; [done|]. done.
Qed.

Lemma memory_Hit_new a k hint now m m' r :
  memory_live m now a k = None →
  memory_Hit (Limit config) (MaxKeys config) a k hint (Window config) now m = (m', Ok r) → r = mkHit 1 now.
Proof.
  intros Hl. destruct (memory_Hit_cases a k hint (Window config) now m)
    as [(b' & [Hb' He]%pruneExpired_lookup & ->)|[(_ & _ & _ & ->)|(_ & bs' & _ & ->)]]; intros [= <- <-]; [|done].
  unfold memory_live in Hl. by rewrite Hb', He in Hl.
Qed.

Lemma memory_Hit_other a k a' k' hint now m T h :
  valid_rate_key a → valid_rate_key a' → (a, k) ≠ (a', k') → now ≤ T →
  memory_live m T a' k' = Some h → Limit config ≤ hit_Count h →
  memory_live (fst (memory_Hit (Limit config) (MaxKeys config) a k hint (Window config) now m)) T a' k' = Some h.
Proof.
  intros Va Va' Hne HT (b & Hb & Hlt & ->)%memory_live_bucket Hle. simpl in Hle.
  assert (rateLimitCompositeKey a k ≠ rateLimitCompositeKey a' k') as Hck.
  { intros Heq. by apply Hne, composite_key_inj. }
  assert (pruneExpired now (mem_buckets m) !! rateLimitCompositeKey a' k' = Some b) as Hp.
  { apply pruneExpired_lookup. split; [done|]. unfold expired. apply Z.leb_gt. lia. }
  apply memory_live_bucket. exists b. split; [|done].
  destruct (memory_Hit_cases a k hint (Window config) now m)
    as [(b' & Hb' & ->)|[(_ & _ & _ & ->)|(_ & bs' & Hbs & ->)]]; simpl.
  - by rewrite lookup_insert_ne.
  - done.
  - rewrite lookup_insert_ne by done.
    destruct Hbs as [[_ ->]|[_ (key & b' & Hk & Hlim & ->)%evict_Some]]; [done|].
    rewrite lookup_delete_ne; [done|]. intros ->. rewrite Hp in Hk. injection Hk as <-. lia.
Qed.

#[export, refine] Instance memory_fixed_window : FixedWindow l := {|
  live := memory_live;
  clock_of := mem_clock;
  store_wf := memory_wf;
|}.
Proof.
  - by intros s s' t [= <- <-].
  - intros s. simpl. destruct (mem_ticks s); simpl; lia.
  - done.
  - intros s. apply memory_wf_mono; [done|]. simpl. destruct (mem_ticks s); simpl; lia.
  - intros s T a k h [Hwf _] (b & Hb & Hlt & ->)%memory_live_bucket. apply Hwf in Hb as (_ & ? & ? & ?).
    simpl. lia.
  - intros. apply memory_Hit_clock.
  - intros. by apply memory_Hit_wf.
  - intros a k now s T h _ HT Hl.
    destruct (memory_Hit_live a k (redactRateLimitKey k) now s T h HT Hl) as (m' & Hm & Hl').
    simpl. rewrite Hm. done.
  - intros a k now s s' r _ Hl Hh. apply memory_Hit_new in Hh as ->; [simpl; lia | done].
  - intros. by apply memory_Hit_other.
Defined.
End laws.

(** The in-process store never holds more than [MaxKeys] windows, and turns
    an attempt away for lack of room only when it is full of unexpired keys
    that are all at their limit. *)
Theorem memory_store_bounded `{MapRange} config a k hint m :
  0 < Limit config → 0 < Window config → 0 < MaxKeys config → memory_wf config m →
  let '(m', r) := memory_Hit (Limit config) (MaxKeys config) a k hint (Window config) (mem_clock m) m in
  memory_wf config m' ∧ Z.of_nat (size (mem_buckets m')) ≤ MaxKeys config ∧
  (∀ e, r = Err e → e = ErrRateLimitCapacity ∧ MaxKeys config ≤ Z.of_nat (size (mem_buckets m')) ∧
     ∀ key b, mem_buckets m' !! key = Some b → Limit config ≤ mem_count b ∧ mem_clock m < mem_expires b).
Proof.
  intros Hlimit Hwindow Hkeys Hwf.
  pose proof (memory_Hit_wf config a k hint m Hwf) as Hwf'.
  destruct (memory_Hit_cases config a k hint (Window config) (mem_clock m) m)
    as [(b & _ & Heq)|[(Hn & Hfull & Hev & Heq)|(_ & bs' & _ & Heq)]]; rewrite Heq in *; simpl in *;
    (split; [done|]; split; [apply Hwf'|]); [done| |done].
  intros e [= <-]. split; [done|]. split; [done|]. intros key b Hk.
  assert (map_Forall (bucket_wf config m) (pruneExpired (mem_clock m) (mem_buckets m))) as Hp.
  { intros key' b' [Hk' _]%pruneExpired_lookup. by apply (proj1 Hwf). }
  split; [by eapply (evict_None config m) in Hev; [apply Hev in Hk|]|].
  apply pruneExpired_lookup in Hk as [_ He]. unfold expired in He. by bool_props.
Qed.
