(* ===== verification/RateLimitDB.v ===== *)
(** * The shared limiter store: internal/store/postgres/rate_limit.go

    Fixed windows in the table [rate_limit_buckets], keyed by scope, action and
    the SHA-256 of the key, in Unix milliseconds; the service's clock and
    windows are in nanoseconds. *)
From S2P Require Export RateLimit SessionStore.

Definition max_int32 : Z := 2147483647.
(** [d.Milliseconds()], [time.UnixMilli(ms)]. *)
Definition Milliseconds (d : Z) : Z := Z.quot d millisecond.
Definition from_UnixMilli (ms : Z) : Z := ms * millisecond.

Module RateLimitBuckets.
Section store.
Context `{Crypto}.

Definition rateLimitKeyHash (key : string) : string := sha256 key.

(** Column types and CHECK constraints of [rate_limit_buckets]. *)
Definition bucket_constraints (scope action : string) (b : RateBucket) : outcome unit :=
  first_violation
    [varchar 64 scope; varchar 255 action; varchar 255 (bucket_hint b);
     (if max_int32 <? bucket_count b then Err (PgError "22003" "") else Ok tt);
     (if max_int64 <? bucket_expires b then Err (PgError "22003" "") else Ok tt);
     check (negb (String.eqb scope "")) "rate_limit_buckets_scope_nonempty";
     check (negb (String.eqb action "")) "rate_limit_buckets_action_nonempty";
     check (0 <? bucket_count b) "rate_limit_buckets_count_positive";
     check (bucket_started b <? bucket_expires b) "rate_limit_buckets_expiry_after_start"].

(** [INSERT ... ON CONFLICT DO UPDATE ... RETURNING hit_count, started_at]. *)
Definition upsert_bucket (scope action hash hint : string) (nowMillis windowMillis : Z) (d : DB)
    : outcome (DB * (Z * Z)) :=
  let key := (scope, action, hash) in
  let proposed := mkBucket hint 1 nowMillis (nowMillis + windowMillis) in
  let row := match rate_buckets d !! key with
    | None => proposed
    | Some b =>
      if bucket_expires b <=? nowMillis
      then mkBucket (bucket_hint b) 1 nowMillis (nowMillis + windowMillis)
      else mkBucket (bucket_hint b) (bucket_count b + 1) (bucket_started b) (bucket_expires b)
    end in
  match first_violation [bucket_constraints scope action proposed; bucket_constraints scope action row] with
  | Err e => Err e
  | Ok _ => Ok (set_rate_buckets (<[key := row]> (rate_buckets d)) d, (bucket_count row, bucket_started row))
  end.

Definition delete_buckets (P : (string * string * string) * RateBucket → bool) (d : DB) : outcome (DB * Z) :=
  Ok (set_rate_buckets (filter (λ kv, P kv = false) (rate_buckets d)) d, count_rows P (rate_buckets d)).

Definition Hit (scope action key hint : string) (window now : Z) : M RateLimitHit :=
  if window <? millisecond then throw ErrInvalidData else
  let! r := map_err (wrapOperation "hit rate limit")
    (statement (upsert_bucket scope action (rateLimitKeyHash key) hint (UnixMilli now) (Milliseconds window))) in
  ret (mkHit r.1 (from_UnixMilli r.2)).

Definition Get (scope action key : string) (now : Z) : M RateLimitHit :=
  let! r := attempt (query (λ d,
    match rate_buckets d !! (scope, action, rateLimitKeyHash key) with
    | Some b => if UnixMilli now <? bucket_expires b then Ok b else Err ErrNoRows
    | None => Err ErrNoRows
    end)) in
  match r with
  | Ok b => ret (mkHit (bucket_count b) (from_UnixMilli (bucket_started b)))
  | Err e => if errors_Is e ErrNoRows then ret (mkHit 0 0) else throw (wrapOperation "get rate limit" e)
  end.

Definition Clear (scope action key : string) : M unit :=
  map_err (wrapOperation "clear rate limit") (statement (λ d,
    Ok (set_rate_buckets (delete (scope, action, rateLimitKeyHash key) (rate_buckets d)) d, tt))).

Definition stored_bucket (scope : string) (now : Z) (kv : (string * string * string) * RateBucket)
    : option RateLimitStoredBucket :=
  if String.eqb kv.1.1.1 scope && (UnixMilli now <? bucket_expires kv.2)
  then Some (mkStoredBucket kv.1.1.2 (bucket_hint kv.2) (bucket_count kv.2)
               (from_UnixMilli (bucket_started kv.2)))
  else None.
Definition List (scope : string) (now : Z) : M (list RateLimitStoredBucket) :=
  map_err (wrapOperation "list rate limits") (query (λ d,
    Ok (omap (stored_bucket scope now) (map_to_list (rate_buckets d))))).

(** [delete]. *)
Definition delete_where (operation : string) (P : (string * string * string) * RateBucket → bool) : M Z :=
  map_err (wrapOperation operation) (statement (delete_buckets P)).
Definition ClearAction (scope action : string) : M Z :=
  delete_where "clear rate limit action" (λ kv, String.eqb kv.1.1.1 scope && String.eqb kv.1.1.2 action).
Definition ClearAll (scope : string) : M Z :=
  delete_where "clear rate limits" (λ kv, String.eqb kv.1.1.1 scope).
Definition DeleteExpired : M Z :=
  let! now := time_Now in
  delete_where "delete expired rate limits" (λ kv, bucket_expires kv.2 <=? UnixMilli now).

Definition NewRateLimitStore (scope : string) : RateLimitStore World := {|
  store_Hit := Hit scope;
  store_Get := Get scope;
  store_Clear := Clear scope;
  store_List := List scope;
  store_ClearAction := ClearAction scope;
  store_ClearAll := ClearAll scope;
|}.

(** [newSharedRateLimiter] of internal/app/app.go, after its validations. *)
Definition newSharedRateLimiter (scope : string) (config : RateLimitConfig) : RateLimiter World :=
  mkRateLimiter config time_Now (NewRateLimitStore scope).

Lemma upsert_bucket_ok scope a h hint n wm d d' r :
  upsert_bucket scope a h hint n wm d = Ok (d', r) →
  ∃ row, d' = set_rate_buckets (<[(scope, a, h) := row]> (rate_buckets d)) d ∧
    r = (bucket_count row, bucket_started row) ∧ bucket_constraints scope a row = Ok tt ∧
    match rate_buckets d !! (scope, a, h) with
    | Some b => if bucket_expires b <=? n
                then row = mkBucket (bucket_hint b) 1 n (n + wm)
                else row = mkBucket (bucket_hint b) (bucket_count b + 1) (bucket_started b) (bucket_expires b)
    | None => row = mkBucket hint 1 n (n + wm)
    end.
Proof.
  unfold upsert_bucket. destruct (first_violation _) as [[]|] eqn:E; [|done]. intros [= <- <-].
  apply first_violation_ok in E. rewrite !Forall_cons in E. destruct E as (_ & Hc & _). eexists.
  split; [reflexivity|]. split; [reflexivity|]. split; [exact Hc|]. clear Hc.
  destruct (rate_buckets d !! _) as [b|]; [|done]. by destruct (bucket_expires b <=? n).
Qed.

(** What one [Hit] does to the table. *)
Lemma Hit_cases scope a k hint window now w :
  millisecond ≤ window →
  let h := rateLimitKeyHash k in
  (db (fst (Hit scope a k hint window now w)) = db w ∧ ∃ e, snd (Hit scope a k hint window now w) = Err e) ∨
  ∃ row, db (fst (Hit scope a k hint window now w)) =
           set_rate_buckets (<[(scope, a, h) := row]> (rate_buckets (db w))) (db w) ∧
    match rate_buckets (db w) !! (scope, a, h) with
    | Some b => if bucket_expires b <=? UnixMilli now
                then row = mkBucket (bucket_hint b) 1 (UnixMilli now) (UnixMilli now + Milliseconds window)
                else row = mkBucket (bucket_hint b) (bucket_count b + 1) (bucket_started b) (bucket_expires b)
    | None => row = mkBucket hint 1 (UnixMilli now) (UnixMilli now + Milliseconds window)
    end ∧
    (snd (Hit scope a k hint window now w) = Ok (mkHit (bucket_count row) (from_UnixMilli (bucket_started row)))
     ∨ ∃ e, snd (Hit scope a k hint window now w) = Err e).
Proof.
  intros Hw h. unfold Hit. rewrite (proj2 (Z.ltb_ge _ _) Hw). unfold bind, map_err.
  destruct (statement_cases (upsert_bucket scope a h hint (UnixMilli now) (Milliseconds window)) w)
    as [(d & r & Hu & Hd & Hr)|(Hd & e & Hr)]; fold h;
    destruct (statement _ w) as [w' [r'|e']]; simpl in *; simplify_eq; eauto.
  - apply upsert_bucket_ok in Hu as (row & Hd & -> & _ & Hrow). right. exists row. split; [done|]. split; [done|].
    destruct Hr as [[= ->]|[? ?]]; [|done]. by left.
  - apply upsert_bucket_ok in Hu as (row & Hd & -> & _ & Hrow). right. exists row. eauto.
Qed.

Lemma Hit_clock scope a k hint window now w : clock (fst (Hit scope a k hint window now w)) = clock w.
Proof.
  unfold Hit. case_match; [done|]. unfold bind, map_err.
  pose proof (statement_clock (upsert_bucket scope a (rateLimitKeyHash k) hint (UnixMilli now) (Milliseconds window)) w).
  destruct (statement _ w) as [w' [r'|e']]; done.
Qed.

(** ** The store keeps its promises *)
Section laws.
Context `{!CryptoLaws} (scope : string) (config : RateLimitConfig).
Context (Hwindow : millisecond ≤ Window config).

(** Every row of the scope holds a positive count and a window of the
    configured length that has started. *)
Definition row_wf (w : World) (key : string * string * string) (b : RateBucket) : Prop :=
  key.1.1 = scope →
  0 < bucket_count b ∧ bucket_started b ≤ UnixMilli (clock w) ∧
  bucket_expires b = bucket_started b + Milliseconds (Window config).
Definition buckets_wf (w : World) : Prop := map_Forall (row_wf w) (rate_buckets (db w)).
Definition window_at (w : World) (T : Z) (a k : string) : option RateLimitHit :=
  match rate_buckets (db w) !! (scope, a, rateLimitKeyHash k) with
  | Some b => if bucket_expires b <=? UnixMilli T then None
              else Some (mkHit (bucket_count b) (from_UnixMilli (bucket_started b)))
  | None => None
  end.

Lemma UnixMilli_mono s t : s ≤ t → UnixMilli s ≤ UnixMilli t.
Proof. intros. unfold UnixMilli, millisecond. apply Z.div_le_mono; lia. Qed.
Lemma UnixMilli_bounds t : UnixMilli t * millisecond ≤ t < (UnixMilli t + 1) * millisecond.
Proof.
  unfold UnixMilli, millisecond. pose proof (Z.div_mod t 1000000). pose proof (Z.mod_pos_bound t 1000000). lia.
Qed.
Lemma Milliseconds_bounds d : 0 ≤ d → Milliseconds d * millisecond ≤ d < (Milliseconds d + 1) * millisecond.
Proof.
  intros. unfold Milliseconds, millisecond. rewrite Z.quot_div_nonneg by lia.
  pose proof (Z.div_mod d 1000000). pose proof (Z.mod_pos_bound d 1000000). lia.
Qed.

Lemma window_at_Some w T a k h :
  window_at w T a k = Some h ↔
  ∃ b, rate_buckets (db w) !! (scope, a, rateLimitKeyHash k) = Some b ∧ UnixMilli T < bucket_expires b ∧
       h = mkHit (bucket_count b) (from_UnixMilli (bucket_started b)).
Proof.
  unfold window_at. split.
  - destruct (rate_buckets _ !! _) as [b|]; [|done]. case_match; [done|]. intros [= <-]. bool_props. eauto.
  - intros (b & -> & Hlt & ->). by rewrite (proj2 (Z.leb_gt _ _) Hlt).
Qed.

Lemma Milliseconds_pos : 0 < Milliseconds (Window config).
Proof. pose proof (Milliseconds_bounds (Window config)). unfold millisecond in *. lia. Qed.

Lemma hit_result_wf w w' a h row :
  buckets_wf w → clock w' = clock w →
  db w' = set_rate_buckets (<[(scope, a, h) := row]> (rate_buckets (db w))) (db w) →
  row_wf w (scope, a, h) row → buckets_wf w'.
Proof.
  intros Hwf Hc Hd Hrow. unfold buckets_wf. rewrite Hd. simpl.
  assert (∀ key b, row_wf w key b → row_wf w' key b) as Hmono by (unfold row_wf; by rewrite Hc).
  apply map_Forall_insert_2; [by apply Hmono | intros key b Hk; by apply Hmono, Hwf].
Qed.

Lemma Hit_wf a k hint w :
  buckets_wf w → buckets_wf (fst (Hit scope a k hint (Window config) (clock w) w)).
Proof.
  intros Hwf. pose proof (Hit_clock scope a k hint (Window config) (clock w) w) as Hc.
  destruct (Hit_cases scope a k hint (Window config) (clock w) w Hwindow) as [(Hd & _)|(row & Hd & Hrow & _)];
    destruct (Hit _ _ _ _ _ _ w) as [w' r]; simpl in *.
  - unfold buckets_wf, row_wf. rewrite Hd, Hc. exact Hwf.
  - eapply hit_result_wf; try done. intros _. pose proof Milliseconds_pos.
    destruct (rate_buckets (db w) !! _) as [b|] eqn:E; [|subst row; simpl; lia].
    destruct (Hwf _ _ E) as (? & ? & ?); [done|].
    destruct (bucket_expires b <=? UnixMilli (clock w)); subst row; simpl; lia.
Qed.

Lemma Hit_live a k hint now w T h :
  now ≤ T → window_at w T a k = Some h →
  match Hit scope a k hint (Window config) now w with
  | (w', Ok r) => r = mkHit (hit_Count h + 1) (hit_Started h) ∧ window_at w' T a k = Some r
  | (w', Err _) => ∃ h', window_at w' T a k = Some h' ∧ hit_Count h ≤ hit_Count h'
  end.
Proof.
  intros HT (b & Hb & Hlt & ->)%window_at_Some. pose proof (UnixMilli_mono _ _ HT) as Hms.
  destruct (Hit_cases scope a k hint (Window config) now w Hwindow) as [(Hd & e & He)|(row & Hd & Hrow & Hr)];
    destruct (Hit _ _ _ _ _ _ w) as [w' r]; simpl in *.
  - subst r. eexists. split; [apply window_at_Some; rewrite Hd; eauto | simpl; lia].
  - rewrite Hb, (proj2 (Z.leb_gt _ _)) in Hrow by lia. subst row.
    assert (window_at w' T a k = Some (mkHit (bucket_count b + 1) (from_UnixMilli (bucket_started b)))) as Hl.
    { apply window_at_Some. rewrite Hd. simpl. rewrite lookup_insert_eq. eexists. split; [done|]. done. }
    destruct Hr as [->|[e ->]]; [done|]. eexists. split; [done|]. simpl. lia.
Qed.

Lemma Hit_new a k hint now w w' r :
  window_at w now a k = None → Hit scope a k hint (Window config) now w = (w', Ok r) →
  r = mkHit 1 (from_UnixMilli (UnixMilli now)) ∧
  rate_buckets (db w') !! (scope, a, rateLimitKeyHash k)
    ≫= (λ b, Some (bucket_count b, bucket_started b, bucket_expires b))
  = Some (1, UnixMilli now, UnixMilli now + Milliseconds (Window config)).
Proof.
  intros Hl Hh. unfold window_at in Hl.
  destruct (Hit_cases scope a k hint (Window config) now w Hwindow) as [(Hd & e & He)|(row & Hd & Hrow & Hr)];
    rewrite Hh in *; simpl in *; [done|].
  rewrite Hd. simpl. rewrite lookup_insert_eq. simpl.
  destruct Hr as [[= ->]|[? ?]]; [|done].
  destruct (rate_buckets (db w) !! _) as [b|] eqn:E; [|by subst row].
  destruct (bucket_expires b <=? UnixMilli now); [by subst row | done].
Qed.

Lemma Hit_other a k a' k' hint now w T :
  (a, k) ≠ (a', k') → window_at (fst (Hit scope a k hint (Window config) now w)) T a' k' = window_at w T a' k'.
Proof.
  intros Hne. unfold window_at.
  assert ((scope, a, rateLimitKeyHash k) ≠ (scope, a', rateLimitKeyHash k')) as Hk.
  { intros [= -> Heq%sha256_inj]. by subst. }
  destruct (Hit_cases scope a k hint (Window config) now w Hwindow) as [(Hd & _)|(row & Hd & _)];
    rewrite Hd; simpl; [done|]. by rewrite lookup_insert_ne.
Qed.

#[export, refine] Instance shared_fixed_window : FixedWindow (newSharedRateLimiter scope config) := {|
  live := window_at;
  clock_of := clock;
  store_wf := buckets_wf;
|}.
Proof.
  - by intros w w' t [= <- <-].
  - intros w. simpl. destruct (ticks w); simpl; lia.
  - done.
  - intros w Hwf. unfold buckets_wf. simpl. intros key b Hk Hs. destruct (Hwf _ _ Hk Hs) as (? & ? & ?).
    repeat split; try done. etransitivity; [done|]. apply UnixMilli_mono. simpl. destruct (ticks w); simpl; lia.
  - intros w T a k h Hwf (b & Hb & Hlt & ->)%window_at_Some. destruct (Hwf _ _ Hb eq_refl) as (? & Hs & He).
    simpl. pose proof (UnixMilli_bounds T). pose proof (UnixMilli_bounds (clock w)).
    pose proof (Milliseconds_bounds (Window config)). unfold from_UnixMilli, millisecond in *. lia.
  - intros. apply Hit_clock.
  - intros. by apply Hit_wf.
  - intros a k now w T h _. apply Hit_live.
  - intros a k now w w' r _ Hl Hh. apply Hit_new in Hh as [-> _]; [|done]. simpl.
    pose proof (UnixMilli_bounds now). unfold from_UnixMilli, millisecond in *. lia.
  - intros a k a' k' now w T h _ _ _ _ Hne _ Hl _. simpl. by rewrite (Hit_other a k a' k' _ now w T Hne).
Defined.
End laws.
End store.
End RateLimitBuckets.
