(* ===== verification/RateLimitProps.v ===== *)
(** * Properties of the authentication budgets

    The budget a key gets from the shared limiter, and the instances at which
    the promises of RateLimit.v and RateLimitMemory.v are evaluated. *)
From S2P Require Export RateLimitMemory RateLimitDB.
Import RateLimitBuckets.

Section budget.
Context `{CryptoLaws} (scope : string) (config : RateLimitConfig).
Context (Hlimit : 0 < Limit config) (Hwindow : millisecond ≤ Window config).
Let l := newSharedRateLimiter scope config.
#[local] Instance shared_l : FixedWindow l := shared_fixed_window scope config Hwindow.

(** Attempts on one key that were let through. *)
Fixpoint allowed_count (a k : string) (calls : list (string * string))
    (results : list (outcome RateLimitDecision)) : Z :=
  match calls, results with
  | (a', k') :: calls, r :: results =>
    (if bool_decide ((a', k') = (a, k)) && match r with Ok d => Allowed d | Err _ => false end then 1 else 0)
    + allowed_count a k calls results
  | _, _ => 0
  end.

(** What is left for a key until the millisecond [T]: the rest of the live
    window, and a fresh budget if that window ends by then. *)
Definition budget_left (T : Z) (w : World) (a k : string) : Z :=
  match rate_buckets (db w) !! (scope, a, rateLimitKeyHash k) with
  | Some b =>
    if UnixMilli (clock w) <? bucket_expires b
    then Z.max 0 (Limit config - bucket_count b) + (if bucket_expires b <=? T then Limit config else 0)
    else Limit config
  | None => Limit config
  end.

(** Time passing does not add to the budget. *)
Lemma budget_left_later T w w' a k :
  rate_buckets (db w') !! (scope, a, rateLimitKeyHash k) = rate_buckets (db w) !! (scope, a, rateLimitKeyHash k) →
  clock w ≤ clock w' → UnixMilli (clock w') ≤ T →
  budget_left T w' a k ≤ budget_left T w a k.
Proof.
  intros Hr Hc HT. unfold budget_left. rewrite Hr. pose proof (UnixMilli_mono _ _ Hc).
  destruct (rate_buckets (db w) !! _) as [b|]; [|done].
  destruct (Z.ltb_spec (UnixMilli (clock w')) (bucket_expires b));
    destruct (Z.ltb_spec (UnixMilli (clock w)) (bucket_expires b)); try lia.
  destruct (Z.leb_spec (bucket_expires b) T); lia.
Qed.

Lemma hit_budget T a k now w :
  now = clock w → UnixMilli now ≤ T → T < UnixMilli now + Milliseconds (Window config) →
  let '(w', r) := Hit scope a k (redactRateLimitKey k) (Window config) now w in
  (match r with Ok h => if Limit config <? hit_Count h then 0 else 1 | Err _ => 0 end)
  + budget_left T w' a k ≤ budget_left T w a k.
Proof.
  intros -> HT Hend.
  pose proof (Hit_clock scope a k (redactRateLimitKey k) (Window config) (clock w) w) as Hc.
  destruct (Hit_cases scope a k (redactRateLimitKey k) (Window config) (clock w) w Hwindow)
    as [(Hd & e & He)|(row & Hd & Hrow & Hr)]; destruct (Hit _ _ _ _ _ _ w) as [w' r]; simpl in *.
  - subst r. unfold budget_left. by rewrite Hd, Hc.
  - unfold budget_left. rewrite Hd, Hc. simpl. rewrite lookup_insert_eq.
    assert (match r with Ok h => if Limit config <? hit_Count h then 0 else 1 | Err _ => 0 end
            ≤ if Limit config <? bucket_count row then 0 else 1) as Hone.
    { destruct Hr as [->|[e ->]]; cbn [hit_Count]; [reflexivity|]. destruct (_ <? _); lia. }
    destruct (rate_buckets (db w) !! _) as [b|]; [destruct (Z.leb_spec (bucket_expires b) (UnixMilli (clock w)))|];
      subst row; simpl in *;
      repeat match goal with |- context [?x <? ?y] => destruct (Z.ltb_spec x y) end;
      repeat match goal with |- context [?x <=? ?y] => destruct (Z.leb_spec x y) end;
      repeat match goal with H : context [?x <? ?y] |- _ => destruct (Z.ltb_spec x y) end; lia.
Qed.

Lemma Allow_budget T a k a' k' w :
  valid_rate_key a → valid_rate_key k → UnixMilli (clock (fst (Allow l a' k' w))) ≤ T →
  T < UnixMilli (clock w) + Milliseconds (Window config) →
  (if bool_decide ((a', k') = (a, k)) && match snd (Allow l a' k' w) with Ok d => Allowed d | Err _ => false end
   then 1 else 0) + budget_left T (fst (Allow l a' k' w)) a k ≤ budget_left T w a k.
Proof.
  intros Va Vk HT Hend.
  destruct (decide (valid_rate_key a' ∧ valid_rate_key k')) as [[Va' Vk']|Hn].
  2:{ rewrite (Allow_invalid _ _ _ _ Hn). simpl. rewrite andb_false_r. lia. }
  pose proof (Allow_unfold l a' k' w Va' Vk') as Hun. unfold hit in Hun.
  change (limiter_now l) with time_Now in Hun. unfold time_Now in Hun.
  set (w1 := mkWorld _ _ _ _ _ _ _) in Hun. rewrite Hun in HT |- *. clear Hun.
  assert (clock w ≤ clock w1) as Hc by (simpl; destruct (ticks w); lia).
  pose proof (UnixMilli_mono _ _ Hc) as Hm.
  change (clock w + match ticks w with [] => 0 | t :: _ => Z.of_N t end) with (clock w1) in HT |- *.
  change (store_Hit a' k' (redactRateLimitKey k') (Window (limiter_config l)) (clock w1) w1)
    with (Hit scope a' k' (redactRateLimitKey k') (Window config) (clock w1) w1) in HT |- *.
  pose proof (Hit_clock scope a' k' (redactRateLimitKey k') (Window config) (clock w1) w1) as Hclk.
  assert (UnixMilli (clock w1) ≤ T) as HT1.
  { rewrite <- Hclk. by destruct (Hit _ _ _ _ _ _ w1) as [? []]. }
  pose proof (budget_left_later T w w1 a k eq_refl Hc HT1) as Hlater.
  destruct (bool_decide_reflect ((a', k') = (a, k))) as [[= -> ->]|Hne].
  - pose proof (hit_budget T a k _ w1 eq_refl HT1 ltac:(lia)) as Hb.
    destruct (Hit _ _ _ _ _ _ w1) as [w2 [r|e]]; simpl in *; [|lia].
    destruct (Limit config <? hit_Count r); simpl; lia.
  - simpl. assert (budget_left T (fst (Hit scope a' k' (redactRateLimitKey k') (Window config) (clock w1) w1)) a k
                   = budget_left T w1 a k) as Heq.
    { unfold budget_left. rewrite Hclk. f_equal.
      assert ((scope, a', rateLimitKeyHash k') ≠ (scope, a, rateLimitKeyHash k)) as Hk.
      { intros [= -> Hh%sha256_inj]. by subst. }
      destruct (Hit_cases scope a' k' (redactRateLimitKey k') (Window config) (clock w1) w1 Hwindow)
        as [(-> & _)|(row & -> & _)]; simpl; [done|]. by rewrite lookup_insert_ne. }
    destruct (Hit _ _ _ _ _ _ w1) as [w2 [r|e]]; simpl in *; lia.
Qed.

Lemma run_budget T a k calls w :
  valid_rate_key a → valid_rate_key k → UnixMilli (clock (fst (run_allows l calls w))) ≤ T →
  T < UnixMilli (clock w) + Milliseconds (Window config) →
  allowed_count a k calls (snd (run_allows l calls w)) ≤ budget_left T w a k.
Proof.
  intros Va Vk. revert w. induction calls as [|[a' k'] calls IH]; intros w HT Hend; simpl in *.
  - unfold budget_left. repeat case_match; lia.
  - pose proof (Allow_budget T a k a' k' w Va Vk) as Hstep.
    pose proof (Allow_clock l a' k' w) as Hc.
    destruct (Allow l a' k' w) as [w1 r]. simpl in *.
    pose proof (run_allows_clock l calls w1) as Hc'. specialize (IH w1).
    destruct (run_allows l calls w1) as [w2 rs]. simpl in *.
    pose proof (UnixMilli_mono _ _ Hc). pose proof (UnixMilli_mono _ _ Hc').
    specialize (IH HT ltac:(lia)). specialize (Hstep ltac:(lia) Hend). lia.
Qed.
End budget.

(** ** Theorems *)

(** C20. The shared limiter lets through at most [Limit] attempts on a key in
    any period shorter than one window that starts with no window open for it,
    and at most twice [Limit] in any such period; whatever the other keys,
    whichever statements fail (a failed one may still have counted), and at
    whatever pace the attempts come. *)
Theorem shared_limiter_budget `{CryptoLaws} scope config w calls a k :
  0 < Limit config → millisecond ≤ Window config → buckets_wf scope config w →
  valid_rate_key a → valid_rate_key k →
  let '(w', results) := run_allows (newSharedRateLimiter scope config) calls w in
  UnixMilli (clock w') < UnixMilli (clock w) + Milliseconds (Window config) →
  allowed_count a k calls results ≤
    match window_at scope w (clock w) a k with None => Limit config | Some _ => 2 * Limit config end.
Proof.
  intros Hlimit Hwindow Hwf Va Vk.
  pose proof (run_budget scope config Hlimit Hwindow
    (UnixMilli (clock (fst (run_allows (newSharedRateLimiter scope config) calls w)))) a k calls w Va Vk) as Hb.
  destruct (run_allows _ calls w) as [w' rs]. simpl in *. intros Hend. specialize (Hb (Z.le_refl _) Hend).
  etransitivity; [exact Hb|]. unfold budget_left, window_at.
  destruct (rate_buckets (db w) !! _) as [b|] eqn:E; [|lia].
  destruct (Hwf _ _ E eq_refl) as (Hpos & _ & _).
  destruct (Z.ltb_spec (UnixMilli (clock w)) (bucket_expires b));
    destruct (Z.leb_spec (bucket_expires b) (UnixMilli (clock w))); try lia.
  destruct (_ <=? _); lia.
Qed.

(** ** Instances and witnesses *)

Definition plain_hash : Crypto := {| sha256 := λ s, s |}.
Lemma plain_hash_laws : @CryptoLaws plain_hash.
Proof. by split. Qed.
#[export] Instance list_order : MapRange := {| range_order := map_to_list; range_order_perm _ := Permutation_refl _ |}.

Definition demo_config : RateLimitConfig := mkRateLimitConfig 1 60000000000 2.
Definition demo_world (d : DB) : World := mkWorld d 1000000000 [] [] [] [] [].

Lemma demo_wf scope : buckets_wf scope demo_config (demo_world empty_db).
Proof. apply map_Forall_empty. Qed.
Lemma demo_keys : valid_rate_key "signin.origin" ∧ valid_rate_key "192.0.2.7".
Proof. split; vm_compute; reflexivity. Qed.

Lemma shared_limiter_budget_witness :
  let calls := [("signin.origin", "192.0.2.7"); ("signin.origin", "192.0.2.7")] in
  let '(w', results) := run_allows (newSharedRateLimiter (H := plain_hash) "signin" demo_config) calls
                          (demo_world empty_db) in
  allowed_count "signin.origin" "192.0.2.7" calls results ≤ 1.
Proof.
  pose proof (shared_limiter_budget (H := plain_hash) (H0 := plain_hash_laws) "signin" demo_config
    (demo_world empty_db) [("signin.origin", "192.0.2.7"); ("signin.origin", "192.0.2.7")]
    "signin.origin" "192.0.2.7" ltac:(done) ltac:(done) (demo_wf "signin")
    (proj1 demo_keys) (proj2 demo_keys)) as Hb.
  simpl. revert Hb. vm_compute. intros Hb. apply Hb. reflexivity.
Defined.

Definition demo_limiter : RateLimiter Memory := memory_limiter demo_config.
#[export] Instance demo_fixed : FixedWindow demo_limiter := memory_fixed_window demo_config.
Definition demo_memory : Memory := mkMemory ∅ 1000000000 [].
Lemma demo_memory_wf : store_wf demo_memory.
Proof. unfold store_wf. split; [apply map_Forall_empty | done]. Qed.
(** One attempt made: the key is at its limit. *)
Definition demo_blocked : Memory := fst (run_allows demo_limiter [("signin.origin", "192.0.2.7")] demo_memory).
Lemma demo_blocked_wf : store_wf demo_blocked.
Proof. apply (Allow_wf demo_limiter "signin.origin" "192.0.2.7" demo_memory demo_memory_wf). Qed.

Lemma limiter_blocked_until_window_ends_witness :
  ∃ d, snd (run_allows demo_limiter [("signin.origin", "198.51.100.1"); ("signin.origin", "192.0.2.7")] demo_blocked)
         !! 1%nat = Some (Ok d) ∧ Allowed d = false.
Proof.
  eexists. split; [vm_compute; reflexivity|].
  apply (limiter_blocked_until_window_ends demo_limiter
    [("signin.origin", "198.51.100.1"); ("signin.origin", "192.0.2.7")] demo_blocked 2000000000
    "signin.origin" "192.0.2.7" (mkHit 1 1000000000) demo_blocked_wf (proj1 demo_keys) (proj2 demo_keys)) with (i := 1%nat).
  - vm_compute. reflexivity.
  - vm_compute. discriminate.
  - vm_compute. discriminate.
  - reflexivity.
  - vm_compute. reflexivity.
Defined.

Lemma limiter_decision_witness :
  ∃ s' d, Allow demo_limiter "signin.origin" "192.0.2.7" demo_blocked = (s', Ok d) ∧
    d = mkDecision false 0 60000000000.
Proof.
  eexists _, _. split; [vm_compute; reflexivity|].
  pose proof (limiter_decision demo_limiter "signin.origin" "192.0.2.7" demo_blocked
    (fst (Allow demo_limiter "signin.origin" "192.0.2.7" demo_blocked))
    (mkDecision false 0 60000000000) ltac:(done) ltac:(done) demo_blocked_wf
    ltac:(vm_compute; reflexivity)) as Hd.
  vm_compute in Hd. exact (proj1 Hd).
Defined.

Lemma memory_store_bounded_witness :
  let '(m', _) := memory_Hit 1 2 "signin.origin" "192.0.2.7" "" 60000000000 (mem_clock demo_memory) demo_memory in
  Z.of_nat (size (mem_buckets m')) ≤ 2.
Proof.
  assert (memory_wf demo_config demo_memory) as Hwf by (split; [apply map_Forall_empty | done]).
  pose proof (memory_store_bounded demo_config "signin.origin" "192.0.2.7" "" demo_memory
    ltac:(done) ltac:(done) ltac:(done) Hwf) as Hb.
  change (Limit demo_config) with 1 in Hb. change (MaxKeys demo_config) with 2 in Hb.
  change (Window demo_config) with 60000000000 in Hb.
  destruct (memory_Hit _ _ _ _ _ _ _ demo_memory) as [m' r]. apply Hb.
Defined.

Lemma origin_key_by_network_witness :
  originRateLimitKey "2001:db8::1" = originRateLimitKey "2001:db8:0:0:ffff::2".
Proof.
  apply (origin_key_by_network _ _ [8193; 3512; 0; 0; 0; 0; 0; 1] [8193; 3512; 0; 0; 65535; 0; 0; 2]);
    vm_compute; reflexivity.
Defined.
