(* ===== verification/Session.v ===== *)
(** * Session lifecycle: internal/service/session.go *)
From S2P Require Export SessionStore.
Import SessionRepository.

(** [SessionService]: the lifetime in nanoseconds and, when single sign-on is
    wired, [SSOSessionRevoker.RevokeUser]. *)
Record SessionService := mkSessionService {
  lifetime : Z;
  sso_RevokeUser : option (Z → M unit);
}.

Module Sessions.
Section session.
Context `{Crypto} (s : SessionService).

Definition sessionIDBytes : nat := 32.
Definition maxSessionID : Z := 64.

Definition NewSessionService (lifetime : Z) (sso : option (Z → M unit)) : outcome SessionService :=
  if lifetime <? second then Err ErrInvalidSessionLifetime else Ok (mkSessionService lifetime sso).

Definition newSessionID : M string :=
  let! value := rand_Read sessionIDBytes (Errorf "random source unavailable" ErrSessionIDGeneration) in
  ret (hex_encode value).

Definition validateSessionID (id : string) : outcome unit :=
  if String.eqb (TrimSpace id) "" || (maxSessionID <? len id) then Err ErrInvalidSessionID else Ok tt.

(** [createdAt + int64(s.lifetime/time.Second)], at width 64. *)
Definition expiry (createdAt : Z) : Z := wrap64 (createdAt + Z.quot (lifetime s) second).

Definition create (userID : Z) (sid idToken : string) : M Session :=
  guard (userID <=? 0) ErrInvalidSessionUserID ;;;
  let! id := newSessionID in
  let! createdAt := unix_now in
  guard (expiry createdAt <=? createdAt) ErrInvalidSessionLifetime ;;;
  let session := mkSession id userID createdAt (expiry createdAt) None sid idToken in
  map_err (Errorf "create session") (CreateSession session) ;;;
  ret session.

Definition Create (userID : Z) : M Session := create userID "" "".

Definition without_id_token (x : Session) : Session :=
  mkSession (session_ID x) (session_UserID x) (session_CreatedAt x) (session_ExpiresAt x)
    (session_RevokedAt x) (session_SSOSessionID x) "".
Definition CreateSSO (userID : Z) (sid idToken : string) : M Session :=
  guard (String.eqb (TrimSpace sid) "" || String.eqb (TrimSpace idToken) "") ErrInvalidSession ;;;
  let! session := create userID sid idToken in ret (without_id_token session).

Definition Lookup (id : string) : M Session :=
  lift (validateSessionID id) ;;;
  let! session := map_err (Errorf "find session") (FindSession id) in
  guard (String.eqb (session_ID session) "") ErrSessionNotFound ;;;
  guard (negb (String.eqb (session_ID session) id) || (session_UserID session <=? 0)
         || (session_ExpiresAt session <=? session_CreatedAt session)) ErrInvalidSession ;;;
  guard (negb (is_nil (session_RevokedAt session))) ErrSessionRevoked ;;;
  let! now := unix_now in
  guard (session_ExpiresAt session <=? now) ErrSessionExpired ;;;
  ret session.

Definition Revoke (id : string) : M unit :=
  lift (validateSessionID id) ;;;
  let! now := unix_now in
  map_err (Errorf "revoke session") (RevokeSession id now).

Definition SignOut (id : string) : M unit :=
  if String.eqb (TrimSpace id) "" then ret tt else
  let! r := attempt (Revoke id) in
  match r with
  | Ok _ => ret tt
  | Err e => if errors_Is e ErrSessionNotFound || errors_Is e ErrInvalidSessionID then ret tt else throw e
  end.

Definition RevokeUser (userID : Z) : M unit :=
  guard (userID <=? 0) ErrInvalidSessionUserID ;;;
  map_err (Errorf "revoke user sessions") (RevokeUserSessions userID) ;;;
  match sso_RevokeUser s with
  | Some revoke => map_err (Errorf "revoke single sign-on sessions") (revoke userID)
  | None => ret tt
  end.

(** ** Successful runs *)

Lemma newSessionID_ok w w' id :
  newSessionID w = (w', Ok id) → db w' = db w ∧ clock w' = clock w ∧ String.length id = 64%nat ∧ TrimSpace id ≠ "".
Proof.
  unfold newSessionID. intros Hn. apply bind_ok in Hn as (w1 & bs & Hr & Hn). injection Hn as <- <-.
  apply rand_Read_ok in Hr as (? & ? & Hl). split_and!; [done|done|by rewrite hex_encode_length, Hl|].
  apply TrimSpace_hex_encode. by intros ->.
Qed.

Lemma create_ok userID sid idToken w w' x :
  create userID sid idToken w = (w', Ok x) →
  0 < userID ∧ session_UserID x = userID ∧ session_RevokedAt x = None ∧
  String.length (session_ID x) = 64%nat ∧ TrimSpace (session_ID x) ≠ "" ∧
  session_ExpiresAt x = expiry (session_CreatedAt x) ∧ session_CreatedAt x < session_ExpiresAt x ∧
  Unix (clock w) ≤ session_CreatedAt x ≤ Unix (clock w') ∧
  session_SSOSessionID x = sid ∧ session_SSOIDToken x = idToken ∧
  user_exists (db w) userID = true ∧
  sessions (db w) !! sessionDigest (session_ID x) = None ∧
  db w' = set_sessions (<[sessionDigest (session_ID x) := with_SessionID (sessionDigest (session_ID x)) x]>
                          (sessions (db w))) (db w).
Proof.
  unfold create. intros Hc. inv_ok.
  match goal with H : newSessionID _ = _ |- _ => apply newSessionID_ok in H as (Hd1 & Hc1 & Hlen & Htrim) end.
  match goal with H : unix_now _ = _ |- _ => apply unix_now_ok in H as (Hd2 & -> & Hle) end.
  match goal with H : CreateSession ?x ?v = (_, Ok ?u) |- _ => destruct u;
    pose proof (later_CreateSession x v) as Hl; rewrite H in Hl;
    apply CreateSession_ok in H as (Hnone & Hex & Hcons & Hdb) end.
  bool_props. simpl in *. rewrite Hd2, Hd1 in *. unfold later in Hl. simpl in Hl.
  repeat split; auto; unfold Unix, second in *; try lia; apply Z.div_le_mono; lia.
Qed.

(** Every session of the account is revoked; single sign-on, when wired, keeps
    its own record of sessions and touches nothing else. *)
Definition revoke_all (userID now : Z) (t : gmap string Session) : gmap string Session :=
  (λ x, if session_UserID x =? userID then coalesce_revoked now x else x) <$> t.

Lemma RevokeUser_ok userID w w' :
  (∀ f u, sso_RevokeUser s = Some f → preserves (on_db logins_only) (f u)) →
  RevokeUser userID w = (w', Ok tt) →
  0 < userID ∧ ∃ now ls,
    db w' = set_sso_login_sessions ls (set_sessions (revoke_all userID now (sessions (db w))) (db w)).
Proof.
  unfold RevokeUser. intros Hq Hr. inv_ok. bool_props. split; [done|].
  match goal with H : RevokeUserSessions _ _ = (?v, Ok ?u) |- _ => destruct u;
    apply RevokeUserSessions_ok in H as [now Hd] end.
  exists now. destruct (sso_RevokeUser s) as [f|] eqn:E; inv_ok.
  - match goal with H : f userID ?v = _ |- _ => specialize (Hq f userID eq_refl v); rewrite H in Hq end.
    destruct Hq as [ls Hq]. exists ls. simpl in Hq. by rewrite Hq, Hd.
  - exists (sso_login_sessions (db w)). by rewrite Hd.
Qed.

Lemma revoke_all_lookup userID now t k x :
  revoke_all userID now t !! k = Some x →
  ∃ y, t !! k = Some y ∧ session_UserID x = session_UserID y ∧
    (session_UserID y = userID → session_RevokedAt x ≠ None).
Proof.
  unfold revoke_all. rewrite lookup_fmap. destruct (t !! k) as [y|]; intros; simplify_eq/=. exists y.
  split; [done|]. case_match; bool_props; subst; [|done]. split; [done|]. simpl. by case_match.
Qed.

(** The stored row of a session, read back under its identifier. *)
Lemma FindSession_found id w row :
  faults w = [] → id ≠ "" → len id ≤ 64 → sessions (db w) !! sessionDigest id = Some row →
  session_ID row ≠ "" → len (session_ID row) ≤ 64 → 0 < session_UserID row →
  session_CreatedAt row < session_ExpiresAt row →
  FindSession id w = (w, Ok (mkSession id (session_UserID row) (session_CreatedAt row)
                               (session_ExpiresAt row) (session_RevokedAt row) "" "")).
Proof.
  intros Hf Hid Hlen Hrow H1 H2 H3 H4. unfold FindSession.
  rewrite (proj2 (String.eqb_neq _ _) Hid), (proj2 (Z.ltb_ge _ _) Hlen). simpl.
  unfold bind at 1, map_err, bind, query, statement, next_fault. rewrite Hf. simpl. rewrite Hrow. simpl.
  unfold lift, scanSession.
  rewrite (proj2 (String.eqb_neq _ _) H1), (proj2 (Z.ltb_ge _ _) H2), (proj2 (Z.leb_gt _ _) H3), (proj2 (Z.leb_gt _ _) H4).
  simpl. unfold set_db. simpl. destruct w; simpl in *. by subst.
Qed.
(** What an accepted credential says of the stored row. *)
Lemma Lookup_ok id w w' x :
  Lookup id w = (w', Ok x) →
  ∃ row, sessions (db w) !! sessionDigest id = Some row ∧ session_ID x = id ∧
    session_UserID x = session_UserID row ∧ session_RevokedAt row = None ∧
    session_ExpiresAt x = session_ExpiresAt row ∧ Unix (clock w') < session_ExpiresAt row ∧ db w' = db w.
Proof.
  unfold Lookup. intros Hl. inv_ok.
  match goal with Hf : FindSession _ _ = _ |- _ =>
    apply FindSession_ok in Hf as (Hd & row & Hrow & Hi & Hu & _ & Hex & Hr) end.
  match goal with Ht : unix_now _ = _ |- _ => apply unix_now_ok in Ht as (Hd' & -> & _) end.
  bool_props. exists row. split_and!; try done; try congruence; try lia.
  rewrite <- Hr. by destruct (session_RevokedAt x).
Qed.

End session.
End Sessions.
