(* ===== verification/PasswordHash.v ===== *)
(** * Password hashes: internal/service/password_hash.go

    Argon2id comes from golang.org/x/crypto and is a parameter ([Argon2]).  The
    services see the hasher through the interface [PasswordHashing]. *)
From S2P Require Export Encoding World.

(** What sign-up, sign-in and the password settings need of a hasher:
    [PasswordHasher.Hash] and [PasswordVerifier.Verify]. *)
Class PasswordHashing := {
  Hash : string → M string;
  Verify : string → string → outcome bool;
}.
(** A hash verifies its own password, and hashing touches no data. *)
Class PasswordHashingLaws `{PasswordHashing} : Prop := {
  Hash_verifies password w w' h : Hash password w = (w', Ok h) → Verify password h = Ok true;
  Hash_valid password w w' h : Hash password w = (w', Ok h) → ValidatePassword password = Ok tt;
  Hash_db R `{!PreOrder R} password : preserves (on_db R) (Hash password);
  Hash_later password : preserves later (Hash password);
}.

(** [argon2.IDKey(password, salt, time, memory, threads, keyLen)] and
    [argon2.Version]. *)
Class Argon2 := { IDKey : string → string → Z → Z → Z → Z → string }.
Class Argon2Laws `{Argon2} : Prop := {
  IDKey_length p s t m th k : 0 ≤ k → len (IDKey p s t m th k) = k;
}.
Definition argon2_Version : Z := 19.

Record PasswordHashConfig := mkHashConfig {
  Memory : Z; Time_ : Z; Threads : Z; SaltLength : Z; KeyLength : Z }.
#[export] Instance PasswordHashConfig_eq : EqDecision PasswordHashConfig.
Proof. solve_decision. Defined.
Record parsedPasswordHash := mkParsedHash {
  parsed_config : PasswordHashConfig; parsed_salt : string; parsed_key : string }.

Module PasswordHasher.
Definition maxPasswordHashMemory : Z := 2 ^ 30.
Definition maxPasswordHashTime : Z := 10.
Definition maxPasswordHashBytes : Z := 2 ^ 20.
Definition zeroConfig : PasswordHashConfig := mkHashConfig 0 0 0 0 0.
Definition DefaultPasswordHashConfig : PasswordHashConfig := mkHashConfig 65536 3 4 16 32.

Definition validatePasswordHashConfig (c : PasswordHashConfig) : outcome unit :=
  if (Memory c =? 0) || (maxPasswordHashMemory <? Memory c) || (Time_ c =? 0)
     || (maxPasswordHashTime <? Time_ c) || (Threads c =? 0)
  then Err ErrInvalidPasswordHashConfig
  else let minimumMemory := Threads c * 8 in
       if (Memory c <? minimumMemory) || (SaltLength c <? 8) || (maxPasswordHashBytes <? SaltLength c)
          || (KeyLength c =? 0) || (maxPasswordHashBytes <? KeyLength c)
       then Err ErrInvalidPasswordHashConfig
       else Ok tt.

Definition normalizePasswordHashConfig (c : PasswordHashConfig) : outcome PasswordHashConfig :=
  let c := if bool_decide (c = zeroConfig) then DefaultPasswordHashConfig else c in
  match validatePasswordHashConfig c with
  | Err e => Err e
  | Ok _ => Ok c
  end.

Definition encodePasswordHash (c : PasswordHashConfig) (salt key : string) : string :=
  "$argon2id$v=" +:+ FormatInt argon2_Version +:+ "$m=" +:+ FormatInt (Memory c)
  +:+ ",t=" +:+ FormatInt (Time_ c) +:+ ",p=" +:+ FormatInt (Threads c)
  +:+ "$" +:+ b64_encode salt +:+ "$" +:+ b64_encode key.

(** [strings.HasPrefix(raw, name+"=")], [strings.TrimPrefix]: [name] is one letter. *)
Definition parsePasswordHashParameter (raw : string) (name : ascii) : outcome Z :=
  match raw with
  | String n (String e value) =>
    if Ascii.eqb n name && Ascii.eqb e "=" then
      match ParseUint32 value with Some v => Ok v | None => Err ErrInvalidPasswordHash end
    else Err ErrInvalidPasswordHash
  | _ => Err ErrInvalidPasswordHash
  end.

Definition parsePasswordHash (encoded : string) : outcome parsedPasswordHash :=
  match Split "$" encoded with
  | [p0; p1; p2; p3; p4; p5] =>
    if negb (String.eqb p0 "") || negb (String.eqb p1 "argon2id") then Err ErrInvalidPasswordHash else
    match parsePasswordHashParameter p2 "v" with
    | Ok version =>
      if negb (version =? argon2_Version) then Err ErrInvalidPasswordHash else
      match Split "," p3 with
      | [q0; q1; q2] =>
        match parsePasswordHashParameter q0 "m", parsePasswordHashParameter q1 "t",
              parsePasswordHashParameter q2 "p" with
        | Ok memory, Ok timeCost, Ok threads =>
          if 255 <? threads then Err ErrInvalidPasswordHash else
          match b64_decode p4, b64_decode p5 with
          | Some salt, Some key =>
            let config := mkHashConfig memory timeCost threads
                            (len salt mod 4294967296) (len key mod 4294967296) in
            match validatePasswordHashConfig config with
            | Ok _ => Ok (mkParsedHash config salt key)
            | Err _ => Err ErrInvalidPasswordHash
            end
          | _, _ => Err ErrInvalidPasswordHash
          end
        | _, _, _ => Err ErrInvalidPasswordHash
        end
      | _ => Err ErrInvalidPasswordHash
      end
    | Err _ => Err ErrInvalidPasswordHash
    end
  | _ => Err ErrInvalidPasswordHash
  end.

Section hasher.
Context `{Argon2} (h_config : PasswordHashConfig).

(** [NewPasswordHasher]. *)
Definition NewPasswordHasher : outcome PasswordHashConfig := normalizePasswordHashConfig h_config.

(** [derive], without its concurrency slot. *)
Definition derive (password salt : string) (c : PasswordHashConfig) : string :=
  IDKey password salt (Time_ c) (Memory c) (Threads c) (KeyLength c).

Definition hash_password (password : string) : M string :=
  let! config := lift (normalizePasswordHashConfig h_config) in
  map_err (Errorf "validate password for hashing") (lift (ValidatePassword password)) ;;;
  let! salt := map_err (Errorf "generate password salt")
    (rand_Read (Z.to_nat (SaltLength config)) (Opaque "random source unavailable")) in
  ret (encodePasswordHash config salt (derive password salt config)).

Definition verify_password (password encodedHash : string) : outcome bool :=
  match parsePasswordHash encodedHash with
  | Err e => Err e
  | Ok parsed =>
    Ok (String.eqb (derive password (parsed_salt parsed) (parsed_config parsed)) (parsed_key parsed))
  end.

#[export] Instance password_hasher : PasswordHashing := {|
  Hash := hash_password;
  Verify := verify_password;
|}.
End hasher.

(** ** The encoding *)

Definition config_ranges (c : PasswordHashConfig) : Prop :=
  0 ≤ Memory c ≤ max_uint32 ∧ 0 ≤ Time_ c ≤ max_uint32 ∧ 0 ≤ Threads c ≤ 255 ∧ 0 ≤ KeyLength c.

Lemma parse_parameter name x :
  0 ≤ x ≤ max_uint32 →
  parsePasswordHashParameter (String name (String "=" (FormatInt x))) name = Ok x.
Proof.
  intros Hx. unfold parsePasswordHashParameter. rewrite Ascii.eqb_refl. simpl.
  by rewrite ParseUint32_FormatInt.
Qed.

(** Parsing an encoded hash gives back the parameters, the salt and the key. *)
Lemma parse_encode c salt key :
  config_ranges c → validatePasswordHashConfig c = Ok tt →
  len salt = SaltLength c → len key = KeyLength c →
  parsePasswordHash (encodePasswordHash c salt key) = Ok (mkParsedHash c salt key).
Proof.
  intros (Hm & Ht & Hp & Hk0) Hv Hs Hk.
  set (params := String "m" (String "=" (FormatInt (Memory c))) +:+ String "," (
                 String "t" (String "=" (FormatInt (Time_ c))) +:+ String "," (
                 String "p" (String "=" (FormatInt (Threads c)))))).
  assert (encodePasswordHash c salt key =
          "" +:+ String "$" ("argon2id" +:+ String "$" (String "v" (String "=" (FormatInt argon2_Version))
            +:+ String "$" (params +:+ String "$" (b64_encode salt +:+ String "$" (b64_encode key)))))) as ->.
  { unfold encodePasswordHash, params. repeat (rewrite ?str_app_cons, ?str_app_nil_l, ?str_app_assoc).
    reflexivity. }
  assert (∀ x, 0 ≤ x → contains_char "$" (FormatInt x) = false) as Hd by (intros; by apply FormatInt_no_char).
  assert (∀ x, 0 ≤ x → contains_char "," (FormatInt x) = false) as Hc by (intros; by apply FormatInt_no_char).
  assert (contains_char "$" params = false) as Hparams.
  { unfold params. rewrite contains_char_app. cbn -[FormatInt]. rewrite contains_char_app. cbn -[FormatInt].
    by rewrite !Hd by lia. }
  unfold parsePasswordHash.
  rewrite (Split_app "$" ""), (Split_app "$" "argon2id") by done.
  rewrite (Split_app "$" (String "v" _)) by (cbn -[FormatInt]; by rewrite Hd).
  rewrite (Split_app "$" params) by done.
  rewrite (Split_app "$" (b64_encode salt)), (Split_none "$" (b64_encode key)) by apply b64_no_dollar.
  cbn [String.eqb]. rewrite parse_parameter by done. unfold params.
  rewrite (Split_app "," (String "m" _)) by (cbn -[FormatInt]; by rewrite Hc by lia).
  rewrite (Split_app "," (String "t" _)) by (cbn -[FormatInt]; by rewrite Hc by lia).
  rewrite (Split_none "," (String "p" _)) by (cbn -[FormatInt]; by rewrite Hc by lia).
  rewrite !parse_parameter by (unfold max_uint32 in *; lia).
  rewrite !b64_round_trip, Hs, Hk. cbn -[validatePasswordHashConfig Z.ltb].
  rewrite (proj2 (Z.ltb_ge _ _)) by lia.
  assert (SaltLength c mod 4294967296 = SaltLength c ∧ KeyLength c mod 4294967296 = KeyLength c) as [-> ->].
  { unfold validatePasswordHashConfig, maxPasswordHashBytes in Hv. repeat case_match; try done. bool_props.
    unfold len in *. split; apply Z.mod_small; lia. }
  destruct c; simpl. by rewrite Hv.
Qed.

Section laws.
Context `{Argon2Laws} (h_config : PasswordHashConfig).

Lemma hash_password_ok password w w' h :
  hash_password h_config password w = (w', Ok h) →
  ∃ config salt, normalizePasswordHashConfig h_config = Ok config ∧ ValidatePassword password = Ok tt ∧
    len salt = SaltLength config ∧ h = encodePasswordHash config salt (derive password salt config).
Proof.
  unfold hash_password, rand_Read, draw. intros Hh. inv_ok.
  destruct (normalizePasswordHashConfig h_config) as [config|] eqn:Ec; simplify_eq.
  match goal with x : unit |- _ => destruct x end.
  match goal with H : (match entropy _ with _ => _ end) = _ |- _ => revert H end.
  destruct (entropy _) as [|[v|] es]; intros [= <- <-].
  eexists _, _. split; [done|]. split; [done|]. split; [|done].
  unfold len. rewrite random_bytes_length. unfold normalizePasswordHashConfig in Ec. case_match; [|done].
  injection Ec as <-. unfold validatePasswordHashConfig in *. repeat case_match; try done. bool_props. lia.
Qed.

Context (Hranges : config_ranges h_config).

Lemma normalize_ok c : normalizePasswordHashConfig h_config = Ok c →
  config_ranges c ∧ validatePasswordHashConfig c = Ok tt.
Proof.
  unfold normalizePasswordHashConfig. intros Hn.
  destruct (validatePasswordHashConfig _) as [[]|] eqn:E; [|done]. injection Hn as <-.
  split; [|done]. case_bool_decide; [|exact Hranges].
  unfold config_ranges, max_uint32; simpl; lia.
Qed.

Lemma hash_then_verify password password' w w' h :
  hash_password h_config password w = (w', Ok h) →
  ∃ c salt, normalizePasswordHashConfig h_config = Ok c ∧
    verify_password password' h = Ok (String.eqb (derive password' salt c) (derive password salt c)).
Proof.
  intros (c & salt & Hn & _ & Hsalt & ->)%hash_password_ok. exists c, salt. split; [done|].
  apply normalize_ok in Hn as [Hr Hv]. unfold verify_password.
  rewrite parse_encode; try done. unfold derive. apply IDKey_length, Hr.
Qed.

#[export] Instance password_hasher_laws : @PasswordHashingLaws (password_hasher h_config).
Proof.
  split.
  - intros password w w' h Hh. simpl in *.
    destruct (hash_then_verify password password w w' h Hh) as (c & salt & _ & Hv).
    by rewrite Hv, String.eqb_refl.
  - intros password w w' h Hh. simpl in *. by apply hash_password_ok in Hh as (? & ? & _ & ? & _).
  - intros R HR password. simpl. unfold hash_password. preserves_tac.
  - intros password. simpl. unfold hash_password. preserves_tac.
Qed.
End laws.
End PasswordHasher.

(** ** What a stored hash is worth *)
Section stored.
Import PasswordHasher.
Context `{Argon2Laws} (c : PasswordHashConfig).

(** C16. A stored hash is a faithful record: it parses back to the parameters,
    the salt and the derived key it was written from, and writing them again
    gives the same text; it verifies its own password, and another password
    exactly when Argon2 derives the same key from it; and no text that does not
    parse verifies anything. *)
Theorem stored_hash_round_trip password w w' h :
  config_ranges c → hash_password c password w = (w', Ok h) →
  ∃ parsed, parsePasswordHash h = Ok parsed ∧
    encodePasswordHash (parsed_config parsed) (parsed_salt parsed) (parsed_key parsed) = h ∧
    normalizePasswordHashConfig c = Ok (parsed_config parsed) ∧
    len (parsed_salt parsed) = SaltLength (parsed_config parsed) ∧
    parsed_key parsed = derive password (parsed_salt parsed) (parsed_config parsed) ∧
    verify_password password h = Ok true ∧
    ∀ other, verify_password other h = Ok true ↔
      derive other (parsed_salt parsed) (parsed_config parsed) = parsed_key parsed.
Proof.
  intros Hr (config & salt & Hn & _ & Hsalt & ->)%hash_password_ok.
  pose proof (normalize_ok c Hr _ Hn) as [Hcr Hv].
  assert (Hp : parsePasswordHash (encodePasswordHash config salt (derive password salt config)) =
    Ok (mkParsedHash config salt (derive password salt config))).
  { apply parse_encode; try done. unfold derive. apply IDKey_length, Hcr. }
  exists (mkParsedHash config salt (derive password salt config)). unfold verify_password. rewrite Hp.
  split_and!; try done; [by rewrite String.eqb_refl|]. intros other. cbn [parsed_salt parsed_config parsed_key].
  destruct (String.eqb_spec (derive other salt config) (derive password salt config)); split; congruence.
Qed.
End stored.

(** A key derivation that repeats the password's first character. *)
Definition demo_argon2 : Argon2 :=
  {| IDKey p s t m th k := string_of_list_ascii (repeat (match p with String ch _ => ch | _ => " "%char end) (Z.to_nat k)) |}.
Lemma demo_argon2_laws : @Argon2Laws demo_argon2.
Proof.
  split. intros p s t m th k Hk. simpl. unfold len. set (ch := match p with String ch _ => ch | _ => " "%char end).
  assert (Hl : ∀ n, String.length (string_of_list_ascii (repeat ch n)) = n).
  { induction n as [|n IH]; simpl; [done|by rewrite IH]. }
  rewrite Hl. lia.
Qed.
Lemma stored_hash_round_trip_witness :
  ∃ w h parsed, @PasswordHasher.hash_password demo_argon2 PasswordHasher.zeroConfig "correct horse"
      (mkWorld empty_db 0 [] [Some 7] [] [] []) = (w, Ok h) ∧
    PasswordHasher.parsePasswordHash h = Ok parsed ∧ parsed_config parsed = PasswordHasher.DefaultPasswordHashConfig.
Proof.
  eexists _, _.
  destruct (@stored_hash_round_trip demo_argon2 demo_argon2_laws PasswordHasher.zeroConfig "correct horse"
    (mkWorld empty_db 0 [] [Some 7] [] [] []) _ _ ltac:(unfold PasswordHasher.config_ranges; simpl; unfold max_uint32; lia)
    ltac:(vm_compute; reflexivity)) as (parsed & Hp & _ & Hn & _).
  exists parsed. split; [vm_compute; reflexivity|]. split; [exact Hp|].
  assert (Hd : PasswordHasher.normalizePasswordHashConfig PasswordHasher.zeroConfig = Ok PasswordHasher.DefaultPasswordHashConfig) by reflexivity.
  rewrite Hd in Hn. by injection Hn.
Defined.
