(* ===== verification/SignIn.v ===== *)
(** * Sign-in and sign-up: internal/service/signin.go, signup.go, the sign-in
    half of rate_limit.go and login_attempt.go

    Authentication by email or username and password, its budgets and its
    history, and the creation of accounts. *)
From S2P Require Export Session UserStore OAuthStore PasswordHash RateLimitDB.
Import UserRepository Sessions LoginAttemptRepository.

Definition LoginOutcomeSuccess : string := "success".
Definition LoginOutcomeInvalidCredentials : string := "invalid_credentials".
Definition LoginOutcomeUnconfirmed : string := "unconfirmed".
Definition LoginOutcomeRateLimited : string := "rate_limited".
Definition LoginOutcomeError : string := "error".

Record SignInInput := mkSignInInput { Identifier : string; Password : string }.
Record SignInResult := mkSignInResult { result_User : User; result_Session : Session }.
(** [SignInResult{}]. *)
Definition zero_SignInResult : SignInResult :=
  mkSignInResult (mkUser 0 None None None None false false "" "" 0 None 0) (mkSession "" 0 0 0 None "" "").

(** [SignInService]: its session service, [FailedAttemptState.Clear] and the
    confirmation policy. *)
Record SignInService := mkSignInService {
  signin_sessions : SessionService;
  attempts_Clear : string → M unit;
  confirmationRequired : bool;
}.

Module SignIn.
Section signin.
Context `{Unicode, MailParser, Postgres, Crypto, PasswordHashing}.

Section service.
Context (s : SignInService).

Definition findUser (identifier : string) (isEmail : bool) : M User :=
  if isEmail then FindUserByEmail identifier else FindUserByUsername identifier.

Definition SignIn (input : SignInInput) : M SignInResult :=
  match normalizeSignInIdentifier (Identifier input) with
  | (_, Err _) => throw ErrInvalidCredentials
  | (isEmail, Ok identifier) =>
    let! user := map_err (λ e, if errors_Is e ErrUserNotFound then Sentinel ErrInvalidCredentials
                               else Errorf "find signin user" e) (findUser identifier isEmail) in
    match user_PasswordHash user with
    | None => throw ErrInvalidCredentials
    | Some hash =>
      guard ((user_ID user <=? 0) || user_IsGuest user) ErrInvalidCredentials ;;;
      guard (match Verify (Password input) hash with Ok valid => negb valid | Err _ => true end)
        ErrInvalidCredentials ;;;
      guard (confirmationRequired s && is_nil (user_EmailVerifiedAt user)) ErrEmailUnconfirmed ;;;
      map_err (Errorf "clear signin attempts") (attempts_Clear s identifier) ;;;
      let! session := map_err (Errorf "create signin session") (Create (signin_sessions s) (user_ID user)) in
      ret (mkSignInResult (with_PasswordHash None user) session)
    end
  end.
End service.

(** [RecordLoginAttempt] of login_attempt.go: best effort. *)
Definition RecordAttempt (a : LoginAttempt) : M unit :=
  if String.eqb (attempt_Outcome a) "" || (attempt_CreatedAt a <=? 0) then ret tt
  else ignore (RecordLoginAttempt a).

Definition loginOutcomeForError (e : error) : string :=
  if errors_Is e ErrEmailUnconfirmed then LoginOutcomeUnconfirmed
  else if errors_Is e ErrRateLimited then LoginOutcomeRateLimited
  else if errors_Is e ErrInvalidCredentials then LoginOutcomeInvalidCredentials
  else LoginOutcomeError.

(** [RateLimitedSignInService]: [recorder] tells whether history is kept. *)
Section limited.
Context (s : SignInService) (limiter : RateLimiter World) (recorder : bool).

Definition recordAttempt (input : SignInInput) (origin outcome : string) (userID : Z) : M unit :=
  if negb recorder then ret tt else
  let email := normalizedAttemptEmail (Identifier input) in
  if String.eqb email "" then ret tt else
  let! now := unix_now in
  let origin := TrimSpace origin in
  RecordAttempt (mkAttempt email (if 0 <? userID then Some userID else None)
                   (if String.eqb origin "" then None else Some origin) outcome now).

Definition RateLimitedSignIn (input : SignInInput) (origin : string) : M SignInResult :=
  let! originDecision := Allow limiter signInOriginAction (originRateLimitKey origin) in
  if negb (Allowed originDecision) then
    recordAttempt input origin LoginOutcomeRateLimited 0 ;;;
    throw (RateLimitError (RetryAfter originDecision))
  else
  match normalizeSignInIdentifier (Identifier input) with
  | (_, Err _) =>
    let! r := attempt (SignIn s input) in
    match r with
    | Err e => recordAttempt input origin (loginOutcomeForError e) 0 ;;; throw e
    | Ok _ => ret zero_SignInResult
    end
  | (_, Ok identifier) =>
    let! identifierDecision := Allow limiter signInIdentifierAction identifier in
    if negb (Allowed identifierDecision) then
      recordAttempt input origin LoginOutcomeRateLimited 0 ;;;
      throw (RateLimitError (RetryAfter identifierDecision))
    else
    let! r := attempt (SignIn s input) in
    match r with
    | Err e => recordAttempt input origin (loginOutcomeForError e) 0 ;;; throw e
    | Ok result =>
      map_err (Errorf "clear signin origin limit") (Clear limiter signInOriginAction (originRateLimitKey origin)) ;;;
      map_err (Errorf "clear signin identifier limit") (Clear limiter signInIdentifierAction identifier) ;;;
      recordAttempt input origin LoginOutcomeSuccess (user_ID (result_User result)) ;;;
      ret result
    end
  end.
End limited.
End signin.
End SignIn.

(** ** Sign-up: internal/service/signup.go *)
Import Sessions.

Definition defaultUserTheme : string := "light".
Definition defaultUserLocale : string := "en".

Record SignUpInput := mkSignUpInput {
  signup_Email : string; signup_Password : string; signup_Username : string;
  signup_DisplayName : string; signup_Origin : string }.
(** No session is created while confirmation is required. *)
Record SignUpResult := mkSignUpResult {
  signup_User : User; signup_Session : option Session; signup_ConfirmationRequired : bool }.

Module SignUp.
Section signup.
Context `{Unicode, MailParser, Postgres, Crypto, PasswordHashing}.
Context (sessions : SessionService) (confirmationRequired : bool).

Definition rejectDuplicateEmail (email : string) : M unit :=
  let! r := attempt (FindUserByEmail email) in
  match r with
  | Err e => if errors_Is e ErrUserNotFound then ret tt else throw (Errorf "check signup email" e)
  | Ok user => guard (0 <? user_ID user) ErrDuplicateEmail
  end.
Definition rejectDuplicateUsername (username : string) : M unit :=
  let! r := attempt (FindUserByUsername username) in
  match r with
  | Err e => if errors_Is e ErrUserNotFound then ret tt else throw (Errorf "check signup username" e)
  | Ok user => guard (0 <? user_ID user) ErrDuplicateUsername
  end.

Definition signup_user (email passwordHash username displayName : string) (createdAt : Z) : User :=
  mkUser 0 (Some email) (Some passwordHash) (optionalNormalized username) (optionalNormalized displayName)
    false false defaultUserTheme defaultUserLocale createdAt None 0.

Definition SignUp (input : SignUpInput) : M SignUpResult :=
  map_err (Errorf "validate signup password") (lift (ValidatePassword (signup_Password input))) ;;;
  let! email := map_err (Join ErrInvalidSignupInput) (lift (NormalizeEmail (signup_Email input))) in
  guard (String.eqb email "") (Join ErrInvalidSignupInput ErrInvalidEmail) ;;;
  let! username := map_err (Join ErrInvalidSignupInput) (lift (NormalizeUsername (signup_Username input))) in
  let! displayName := lift (normalizeDisplayName (signup_DisplayName input)) in
  rejectDuplicateEmail email ;;;
  (if String.eqb username "" then ret tt else rejectDuplicateUsername username) ;;;
  let! passwordHash := map_err (Errorf "hash signup password") (Hash (signup_Password input)) in
  let! createdAt := unix_now in
  let! created := map_err (Errorf "create signup user")
    (CreateUser (signup_user email passwordHash username displayName createdAt)) in
  guard (user_ID created <=? 0) ErrInvalidCreatedUser ;;;
  let created := with_PasswordHash None created in
  if confirmationRequired then ret (mkSignUpResult created None true) else
  let! session := map_err (Errorf "create signup session") (Create sessions (user_ID created)) in
  ret (mkSignUpResult created (Some session) false).

Definition signUpOriginAction : string := "signup.origin".

(** [RateLimitedSignUpService.SignUp]. *)
Definition RateLimitedSignUp (limiter : RateLimiter World) (input : SignUpInput) : M SignUpResult :=
  let! decision := Allow limiter signUpOriginAction (originRateLimitKey (signup_Origin input)) in
  guard (negb (Allowed decision)) (RateLimitError (RetryAfter decision)) ;;;
  SignUp input.
End signup.
End SignUp.
