(* ===== verification/Confirmation.v ===== *)
(** * Email confirmation: internal/service/confirmation.go and resend.go *)
From S2P Require Export TokenStore UserStore RateLimitDB Encoding.
Import UserRepository TokenRepository.

(** [EmailConfirmationService]: where links point and how long they live. *)
Record EmailConfirmationService := mkConfirmationService {
  confirmation_publicURL : URL;
  confirmation_lifetime : Z;
}.

Definition newline : string := String (ascii_of_nat 10) "".
Definition blank_line : string := newline +:+ newline.

(** [createdAt + int64(lifetime/time.Second)] at width 64, for both kinds of links. *)
Definition link_expiry (lifetime createdAt : Z) : Z := wrap64 (createdAt + Z.quot lifetime second).

(** What a consumed row must look like: confirmation.go and password_reset_consume.go
    apply the same checks. *)
Definition consumed_ok (t : Token) (token : string) (now : Z) : bool :=
  negb ((token_UserID t <=? 0) || (token_ExpiresAt t <=? now) || negb (is_nil (token_ConsumedAt t))
        || negb (len (token_Token t) =? maxConfirmationTokenLength) || negb (String.eqb (token_Token t) token)).

Module Confirmation.
Section confirmation.
Context `{Unicode, MailParser, Postgres, Crypto} (s : EmailConfirmationService).

Definition confirmationTokenBytes : nat := 32.
Definition confirmationResendAction : string := "email-confirmation.resend".

Definition NewEmailConfirmationService (u : URL) (lifetime : Z) : outcome EmailConfirmationService :=
  if negb (String.eqb (url_Scheme u) "http") && negb (String.eqb (url_Scheme u) "https")
  then Err ErrInvalidConfirmationConfig
  else if String.eqb (url_Host u) "" then Err ErrInvalidConfirmationConfig
  else if lifetime <? second then Err ErrInvalidConfirmationConfig
  else Ok (mkConfirmationService u lifetime).

Definition newConfirmationToken : M string :=
  let! value := rand_Read confirmationTokenBytes (Errorf "random source unavailable" ErrConfirmationTokenGeneration) in
  let token := hex_encode value in
  guard (negb (len token =? maxConfirmationTokenLength)) ErrConfirmationTokenGeneration ;;;
  ret token.

Definition confirmationLink (token : string) : string :=
  token_link (confirmation_publicURL s) "/confirm-email" token.

Definition confirmation_mail (email token : string) : Mail :=
  mkMail email "Confirm your email address"
    ("Open this link to confirm your email address:" +:+ blank_line +:+ confirmationLink token
     +:+ blank_line +:+ "This link can be used once.").

Definition Issue (userID : Z) : M unit :=
  guard (userID <=? 0) ErrInvalidConfirmationUser ;;;
  let! user := map_err (Errorf "find confirmation user") (FindUserByID userID) in
  match user_Email user with
  | None => throw ErrInvalidConfirmationUser
  | Some address =>
    guard (negb (user_ID user =? userID) || user_IsGuest user) ErrInvalidConfirmationUser ;;;
    match NormalizeEmail address with
    | Err _ => throw ErrInvalidConfirmationUser
    | Ok email =>
      guard (String.eqb email "") ErrInvalidConfirmationUser ;;;
      let! createdAt := unix_now in
      let expiresAt := link_expiry (confirmation_lifetime s) createdAt in
      guard (expiresAt <=? createdAt) ErrInvalidConfirmationConfig ;;;
      let! token := newConfirmationToken in
      map_err (Errorf "create confirmation token")
        (CreateEmailConfirmationToken (mkToken userID token createdAt expiresAt None)) ;;;
      map_err (Errorf "send confirmation mail") (mailer_Send (confirmation_mail email token))
    end
  end.

Definition Confirm (rawToken : string) : M unit :=
  let! token := lift (normalizeConfirmationToken rawToken) in
  let! now := unix_now in
  let! confirmation := map_err (λ e, if errors_Is e ErrEmailConfirmationTokenNotFound
                                     then Sentinel ErrInvalidConfirmationToken
                                     else Errorf "consume confirmation token" e)
    (ConsumeEmailConfirmationToken token now) in
  guard (negb (consumed_ok confirmation token now)) ErrInvalidConfirmationToken ;;;
  let! user := map_err (λ e, if errors_Is e ErrUserNotFound then Sentinel ErrInvalidConfirmationToken
                             else Errorf "find confirmed user" e)
    (FindUserByID (token_UserID confirmation)) in
  guard (negb (user_ID user =? token_UserID confirmation) || user_IsGuest user || is_nil (user_Email user))
    ErrInvalidConfirmationToken ;;;
  let! updated := map_err (λ e, if errors_Is e ErrUserNotFound then Sentinel ErrInvalidConfirmationToken
                                else Errorf "mark email confirmed" e)
    (UpdateUser (with_EmailVerifiedAt (Some now) user) (user_Version user)) in
  guard (negb (user_ID updated =? token_UserID confirmation)) ErrInvalidConfirmationToken.

(** [EmailConfirmationResender.Resend]. *)
Definition Resend (limiter : RateLimiter World) (rawEmail : string) : M unit :=
  match NormalizeEmail rawEmail with
  | Err _ => ret tt
  | Ok email =>
    if String.eqb email "" then ret tt else
    let! decision := map_err (Errorf "allow confirmation resend") (Allow limiter confirmationResendAction email) in
    guard (negb (Allowed decision)) (RateLimitError (RetryAfter decision)) ;;;
    let! r := attempt (FindUserByEmail email) in
    match r with
    | Err e => if errors_Is e ErrUserNotFound then ret tt
               else throw (Errorf "find confirmation resend user" e)
    | Ok user =>
      if (user_ID user <=? 0) || user_IsGuest user || is_nil (user_Email user)
         || negb (is_nil (user_EmailVerifiedAt user)) then ret tt
      else Issue (user_ID user)
    end
  end.
End confirmation.
End Confirmation.
