(* ===== verification/Passwords.v ===== *)
(** * Password changes: internal/service/password_reset.go,
    password_reset_consume.go and password_settings.go *)
From S2P Require Export Confirmation Session PasswordHash.
Import UserRepository TokenRepository Sessions.

Record PasswordResetService := mkResetService {
  reset_limiter : RateLimiter World;
  reset_publicURL : URL;
  reset_lifetime : Z;
}.
Record PasswordSettingsInput := mkPasswordInput {
  CurrentPassword : string; NewPassword : string; SessionID : string }.
Record PasswordSettingsResult := mkPasswordResult {
  changed_User : User; changed_Session : option Session }.

(** [publicUser] of settings.go: the account without its password hash. *)
Definition publicUser (u : User) : User := with_PasswordHash None u.

Module PasswordReset.
Section reset.
Context `{Unicode, MailParser, Postgres, Crypto, PasswordHashing}.

Definition passwordResetRequestAction : string := "password-reset.request".
Definition passwordResetTokenBytes : nat := 32.

Definition NewPasswordResetService (limiter : RateLimiter World) (u : URL) (lifetime : Z)
    : outcome PasswordResetService :=
  if negb (String.eqb (url_Scheme u) "http") && negb (String.eqb (url_Scheme u) "https")
  then Err ErrInvalidPasswordResetConfig
  else if String.eqb (url_Host u) "" then Err ErrInvalidPasswordResetConfig
  else if lifetime <? second then Err ErrInvalidPasswordResetConfig
  else Ok (mkResetService limiter u lifetime).

Definition newPasswordResetToken : M string :=
  let! value := rand_Read passwordResetTokenBytes (Errorf "random source unavailable" ErrPasswordResetTokenGeneration) in
  let token := hex_encode value in
  guard (negb (len token =? maxPasswordResetTokenLength)) ErrPasswordResetTokenGeneration ;;;
  ret token.

Section request.
Context (s : PasswordResetService).

Definition resetLink (token : string) : string := token_link (reset_publicURL s) "/reset-password" token.
Definition reset_mail (email token : string) : Mail :=
  mkMail email "Reset your password"
    ("Open this link to reset your password:" +:+ blank_line +:+ resetLink token
     +:+ blank_line +:+ "This link can be used once.").

Definition Request (rawEmail : string) : M unit :=
  match NormalizeEmail rawEmail with
  | Err _ => ret tt
  | Ok email =>
    if String.eqb email "" then ret tt else
    let! decision := map_err (Errorf "allow password reset")
      (Allow (reset_limiter s) passwordResetRequestAction email) in
    guard (negb (Allowed decision)) (RateLimitError (RetryAfter decision)) ;;;
    let! r := attempt (FindUserByEmail email) in
    match r with
    | Err e => if errors_Is e ErrUserNotFound then ret tt
               else throw (Errorf "find password reset user" e)
    | Ok user =>
      match user_Email user with
      | None => ret tt
      | Some address =>
        if (user_ID user <=? 0) || user_IsGuest user || is_nil (user_PasswordHash user) then ret tt else
        match NormalizeEmail address with
        | Err _ => ret tt
        | Ok accountEmail =>
          if String.eqb accountEmail "" then ret tt else
          let! createdAt := unix_now in
          let expiresAt := link_expiry (reset_lifetime s) createdAt in
          guard (expiresAt <=? createdAt) ErrInvalidPasswordResetConfig ;;;
          let! token := newPasswordResetToken in
          map_err (Errorf "create password reset token")
            (CreatePasswordResetToken (mkToken (user_ID user) token createdAt expiresAt None)) ;;;
          map_err (Errorf "send password reset mail") (mailer_Send (reset_mail accountEmail token))
        end
      end
    end
  end.
End request.

(** [PasswordResetConsumer.Redeem]. *)
Definition Redeem (sessions : SessionService) (rawToken newPassword : string) : M unit :=
  lift (ValidatePassword newPassword) ;;;
  let! token := lift (normalizePasswordResetToken rawToken) in
  let! now := unix_now in
  let! reset := map_err (λ e, if errors_Is e ErrPasswordResetTokenNotFound
                              then Sentinel ErrInvalidPasswordResetToken
                              else Errorf "consume password reset token" e)
    (ConsumePasswordResetToken token now) in
  guard (negb (consumed_ok reset token now)) ErrInvalidPasswordResetToken ;;;
  let! user := map_err (λ e, if errors_Is e ErrUserNotFound then Sentinel ErrInvalidPasswordResetToken
                             else Errorf "find password reset user" e)
    (FindUserByID (token_UserID reset)) in
  guard (negb (user_ID user =? token_UserID reset) || user_IsGuest user || is_nil (user_Email user))
    ErrInvalidPasswordResetToken ;;;
  let! passwordHash := map_err (Errorf "hash password reset") (Hash newPassword) in
  let! updated := map_err (λ e, if errors_Is e ErrUserNotFound then Sentinel ErrInvalidPasswordResetToken
                                else Errorf "replace password" e)
    (UpdateUser (with_PasswordHash (Some passwordHash) user) (user_Version user)) in
  guard (negb (user_ID updated =? token_UserID reset)) ErrInvalidPasswordResetToken ;;;
  map_err (Errorf "revoke password reset sessions") (RevokeUser sessions (token_UserID reset)).

(** ** PasswordSettingsService *)
Section settings.
Context (sessions : SessionService).

Definition RecentSignInWindow : Z := 600 * second.

Definition verifyCurrent (user : User) (input : PasswordSettingsInput) : M unit :=
  match user_PasswordHash user with
  | None =>
    let! r := attempt (Lookup (SessionID input)) in
    match r with
    | Err _ => throw ErrRecentSignInRequired
    | Ok session =>
      if negb (session_UserID session =? user_ID user) then throw ErrRecentSignInRequired else
      let! now := time_Now in
      guard (RecentSignInWindow <? Sub now (session_CreatedAt session * second)) ErrRecentSignInRequired
    end
  | Some hash =>
    guard (String.eqb (CurrentPassword input) "") ErrCurrentPasswordRequired ;;;
    guard (match Verify (CurrentPassword input) hash with Ok valid => negb valid | Err _ => true end)
      ErrCurrentPasswordMismatch
  end.

Definition matchesCurrent (user : User) (newPassword : string) : bool :=
  match user_PasswordHash user with
  | None => false
  | Some hash => match Verify newPassword hash with Ok valid => valid | Err _ => false end
  end.

Definition Update (userID : Z) (input : PasswordSettingsInput) : M PasswordSettingsResult :=
  guard (userID <=? 0) ErrInvalidUserID ;;;
  map_err (Errorf "validate settings password") (lift (ValidatePassword (NewPassword input))) ;;;
  let! user := map_err (Errorf "find password settings user") (FindUserByID userID) in
  guard (negb (user_ID user =? userID)) ErrUserNotFound ;;;
  verifyCurrent user input ;;;
  if matchesCurrent user (NewPassword input) then ret (mkPasswordResult (publicUser user) None) else
  let! passwordHash := map_err (Errorf "hash settings password") (Hash (NewPassword input)) in
  let! updated := map_err (λ e, if errors_Is e ErrUserNotFound then Sentinel ErrRecordNotFound
                                else if errors_Is e ErrOptimisticLockConflict
                                then Sentinel ErrOptimisticLockConflict
                                else Errorf "update settings password" e)
    (UpdateUser (with_PasswordHash (Some passwordHash) user) (user_Version user)) in
  map_err (Errorf "revoke sessions after password change") (RevokeUser sessions userID) ;;;
  let! session := map_err (Errorf "create session after password change") (Create sessions userID) in
  ret (mkPasswordResult (publicUser updated) (Some session)).
End settings.
End reset.
End PasswordReset.
