(* ===== verification/AuditTrail.v ===== *)
(** * The administrator audit trail: internal/service/audit.go *)
From S2P Require Export OAuthStore.
Import AuditLogRepository.

Record AuditRecord := mkAuditRecord {
  record_ActorUserID : Z;
  record_ActorEmail : string;
  record_Action : string;
  record_TargetType : string;
  record_TargetID : string;
  record_Detail : string;
  record_IP : string;
}.

Definition maxAuditActionLength : Z := 64.
Definition maxAuditTargetType : Z := 32.
Definition maxAuditTargetID : Z := 64.
Definition maxAuditDetailLength : Z := 1000.
Definition maxAuditActorEmail : Z := 255.
Definition maxAuditOrigin : Z := 64.

(** The interface other use cases see: [AuditRecorder], when one is wired. *)
Definition AuditRecorder : Type := option (AuditRecord → M unit).
(** [if s.auditor != nil { _ = s.auditor.Record(ctx, record) }]. *)
Definition record_action (auditor : AuditRecorder) (r : AuditRecord) : M unit :=
  match auditor with None => ret tt | Some record => ignore (record r) end.

Definition buildAuditEntry (record : AuditRecord) (occurredAt : Z) : outcome AuditEntry :=
  let action := TrimSpace (record_Action record) in
  let actorEmail := TrimSpace (record_ActorEmail record) in
  let targetType := TrimSpace (record_TargetType record) in
  let targetID := TrimSpace (record_TargetID record) in
  let detail := TrimSpace (record_Detail record) in
  let ip := TrimSpace (record_IP record) in
  if (record_ActorUserID record <=? 0) || (occurredAt <=? 0) then Err ErrInvalidAuditEntry
  else if String.eqb action "" || (maxAuditActionLength <? len action) || negb (printable action)
  then Err ErrInvalidAuditEntry
  else if (maxAuditActorEmail <? RuneCountInString actorEmail) || negb (printable actorEmail)
  then Err ErrInvalidAuditEntry
  else if (maxAuditTargetType <? len targetType) || negb (printable targetType)
  then Err ErrInvalidAuditEntry
  else if (maxAuditTargetID <? len targetID) || negb (printable targetID) then Err ErrInvalidAuditEntry
  else if (maxAuditDetailLength <? RuneCountInString detail) || negb (printable detail)
  then Err ErrInvalidAuditEntry
  else if (maxAuditOrigin <? len ip) || negb (printable ip) then Err ErrInvalidAuditEntry
  else Ok (mkAudit occurredAt (Some (record_ActorUserID record)) (optionalString actorEmail) action
             (optionalString targetType) (optionalString targetID) (optionalString detail)
             (optionalString ip)).

(** [AuditService.Record]; the log sink it also notifies changes no data. *)
Definition Record (record : AuditRecord) : M unit :=
  let! now := unix_now in
  let! entry := lift (buildAuditEntry record now) in
  map_err (Errorf "create audit entry") (CreateAuditEntry entry).

(** A recorded entry fits its columns. *)
Lemma buildAuditEntry_ok record occurredAt entry :
  buildAuditEntry record occurredAt = Ok entry →
  0 < occurredAt ∧ audit_OccurredAt entry = occurredAt ∧
  audit_ActorUserID entry = Some (record_ActorUserID record) ∧ 0 < record_ActorUserID record ∧
  audit_Action entry = TrimSpace (record_Action record) ∧ audit_Action entry ≠ "" ∧
  len (audit_Action entry) ≤ maxAuditActionLength ∧ printable (audit_Action entry) = true.
Proof.
  unfold buildAuditEntry. intros Hb. repeat (case_match; [done|]). injection Hb as <-. simpl.
  bool_props. repeat split; auto; lia.
Qed.
