(* ===== verification/Retention.v ===== *)
(** * Removal of expired credentials and old history

    internal/store/postgres/retention.go and internal/service/retention.go.
    A cleanup is a [task]: like a Go function returning [(int, error)] it
    reports a count even when it fails. *)
From S2P Require Export TokenStore SSOStore OAuthStore.

Module RetentionRepository.

Definition expired_token (now : Z) (t : Token) : bool :=
  negb (is_nil (token_ConsumedAt t)) || (token_ExpiresAt t <=? now).
Definition expired_state (now : Z) (r : OAuthState * option Z) : bool :=
  negb (is_nil r.2) || (state_ExpiresAt r.1 <=? now).

(** [DELETE FROM table WHERE expired]: the rows left and their number. *)
Definition purge {K A} `{Countable K} (expired : A → bool) (t : gmap K A) : gmap K A :=
  filter (λ kv, expired kv.2 = false) t.
Definition purged {K A} `{Countable K} (expired : A → bool) (t : gmap K A) : Z :=
  count_rows (λ kv, expired kv.2) t.

Definition delete_email_tokens (now : Z) (d : DB) : outcome (DB * Z) :=
  Ok (set_email_tokens (purge (λ r, expired_token now r.2) (email_tokens d)) (tokens_seq d) d,
      purged (λ r, expired_token now r.2) (email_tokens d)).
Definition delete_reset_tokens (now : Z) (d : DB) : outcome (DB * Z) :=
  Ok (set_reset_tokens (purge (λ r, expired_token now r.2) (reset_tokens d)) (tokens_seq d) d,
      purged (λ r, expired_token now r.2) (reset_tokens d)).
Definition delete_states (now : Z) (d : DB) : outcome (DB * Z) :=
  Ok (set_oauth_states (purge (expired_state now) (oauth_states d)) d, purged (expired_state now) (oauth_states d)).
Definition delete_logins (now : Z) (d : DB) : outcome (DB * Z) :=
  Ok (set_sso_login_sessions (purge (λ s, login_ExpiresAt s <=? now) (sso_login_sessions d)) d,
      purged (λ s, login_ExpiresAt s <=? now) (sso_login_sessions d)).
Definition delete_attempts (cutoff : Z) (d : DB) : outcome (DB * Z) :=
  Ok (set_login_attempts (filter (λ a, (attempt_CreatedAt a <? cutoff) = false) (login_attempts d)) d,
      Z.of_nat (length (filter (λ a, (attempt_CreatedAt a <? cutoff) = true) (login_attempts d)))).
Definition delete_usage (cutoff : Z) (d : DB) : outcome (DB * Z) :=
  Ok (set_usage_events (filter (λ e, (usage_CreatedAt e <? cutoff) = false) (usage_events d)) d,
      Z.of_nat (length (filter (λ e, (usage_CreatedAt e <? cutoff) = true) (usage_events d)))).

(** [RetentionRepository.delete]. *)
Definition delete (operation : string) (sql : Z → DB → outcome (DB * Z)) (cutoff : Z) : M Z :=
  if cutoff <=? 0 then throw ErrInvalidData else
  map_err (wrapOperation operation) (statement (sql cutoff)).

Definition DeleteExpiredEmailConfirmationTokens : Z → M Z :=
  delete "delete expired email confirmation tokens" delete_email_tokens.
Definition DeleteExpiredPasswordResetTokens : Z → M Z :=
  delete "delete expired password reset tokens" delete_reset_tokens.
Definition DeleteExpiredOAuthStates : Z → M Z := delete "delete expired oauth states" delete_states.
Definition DeleteExpiredSSOLoginSessions : Z → M Z := delete "delete expired sso login sessions" delete_logins.
Definition DeleteLoginAttemptsBefore : Z → M Z := delete "delete old login attempts" delete_attempts.
Definition DeleteUsageEventsBefore : Z → M Z := delete "delete old usage events" delete_usage.
End RetentionRepository.

(** A count and an error, both reported. *)
Definition task : Type := World → World * (Z * option error).
(** A method that reports no count when it fails. *)
Definition reported (m : M Z) : task := λ w,
  match m w with
  | (w', Ok count) => (w', (count, None))
  | (w', Err e) => (w', (0, Some e))
  end.

(** [RetentionService]; periods in nanoseconds. *)
Record RetentionService := mkRetention { loginRetention : Z; usageRetention : Z }.

Module Retention.
Import RetentionRepository.

Definition NewRetentionService (loginRetention usageRetention : Z) : outcome RetentionService :=
  if (loginRetention <=? 0) || (usageRetention <=? 0) then Err ErrInvalidRetentionConfig
  else Ok (mkRetention loginRetention usageRetention).

(** The loop of [CleanupTokens] over the removals. *)
Fixpoint remove_all (removes : list (Z → M Z)) (now removed : Z) : task :=
  λ w, match removes with
  | [] => (w, (removed, None))
  | remove :: removes =>
    match remove now w with
    | (w', Err e) => (w', (removed, Some (Errorf "clean up tokens" e)))
    | (w', Ok count) => remove_all removes now (removed + count) w'
    end
  end.

Definition removals : list (Z → M Z) :=
  [DeleteExpiredEmailConfirmationTokens; DeleteExpiredPasswordResetTokens; DeleteExpiredOAuthStates;
   DeleteExpiredSSOLoginSessions].

Definition CleanupTokens : task := λ w,
  match unix_now w with
  | (w', Ok now) => remove_all removals now 0 w'
  | (w', Err e) => (w', (0, Some e))
  end.

Definition delete_before (operation : string) (remove : Z → M Z) (retention : Z) : task :=
  reported (let! now := time_Now in map_err (Errorf operation) (remove (Unix (now - retention)))).

Section service.
Context (s : RetentionService).
Definition CleanupLoginAttempts : task :=
  delete_before "clean up login attempts" DeleteLoginAttemptsBefore (loginRetention s).
Definition CleanupUsageEvents : task :=
  delete_before "clean up usage events" DeleteUsageEventsBefore (usageRetention s).
End service.
End Retention.

(** ** What cleanup leaves *)
Section cleanup.
Import RetentionRepository.

(** The database without the credentials that [CleanupTokens] removes at [now]. *)
Definition without_expired (now : Z) (d : DB) : DB :=
  set_sso_login_sessions (purge (λ s, login_ExpiresAt s <=? now) (sso_login_sessions d))
    (set_oauth_states (purge (expired_state now) (oauth_states d))
      (set_reset_tokens (purge (λ r, expired_token now r.2) (reset_tokens d)) (tokens_seq d)
        (set_email_tokens (purge (λ r, expired_token now r.2) (email_tokens d)) (tokens_seq d) d))).

Lemma purge_lookup {K A} `{Countable K} expired (t : gmap K A) k :
  purge expired t !! k = match t !! k with Some a => if expired a then None else Some a | None => None end.
Proof.
  unfold purge. destruct (t !! k) as [a|] eqn:E.
  - destruct (expired a) eqn:Ex.
    + apply map_lookup_filter_None. right. intros x Hx. simplify_eq. simpl. by rewrite Ex.
    + by apply map_lookup_filter_Some.
  - apply map_lookup_filter_None. by left.
Qed.

Lemma delete_ok op sql cutoff w w' n :
  delete op sql cutoff w = (w', Ok n) → 0 < cutoff ∧ sql cutoff (db w) = Ok (db w', n).
Proof.
  unfold delete. intros Hd. case_match; [done|]. bool_props. apply map_err_ok, statement_ok in Hd. split; [lia|done].
Qed.
End cleanup.

(** ** Databases that differ in what cleanup removes *)
Section alike.
Context `{Unicode, Crypto}.
Import RetentionRepository TokenRepository OAuthStateRepository.
Context (t : Z).

(** The same rows, but for credentials used up or expired at [t]. *)
Definition same_usable (d d' : DB) : Prop := without_expired t d = without_expired t d'.

#[export] Instance same_usable_equiv : Equivalence same_usable.
Proof. unfold same_usable. split; [by intros ?|by intros ???|by intros ??? ->]. Qed.

Lemma purge_idemp {K A} `{Countable K} expired (m : gmap K A) : purge expired (purge expired m) = purge expired m.
Proof. apply map_eq. intros k. rewrite !purge_lookup. destruct (m !! k) as [a|]; [|done]. destruct (expired a) eqn:E; [done|]. by rewrite E. Qed.

Lemma without_expired_same d : same_usable d (without_expired t d).
Proof. unfold same_usable, without_expired. simpl. by rewrite !purge_idemp. Qed.

(** [m] answers alike from such databases, and leaves such databases. *)
Definition alike {A} (m : M A) : Prop := ∀ w d, same_usable (db w) d →
  ∃ d', m (set_db d w) = (set_db d' (fst (m w)), snd (m w)) ∧ same_usable (db (fst (m w))) d'.

Lemma set_db_id w : set_db (db w) w = w.
Proof. by destruct w. Qed.

Lemma alike_lift {A} (r : outcome A) : alike (lift r).
Proof. intros w d Hd. by exists d. Qed.
Lemma alike_bind {A B} (m : M A) (f : A → M B) : alike m → (∀ a, alike (f a)) → alike (bind m f).
Proof.
  intros Hm Hf w d Hd. unfold bind. destruct (Hm w d Hd) as (d1 & -> & Hd1).
  destruct (m w) as [w1 [a|e]]; simpl in *; [by apply Hf|by exists d1].
Qed.
Lemma alike_map_err {A} f (m : M A) : alike m → alike (map_err f m).
Proof.
  intros Hm w d Hd. unfold map_err. destruct (Hm w d Hd) as (d1 & -> & Hd1).
  destruct (m w) as [w1 [a|e]]; by exists d1.
Qed.

(** What a statement finds and writes is the same up to [same_usable]. *)
Definition same_result {A} (r r' : outcome (DB * A)) : Prop :=
  match r, r' with
  | Ok (d, a), Ok (d', a') => same_usable d d' ∧ a = a'
  | Err e, Err e' => e = e'
  | _, _ => False
  end.
Lemma alike_statement {A} (sql : DB → outcome (DB * A)) :
  (∀ d d', same_usable d d' → same_result (sql d) (sql d')) → alike (statement sql).
Proof.
  intros Hs w d Hd. specialize (Hs _ _ Hd). unfold statement, next_fault, same_result in *.
  destruct w as [d0 c ts en fs ms o]. simpl in *.
  destruct (match fs with f :: _ => f | [] => None end) as [f|];
    destruct (sql d0) as [[d1 a]|e], (sql d) as [[d2 a']|e']; try done; simpl in *.
  - destruct Hs as [? ->]. destruct (fault_applied f); [by exists d2|by exists d].
  - by exists d.
  - destruct Hs as [? ->]. by exists d2.
  - rewrite Hs. by exists d.
Qed.

(** A row that is not expired is in both tables. *)
Lemma purge_same_lookup {K A} `{Countable K} (expired : A → bool) (m m' : gmap K A) k a :
  purge expired m = purge expired m' → m !! k = Some a → expired a = false → m' !! k = Some a.
Proof.
  intros Hm Hk Ha. assert (Hp : purge expired m !! k = Some a) by (by rewrite purge_lookup, Hk, Ha).
  rewrite Hm, purge_lookup in Hp. destruct (m' !! k) as [b|]; [|done]. by destruct (expired b).
Qed.
Lemma purge_insert_expired {K A} `{Countable K} (expired : A → bool) (m : gmap K A) k a :
  expired a = true → purge expired (<[k := a]> m) = base.delete k (purge expired m).
Proof.
  intros Ha. apply map_eq. intros k'. rewrite purge_lookup. destruct (decide (k' = k)) as [->|].
  - by rewrite lookup_insert_eq, Ha, lookup_delete_eq.
  - by rewrite lookup_insert_ne, lookup_delete_ne, purge_lookup.
Qed.

Lemma usable_not_expired now r : t ≤ now → usable now r = true → expired_token t r = false.
Proof. unfold usable, expired_token. intros. bool_props. apply orb_false_iff. split; [by apply negb_false_iff|lia]. Qed.

Lemma consume_token_same digest now (m m' : gmap string (Z * Token)) :
  t ≤ now → purge (λ r, expired_token t r.2) m = purge (λ r, expired_token t r.2) m' →
  match consume_token digest now m, consume_token digest now m' with
  | Ok (n, r), Ok (n', r') => purge (λ r, expired_token t r.2) n = purge (λ r, expired_token t r.2) n' ∧ r = r'
  | Err e, Err e' => e = e'
  | _, _ => False
  end.
Proof.
  intros Ht Hm. unfold consume_token.
  assert (Hfound : ∀ (m m' : gmap string (Z * Token)) i r, purge (λ r, expired_token t r.2) m = purge (λ r, expired_token t r.2) m' →
    m !! digest = Some (i, r) → usable now r = true → m' !! digest = Some (i, r)).
  { intros m1 m2 i r Hp Hl Hu. eapply purge_same_lookup; [exact Hp|done|]. by apply (usable_not_expired now). }
  destruct (m !! digest) as [[i r]|] eqn:E; [destruct (usable now r) eqn:Eu|].
  - rewrite (Hfound m m' i r Hm E Eu), Eu. split; [|done]. by rewrite !purge_insert_expired, Hm.
  - destruct (m' !! digest) as [[i' r']|] eqn:E'; [|done]. destruct (usable now r') eqn:Eu'; [|done].
    rewrite (Hfound m' m i' r') in E by done. injection E as -> ->. congruence.
  - destruct (m' !! digest) as [[i' r']|] eqn:E'; [|done]. destruct (usable now r') eqn:Eu'; [|done].
    by rewrite (Hfound m' m i' r') in E by done.
Qed.

Lemma without_reset X s d :
  without_expired t (set_reset_tokens X s d) = set_reset_tokens (purge (λ r, expired_token t r.2) X) s (without_expired t d).
Proof. done. Qed.
Lemma without_email X s d :
  without_expired t (set_email_tokens X s d) = set_email_tokens (purge (λ r, expired_token t r.2) X) s (without_expired t d).
Proof. done. Qed.
Lemma without_states X d :
  without_expired t (set_oauth_states X d) = set_oauth_states (purge (expired_state t) X) (without_expired t d).
Proof. done. Qed.

Lemma consume_state_same digest now d d' :
  t ≤ now → same_usable d d' → same_result (consume_state digest now d) (consume_state digest now d').
Proof.
  intros Ht Hd. pose proof (f_equal oauth_states Hd) as Hs. simpl in Hs. unfold consume_state.
  assert (Hfound : ∀ (m m' : gmap string (OAuthState * option Z)) r, purge (expired_state t) m = purge (expired_state t) m' →
    m !! digest = Some (r, None) → (now <? state_ExpiresAt r) = true → m' !! digest = Some (r, None)).
  { intros m1 m2 r Hp Hl Hu. eapply purge_same_lookup; [exact Hp|done|]. unfold expired_state. simpl. bool_props. lia. }
  destruct (oauth_states d !! digest) as [[r [c|]]|] eqn:E; [|destruct (now <? state_ExpiresAt r) eqn:Eu|].
  2: { rewrite (Hfound _ _ r Hs E Eu), Eu. split; [|done]. unfold same_usable.
       by rewrite !without_states, !purge_insert_expired, Hs, Hd. }
  all: destruct (oauth_states d' !! digest) as [[r' [c'|]]|] eqn:E'; try done;
    destruct (now <? state_ExpiresAt r') eqn:Eu'; try done;
    rewrite (Hfound _ _ r' (eq_sym Hs)) in E by done; simplify_eq; congruence.
Qed.

Lemma consume_reset_same digest now d d' :
  t ≤ now → same_usable d d' → same_result (consume_reset digest now d) (consume_reset digest now d').
Proof.
  intros Ht Hd. pose proof (consume_token_same digest now _ _ Ht (f_equal reset_tokens Hd)) as Hc. unfold consume_reset, same_result.
  destruct (consume_token _ _ (reset_tokens d)) as [[n r]|], (consume_token _ _ (reset_tokens d')) as [[n' r']|]; try done.
  destruct Hc as [Hn ->]. split; [|done]. pose proof (f_equal tokens_seq Hd) as Hseq. simpl in Hseq.
  unfold same_usable. by rewrite !without_reset, Hn, Hd, Hseq.
Qed.
Lemma consume_email_same digest now d d' :
  t ≤ now → same_usable d d' → same_result (consume_email digest now d) (consume_email digest now d').
Proof.
  intros Ht Hd. pose proof (consume_token_same digest now _ _ Ht (f_equal email_tokens Hd)) as Hc. unfold consume_email, same_result.
  destruct (consume_token _ _ (email_tokens d)) as [[n r]|], (consume_token _ _ (email_tokens d')) as [[n' r']|]; try done.
  destruct Hc as [Hn ->]. split; [|done]. pose proof (f_equal tokens_seq Hd) as Hseq. simpl in Hseq.
  unfold same_usable. by rewrite !without_email, Hn, Hd, Hseq.
Qed.

(** C36. Removing the credentials expired or used at [t] is invisible: from
    then on consuming a confirmation link, a reset link or an OAuth state gives
    the same answer with and without the removed rows, failures included, and
    what it leaves differs again only in rows that the next cleanup removes. *)
Theorem cleanup_is_invisible now token :
  t ≤ now →
  (∀ d, same_usable d (without_expired t d)) ∧
  alike (ConsumeEmailConfirmationToken token now) ∧ alike (ConsumePasswordResetToken token now) ∧
  alike (ConsumeOAuthState token now).
Proof.
  intros Ht. split; [exact without_expired_same|].
  unfold ConsumeEmailConfirmationToken, ConsumePasswordResetToken, ConsumeOAuthState.
  split_and!; repeat first [apply alike_bind; [|intros ?] | apply alike_map_err | apply alike_lift
    | apply alike_statement; intros ? ? ?; by first [apply consume_email_same | apply consume_reset_same | apply consume_state_same]].
Qed.
End alike.
