(* ===== verification/Maintenance.v ===== *)
(** * The maintenance worker: internal/service/maintenance.go

    Named cleanup jobs, run in order, with the state of the last run kept per
    job.  The worker's state is threaded explicitly; the mutex and the log are
    not modelled.  The text of an error ([err.Error()]) is a parameter. *)
From S2P Require Export Retention AuditTrail.

Record MaintenanceJob := mkJob { job_Name : string; job_Run : option task }.

Record MaintenanceRun := mkRun {
  run_Job : string;
  run_StartedAt : Z;
  run_FinishedAt : Z;
  run_Deleted : Z;
  run_Err : string;
}.

Record MaintenanceStatus := mkStatus {
  status_Job : string;
  status_Runs : Z;
  status_Failures : Z;
  LastStartedAt : Z;
  LastFinishedAt : Z;
  LastDuration : Z;
  LastDeleted : Z;
  LastError : string;
}.

(** [MaintenanceWorker]; the jobs passed validation, so each has its task. *)
Record MaintenanceWorker := mkWorker {
  worker_jobs : list (string * task);
  worker_interval : Z;
  worker_order : list string;
  worker_status : gmap string MaintenanceStatus;
}.

Module Maintenance.

Definition MaintenanceJobGuestCleanup : string := "guest_cleanup".
Definition MaintenanceJobTokenRetention : string := "token_retention".
Definition MaintenanceJobLoginAttemptRetention : string := "login_attempt_retention".
Definition MaintenanceJobUsageRetention : string := "usage_retention".
Definition MaintenanceJobRateLimitRetention : string := "rate_limit_retention".
Definition DefaultMaintenanceInterval : Z := 6 * 3600 * second.
Definition maxMaintenanceJobName : Z := 64.

Definition Failed (r : MaintenanceRun) : bool := negb (String.eqb (run_Err r) "").

Definition validateMaintenanceJob (job : MaintenanceJob) : outcome task :=
  match job_Run job with
  | None => Err ErrInvalidMaintenanceJob
  | Some run =>
    if String.eqb (job_Name job) "" || (maxMaintenanceJobName <? len (job_Name job))
       || negb (printable (job_Name job))
    then Err ErrInvalidMaintenanceJob else Ok run
  end.

Definition new_status (name : string) : MaintenanceStatus := mkStatus name 0 0 0 0 0 0 "".

(** The loop of [NewMaintenanceWorker] over the jobs. *)
Fixpoint register (jobs : list MaintenanceJob) (w : MaintenanceWorker) : outcome MaintenanceWorker :=
  match jobs with
  | [] => Ok w
  | job :: jobs =>
    match validateMaintenanceJob job with
    | Err e => Err e
    | Ok run =>
      match worker_status w !! job_Name job with
      | Some _ => Err ErrInvalidMaintenanceJob
      | None => register jobs
          (mkWorker (worker_jobs w ++ [(job_Name job, run)]) (worker_interval w)
             (worker_order w ++ [job_Name job])
             (<[job_Name job := new_status (job_Name job)]> (worker_status w)))
      end
    end
  end.
Definition NewMaintenanceWorker (interval : Z) (jobs : list MaintenanceJob) : outcome MaintenanceWorker :=
  let interval := if interval <=? 0 then DefaultMaintenanceInterval else interval in
  match register jobs (mkWorker [] interval [] ∅) with
  | Ok w => if is_nil (head (worker_jobs w)) then Err ErrInvalidMaintenanceConfig else Ok w
  | Err e => Err e
  end.

Definition Jobs (w : MaintenanceWorker) : list string := worker_order w.

(** [time.Time.Sub], which saturates. *)
Definition Sub (a b : Z) : Z := Z.max min_int64 (Z.min max_int64 (a - b)).

(** What [record] makes of the retained state of a job. *)
Definition recorded (r : MaintenanceRun) (duration : Z) (s : MaintenanceStatus) : MaintenanceStatus :=
  mkStatus (status_Job s) (status_Runs s + 1) (status_Failures s + if Failed r then 1 else 0)
    (run_StartedAt r) (run_FinishedAt r) duration (run_Deleted r) (run_Err r).
Definition record (r : MaintenanceRun) (duration : Z) (w : MaintenanceWorker) : MaintenanceWorker :=
  match worker_status w !! run_Job r with
  | Some s => mkWorker (worker_jobs w) (worker_interval w) (worker_order w)
                (<[run_Job r := recorded r duration s]> (worker_status w))
  | None => mkWorker (worker_jobs w) (worker_interval w) (worker_order w ++ [run_Job r])
              (<[run_Job r := recorded r duration (new_status (run_Job r))]> (worker_status w))
  end.

(** [Status]: the retained state in the order of the jobs. *)
Definition Status (w : MaintenanceWorker) : list MaintenanceStatus :=
  omap (λ name, worker_status w !! name) (worker_order w).

Section run.
Context (Error : error → string).

Definition safeMaintenanceError (e : option error) : string :=
  match e with
  | None => ""
  | Some e => let message := Error e in
              if maxAuditDetailLength <? len message
              then substring 0 (Z.to_nat maxAuditDetailLength) message else message
  end.

(** A task always answers. *)
Definition run_task (t : task) : M (Z * option error) := λ w, let (w', r) := t w in (w', Ok r).

Definition runJob (job : string * task) (w : MaintenanceWorker) : M (MaintenanceRun * MaintenanceWorker) :=
  let! startedAt := time_Now in
  let! (deleted, err) := run_task job.2 in
  let! finishedAt := time_Now in
  let run := mkRun job.1 (Unix startedAt) (Unix finishedAt) deleted (safeMaintenanceError err) in
  ret (run, record run (Sub finishedAt startedAt) w).

Fixpoint run_jobs (jobs : list (string * task)) (w : MaintenanceWorker) (runs : list MaintenanceRun)
  : M (list MaintenanceRun * MaintenanceWorker) :=
  match jobs with
  | [] => ret (runs, w)
  | job :: jobs => let! (run, w) := runJob job w in run_jobs jobs w (runs ++ [run])
  end.
Definition RunOnce (w : MaintenanceWorker) : M (list MaintenanceRun * MaintenanceWorker) :=
  run_jobs (worker_jobs w) w [].

Definition RunJob (name : string) (w : MaintenanceWorker) : M (MaintenanceRun * MaintenanceWorker) :=
  match List.find (λ job, String.eqb job.1 name) (worker_jobs w) with
  | Some job => runJob job w
  | None => throw ErrUnknownMaintenanceJob
  end.

(** [Run] until the context ends after the given number of ticks. *)
Fixpoint run_ticks (ticks : nat) (w : MaintenanceWorker) : M MaintenanceWorker :=
  match ticks with
  | O => ret w
  | S ticks => let! (_, w) := RunOnce w in run_ticks ticks w
  end.
Definition Run (ticks : nat) (w : MaintenanceWorker) : M MaintenanceWorker :=
  let! (_, w) := RunOnce w in run_ticks ticks w.
End run.

(** ** The worker *)

(** One status per job, under its name, in the order of registration. *)
Record worker_wf (w : MaintenanceWorker) : Prop := {
  wf_order : worker_order w = (worker_jobs w).*1;
  wf_nodup : NoDup (worker_order w);
  wf_status : ∀ n, is_Some (worker_status w !! n) ↔ n ∈ worker_order w;
  wf_names : ∀ n s, worker_status w !! n = Some s → status_Job s = n;
}.

Lemma register_wf jobs : ∀ w w', register jobs w = Ok w' → worker_wf w → worker_wf w'.
Proof.
  induction jobs as [|job jobs IH]; simpl; intros w w' Hr Hwf; [by injection Hr as <-|].
  destruct (validateMaintenanceJob job) as [t|]; [|done].
  destruct (worker_status w !! job_Name job) eqn:E; [done|]. apply IH in Hr; [done|].
  destruct Hwf as [Ho Hn Hs Hj]. split; simpl.
  - by rewrite fmap_app, Ho.
  - apply NoDup_app. split_and!; [done| |by apply NoDup_singleton].
    intros n Hin ->%list_elem_of_singleton. apply Hs in Hin as [s Hin]. congruence.
  - intros n. rewrite elem_of_app, list_elem_of_singleton, lookup_insert_is_Some', Hs.
    split; (intros [?|?]; [right; congruence|by left]).
  - intros n s Hl. apply lookup_insert_Some in Hl as [[<- <-]|[_ Hl]]; [done|by apply Hj].
Qed.

Lemma NewMaintenanceWorker_wf interval jobs w :
  NewMaintenanceWorker interval jobs = Ok w → worker_wf w ∧ worker_jobs w ≠ [].
Proof.
  unfold NewMaintenanceWorker. destruct (register _ _) as [w1|] eqn:E; [|done].
  destruct (worker_jobs w1) eqn:Ej; simpl; [done|]. intros [= <-]. rewrite Ej. split; [|done].
  eapply register_wf; [done|]. split; simpl; [done|by constructor| |by intros ?? ?%lookup_empty_Some].
  intros n. split; [by intros [? ?%lookup_empty_Some]|by intros ?%not_elem_of_nil].
Qed.

(** Every registered job comes from the list, under its name. *)
Lemma register_jobs jobs : ∀ w w' name t, register jobs w = Ok w' →
  (name, t) ∈ worker_jobs w' → (name, t) ∈ worker_jobs w ∨ mkJob name (Some t) ∈ jobs.
Proof.
  induction jobs as [|[n r] jobs IH]; simpl; intros w w' name t Hr Hin; [injection Hr as <-; by left|].
  destruct (validateMaintenanceJob _) as [t0|] eqn:Ev; [|done].
  destruct (worker_status w !! n) eqn:En; [done|]. destruct (IH _ _ _ _ Hr Hin) as [Hw|Hj]; [|right; by right].
  simpl in Hw. apply elem_of_app in Hw as [Hw|Hw%list_elem_of_singleton]; [by left|].
  right. injection Hw as -> ->. unfold validateMaintenanceJob in Ev. simpl in Ev.
  destruct r; [|done]. case_match; [done|]. injection Ev as ->. by left.
Qed.

Lemma NewMaintenanceWorker_jobs interval jobs w name t :
  NewMaintenanceWorker interval jobs = Ok w → (name, t) ∈ worker_jobs w → mkJob name (Some t) ∈ jobs.
Proof.
  unfold NewMaintenanceWorker. destruct (register _ _) as [w1|] eqn:E; [|done]. destruct (is_nil _); [done|].
  intros [= <-] Hin. by destruct (register_jobs _ _ _ _ _ E Hin) as [?%not_elem_of_nil|].
Qed.

Lemma record_keeps r d w :
  is_Some (worker_status w !! run_Job r) → worker_wf w →
  worker_wf (record r d w) ∧ worker_jobs (record r d w) = worker_jobs w ∧
  (∃ s, worker_status w !! run_Job r = Some s ∧ worker_status (record r d w) !! run_Job r = Some (recorded r d s)) ∧
  ∀ n, n ≠ run_Job r → worker_status (record r d w) !! n = worker_status w !! n.
Proof.
  intros [s Hs] [Ho Hn Hd Hj]. unfold record. rewrite Hs. split_and!; simpl.
  - split; simpl; [done|done| |].
    + intros n. rewrite lookup_insert_is_Some', <- Hd. split; [|by right]. by intros [<-|?].
    + intros n s' Hl. apply lookup_insert_Some in Hl as [[<- <-]|[_ Hl]]; [exact (Hj _ _ Hs)|by apply Hj].
  - done.
  - exists s. by rewrite lookup_insert_eq.
  - intros n Hne. by rewrite lookup_insert_ne.
Qed.

Section run_once.
Context (Error : error → string).

(** The outcome [r] reports what the job's task answered. *)
Definition reports (job : string * task) (r : MaintenanceRun) : Prop :=
  run_Job r = job.1 ∧ len (run_Err r) ≤ maxAuditDetailLength ∧
  ∃ w1 w2 n e, job.2 w1 = (w2, (n, e)) ∧ run_Deleted r = n ∧ run_Err r = safeMaintenanceError Error e.

(** Between [w] and [w'] the status of the job of each run was updated by it. *)
Definition updated (w w' : MaintenanceWorker) (r : MaintenanceRun) : Prop :=
  ∃ s d, worker_status w !! run_Job r = Some s ∧ worker_status w' !! run_Job r = Some (recorded r d s).

Lemma substring_length n s : (String.length (substring 0 n s) ≤ n)%nat.
Proof. revert n. induction s as [|c s IH]; intros [|n]; simpl; try lia. specialize (IH n). lia. Qed.

Lemma safeMaintenanceError_length e : len (safeMaintenanceError Error e) ≤ maxAuditDetailLength.
Proof.
  unfold safeMaintenanceError. destruct e as [e|]; [|done]. case_match eqn:E; [|lia].
  unfold len. pose proof (substring_length (Z.to_nat maxAuditDetailLength) (Error e)).
  unfold maxAuditDetailLength in *. lia.
Qed.

Lemma runJob_ok job w world : ∃ world' r d, runJob Error job w world = (world', Ok (r, record r d w)) ∧ reports job r.
Proof.
  unfold runJob, bind, run_task, time_Now, ret. simpl. destruct (job.2 _) as [w2 [n e]] eqn:E.
  eexists _, _, _. split; [reflexivity|]. split; [done|]. split; [apply safeMaintenanceError_length|].
  by eexists _, w2, n, e.
Qed.

Lemma run_jobs_ok jobs : ∀ w world acc,
  worker_wf w → NoDup jobs.*1 → (∀ n, n ∈ jobs.*1 → is_Some (worker_status w !! n)) →
  ∃ world' runs w', run_jobs Error jobs w acc world = (world', Ok (acc ++ runs, w')) ∧
    worker_wf w' ∧ worker_jobs w' = worker_jobs w ∧ Forall2 reports jobs runs ∧ Forall (updated w w') runs ∧
    ∀ n, n ∉ jobs.*1 → worker_status w' !! n = worker_status w !! n.
Proof.
  induction jobs as [|job jobs IH]; intros w world acc Hwf Hnd Hst; simpl.
  { eexists _, [], w. rewrite app_nil_r. by split_and!. }
  apply NoDup_cons in Hnd as [Hni Hnd].
  destruct (runJob_ok job w world) as (world1 & r & d & Hrun & Hrep). pose proof Hrep as [Hj _].
  destruct (record_keeps r d w) as (Hwf1 & Hjobs1 & (s & Hs & Hs1) & Hother); [rewrite Hj; apply Hst; by left|done|].
  destruct (IH (record r d w) world1 (acc ++ [r])) as (world' & runs & w' & Hrest & Hwf' & Hjobs' & Hreps & Hups & Hsame).
  { done. } { done. }
  { intros n Hn. rewrite Hother; [apply Hst; by right|]. rewrite Hj. by intros ->. }
  exists world', (r :: runs), w'. unfold bind. rewrite Hrun, Hrest, <- app_assoc. split_and!; try done.
  - by rewrite Hjobs', Hjobs1.
  - by constructor.
  - constructor.
    + exists s, d. split; [done|]. rewrite Hsame by (by rewrite Hj). done.
    + rewrite Forall_forall in Hups |- *. intros x Hx. destruct (Hups x Hx) as (sx & dx & Hsx & Hsx').
      assert (Hin : run_Job x ∈ jobs.*1).
      { clear -Hreps Hx. induction Hreps as [|jb y jbs ys [Hy _] _ IHr]; [by apply elem_of_nil in Hx|].
        apply elem_of_cons in Hx as [->|Hx]; simpl; [rewrite Hy; by left|right; by apply IHr]. }
      exists sx, dx. split; [|done]. rewrite Hother in Hsx; [done|]. rewrite Hj. by intros E; rewrite E in Hin.
  - intros n Hn. apply not_elem_of_cons in Hn as [Hn1 Hn2]. rewrite Hsame by done. apply Hother. by rewrite Hj.
Qed.

(** C35. One pass of the worker always ends and runs every job once, in the
    order of registration, however many of them fail: each outcome reports what
    its task answered, with an error text of at most a thousand bytes, and the
    retained state of each job counts the run and, if it failed, the failure. *)
Theorem run_once_runs_every_job w world :
  worker_wf w →
  ∃ world' runs w', RunOnce Error w world = (world', Ok (runs, w')) ∧ worker_wf w' ∧
    worker_jobs w' = worker_jobs w ∧ run_Job <$> runs = Jobs w ∧
    Forall2 reports (worker_jobs w) runs ∧ Forall (updated w w') runs ∧
    status_Job <$> Status w' = Jobs w.
Proof.
  intros Hwf. destruct (run_jobs_ok (worker_jobs w) w world []) as (world' & runs & w' & Hr & Hwf' & Hj & Hrep & Hup & _).
  { done. } { rewrite <- (wf_order w Hwf). apply (wf_nodup w Hwf). }
  { intros n. rewrite <- (wf_order w Hwf). apply (wf_status w Hwf). }
  exists world', runs, w'. split_and!; try done.
  - unfold Jobs. rewrite (wf_order w Hwf). clear -Hrep.
    induction Hrep as [|job r jobs rs [Hr _] _ IH]; [done|]. rewrite !fmap_cons. by rewrite Hr, IH.
  - unfold Jobs, Status. assert (Ho : worker_order w' = worker_order w).
    { by rewrite (wf_order w Hwf), (wf_order w' Hwf'), Hj. }
    rewrite Ho. assert (Hall : ∀ n, n ∈ worker_order w → is_Some (worker_status w' !! n)).
    { intros n Hn. apply (wf_status w' Hwf'). by rewrite Ho. }
    clear -Hall Hwf'. induction (worker_order w) as [|n ns IH]; [done|]. cbn [omap list_omap].
    destruct (Hall n) as [s Hs]; [by left|]. rewrite Hs, fmap_cons.
    rewrite (wf_names w' Hwf' _ _ Hs). f_equal. apply IH. intros m Hm. apply Hall. by right.
Qed.
End run_once.
End Maintenance.
