(* ===== verification/AdminStore.v ===== *)
(** * Administrator lists: the queries and their storage

    AdminUserQuery and AuditQuery of internal/service/admin_accounts.go and
    audit.go, and the lists of internal/store/postgres/admin_users.go,
    login_attempts.go and audit.go. *)
From S2P Require Export UserStore OAuthStore AuditTrail.
Import UserRepository.

Definition DefaultAdminPageSize : Z := 20.
Definition MaxAdminPageSize : Z := 100.
Definition MaxAdminPage : Z := 1000000.
Definition maxAdminSearchLength : Z := 255.
Definition DefaultAuditPageSize : Z := 20.
Definition MaxAuditPageSize : Z := 100.
Definition MaxAdminLoginAttempts : Z := 50.

Record AdminUserQuery := mkUserQuery {
  query_Search : string; query_Admin : string; query_Guest : string; query_Confirmed : string;
  query_Sort : string; query_Direction : string; query_Page : Z; query_Size : Z }.
Record AdminUserPage := mkUserPage {
  page_Users : list User; page_Total : Z; page_Page : Z; page_Size : Z; page_Pages : Z }.
Record AuditQuery := mkAuditQuery {
  audit_query_Action : string; audit_query_Actor : string; audit_query_Target : string;
  audit_query_Page : Z; audit_query_Size : Z }.
Record AuditPage := mkAuditPage {
  audit_page_Entries : list AuditEntry; audit_page_Total : Z; audit_page_Page : Z;
  audit_page_Size : Z; audit_page_Pages : Z }.

(** ** Query values *)

(** [strings.ReplaceAll(s, "\x00", "")]. *)
Fixpoint drop_nul (s : string) : string :=
  match s with
  | EmptyString => ""
  | String c s => if Ascii.eqb c (ascii_of_nat 0) then drop_nul s else String c (drop_nul s)
  end.
Definition normalizeAdminSearch (raw : string) : string :=
  let trimmed := drop_nul (TrimSpace raw) in
  if RuneCountInString trimmed <=? maxAdminSearchLength then trimmed
  else encode_runes (take (Z.to_nat maxAdminSearchLength) (runes trimmed)).

(** [AdminSearchPattern]: LIKE wildcards escaped, between [%]. *)
Fixpoint escape_like (s : string) : string :=
  match s with
  | EmptyString => ""
  | String c s =>
    if Ascii.eqb c "\" || Ascii.eqb c "%" || Ascii.eqb c "_"
    then String "\" (String c (escape_like s)) else String c (escape_like s)
  end.
Definition AdminSearchPattern (search : string) : string := "%" +:+ escape_like search +:+ "%".

Definition adminPageCount (total size : Z) : Z :=
  if (total <=? 0) || (size <=? 0) then 0 else Z.quot (total + size - 1) size.

Section queries.
Context `{Unicode}.

Definition normalizeAdminTriState (raw : string) : string :=
  let v := ToLower (TrimSpace raw) in
  if String.eqb v "yes" then "yes" else if String.eqb v "no" then "no" else "".
Definition normalizeAdminSort (raw : string) : string :=
  let v := ToLower (TrimSpace raw) in
  if existsb (String.eqb v) ["id"; "email"; "username"; "display_name"] then v else "created_at".
Definition normalizeAdminDirection (raw sort : string) : string :=
  let v := ToLower (TrimSpace raw) in
  if String.eqb v "asc" then "asc" else if String.eqb v "desc" then "desc"
  else if String.eqb sort "created_at" || String.eqb sort "id" then "desc" else "asc".

Definition Normalize (q : AdminUserQuery) : AdminUserQuery :=
  let sort := normalizeAdminSort (query_Sort q) in
  let size := if query_Size q <? 1 then DefaultAdminPageSize else query_Size q in
  mkUserQuery (normalizeAdminSearch (query_Search q)) (normalizeAdminTriState (query_Admin q))
    (normalizeAdminTriState (query_Guest q)) (normalizeAdminTriState (query_Confirmed q))
    sort (normalizeAdminDirection (query_Direction q) sort)
    (Z.min (Z.max (query_Page q) 1) MaxAdminPage)
    (if MaxAdminPageSize <? size then MaxAdminPageSize else size).

Definition Offset (q : AdminUserQuery) : Z :=
  if query_Page q <? 1 then 0 else wrap64 ((Z.min (query_Page q) MaxAdminPage - 1) * query_Size q).

Definition AuditNormalize (q : AuditQuery) : AuditQuery :=
  let size := if audit_query_Size q <? 1 then DefaultAuditPageSize else audit_query_Size q in
  mkAuditQuery (normalizeAdminSearch (audit_query_Action q)) (normalizeAdminSearch (audit_query_Actor q))
    (normalizeAdminSearch (audit_query_Target q)) (Z.min (Z.max (audit_query_Page q) 1) MaxAdminPage)
    (if MaxAuditPageSize <? size then MaxAuditPageSize else size).
Definition AuditOffset (q : AuditQuery) : Z :=
  if audit_query_Page q <? 1 then 0
  else wrap64 ((Z.min (audit_query_Page q) MaxAdminPage - 1) * audit_query_Size q).
End queries.

(** ** LIKE *)

(** PostgreSQL's LIKE on characters: [%] any sequence, [_] any character, [\]
    takes the next character literally. *)
Fixpoint like (pattern : list Z) : list Z → bool :=
  match pattern with
  | [] => λ s, match s with [] => true | _ => false end
  | 37 :: pattern =>
    fix any (s : list Z) : bool := like pattern s || match s with [] => false | _ :: s => any s end
  | 95 :: pattern => λ s, match s with [] => false | _ :: s => like pattern s end
  | 92 :: c :: pattern => λ s, match s with d :: s => (c =? d) && like pattern s | [] => false end
  | c :: pattern => λ s, match s with d :: s => (c =? d) && like pattern s | [] => false end
  end.
(** ILIKE compares after folding case with the database's [lower]. *)
Definition ilike `{Postgres} (value pattern : string) : bool :=
  like (runes (sql_lower pattern)) (runes (sql_lower value)).
Definition ilike_opt `{Postgres} (value : option string) (pattern : string) : bool :=
  match value with Some v => ilike v pattern | None => false end.

(** Rows newest first get descending identity values. *)
Fixpoint number_rows {A} (rows : list A) : list (Z * A) :=
  match rows with [] => [] | r :: rows => (Z.of_nat (length rows) + 1, r) :: number_rows rows end.

(** [LIMIT n OFFSET m]. *)
Definition page_of {A} (size offset : Z) (rows : list A) : list A :=
  take (Z.to_nat size) (drop (Z.to_nat offset) rows).

Module AdminUserRepository.
Section list.
Context `{Unicode, Postgres}.

(** [adminUserConditions]. *)
Definition matches (q : AdminUserQuery) (u : User) : bool :=
  let pattern := AdminSearchPattern (query_Search q) in
  (String.eqb (query_Search q) ""
   || ilike_opt (user_Email u) pattern || ilike_opt (user_Username u) pattern
   || ilike_opt (user_DisplayName u) pattern)
  && (if String.eqb (query_Admin q) "yes" then user_IsAdmin u
      else if String.eqb (query_Admin q) "no" then negb (user_IsAdmin u) else true)
  && (if String.eqb (query_Guest q) "yes" then user_IsGuest u
      else if String.eqb (query_Guest q) "no" then negb (user_IsGuest u) else true)
  && (if String.eqb (query_Confirmed q) "yes" then negb (is_nil (user_EmailVerifiedAt u))
      else if String.eqb (query_Confirmed q) "no" then is_nil (user_EmailVerifiedAt u) else true).

(** [adminUserOrderBy]: NULLS LAST in both directions, ties by id. *)
Definition text_before (desc : bool) (a b : option string) : option bool :=
  match a, b with
  | Some a, Some b =>
    match sql_text_compare a b with Lt => Some (negb desc) | Gt => Some desc | Eq => None end
  | Some _, None => Some true
  | None, Some _ => Some false
  | None, None => None
  end.
Definition number_before (desc : bool) (a b : Z) : bool := if desc then b <=? a else a <=? b.
Definition before (q : AdminUserQuery) (a b : User) : bool :=
  let desc := String.eqb (query_Direction q) "desc" in
  let by_text column := match text_before desc (column a) (column b) with
                        | Some r => r | None => user_ID a <=? user_ID b end in
  if String.eqb (query_Sort q) "id" then number_before desc (user_ID a) (user_ID b)
  else if String.eqb (query_Sort q) "email" then by_text user_Email
  else if String.eqb (query_Sort q) "username" then by_text user_Username
  else if String.eqb (query_Sort q) "display_name" then by_text user_DisplayName
  else if user_CreatedAt a =? user_CreatedAt b then number_before desc (user_ID a) (user_ID b)
  else number_before desc (user_CreatedAt a) (user_CreatedAt b).
Definition before_rel q : relation User := λ a b, before q a b = true.
#[global] Instance before_rel_dec q : RelDecision (before_rel q) := λ a b, decide (before q a b = true).

Definition select_matching (q : AdminUserQuery) (d : DB) : list User :=
  filter (λ u, matches q u = true) (snd <$> map_to_list (users d)).
Definition scan_all (rows : list User) : outcome (list User) :=
  if forallb (λ u, match scanUser u with Ok _ => true | Err _ => false end) rows
  then Ok rows else Err ErrInvalidData.

Definition ListUsers (q : AdminUserQuery) : M AdminUserPage :=
  let q := Normalize q in
  let! total := map_err ClassifyError (query (λ d, with_params [query_Search q] (Z.of_nat (length (select_matching q d))))) in
  let! rows := map_err ClassifyError
    (query (λ d, with_params [query_Search q]
              (page_of (query_Size q) (Offset q) (merge_sort (before_rel q) (select_matching q d))))) in
  let! users := map_err ClassifyError (lift (scan_all rows)) in
  ret (mkUserPage users total (query_Page q) (query_Size q) 0).
End list.
End AdminUserRepository.

Module AdminHistory.
(** [ORDER BY created_at DESC, id DESC]. *)
Definition newer {A} (at_ : A → Z) : relation (Z * A) :=
  λ a b, at_ b.2 < at_ a.2 ∨ (at_ b.2 = at_ a.2 ∧ b.1 ≤ a.1).
#[global] Instance newer_dec {A} (at_ : A → Z) : RelDecision (newer at_).
Proof. intros a b. unfold newer. apply _. Defined.
Definition newest_first {A} (at_ : A → Z) (rows : list A) : list A :=
  snd <$> merge_sort (newer at_) (number_rows rows).

Definition bounded_limit (limit : Z) : Z :=
  if (limit <=? 0) || (MaxAdminLoginAttempts <? limit) then MaxAdminLoginAttempts else limit.

Definition scan_attempts (rows : list LoginAttempt) : outcome (list LoginAttempt) :=
  if forallb (λ a, negb (String.eqb (attempt_Email a) "" || String.eqb (attempt_Outcome a) "")) rows
  then Ok rows else Err ErrInvalidData.

Definition attempts_where (P : LoginAttempt → bool) (limit : Z) (d : DB) : list LoginAttempt :=
  page_of (bounded_limit limit) 0 (newest_first attempt_CreatedAt (filter (λ a, P a = true) (login_attempts d))).

Definition ListLoginAttemptsForUser (userID limit : Z) : M (list LoginAttempt) :=
  guard (userID <=? 0) ErrInvalidUserID ;;;
  let! rows := map_err (wrapOperation "list login attempts")
    (query (λ d, Ok (attempts_where (λ a, bool_decide (attempt_UserID a = Some userID)) limit d))) in
  lift (scan_attempts rows).

Definition ListLoginAttemptsForEmail (email : string) (limit : Z) : M (list LoginAttempt) :=
  guard (String.eqb email "") ErrInvalidData ;;;
  let! rows := map_err (wrapOperation "list login attempts by email")
    (query (λ d, Ok (attempts_where (λ a, String.eqb (attempt_Email a) email) limit d))) in
  lift (scan_attempts rows).

Section audit.
Context `{Unicode, Postgres}.

(** [auditConditions]. *)
Definition audit_matches (q : AuditQuery) (e : AuditEntry) : bool :=
  (String.eqb (audit_query_Action q) "" || ilike (audit_Action e) (AdminSearchPattern (audit_query_Action q)))
  && (String.eqb (audit_query_Actor q) "" || ilike_opt (audit_ActorEmail e) (AdminSearchPattern (audit_query_Actor q)))
  && (String.eqb (audit_query_Target q) ""
      || ilike_opt (audit_TargetID e) (AdminSearchPattern (audit_query_Target q))
      || ilike_opt (audit_TargetType e) (AdminSearchPattern (audit_query_Target q))).

(** [scanAuditEntries], [scanAuditEntry]. *)
Definition scan_entries (rows : list AuditEntry) : outcome (list AuditEntry) :=
  if forallb (λ e, negb (String.eqb (audit_Action e) "" || (audit_OccurredAt e <=? 0))) rows
  then Ok rows else Err ErrInvalidData.

Definition audit_params (q : AuditQuery) : list string :=
  [audit_query_Action q; audit_query_Actor q; audit_query_Target q].
Definition ListAuditEntries (q : AuditQuery) : M AuditPage :=
  let q := AuditNormalize q in
  let select d := filter (λ e, audit_matches q e = true) (audit_log d) in
  let! total := map_err (wrapOperation "count audit entries") (query (λ d, with_params (audit_params q) (Z.of_nat (length (select d))))) in
  let! rows := map_err (wrapOperation "list audit entries")
    (query (λ d, with_params (audit_params q)
              (page_of (audit_query_Size q) (AuditOffset q) (newest_first audit_OccurredAt (select d))))) in
  let! entries := lift (scan_entries rows) in
  ret (mkAuditPage entries total (audit_query_Page q) (audit_query_Size q) 0).

(** [AuditService.List]. *)
Definition AuditList (q : AuditQuery) : M AuditPage :=
  let normalized := AuditNormalize q in
  let! page := ListAuditEntries normalized in
  let size := if audit_page_Size page <? 1 then audit_query_Size normalized else audit_page_Size page in
  let number := if audit_page_Page page <? 1 then audit_query_Page normalized else audit_page_Page page in
  ret (mkAuditPage (audit_page_Entries page) (audit_page_Total page) number size
         (adminPageCount (audit_page_Total page) size)).
End audit.
End AdminHistory.
