(* ===== verification/Guests.v ===== *)
(** * Guest accounts: internal/service/guest.go, guest_claim.go, guest_redeem.go,
    guest_upgrade.go and guest_rate_limit.go *)
From S2P Require Export SignIn GuestStore.
Import UserRepository Sessions GuestClaimCodeRepository.

Record GuestSessionResult := mkGuestResult { guest_User : User; guest_Session : Session }.
Record GuestUpgradeInput := mkUpgradeInput { upgrade_Email : string; upgrade_Password : string }.
Record GuestUpgradeResult := mkUpgradeResult { upgraded_User : User; upgraded_Session : Session }.

(** [n] characters of an alphabet, as [rand.Int] draws them one by one:
    [newGuestClaimCode] and [newGroupInviteCode]. *)
Fixpoint random_code (n : nat) (alphabet : string) (unavailable : error) : M string :=
  match n with
  | O => ret ""
  | S n =>
    let! value := rand_Int (len alphabet) unavailable in
    let! rest := random_code n alphabet unavailable in
    ret (match String.get (Z.to_nat value) alphabet with
         | Some c => String c rest
         | None => rest
         end)
  end.

Module Guests.
Section guests.
Context `{Unicode, MailParser, Postgres, Crypto, PasswordHashing}.

(** ** GuestService *)

Definition guestUsernameBytes : nat := 8.

Definition guest_user (username theme : string) (createdAt : Z) : User :=
  mkUser 0 None None (optionalNormalized username) None true false theme defaultUserLocale createdAt None 0.

Definition createWithTheme (username theme : string) : M User :=
  let! theme := lift (normalizeTheme theme) in
  let! username := (if String.eqb username "" then ret ""
                    else map_err (Join ErrInvalidGuestCreation) (lift (NormalizeUsername username))) in
  let! createdAt := unix_now in
  let! created := map_err (Errorf "create guest user") (CreateUser (guest_user username theme createdAt)) in
  guard ((user_ID created <=? 0) || negb (user_IsGuest created) || negb (is_nil (user_Email created))
         || negb (is_nil (user_PasswordHash created)) || negb (is_nil (user_EmailVerifiedAt created)))
    ErrInvalidCreatedGuest ;;;
  ret (with_PasswordHash None created).
Definition GuestCreate : M User := createWithTheme "" defaultUserTheme.

Definition newGuestUsername : M string :=
  let! value := rand_Read guestUsernameBytes (Errorf "random source unavailable" ErrGuestUsernameGeneration) in
  ret ("guest-" +:+ hex_encode value).

(** ** GuestSessionService *)
Section sessions.
Context (sessions : SessionService).

Definition CreateWithTheme (theme : string) : M GuestSessionResult :=
  let! username := newGuestUsername in
  let! user := createWithTheme username theme in
  let! session := map_err (Errorf "create guest session") (Create sessions (user_ID user)) in
  ret (mkGuestResult user session).
Definition GuestSessionCreate : M GuestSessionResult := CreateWithTheme defaultUserTheme.

(** ** GuestRedemptionService *)
Definition Redeem (rawCode : string) : M GuestSessionResult :=
  let! code := lift (normalizeGuestClaimCode rawCode) in
  let! claim := map_err (λ e, if errors_Is e ErrGuestClaimCodeNotFound then Sentinel ErrInvalidGuestClaimCode
                              else Errorf "find guest claim code" e) (FindGuestClaimCodeByCode code) in
  guard (negb (String.eqb (claim_Code claim) code) || (claim_UserID claim <=? 0)
         || negb (is_nil (claim_RevokedAt claim))) ErrInvalidGuestClaimCode ;;;
  let! user := map_err (λ e, if errors_Is e ErrUserNotFound then Sentinel ErrInvalidGuestClaimCode
                             else Errorf "find guest for claim redemption" e) (FindUserByID (claim_UserID claim)) in
  guard (negb (user_ID user =? claim_UserID claim) || negb (user_IsGuest user)
         || negb (is_nil (user_Email user)) || negb (is_nil (user_PasswordHash user)))
    ErrInvalidGuestClaimCode ;;;
  let! session := map_err (Errorf "create redeemed guest session") (Create sessions (user_ID user)) in
  let! now := unix_now in
  let! marked := attempt (MarkGuestClaimCodeUsed code now) in
  match marked with
  | Ok _ => ret (mkGuestResult user session)
  | Err e =>
    let! revoked := attempt (Revoke (session_ID session)) in
    match revoked with
    | Err revokeErr => throw (Join (Errorf "mark guest claim code used" e)
                                   (Errorf "revoke redeemed guest session" revokeErr))
    | Ok _ => throw (Errorf "mark guest claim code used" e)
    end
  end.

(** ** GuestUpgradeService *)
Definition rejectUpgradeEmail (email : string) : M unit :=
  let! r := attempt (FindUserByEmail email) in
  match r with
  | Err e => if errors_Is e ErrUserNotFound then ret tt else throw (Errorf "check guest upgrade email" e)
  | Ok existing => guard (0 <? user_ID existing) ErrDuplicateEmail
  end.

Definition upgraded (email passwordHash : string) (user : User) : User :=
  with_EmailVerifiedAt None (with_IsGuest false
    (with_PasswordHash (Some passwordHash) (with_Email (Some email) user))).

Definition Upgrade (userID : Z) (input : GuestUpgradeInput) : M GuestUpgradeResult :=
  guard (userID <=? 0) ErrInvalidUserID ;;;
  let! email := map_err (λ _, Join ErrInvalidGuestUpgrade ErrInvalidEmail) (lift (NormalizeEmail (upgrade_Email input))) in
  guard (String.eqb email "") (Join ErrInvalidGuestUpgrade ErrInvalidEmail) ;;;
  map_err (Errorf "validate guest upgrade password") (lift (ValidatePassword (upgrade_Password input))) ;;;
  let! user := map_err (Errorf "find guest for upgrade") (FindUserByID userID) in
  guard (negb (user_ID user =? userID) || negb (user_IsGuest user)) ErrGuestUpgradeRequiresGuest ;;;
  rejectUpgradeEmail email ;;;
  let! passwordHash := map_err (Errorf "hash guest upgrade password") (Hash (upgrade_Password input)) in
  let! now := unix_now in
  map_err (Errorf "revoke guest claim code") (RevokeGuestClaimCode userID now) ;;;
  let! updated := map_err (Errorf "update upgraded user")
    (UpdateUser (upgraded email passwordHash user) (user_Version user)) in
  guard (negb (user_ID updated =? userID) || user_IsGuest updated || is_nil (user_Email updated)
         || is_nil (user_PasswordHash updated)) ErrInvalidUpgradedUser ;;;
  map_err (Errorf "revoke guest sessions after upgrade") (RevokeUser sessions userID) ;;;
  let! session := map_err (Errorf "create session after guest upgrade") (Create sessions userID) in
  ret (mkUpgradeResult (with_PasswordHash None updated) session).

(** ** RateLimitedGuestService *)
Definition guestCreationAction : string := "guest.create".
Definition guestRedemptionAction : string := "guest.redeem".
Definition RateLimitedCreate (limiter : RateLimiter World) (origin theme : string) : M GuestSessionResult :=
  let! decision := Allow limiter guestCreationAction (originRateLimitKey origin) in
  guard (negb (Allowed decision)) (RateLimitError (RetryAfter decision)) ;;;
  CreateWithTheme theme.
Definition RateLimitedRedeem (limiter : RateLimiter World) (origin code : string) : M GuestSessionResult :=
  let! decision := Allow limiter guestRedemptionAction (originRateLimitKey origin) in
  guard (negb (Allowed decision)) (RateLimitError (RetryAfter decision)) ;;;
  Redeem code.
End sessions.

(** ** GuestClaimService *)

Definition newGuestClaimCode : M string :=
  random_code 10 guestClaimAlphabet (Errorf "random source unavailable" ErrGuestClaimCodeGeneration).

Definition validateGuestClaimCode (code : GuestClaimCode) (userID : Z) : outcome unit :=
  if negb (claim_UserID code =? userID) || negb (len (claim_Code code) =? guestClaimCodeLength)
     || (claim_CreatedAt code <=? 0) || negb (is_nil (claim_RevokedAt code))
  then Err ErrInvalidGuestClaimCode
  else if all_chars containsGuestClaimCharacter (claim_Code code) then Ok tt
  else Err ErrInvalidGuestClaimCode.
Definition validated (code : GuestClaimCode) (userID : Z) : M GuestClaimCode :=
  lift (validateGuestClaimCode code userID) ;;; ret code.

(** The mutex of [Issue] serializes its calls in one process; other instances
    may still interleave, which the re-read after a failed insert covers. *)
Definition Issue (userID : Z) : M GuestClaimCode :=
  guard (userID <=? 0) ErrInvalidUserID ;;;
  let! user := map_err (Errorf "find guest for claim code") (FindUserByID userID) in
  guard (negb (user_ID user =? userID) || negb (user_IsGuest user)) ErrNotGuest ;;;
  let! active := attempt (FindActiveGuestClaimCode userID) in
  match active with
  | Ok active => validated active userID
  | Err e =>
    guard (negb (errors_Is e ErrGuestClaimCodeNotFound)) (Errorf "find active guest claim code" e) ;;;
    let! code := newGuestClaimCode in
    let! now := unix_now in
    let! created := attempt (CreateGuestClaimCode (mkClaim userID code now None None)) in
    match created with
    | Ok created => validated created userID
    | Err e =>
      let! active := attempt (FindActiveGuestClaimCode userID) in
      match active with
      | Ok active => validated active userID
      | Err _ => throw (Errorf "create guest claim code" e)
      end
    end
  end.

(** ** GuestCleanupService *)
Definition Cleanup (retention : Z) : M Z :=
  guard (retention <=? 0) (Opaque "invalid guest cleanup config") ;;;
  let! now := time_Now in
  let cutoff := Unix (now - retention) in
  guard (cutoff <=? 0) (Opaque "invalid guest cleanup cutoff") ;;;
  map_err (Errorf "delete empty abandoned guests") (DeleteEmptyAbandonedGuests cutoff).
End guests.
End Guests.
