(* ===== verification/Groups.v ===== *)
(** * Group collaboration: internal/service/group.go and group_join.go *)
From S2P Require Export GroupStore Guests AuditTrail.
Import UserRepository.

Record GroupDetail := mkDetail {
  detail_Group : Group;
  detail_MemberCount : Z;
  detail_ViewerRole : string;
  detail_IsMember : bool;
  detail_IsAdmin : bool;
  detail_InviteCode : string;
  detail_Members : list GroupMember;
}.

Definition AuditActionGroupRenamed : string := "admin.group.renamed".
Definition AuditActionGroupInvite : string := "admin.group.invite_rotated".
Definition AuditActionGroupRole : string := "admin.group.member_role_changed".
Definition AuditActionGroupRemoved : string := "admin.group.member_removed".

(** An error the caller hands on as it is, or wraps. *)
Definition pass_or_wrap (pass : list sentinel) (operation : string) (e : error) : error :=
  if existsb (errors_Is e) pass then e else Errorf operation e.

Module Groups.
Section groups.
Context `{Unicode, MailParser, Postgres} (auditor : AuditRecorder).

Definition groupInviteCollisionTries : nat := 5.

Definition newGroupInviteCode : M string :=
  random_code 12 groupInviteAlphabet (Errorf "random source unavailable" ErrGroupInviteGeneration).

Definition validateCreatedGroup (g : Group) (m : GroupMembership) (userID : Z) : outcome unit :=
  if (group_ID g <=? 0) || (group_Version g <? 0) || negb (len (group_InviteCode g) =? groupInviteCodeLength)
  then Err ErrInvalidGroup
  else if negb (member_GroupID m =? group_ID g) || negb (member_UserID m =? userID)
          || negb (String.eqb (member_Role m) GroupRoleAdmin)
  then Err ErrInvalidGroup
  else Ok tt.

Definition actorIsGlobalAdmin (userID : Z) : M bool :=
  let! user := map_err (Errorf "find group actor") (FindUserByID userID) in
  ret (user_IsAdmin user && negb (user_IsGuest user)).

Definition recordSiteAdminAction (actorUserID groupID : Z) (action detail : string) : M unit :=
  match auditor with
  | None => ret tt
  | Some record =>
    let! actor := attempt (FindUserByID actorUserID) in
    let email := match actor with
                 | Ok actor => match user_Email actor with Some e => e | None => "" end
                 | Err _ => "" end in
    ignore (record (mkAuditRecord actorUserID email action "group" (FormatInt groupID) detail ""))
  end.

(** The retry loop of [Create]; [GroupService.Create] leaves [CreatedAt] at
    its zero value. *)
Fixpoint create_tries (tries : nat) (userID : Z) (name normalized : string) (lastErr : error) : M GroupSummary :=
  match tries with
  | O => throw (Errorf "create group" lastErr)
  | S tries =>
    let! code := newGroupInviteCode in
    let group := mkGroup 0 (TrimSpace name) normalized code (Some userID) 0 0 in
    let! r := attempt (GroupRepository.CreateGroupWithAdmin group userID GroupRoleAdmin) in
    match r with
    | Ok (created, membership) =>
      lift (validateCreatedGroup created membership userID) ;;;
      ret (mkSummary created 1 GroupRoleAdmin)
    | Err e =>
      if negb (errors_Is e ErrGroupInviteTaken) then throw (Errorf "create group" e)
      else create_tries tries userID name normalized e
    end
  end.

Definition Create (userID : Z) (name : string) : M GroupSummary :=
  guard (userID <=? 0) ErrInvalidUserID ;;;
  let! normalized := lift (normalizeGroupName name) in
  let! creator := map_err (Errorf "find group creator") (FindUserByID userID) in
  guard (negb (user_ID creator =? userID) || user_IsGuest creator) ErrInvalidGroup ;;;
  create_tries groupInviteCollisionTries userID name normalized (Opaque "").

Definition at_least_one (s : GroupSummary) : GroupSummary :=
  if summary_MemberCount s <? 1 then mkSummary (summary_Group s) 1 (summary_Role s) else s.
Definition List (userID : Z) : M (list GroupSummary) :=
  guard (userID <=? 0) ErrInvalidUserID ;;;
  let! administrator := actorIsGlobalAdmin userID in
  let! summaries := map_err (Errorf "list groups")
    (if administrator then GroupRepository.ListAllGroupsForUser userID
     else GroupRepository.ListGroupsForUser userID) in
  ret (at_least_one <$> summaries).

(** Ordinary members see only their own email. *)
Definition hide_email (userID : Z) (m : GroupMember) : GroupMember :=
  if roster_UserID m =? userID then m
  else mkGroupMember (roster_UserID m) (roster_Role m) (roster_Version m) (roster_Username m)
         (roster_DisplayName m) None.

Definition Detail (userID groupID : Z) : M GroupDetail :=
  guard ((userID <=? 0) || (groupID <=? 0)) ErrInvalidGroup ;;;
  let! found := attempt (GroupRepository.FindMembership groupID userID) in
  let! membership := match found with
    | Ok m => ret (Some m)
    | Err e => if errors_Is e ErrMembershipNotFound then ret None
               else throw (Errorf "find group membership" e)
    end in
  let isMember := negb (is_nil membership) in
  let! administrator := actorIsGlobalAdmin userID in
  guard (negb isMember && negb administrator) ErrGroupNotFound ;;;
  let! group := map_err (Errorf "find group") (GroupRepository.FindGroupByID groupID) in
  let! count := map_err (Errorf "count group members") (GroupRepository.CountMembers groupID) in
  let viewerRole := match membership with Some m => member_Role m | None => "" end in
  let isAdmin := administrator || String.eqb viewerRole GroupRoleAdmin in
  let! members := map_err (Errorf "list group members") (GroupRepository.ListMembers groupID) in
  ret (mkDetail group count viewerRole isMember isAdmin
         (if isAdmin then group_InviteCode group else "")
         (if isAdmin then members else hide_email userID <$> members)).

(** Whether the actor passes, and passes only as a site administrator. *)
Definition requireAdmin (userID groupID : Z) : M bool :=
  let! found := attempt (GroupRepository.FindMembership groupID userID) in
  match found with
  | Err e =>
    guard (negb (errors_Is e ErrMembershipNotFound)) (Errorf "find group admin" e) ;;;
    let! administrator := actorIsGlobalAdmin userID in
    guard (negb administrator) ErrNotGroupAdmin ;;; ret true
  | Ok membership =>
    if String.eqb (member_Role membership) GroupRoleAdmin then ret false else
    let! administrator := actorIsGlobalAdmin userID in
    guard (negb administrator) ErrNotGroupAdmin ;;; ret true
  end.

Definition Rename (userID groupID expectedVersion : Z) (name : string) : M Group :=
  guard ((userID <=? 0) || (groupID <=? 0)) ErrInvalidGroup ;;;
  guard (expectedVersion <? 0) ErrInvalidGroup ;;;
  let! normalized := lift (normalizeGroupName name) in
  let! asSiteAdmin := requireAdmin userID groupID in
  let! group := map_err (Errorf "find group for rename") (GroupRepository.FindGroupByID groupID) in
  let! updated := map_err (pass_or_wrap [ErrOptimisticLockConflict; ErrGroupNotFound] "rename group")
    (GroupRepository.UpdateGroup (with_Names (TrimSpace name) normalized group) expectedVersion) in
  (if asSiteAdmin : bool
   then recordSiteAdminAction userID groupID AuditActionGroupRenamed ("name: " +:+ group_Name updated)
   else ret tt) ;;;
  ret updated.

Fixpoint rotate_tries (tries : nat) (userID groupID : Z) (asSiteAdmin : bool) (group : Group) (lastErr : error)
    : M string :=
  match tries with
  | O => throw (Errorf "rotate group invite" lastErr)
  | S tries =>
    let! code := newGroupInviteCode in
    let group := with_InviteCode code group in
    let! r := attempt (GroupRepository.UpdateGroup group (group_Version group)) in
    match r with
    | Ok updated =>
      (if asSiteAdmin then recordSiteAdminAction userID groupID AuditActionGroupInvite "" else ret tt) ;;;
      ret (group_InviteCode updated)
    | Err e =>
      if errors_Is e ErrGroupInviteTaken then rotate_tries tries userID groupID asSiteAdmin group e
      else throw (pass_or_wrap [ErrOptimisticLockConflict; ErrGroupNotFound] "rotate group invite" e)
    end
  end.
Definition RotateInvite (userID groupID : Z) : M string :=
  guard ((userID <=? 0) || (groupID <=? 0)) ErrInvalidGroup ;;;
  let! asSiteAdmin := requireAdmin userID groupID in
  let! group := map_err (Errorf "find group for invite rotation") (GroupRepository.FindGroupByID groupID) in
  rotate_tries groupInviteCollisionTries userID groupID asSiteAdmin group (Opaque "").

Definition Join (userID : Z) (code : string) : M GroupMembership :=
  guard (userID <=? 0) ErrInvalidUserID ;;;
  let normalized := ToUpper (TrimSpace code) in
  guard (String.eqb normalized "") ErrGroupInviteNotFound ;;;
  let! group := map_err (λ e, if errors_Is e ErrGroupNotFound then Sentinel ErrGroupInviteNotFound
                              else Errorf "find invite group" e)
    (GroupRepository.FindGroupByInviteCode normalized) in
  let! existing := attempt (GroupRepository.FindMembership (group_ID group) userID) in
  match existing with
  | Ok existing => ret existing
  | Err e =>
    guard (negb (errors_Is e ErrMembershipNotFound)) (Errorf "find join membership" e) ;;;
    let! now := unix_now in
    let! created := attempt (GroupRepository.CreateMembership
      (mkMembership 0 (group_ID group) userID GroupRoleMember now 0)) in
    match created with
    | Ok created => ret created
    | Err e =>
      if errors_Is e ErrMembershipExists then
        let! existing := attempt (GroupRepository.FindMembership (group_ID group) userID) in
        match existing with
        | Ok existing => ret existing
        | Err _ => throw (Errorf "create join membership" e)
        end
      else throw (Errorf "create join membership" e)
    end
  end.

Definition membership_errors : list sentinel := [ErrLastGroupAdmin; ErrOptimisticLockConflict; ErrMembershipNotFound].
Definition not_found_or_wrap (operation : string) (e : error) : error :=
  if errors_Is e ErrMembershipNotFound then ErrMembershipNotFound else Errorf operation e.

Definition ChangeRole (actorUserID groupID targetUserID expectedVersion : Z) (role : string) : M GroupMembership :=
  guard ((actorUserID <=? 0) || (groupID <=? 0) || (targetUserID <=? 0) || (expectedVersion <? 0)) ErrInvalidGroup ;;;
  guard (negb (String.eqb role GroupRoleAdmin) && negb (String.eqb role GroupRoleMember)) ErrInvalidGroup ;;;
  let! asSiteAdmin := requireAdmin actorUserID groupID in
  let! target := map_err (not_found_or_wrap "find role target")
    (GroupRepository.FindMembership groupID targetUserID) in
  if String.eqb (member_Role target) role then ret target else
  map_err (pass_or_wrap membership_errors "change group role")
    (GroupRepository.UpdateMembershipRole (with_Role role target) expectedVersion) ;;;
  let! updated := map_err (Errorf "reread group role") (GroupRepository.FindMembership groupID targetUserID) in
  (if asSiteAdmin : bool
   then recordSiteAdminAction actorUserID groupID AuditActionGroupRole
          ("member " +:+ FormatInt targetUserID +:+ ": " +:+ role)
   else ret tt) ;;;
  ret updated.

Definition RemoveMember (actorUserID groupID targetUserID expectedVersion : Z) : M unit :=
  guard ((actorUserID <=? 0) || (groupID <=? 0) || (targetUserID <=? 0) || (expectedVersion <? 0)) ErrInvalidGroup ;;;
  guard (actorUserID =? targetUserID) ErrInvalidGroup ;;;
  let! asSiteAdmin := requireAdmin actorUserID groupID in
  map_err (not_found_or_wrap "find removal target") (GroupRepository.FindMembership groupID targetUserID) ;;;
  map_err (pass_or_wrap membership_errors "remove group member")
    (GroupRepository.DeleteMembership groupID targetUserID expectedVersion) ;;;
  if asSiteAdmin : bool
  then recordSiteAdminAction actorUserID groupID AuditActionGroupRemoved ("member " +:+ FormatInt targetUserID)
  else ret tt.

Definition Leave (userID groupID : Z) : M unit :=
  guard ((userID <=? 0) || (groupID <=? 0)) ErrInvalidGroup ;;;
  let! membership := map_err (not_found_or_wrap "find leave membership")
    (GroupRepository.FindMembership groupID userID) in
  map_err (pass_or_wrap membership_errors "leave group")
    (GroupRepository.DeleteMembership groupID userID (member_Version membership)).

(** [RateLimitedGroupJoiner.Join]. *)
Definition groupInviteJoinAction : string := "group.invite.join".
Definition RateLimitedJoin (limiter : RateLimiter World) (userID : Z) (code : string) : M GroupMembership :=
  let! decision := map_err (Errorf "allow group join") (Allow limiter groupInviteJoinAction (FormatInt userID)) in
  guard (negb (Allowed decision)) (RateLimitError (RetryAfter decision)) ;;;
  Join userID code.
End groups.
End Groups.
