(* ===== verification/Settings.v ===== *)
(** * Account preferences: internal/service/settings.go, theme.go and
    [locale.Supported] *)
From S2P Require Export Passwords.
Import UserRepository.

Record ProfileSettingsInput := mkProfileInput { profile_Username : string; profile_DisplayName : string }.

Module Settings.
Section settings.
Context `{Unicode, MailParser, Postgres}.

(** How the settings services report a failed update. *)
Definition settings_error (operation : string) (e : error) : error :=
  if errors_Is e ErrUserNotFound then ErrRecordNotFound
  else if errors_Is e ErrOptimisticLockConflict then ErrOptimisticLockConflict
  else Errorf operation e.

Definition rejectDuplicateUsername (userID : Z) (username : string) : M unit :=
  let! r := attempt (FindUserByUsername username) in
  match r with
  | Err e => if errors_Is e ErrUserNotFound then ret tt else throw (Errorf "check profile username" e)
  | Ok existing => guard ((0 <? user_ID existing) && negb (user_ID existing =? userID)) ErrUsernameUnavailable
  end.

Definition applyProfileFields (user : User) (username displayName : string) : User :=
  with_DisplayName (optionalNormalized displayName) (with_Username (optionalNormalized username) user).

(** [ProfileSettingsService.Update]. *)
Definition UpdateProfile (userID : Z) (input : ProfileSettingsInput) : M User :=
  guard (userID <=? 0) ErrInvalidUserID ;;;
  let! username := map_err (Errorf "validate profile username") (lift (NormalizeUsername (profile_Username input))) in
  let! displayName := lift (normalizeDisplayName (profile_DisplayName input)) in
  let! user := map_err (Errorf "find profile settings user") (FindUserByID userID) in
  guard (negb (user_ID user =? userID)) ErrUserNotFound ;;;
  (if negb (String.eqb username "") && negb (sameOptionalString (user_Username user) username)
   then rejectDuplicateUsername userID username else ret tt) ;;;
  let! updated := map_err (settings_error "update profile settings")
    (UpdateUser (applyProfileFields user username displayName) (user_Version user)) in
  ret (publicUser updated).

Definition Supported (code : string) : bool := String.eqb code "en" || String.eqb code "hu".
Definition validLocale (code : string) : bool := Supported code.

(** [LocaleSettingsService.Update]. *)
Definition UpdateLocale (userID : Z) (rawLocale : string) : M User :=
  guard (userID <=? 0) ErrInvalidUserID ;;;
  let code := ToLower (TrimSpace rawLocale) in
  guard (negb (validLocale code)) ErrInvalidLocale ;;;
  let! user := map_err (Errorf "find locale settings user") (FindUserByID userID) in
  guard (negb (user_ID user =? userID)) ErrUserNotFound ;;;
  if String.eqb (user_Locale user) code then ret (publicUser user) else
  let! updated := map_err (settings_error "update locale settings")
    (UpdateUser (with_Locale code user) (user_Version user)) in
  ret (publicUser updated).

(** [ThemeService.UpdateTheme]. *)
Definition UpdateTheme (userID : Z) (theme : string) : M unit :=
  guard (userID <=? 0) ErrInvalidUserID ;;;
  let! theme := lift (normalizeTheme theme) in
  let! user := map_err (Errorf "find user for theme update") (FindUserByID userID) in
  if String.eqb (user_Theme user) theme then ret tt else
  map_err (Errorf "update user theme") (UpdateUser (with_Theme theme user) (user_Version user)) ;;;
  ret tt.
End settings.
End Settings.
