(* ===== verification/Admin.v ===== *)
(** * Administrator use cases

    internal/service/admin_accounts.go, admin_confirmation.go,
    admin_identity.go, lockout.go and rate_limit_admin.go. *)
From S2P Require Export AdminStore Groups Confirmation Session PasswordHash.
Import UserRepository Sessions.

Record AdminActionContext := mkActor { ActorID : Z; ActorOrigin : string }.
Record AdminAccountInput := mkAccountInput { input_Email : string; input_Password : string; input_IsAdmin : bool }.
Record AdminAccountUpdateInput := mkAccountUpdate {
  update_Email : string; update_Password : string; update_IsAdmin : bool; update_Version : Z }.

Definition AuditActionAccountCreated : string := "admin.account.created".
Definition AuditActionAccountUpdated : string := "admin.account.updated".
Definition AuditActionAccountDeleted : string := "admin.account.deleted".
Definition AuditActionSessionsRevoked : string := "admin.sessions.revoked".
Definition AuditActionEmailConfirmed : string := "admin.email.confirmed".
Definition AuditActionConfirmationSent : string := "admin.email.confirmation_sent".
Definition AuditActionIdentityRemoved : string := "admin.identity.removed".
Definition AuditActionLockoutCleared : string := "admin.lockout.cleared".
Definition AuditActionRateLimitCleared : string := "admin.ratelimit.cleared".
Definition AuditActionAdminGranted : string := "admin.account.admin_granted".
Definition AuditActionAdminRevoked : string := "admin.account.admin_revoked".
Definition AuditActionPasswordReset : string := "admin.account.password_reset".

Definition adminAccountDetail (u : User) : string :=
  match user_Email u with
  | Some e => e
  | None => match user_Username u with Some n => n | None => FormatInt (user_ID u) end
  end.

(** A missing account is reported as a missing record. *)
Definition record_not_found (e : error) : error := if errors_Is e ErrUserNotFound then ErrRecordNotFound else e.

Module Admin.
Section admin.
Context `{Unicode, MailParser, Postgres, Crypto, PasswordHashing} (auditor : AuditRecorder).

(** [record] of the administrator services, with the actor's address. *)
Definition record (actor : AdminActionContext) (action : string) (targetID : Z) (detail : string) : M unit :=
  match auditor with
  | None => ret tt
  | Some store =>
    let! actorUser := attempt (FindUserByID (ActorID actor)) in
    let email := match actorUser with
                 | Ok u => match user_Email u with Some e => e | None => "" end
                 | Err _ => "" end in
    ignore (store (mkAuditRecord (ActorID actor) email action "user" (FormatInt targetID) detail (ActorOrigin actor)))
  end.

(** ** AdminAccountService; [sessions] is its optional [SessionRevoker]. *)
Section accounts.
Context (sessions : option (Z → M unit)).

Definition RevokeSessions (actor : AdminActionContext) (targetID : Z) : M unit :=
  match sessions with
  | None => throw ErrInvalidAdminQuery
  | Some revoke =>
    guard ((ActorID actor <=? 0) || (targetID <=? 0)) ErrInvalidAdminQuery ;;;
    let! target := map_err record_not_found (FindUserByID targetID) in
    revoke targetID ;;;
    record actor AuditActionSessionsRevoked (user_ID target) (adminAccountDetail target)
  end.

(** The optional password of [Create] and [Update], validated and hashed. *)
Definition optional_hash (password : string) : M (option string) :=
  if String.eqb password "" then ret None else
  lift (ValidatePassword password) ;;;
  let! hash := Hash password in ret (Some hash).

Definition Create (actor : AdminActionContext) (input : AdminAccountInput) : M User :=
  guard (ActorID actor <=? 0) ErrInvalidAdminQuery ;;;
  let! email := map_err (λ _, Sentinel ErrInvalidEmail) (lift (NormalizeEmail (input_Email input))) in
  guard (String.eqb email "") ErrInvalidEmail ;;;
  let! passwordHash := optional_hash (input_Password input) in
  let! now := unix_now in
  let! created := CreateUser (mkUser 0 (Some email) passwordHash None None false (input_IsAdmin input)
                                defaultUserTheme defaultUserLocale now (Some now) 0) in
  guard (user_ID created <=? 0) ErrInvalidCreatedUser ;;;
  let created := with_PasswordHash None created in
  record actor AuditActionAccountCreated (user_ID created) email ;;;
  (if user_IsAdmin created then record actor AuditActionAdminGranted (user_ID created) email else ret tt) ;;;
  ret created.

Definition Find (targetID : Z) : M User :=
  guard (targetID <=? 0) ErrInvalidAdminQuery ;;;
  let! user := map_err record_not_found (FindUserByID targetID) in
  ret (with_PasswordHash None user).

Definition edited (email : string) (isAdmin : bool) (passwordHash : option string) (current : User) : User :=
  let current := with_IsAdmin isAdmin (with_Email (Some email) current) in
  match passwordHash with Some h => with_PasswordHash (Some h) current | None => current end.

Definition Update (actor : AdminActionContext) (targetID : Z) (input : AdminAccountUpdateInput) : M User :=
  guard ((ActorID actor <=? 0) || (targetID <=? 0) || (update_Version input <? 0)) ErrInvalidAdminQuery ;;;
  guard ((ActorID actor =? targetID) && negb (update_IsAdmin input)) ErrAdminSelfAction ;;;
  let! email := map_err (λ _, Sentinel ErrInvalidEmail) (lift (NormalizeEmail (update_Email input))) in
  guard (String.eqb email "") ErrInvalidEmail ;;;
  guard (negb (String.eqb (update_Password input) "") && is_nil sessions) ErrInvalidAdminQuery ;;;
  let! passwordHash := optional_hash (update_Password input) in
  let! current := map_err record_not_found (FindUserByID targetID) in
  let! updated := map_err record_not_found
    (UpdateUser (edited email (update_IsAdmin input) passwordHash current) (update_Version input)) in
  let updated := with_PasswordHash None updated in
  match passwordHash, sessions with
  | Some _, Some revoke => revoke targetID
  | _, _ => ret tt
  end ;;;
  record actor AuditActionAccountUpdated (user_ID updated) email ;;;
  (if bool_decide (user_IsAdmin updated = user_IsAdmin current) then ret tt
   else record actor (if user_IsAdmin updated then AuditActionAdminGranted else AuditActionAdminRevoked)
          (user_ID updated) email) ;;;
  (if is_nil passwordHash then ret tt
   else record actor AuditActionPasswordReset (user_ID updated) email) ;;;
  ret updated.

Definition Delete (actor : AdminActionContext) (targetID expectedVersion : Z) : M unit :=
  guard ((ActorID actor <=? 0) || (targetID <=? 0) || (expectedVersion <? 0)) ErrInvalidAdminQuery ;;;
  guard (ActorID actor =? targetID) ErrAdminSelfAction ;;;
  let! target := map_err record_not_found (FindUserByID targetID) in
  match sessions with Some revoke => revoke targetID | None => ret tt end ;;;
  map_err record_not_found (DeleteUser targetID expectedVersion) ;;;
  record actor AuditActionAccountDeleted (user_ID target) (adminAccountDetail target).

Definition List (q : AdminUserQuery) : M AdminUserPage :=
  let normalized := Normalize q in
  let! page := AdminUserRepository.ListUsers normalized in
  let size := if page_Size page <? 1 then query_Size normalized else page_Size page in
  let number := if page_Page page <? 1 then query_Page normalized else page_Page page in
  ret (mkUserPage (page_Users page) (page_Total page) number size (adminPageCount (page_Total page) size)).
End accounts.

(** ** AdminConfirmationService *)

Definition ConfirmEmail (actor : AdminActionContext) (targetID : Z) : M unit :=
  guard ((ActorID actor <=? 0) || (targetID <=? 0)) ErrInvalidAdminQuery ;;;
  let! user := map_err record_not_found (FindUserByID targetID) in
  guard (user_IsGuest user || is_nil (user_Email user)) ErrInvalidConfirmationAccount ;;;
  if negb (is_nil (user_EmailVerifiedAt user)) then ret tt else
  let! now := unix_now in
  let! updated := map_err record_not_found (UpdateUser (with_EmailVerifiedAt (Some now) user) (user_Version user)) in
  record actor AuditActionEmailConfirmed (user_ID updated) (adminAccountDetail updated).

Definition SendConfirmation (confirmation : EmailConfirmationService) (actor : AdminActionContext) (targetID : Z) : M unit :=
  guard ((ActorID actor <=? 0) || (targetID <=? 0)) ErrInvalidAdminQuery ;;;
  let! user := map_err record_not_found (FindUserByID targetID) in
  guard (user_IsGuest user || is_nil (user_Email user)) ErrInvalidConfirmationAccount ;;;
  map_err (Errorf "issue admin confirmation") (Confirmation.Issue confirmation targetID) ;;;
  record actor AuditActionConfirmationSent (user_ID user) (adminAccountDetail user).

(** ** AdminIdentityService; [unlink] is its [IdentityRemover]. *)

Definition RemoveIdentity (unlink : Z → Z → M unit) (actor : AdminActionContext) (targetID identityID : Z) : M unit :=
  guard ((ActorID actor <=? 0) || (targetID <=? 0) || (identityID <=? 0)) ErrInvalidAdminQuery ;;;
  let! user := map_err record_not_found (FindUserByID targetID) in
  unlink targetID identityID ;;;
  record actor AuditActionIdentityRemoved targetID (adminAccountDetail user).
End admin.
End Admin.

(** ** LockoutService *)

Record LockoutOrigin := mkLockoutOrigin {
  origin_Key : string; origin_Count : Z; origin_Limit : Z; origin_RetryAfter : Z }.
Record LockoutStatus := mkLockoutStatus {
  IdentifierKey : string; IdentifierCount : Z; IdentifierLimit : Z; IdentifierRetryAfter : Z;
  Locked : bool; Origins : list LockoutOrigin }.

Module Lockout.
Definition MaxLockoutOrigins : nat := 10.

Definition nonblank (s : option string) : list string :=
  match s with
  | Some v => if String.eqb (TrimSpace v) "" then [] else [TrimSpace v]
  | None => []
  end.
Definition signInIdentifierKeys (target : User) : list string :=
  nonblank (user_Email target) ++ nonblank (user_Username target).

(** The loop of [recentOrigins]: distinct non-blank origins, at most [n]. *)
Fixpoint distinct_origins (n : nat) (attempts : list LoginAttempt) (seen : list string) : list string :=
  match n, attempts with
  | O, _ | _, [] => []
  | S n', a :: attempts =>
    match nonblank (attempt_IP a) with
    | origin :: _ =>
      if bool_decide (origin ∈ seen) then distinct_origins n attempts seen
      else origin :: distinct_origins n' attempts (origin :: seen)
    | [] => distinct_origins n attempts seen
    end
  end.

Definition recentOrigins (target : User) : M (list string) :=
  match user_Email target with
  | None => ret []
  | Some email =>
    if String.eqb (TrimSpace email) "" then ret [] else
    let! attempts := attempt (AdminHistory.ListLoginAttemptsForEmail email MaxAdminLoginAttempts) in
    ret match attempts with
        | Ok attempts => distinct_origins MaxLockoutOrigins attempts []
        | Err _ => []
        end
  end.

Section service.
Context (limiter : RateLimiter World) (auditor : AuditRecorder).

Definition identifierLimit : M Z :=
  let! r := attempt (Snapshot limiter signInIdentifierAction "probe") in
  ret match r with Ok s => snapshot_Limit s | Err _ => 0 end.

Fixpoint identifier_status (keys : list string) (status : LockoutStatus) : M LockoutStatus :=
  match keys with
  | [] => ret status
  | key :: keys =>
    let! s := Snapshot limiter signInIdentifierAction key in
    identifier_status keys
      (if (snapshot_Count s =? 0) || (snapshot_Count s <? IdentifierCount status) then status
       else mkLockoutStatus key (snapshot_Count s) (snapshot_Limit s) (snapshot_RetryAfter s)
              ((0 <? snapshot_Limit s) && (snapshot_Limit s <=? snapshot_Count s)) [])
  end.
Fixpoint origin_statuses (origins : list string) : M (list LockoutOrigin) :=
  match origins with
  | [] => ret []
  | origin :: origins =>
    let! s := Snapshot limiter signInOriginAction (originRateLimitKey origin) in
    let! rest := origin_statuses origins in
    ret (mkLockoutOrigin origin (snapshot_Count s) (snapshot_Limit s) (snapshot_RetryAfter s) :: rest)
  end.

Definition Status (target : User) : M LockoutStatus :=
  let! limit := identifierLimit in
  let! status := identifier_status (signInIdentifierKeys target) (mkLockoutStatus "" 0 limit 0 false []) in
  let! origins := recentOrigins target in
  let! statuses := origin_statuses origins in
  ret (mkLockoutStatus (IdentifierKey status) (IdentifierCount status) (IdentifierLimit status)
         (IdentifierRetryAfter status) (Locked status) statuses).

Definition ClearLockout (actor : AdminActionContext) (target : User) : M unit :=
  guard ((ActorID actor <=? 0) || (user_ID target <=? 0)) ErrInvalidAdminQuery ;;;
  for_each (signInIdentifierKeys target) (λ key, Clear limiter signInIdentifierAction key) ;;;
  let! origins := recentOrigins target in
  for_each origins (λ origin, Clear limiter signInOriginAction (originRateLimitKey origin)) ;;;
  record_action auditor (mkAuditRecord (ActorID actor) "" AuditActionLockoutCleared "user"
                           (FormatInt (user_ID target)) (adminAccountDetail target) (ActorOrigin actor)).
End service.
End Lockout.

(** ** RateLimitAdminService *)
Module RateLimitAdmin.
Section service.
Context (limiters : list (RateLimiter World)) (auditor : AuditRecorder).

Definition NewRateLimitAdminService : outcome unit :=
  match limiters with [] => Err ErrNilRateLimitAdmin | _ => Ok tt end.

Fixpoint add_unseen (actions : list RateLimitActionInfo) (seen : list string) (overview : list RateLimitActionInfo)
    : list string * list RateLimitActionInfo :=
  match actions with
  | [] => (seen, overview)
  | a :: actions =>
    if bool_decide (info_Action a ∈ seen) then add_unseen actions seen overview
    else add_unseen actions (info_Action a :: seen) (overview ++ [a])
  end.
Fixpoint overview_of (ls : list (RateLimiter World)) (seen : list string) (overview : list RateLimitActionInfo)
    : M (list RateLimitActionInfo) :=
  match ls with
  | [] => ret overview
  | l :: ls =>
    let! actions := Actions l in
    let '(seen, overview) := add_unseen actions seen overview in
    overview_of ls seen overview
  end.
Definition Overview : M (list RateLimitActionInfo) := overview_of limiters [] [].

Fixpoint buckets_of (ls : list (RateLimiter World)) (action : string) : M (list RateLimitBucketInfo) :=
  match ls with
  | [] => throw ErrUnknownRateLimitAction
  | l :: ls =>
    let! actions := Actions l in
    if existsb (λ a, String.eqb (info_Action a) action) actions then Buckets l action
    else buckets_of ls action
  end.
Definition AdminBuckets (action : string) : M (list RateLimitBucketInfo) := buckets_of limiters action.

Definition record (actor : AdminActionContext) (target : string) (removed : Z) : M unit :=
  record_action auditor (mkAuditRecord (ActorID actor) "" AuditActionRateLimitCleared "ratelimit" target
                           ("removed=" +:+ FormatInt removed) (ActorOrigin actor)).

(** One clear per listed summary of the action. *)
Fixpoint clear_listed (l : RateLimiter World) (action : string) (actions : list RateLimitActionInfo)
    (acc : bool * Z) : M (bool * Z) :=
  match actions with
  | [] => ret acc
  | a :: actions =>
    if String.eqb (info_Action a) action then
      let! count := ClearAction l action in
      clear_listed l action actions (true, acc.2 + count)
    else clear_listed l action actions acc
  end.
Fixpoint clear_action_of (ls : list (RateLimiter World)) (action : string) (acc : bool * Z) : M (bool * Z) :=
  match ls with
  | [] => ret acc
  | l :: ls =>
    let! actions := Actions l in
    let! acc := clear_listed l action actions acc in
    clear_action_of ls action acc
  end.
Definition AdminClearAction (actor : AdminActionContext) (action : string) : M Z :=
  guard ((ActorID actor <=? 0) || String.eqb action "") ErrInvalidAdminQuery ;;;
  let! cleared := clear_action_of limiters action (false, 0) in
  guard (negb cleared.1) ErrUnknownRateLimitAction ;;;
  record actor action cleared.2 ;;;
  ret cleared.2.

Fixpoint clear_all_of (ls : list (RateLimiter World)) (actor : AdminActionContext) (removed : Z) : M Z :=
  match ls with
  | [] => ret removed
  | l :: ls =>
    let! r := attempt (ClearAll l) in
    match r with
    | Ok count => clear_all_of ls actor (removed + count)
    | Err e => record actor "all" removed ;;; throw (Errorf "clear rate limits" e)
    end
  end.
Definition AdminClearAll (actor : AdminActionContext) : M Z :=
  guard (ActorID actor <=? 0) ErrInvalidAdminQuery ;;;
  let! removed := clear_all_of limiters actor 0 in
  record actor "all" removed ;;;
  ret removed.
End service.
End RateLimitAdmin.
