(* ===== verification/ProviderRegistry.v ===== *)
(** * Configured sign-in providers: internal/service/provider_registry.go

    The transport of a provider ([internal/adapter/oauth], [adapter/oidc]) is
    an interface of the service and a record of operations here. *)
From S2P Require Export World.

(** [OAuthProfile]. *)
Record OAuthProfile := mkProfile {
  Subject : string;
  profile_Email : string;
  EmailVerified : bool;
  DisplayName : string;
}.

(** The methods [OAuthProviderClient] adds to [OAuthProvider]. *)
Record OAuthProviderClient := mkClient {
  AuthorizationURL : string → string → M string;
  Exchange : string → string → M OAuthProfile;
}.
(** [OAuthProvider]: its name, and what the type assertion to
    [OAuthProviderClient] gives. *)
Record OAuthProvider := mkProvider {
  provider_Name : string;
  provider_client : option OAuthProviderClient;
}.

Module Providers.
Section registry.
Context `{Unicode}.

Definition maxOAuthProviderNameLength : Z := 32.
Definition contains_break (s : string) : bool :=
  contains_char (ascii_of_nat 0) s || contains_char (ascii_of_nat 13) s || contains_char (ascii_of_nat 10) s.
Definition provider_char (r : Z) : bool :=
  ((97 <=? r) && (r <=? 122)) || ((48 <=? r) && (r <=? 57)) || (r =? 45) || (r =? 95).

Definition normalizeOAuthProviderName (raw : string) : outcome string :=
  if contains_break raw then Err (Opaque "service: invalid oauth provider") else
  let name := ToLower (TrimSpace raw) in
  if String.eqb name "" || (maxOAuthProviderNameLength <? RuneCountInString name)
  then Err (Opaque "service: invalid oauth provider")
  else if forallb provider_char (runes name) then Ok name
  else Err (Opaque "service: invalid oauth provider").


Fixpoint register (registry : gmap string OAuthProvider) (providers : list OAuthProvider) : outcome (gmap string OAuthProvider) :=
  match providers with
  | [] => Ok registry
  | provider :: providers =>
    match normalizeOAuthProviderName (provider_Name provider) with
    | Err e => Err e
    | Ok name =>
      match registry !! name with
      | Some _ => Err (Opaque "service: duplicate oauth provider")
      | None => register (<[name := provider]> registry) providers
      end
    end
  end.
Definition NewProviderRegistry (providers : list OAuthProvider) : outcome (gmap string OAuthProvider) := register ∅ providers.

Definition Get (r : gmap string OAuthProvider) (name : string) : option OAuthProvider :=
  match normalizeOAuthProviderName name with Ok canonical => r !! canonical | Err _ => None end.

(** [sort.Strings]: byte order. *)
Definition string_rel : relation string := λ a b, String.leb a b = true.
#[global] Instance string_rel_dec : RelDecision string_rel := λ a b, decide (String.leb a b = true).
Definition Names (r : gmap string OAuthProvider) : list string := merge_sort string_rel (fst <$> map_to_list r).
Definition List_ (r : gmap string OAuthProvider) : list OAuthProvider := omap (λ n, r !! n) (Names r).

Definition providerClient (r : gmap string OAuthProvider) (name : string) : option (OAuthProvider * OAuthProviderClient) :=
  match Get r name with
  | Some p => match provider_client p with Some c => Some (p, c) | None => None end
  | None => None
  end.

(** ** Facts *)
Lemma normalizeOAuthProviderName_form raw n :
  normalizeOAuthProviderName raw = Ok n →
  n = ToLower (TrimSpace raw) ∧ n ≠ "" ∧ RuneCountInString n ≤ 32 ∧ forallb provider_char (runes n) = true.
Proof.
  unfold normalizeOAuthProviderName, maxOAuthProviderNameLength. intros Hn.
  repeat case_match; simplify_eq. bool_props. done.
Qed.

Lemma register_keeps ps : ∀ r r' n p,
  register r ps = Ok r' → r !! n = Some p → r' !! n = Some p.
Proof.
  induction ps as [|q ps IH]; simpl; intros r r' n p Hr Hn; [by simplify_eq|].
  repeat case_match; simplify_eq. eapply IH; [done|].
  rewrite lookup_insert_ne; [done | congruence].
Qed.

Lemma register_complete ps : ∀ r r' p,
  register r ps = Ok r' → p ∈ ps →
  ∃ n, normalizeOAuthProviderName (provider_Name p) = Ok n ∧ r' !! n = Some p.
Proof.
  induction ps as [|q ps IH]; simpl; intros r r' p Hr Hin; [by apply not_elem_of_nil in Hin|].
  repeat case_match; simplify_eq.
  apply elem_of_cons in Hin as [->|Hin]; [|by eapply IH].
  eexists. split; [done|]. eapply register_keeps; [done|]. apply lookup_insert_eq.
Qed.

Lemma register_sound ps : ∀ r r' n p,
  register r ps = Ok r' → r' !! n = Some p →
  r !! n = Some p ∨ (p ∈ ps ∧ normalizeOAuthProviderName (provider_Name p) = Ok n).
Proof.
  induction ps as [|q ps IH]; simpl; intros r r' n p Hr Hn; [simplify_eq; by left|].
  repeat case_match; simplify_eq.
  apply (IH _ _ n p) in Hr as [Hr|[Hin Hp]]; [|right; by split; [right|]|done].
  apply lookup_insert_Some in Hr as [[<- <-]|[_ Hr]]; [right; by split; [left|] | by left].
Qed.
End registry.
End Providers.
