(* ===== verification/OAuth.v ===== *)
(** * Sign-in and account linking with an external provider:
    internal/service/oauth.go

    [url.Parse] is a parameter ([URLParser]). *)
From S2P Require Export ProviderRegistry SignIn.
Import UserRepository Sessions OAuthStateRepository OAuthIdentityRepository Providers.

(** [url.Parse(raw)]: scheme, host and whether user information is present. *)
Class URLParser := { url_Parse : string → option (string * string * bool) }.

Record OAuthSignInResult := mkOAuthResult { oauth_User : User; oauth_Session : Session }.
(** [OAuthCallbackResult]: a linked account, or a sign-in. *)
Inductive OAuthCallbackResult :=
| Linked (userID : Z)
| SignedIn (result : OAuthSignInResult).

Definition oauthActionSignIn : string := "sign-in".
Definition oauthActionLink : string := "link".

(** [OAuthSignInService]: the registry, the session service and the state
    lifetime in nanoseconds. *)
Record OAuthSignInService := mkOAuthService {
  oauth_providers : gmap string OAuthProvider;
  oauth_sessions : SessionService;
  stateLife : Z;
}.

(** [base64.RawURLEncoding]. *)
Definition url_alphabet (c : ascii) : ascii :=
  if Ascii.eqb c "+" then "-"%char else if Ascii.eqb c "/" then "_"%char else c.
Fixpoint map_chars (f : ascii → ascii) (s : string) : string :=
  match s with EmptyString => "" | String c s => String (f c) (map_chars f s) end.
Definition b64url_encode (s : string) : string := map_chars url_alphabet (b64_encode s).

Module OAuth.
Section oauth.
Context `{Unicode, MailParser, Postgres, Crypto, URLParser} (s : OAuthSignInService).

Definition oauthStateBytes : nat := 32.
Definition maxOAuthStateLength : Z := 64.
Definition maxOAuthCodeLength : Z := 2048.
Definition maxOAuthSubjectLength : Z := 255.

Definition NewOAuthSignInService (providers : gmap string OAuthProvider) (sessions : SessionService) (stateLifetime : Z)
  : outcome OAuthSignInService :=
  if stateLifetime <? second then Err ErrOAuthProviderUnavailable
  else Ok (mkOAuthService providers sessions stateLifetime).

Definition oauthFailure (_ : error) : error := ErrOAuthAuthenticationFailed.

Definition validateOAuthProfile (profile : OAuthProfile) : outcome unit :=
  if String.eqb (Subject profile) "" || (maxOAuthSubjectLength <? len (Subject profile))
     || contains_break (Subject profile)
  then Err ErrOAuthAuthenticationFailed else Ok tt.

Definition normalizeOAuthState (raw : string) : outcome string :=
  if negb (len raw =? maxOAuthStateLength) then Err ErrOAuthStateInvalid
  else if negb (hex_decodes raw) then Err ErrOAuthStateInvalid
  else Ok raw.

Definition newOAuthState : M string :=
  let! value := rand_Read oauthStateBytes (Errorf "generate oauth state" (Opaque "random source unavailable")) in
  ret (hex_encode value).
Definition newPKCEVerifier : M (string * string) :=
  let! value := rand_Read oauthStateBytes
    (Errorf "generate oauth code verifier" (Opaque "random source unavailable")) in
  let verifier := b64url_encode value in
  ret (verifier, b64url_encode (sha256 verifier)).

Definition safeOAuthURL (raw : string) : bool :=
  match url_Parse raw with
  | Some (scheme, host, user) =>
    (String.eqb scheme "https" || String.eqb scheme "http") && negb (String.eqb host "") && negb user
  | None => false
  end.

(** [createdAt + int64(s.stateLife/time.Second)], at width 64. *)
Definition state_expiry (createdAt : Z) : Z := wrap64 (createdAt + Z.quot (stateLife s) second).

(** What [Start] and [StartLink] share once the provider is known. *)
Definition issue_state (p : OAuthProvider) (c : OAuthProviderClient) (action : string) (userID : Z)
  : M (string * string) :=
  let! state := newOAuthState in
  let! (verifier, challenge) := newPKCEVerifier in
  let! createdAt := unix_now in
  guard (state_expiry createdAt <=? createdAt) ErrOAuthStateInvalid ;;;
  let! authorizationURL := map_err oauthFailure (AuthorizationURL c state challenge) in
  guard (negb (safeOAuthURL authorizationURL)) ErrOAuthAuthenticationFailed ;;;
  map_err oauthFailure (CreateOAuthState
    (mkOAuthState state (canonicalProviderName (provider_Name p)) action userID verifier
       createdAt (state_expiry createdAt))) ;;;
  ret (authorizationURL, state).

Definition Start (providerName : string) : M (string * string) :=
  match providerClient (oauth_providers s) providerName with
  | None => throw ErrOAuthProviderUnavailable
  | Some (p, c) => issue_state p c oauthActionSignIn 0
  end.

Definition StartLink (userID : Z) (providerName : string) : M (string * string) :=
  guard (userID <=? 0) ErrOAuthAuthenticationFailed ;;;
  map_err (λ _, Sentinel ErrOAuthAuthenticationFailed) (FindUserByID userID) ;;;
  match providerClient (oauth_providers s) providerName with
  | None => throw ErrOAuthProviderUnavailable
  | Some (p, c) => issue_state p c oauthActionLink userID
  end.

(** The stored state, the provider's canonical name, its client and the time
    of the callback. *)
Definition consumeCallbackState (providerName rawState : string)
  : M (OAuthState * string * OAuthProviderClient * Z) :=
  let! state := lift (normalizeOAuthState rawState) in
  match providerClient (oauth_providers s) providerName with
  | None => throw ErrOAuthProviderUnavailable
  | Some (p, c) =>
    let! now := unix_now in
    let! stored := map_err (λ _, Sentinel ErrOAuthStateInvalid) (ConsumeOAuthState state now) in
    let canonicalName := canonicalProviderName (provider_Name p) in
    guard (negb (String.eqb (state_Provider stored) canonicalName) || (state_ExpiresAt stored <=? now)
           || String.eqb (state_State stored) "" || negb (String.eqb (state_State stored) state))
      ErrOAuthStateInvalid ;;;
    ret (stored, canonicalName, c, now)
  end.

Definition exchangeOAuthProfile (c : OAuthProviderClient) (code codeVerifier : string) : M OAuthProfile :=
  guard (String.eqb codeVerifier "") ErrOAuthStateInvalid ;;;
  let! profile := map_err oauthFailure (Exchange c code codeVerifier) in
  lift (validateOAuthProfile profile) ;;;
  ret profile.

Definition signInExistingIdentity (identity : OAuthIdentity) : M OAuthSignInResult :=
  guard (identity_UserID identity <=? 0) ErrOAuthAuthenticationFailed ;;;
  let! user := map_err oauthFailure (FindUserByID (identity_UserID identity)) in
  guard (negb (user_ID user =? identity_UserID identity)) ErrOAuthAuthenticationFailed ;;;
  let! session := map_err oauthFailure (Create (oauth_sessions s) (user_ID user)) in
  ret (mkOAuthResult (with_PasswordHash None user) session).

Definition oauth_user (email displayName : string) (now : Z) : User :=
  mkUser 0 (Some email) None None (optionalString displayName) false false
    defaultUserTheme defaultUserLocale now (Some now) 0.

Definition createOAuthAccount (providerName : string) (profile : OAuthProfile) (now : Z)
  : M OAuthSignInResult :=
  guard (negb (EmailVerified profile)) ErrOAuthAuthenticationFailed ;;;
  guard (String.eqb (profile_Email profile) "") ErrOAuthAuthenticationFailed ;;;
  let! email := map_err oauthFailure (lift (NormalizeEmail (profile_Email profile))) in
  guard (String.eqb email "") ErrOAuthAuthenticationFailed ;;;
  let! existing := attempt (FindUserByEmail email) in
  match existing with
  | Ok user => guard (0 <? user_ID user) ErrOAuthEmailConflict
  | Err e => guard (negb (errors_Is e ErrUserNotFound)) (oauthFailure e)
  end ;;;
  let! displayName := map_err oauthFailure (lift (normalizeDisplayName (DisplayName profile))) in
  let! created := map_err oauthFailure (CreateUser (oauth_user email displayName now)) in
  guard (user_ID created <=? 0) ErrOAuthAuthenticationFailed ;;;
  map_err oauthFailure
    (CreateOAuthIdentity (mkIdentity 0 (user_ID created) providerName (Subject profile) email now)) ;;;
  let! session := map_err oauthFailure (Create (oauth_sessions s) (user_ID created)) in
  ret (mkOAuthResult (with_PasswordHash None created) session).

Definition signInWithProfile (canonicalName : string) (profile : OAuthProfile) (now : Z)
  : M OAuthSignInResult :=
  let! found := attempt (FindOAuthIdentity canonicalName (Subject profile)) in
  match found with
  | Ok identity => signInExistingIdentity identity
  | Err e => if errors_Is e ErrOAuthIdentityNotFound then createOAuthAccount canonicalName profile now
             else throw (oauthFailure e)
  end.

Definition code_refused (code : string) : bool :=
  String.eqb (TrimSpace code) "" || (maxOAuthCodeLength <? len code).

Definition Callback (providerName code rawState : string) : M OAuthSignInResult :=
  guard (code_refused code) ErrOAuthAuthenticationFailed ;;;
  let! (stored, canonicalName, c, now) := consumeCallbackState providerName rawState in
  guard (negb (String.eqb (state_Action stored) oauthActionSignIn) || negb (state_UserID stored =? 0))
    ErrOAuthStateInvalid ;;;
  let! profile := exchangeOAuthProfile c code (state_CodeVerifier stored) in
  signInWithProfile canonicalName profile now.

(** The verified e-mail of the profile also verifies the account's. *)
Definition confirm_linked_email (user : User) (profile : OAuthProfile) (email : string) (now : Z) : M unit :=
  match user_Email user with
  | Some accountEmail =>
    if EmailVerified profile && negb (String.eqb email "")
       && match NormalizeEmail accountEmail with Ok a => String.eqb a email | Err _ => false end
       && is_nil (user_EmailVerifiedAt user)
    then let! updated := map_err oauthFailure (UpdateUser (with_EmailVerifiedAt (Some now) user) (user_Version user)) in
         guard (negb (user_ID updated =? user_ID user)) ErrOAuthAuthenticationFailed
    else ret tt
  | None => ret tt
  end.

Definition linkProfile (actorUserID : Z) (canonicalName : string) (profile : OAuthProfile) (now : Z) : M unit :=
  let! found := attempt (FindOAuthIdentity canonicalName (Subject profile)) in
  match found with
  | Ok _ => throw ErrOAuthIdentityConflict
  | Err e => guard (negb (errors_Is e ErrOAuthIdentityNotFound)) (oauthFailure e)
  end ;;;
  let! user := map_err oauthFailure (FindUserByID actorUserID) in
  guard (negb (user_ID user =? actorUserID)) ErrOAuthAuthenticationFailed ;;;
  let! email := (if String.eqb (profile_Email profile) "" then ret "" else
    let! email := map_err oauthFailure (lift (NormalizeEmail (profile_Email profile))) in
    guard (String.eqb email "") ErrOAuthAuthenticationFailed ;;; ret email) in
  map_err (λ e, if errors_Is e ErrOAuthIdentityConflict then Sentinel ErrOAuthIdentityConflict else oauthFailure e)
    (CreateOAuthIdentity (mkIdentity 0 actorUserID canonicalName (Subject profile) email now)) ;;;
  confirm_linked_email user profile email now.

Definition CallbackLink (actorUserID : Z) (providerName code rawState : string) : M unit :=
  guard ((actorUserID <=? 0) || code_refused code) ErrOAuthAuthenticationFailed ;;;
  let! (stored, canonicalName, c, now) := consumeCallbackState providerName rawState in
  guard (negb (String.eqb (state_Action stored) oauthActionLink) || negb (state_UserID stored =? actorUserID))
    ErrOAuthStateInvalid ;;;
  let! profile := exchangeOAuthProfile c code (state_CodeVerifier stored) in
  linkProfile actorUserID canonicalName profile now.

Definition CompleteCallback (actorUserID : Z) (providerName code rawState : string) : M OAuthCallbackResult :=
  guard (code_refused code) ErrOAuthAuthenticationFailed ;;;
  let! (stored, canonicalName, c, now) := consumeCallbackState providerName rawState in
  guard (if String.eqb (state_Action stored) oauthActionSignIn then negb (state_UserID stored =? 0)
         else if String.eqb (state_Action stored) oauthActionLink
         then (state_UserID stored <=? 0) || negb (state_UserID stored =? actorUserID)
         else true) ErrOAuthStateInvalid ;;;
  let! profile := exchangeOAuthProfile c code (state_CodeVerifier stored) in
  if String.eqb (state_Action stored) oauthActionLink
  then linkProfile (state_UserID stored) canonicalName profile now ;;; ret (Linked (state_UserID stored))
  else let! result := signInWithProfile canonicalName profile now in ret (SignedIn result).

Definition Unlink (userID identityID : Z) : M unit :=
  guard ((userID <=? 0) || (identityID <=? 0)) ErrOAuthIdentityNotFound ;;;
  let! user := map_err (λ _, Sentinel ErrOAuthIdentityNotFound) (FindUserByID userID) in
  let! identities := map_err oauthFailure (ListOAuthIdentities userID) in
  match List.find (λ i, (identity_ID i =? identityID) && (identity_UserID i =? userID)) identities with
  | None => throw ErrOAuthIdentityNotFound
  | Some target =>
    guard (is_nil (user_PasswordHash user) && (Z.of_nat (length identities) <=? 1)) ErrOAuthLastSignInMethod ;;;
    map_err oauthFailure (DeleteOAuthIdentity userID (identity_ID target))
  end.
End oauth.
End OAuth.
