(* ===== verification/SSOClient.v ===== *)
(** * Single sign-on in a client app: internal/service/sso_client.go

    Sign-in through the issuer, the upgrade of a guest into an issuer account
    and back-channel logout.  The OpenID Connect client is the record of
    functions [SSORelyingParty]. *)
From S2P Require Export SSOProvider OAuth Settings.
Import UserRepository Sessions SessionRepository OAuthStateRepository OAuthIdentityRepository
  SSOGuestUpgradeRepository OAuth.

Record SSOCallbackResult := mkSSOResult { sso_Session : Session; Upgraded : bool }.

Record SSOIdentity := mkSSOIdentity {
  sso_Subject : string;
  sso_Email : string;
  sso_EmailVerified : bool;
  sso_Name : string;
  sso_Locale : string;
  sso_SessionID : string;
  sso_IDToken : string;
}.

Record SSORelyingParty := mkRelyingParty {
  rp_AuthorizationURL : string → string → M string;
  rp_Exchange : string → string → M SSOIdentity;
  VerifyLogoutToken : string → M string;
  EndSessionURL : string → string → M string;
}.

(** [SSOClientService]; the state lifetime in nanoseconds. *)
Record SSOClientService := mkSSOClient {
  relyingParty : SSORelyingParty;
  client_sessions : SessionService;
  client_stateLife : Z;
  postLogoutURL : string;
}.

Module SSOClient.
Section client.
Context `{Unicode, MailParser, Postgres, Crypto, URLParser}.

Definition SSOProviderName : string := "sso".

Definition NewSSOClientService (rp : SSORelyingParty) (sessions : SessionService) (stateLifetime : Z)
    (postLogout : string) : outcome SSOClientService :=
  if (stateLifetime <? second) || negb (safeOAuthURL postLogout) then Err ErrOAuthProviderUnavailable
  else Ok (mkSSOClient rp sessions stateLifetime postLogout).

Context (s : SSOClientService).

Definition start (action : string) (userID : Z) : M (string * string) :=
  let! state := newOAuthState in
  let! (verifier, challenge) := newPKCEVerifier in
  let! createdAt := unix_now in
  let! authorizationURL := map_err (λ e, Join ErrSSOUnavailable e)
    (rp_AuthorizationURL (relyingParty s) state challenge) in
  guard (negb (safeOAuthURL authorizationURL)) ErrSSOSignInFailed ;;;
  map_err (Errorf "store sign-in state") (CreateOAuthState
    (mkOAuthState state SSOProviderName action userID verifier createdAt
       (wrap64 (createdAt + Z.quot (client_stateLife s) second)))) ;;;
  ret (authorizationURL, state).

Definition Start : M (string * string) := start oauthActionSignIn 0.

Definition StartUpgrade (guestID : Z) : M (string * string) :=
  guard (guestID <=? 0) ErrInvalidUserID ;;;
  let! guest := map_err (λ _, Sentinel ErrGuestUpgradeRequiresGuest) (FindUserByID guestID) in
  guard (negb (user_ID guest =? guestID) || negb (user_IsGuest guest)) ErrGuestUpgradeRequiresGuest ;;;
  start oauthActionLink guestID.

(** The normalized address, or none when it cannot be used. *)
Definition usable_email (raw : string) : string :=
  match NormalizeEmail raw with Ok e => e | Err _ => "" end.
(** The normalized name when there is one. *)
Definition usable_name (raw : string) : option string :=
  match normalizeDisplayName raw with
  | Ok n => if String.eqb n "" then None else Some n
  | Err _ => None
  end.

(** The guest's record with what the issuer vouches for. *)
Definition upgraded_guest (guest : User) (identity : SSOIdentity) (email : string) (now : Z) : User :=
  let u := with_IsGuest false guest in
  let u := if String.eqb email "" then u else
    let u := with_Email (Some email) u in
    if sso_EmailVerified identity then with_EmailVerifiedAt (Some now) u else u in
  match usable_name (sso_Name identity) with
  | Some name => if is_nil (user_DisplayName u) then with_DisplayName (Some name) u else u
  | None => u
  end.

Definition reject_taken_email (email : string) : M unit :=
  if String.eqb email "" then ret tt else
  let! existing := attempt (FindUserByEmail email) in
  match existing with
  | Ok user => guard (0 <? user_ID user) ErrOAuthEmailConflict
  | Err e => guard (negb (errors_Is e ErrUserNotFound)) (Errorf "find account by email" e)
  end.

Definition upgradeGuest (guestID : Z) (identity : SSOIdentity) (now : Z) : M SSOCallbackResult :=
  let! guest := map_err (λ _, Sentinel ErrGuestUpgradeRequiresGuest) (FindUserByID guestID) in
  guard (negb (user_ID guest =? guestID) || negb (user_IsGuest guest)) ErrGuestUpgradeRequiresGuest ;;;
  let! found := attempt (FindOAuthIdentity SSOProviderName (sso_Subject identity)) in
  match found with
  | Ok _ => throw ErrSSOGuestIdentityTaken
  | Err e => guard (negb (errors_Is e ErrOAuthIdentityNotFound)) (Errorf "find identity" e)
  end ;;;
  let email := usable_email (sso_Email identity) in
  reject_taken_email email ;;;
  let! saved := map_err (λ e, if errors_Is e ErrDuplicateEmail then Sentinel ErrOAuthEmailConflict
                              else if errors_Is e ErrOAuthIdentityConflict then Sentinel ErrSSOGuestIdentityTaken
                              else Errorf "upgrade guest" e)
    (UpgradeGuestWithIdentity (upgraded_guest guest identity email now) (user_Version guest)
       (mkIdentity 0 guestID SSOProviderName (sso_Subject identity) email now) now) in
  guard (negb (user_ID saved =? guestID) || user_IsGuest saved) ErrInvalidUpgradedUser ;;;
  map_err (Errorf "revoke guest sessions") (RevokeUser (client_sessions s) guestID) ;;;
  let! session := map_err (Errorf "create session")
    (CreateSSO (client_sessions s) guestID (sso_SessionID identity) (sso_IDToken identity)) in
  ret (mkSSOResult session true).

Definition newSSOUser (identity : SSOIdentity) (email : string) (now : Z) : User :=
  mkUser 0 (if String.eqb email "" then None else Some email) None None (usable_name (sso_Name identity))
    false false defaultUserTheme
    (if Settings.Supported (sso_Locale identity) then sso_Locale identity else defaultUserLocale)
    now (if negb (String.eqb email "") && sso_EmailVerified identity then Some now else None) 0.

(** The issuer-owned fields copied onto the account. *)
Definition refreshed (user : User) (identity : SSOIdentity) (email : string) (now : Z) : User * bool :=
  let r := if negb (String.eqb email "") && negb (bool_decide (user_Email user = Some email))
           then (with_EmailVerifiedAt None (with_Email (Some email) user), true) else (user, false) in
  let r := if negb (String.eqb email "") && sso_EmailVerified identity && is_nil (user_EmailVerifiedAt r.1)
           then (with_EmailVerifiedAt (Some now) r.1, true) else r in
  match usable_name (sso_Name identity) with
  | Some name => if negb (bool_decide (user_DisplayName user = Some name))
                 then (with_DisplayName (Some name) r.1, true) else r
  | None => r
  end.
Definition refresh (user : User) (identity : SSOIdentity) (email : string) (now : Z) : M User :=
  let (updated, changed) := refreshed user identity email now in
  if negb changed then ret user else
  let! saved := attempt (UpdateUser updated (user_Version user)) in
  match saved with Ok saved => ret saved | Err _ => ret user end.

(** The local account an address may be linked to: verified on both sides. *)
Definition linkable_account (identity : SSOIdentity) (email : string) : M (option User) :=
  if String.eqb email "" then ret None else
  let! found := attempt (FindUserByEmail email) in
  match found with
  | Ok found =>
    if 0 <? user_ID found then
      guard (negb (sso_EmailVerified identity) || is_nil (user_EmailVerifiedAt found) || user_IsGuest found)
        ErrOAuthEmailConflict ;;;
      ret (Some found)
    else ret None
  | Err e => guard (negb (errors_Is e ErrUserNotFound)) (Errorf "find account by email" e) ;;; ret None
  end.

Definition account (identity : SSOIdentity) (now : Z) : M User :=
  let email := usable_email (sso_Email identity) in
  let! found := attempt (FindOAuthIdentity SSOProviderName (sso_Subject identity)) in
  match found with
  | Ok existing =>
    let! user := map_err (λ _, Sentinel ErrSSOSignInFailed) (FindUserByID (identity_UserID existing)) in
    guard (negb (user_ID user =? identity_UserID existing)) ErrSSOSignInFailed ;;;
    refresh user identity email now
  | Err e =>
    guard (negb (errors_Is e ErrOAuthIdentityNotFound)) (Errorf "find identity" e) ;;;
    let! linked := linkable_account identity email in
    let! user := match linked with
      | Some user => ret user
      | None => map_err (Errorf "create account") (CreateUser (newSSOUser identity email now)) end in
    map_err (Errorf "link identity") (CreateOAuthIdentity
      (mkIdentity 0 (user_ID user) SSOProviderName (sso_Subject identity) email now)) ;;;
    ret user
  end.

Definition Callback (actorUserID : Z) (code rawState : string) : M SSOCallbackResult :=
  guard (code_refused code) ErrSSOSignInFailed ;;;
  let! state := map_err (λ _, Sentinel ErrOAuthStateInvalid) (lift (normalizeOAuthState rawState)) in
  let! now := unix_now in
  let! stored := map_err (λ _, Sentinel ErrOAuthStateInvalid) (ConsumeOAuthState state now) in
  guard (negb (String.eqb (state_Provider stored) SSOProviderName) || (state_ExpiresAt stored <=? now)
         || String.eqb (state_CodeVerifier stored) "") ErrOAuthStateInvalid ;;;
  guard (if String.eqb (state_Action stored) oauthActionSignIn then negb (state_UserID stored =? 0)
         else if String.eqb (state_Action stored) oauthActionLink
         then (state_UserID stored <=? 0) || negb (state_UserID stored =? actorUserID)
         else true) ErrOAuthStateInvalid ;;;
  let! identity := map_err (λ e, Join ErrSSOSignInFailed e)
    (rp_Exchange (relyingParty s) code (state_CodeVerifier stored)) in
  guard (String.eqb (TrimSpace (sso_Subject identity)) "" || String.eqb (TrimSpace (sso_SessionID identity)) ""
         || String.eqb (sso_IDToken identity) "") ErrSSOSignInFailed ;;;
  if String.eqb (state_Action stored) oauthActionLink then upgradeGuest (state_UserID stored) identity now else
  let! user := account identity now in
  let! session := map_err (Errorf "create session")
    (CreateSSO (client_sessions s) (user_ID user) (sso_SessionID identity) (sso_IDToken identity)) in
  ret (mkSSOResult session false).

Definition BackChannelLogout (logoutToken : string) : M unit :=
  let! sid := map_err (λ _, Sentinel ErrSSOLogoutTokenInvalid) (VerifyLogoutToken (relyingParty s) logoutToken) in
  guard (String.eqb (TrimSpace sid) "") ErrSSOLogoutTokenInvalid ;;;
  let! now := unix_now in
  map_err (Errorf "revoke sessions") (RevokeSSOSessions sid now) ;;;
  ret tt.

Definition SignOutURL (sessionID : string) : M string :=
  if String.eqb (TrimSpace sessionID) "" then ret "" else
  let! idToken := attempt (FindSSOIDToken sessionID) in
  match idToken with
  | Ok idToken => if String.eqb idToken "" then ret ""
                  else EndSessionURL (relyingParty s) idToken (postLogoutURL s)
  | Err _ => ret ""
  end.
End client.
End SSOClient.
