(* ===== verification/AdminReports.v ===== *)
(** * Reports for administrators

    internal/service/usage_report.go, suspicious.go, stats.go,
    admin_diagnostics.go, system.go and runtime.go with their queries in internal/store/postgres.  The
    short cache of the health counts is explicit state beside the world. *)
From S2P Require Export Admin UsageQueue Maintenance SessionStore Encoding OAuth.
Import UserRepository Sessions.

Definition hours (n : Z) : Z := n * 3600 * second.

(** ** Windows and route usage *)
Record RouteUsage := mkRouteUsage { route_Route : string; route_Requests : Z }.
Record RouteUsageQuery := mkRouteQuery { route_Since : Z; route_Until : Z; route_Limit : Z; route_Ascending : bool }.
Record UsageReport := mkUsageReport {
  report_WindowKey : string; report_Window : Z; report_Since : Z; report_Until : Z; report_Ascending : bool;
  report_Routes : list RouteUsage; report_Queue : UsageQueueStats }.
Record AccountUsage := mkAccountUsage { usage_Account : Z; usage_Requests : Z; usage_DistinctOrigins : Z }.
Record AccountUsageQuery := mkAccountQuery {
  account_Since : Z; account_Until : Z; account_ActionThreshold : Z; account_OriginThreshold : Z; account_Limit : Z }.
Record SuspiciousAccount := mkSuspicious {
  suspicious_UserID : Z; suspicious_Requests : Z; suspicious_DistinctOrigins : Z; suspicious_ActionFlag : bool; suspicious_OriginFlag : bool }.
Record SuspiciousReport := mkSuspiciousReport {
  suspicious_WindowKey : string; suspicious_Since : Z; suspicious_Until : Z; suspicious_ActionThreshold : Z;
  suspicious_OriginThreshold : Z; suspicious_Accounts : list SuspiciousAccount }.

Module UsageReports.
Definition DefaultUsageReportLimit : Z := 20.
Definition MaxUsageReportLimit : Z := 100.
Definition SuspiciousActionCountThreshold : Z := 500.
Definition SuspiciousDistinctOriginThreshold : Z := 5.
Definition MaxSuspiciousAccounts : Z := 100.
Definition UsageWindows : list (string * Z) := [("24h", hours 24); ("7d", hours (7 * 24)); ("30d", hours (30 * 24))].
Definition DefaultUsageWindowKey : string := "24h".
Definition Window (key : string) : string * Z :=
  match List.find (λ w, String.eqb w.1 key) UsageWindows with
  | Some w => w
  | None => (DefaultUsageWindowKey, hours 24)
  end.

Section reports.
Context `{Postgres}.

(** Events of [since <= created_at < until]. *)
Definition in_window (since until : Z) (e : UsageEvent) : Prop := since ≤ usage_CreatedAt e ∧ usage_CreatedAt e < until.
#[global] Instance in_window_dec since until e : Decision (in_window since until e).
Proof. unfold in_window. apply _. Defined.

(** [GROUP BY route] with its count. *)
Definition route_usage (events : list UsageEvent) : list RouteUsage :=
  (λ route, mkRouteUsage route (Z.of_nat (length (filter (λ e, usage_Route e = route) events))))
  <$> remove_dups (usage_Route <$> events).
Definition route_before (ascending : bool) (a b : RouteUsage) : bool :=
  if route_Requests a =? route_Requests b then
    match sql_text_compare (route_Route a) (route_Route b) with Gt => false | _ => true end
  else if ascending then route_Requests a <? route_Requests b else route_Requests b <? route_Requests a.
Definition route_order ascending : relation RouteUsage := λ a b, route_before ascending a b = true.
#[global] Instance route_order_dec ascending : RelDecision (route_order ascending) := λ a b, decide (route_before ascending a b = true).
Definition QueryRouteUsage (q : RouteUsageQuery) : M (list RouteUsage) :=
  guard ((route_Since q <=? 0) || (route_Until q <=? route_Since q)) ErrInvalidData ;;;
  let limit := if (route_Limit q <=? 0) || (MaxUsageReportLimit <? route_Limit q) then DefaultUsageReportLimit else route_Limit q in
  let! rows := map_err (wrapOperation "query route usage")
    (query (λ d, Ok (page_of limit 0 (merge_sort (route_order (route_Ascending q))
       (route_usage (filter (in_window (route_Since q) (route_Until q)) (usage_events d))))))) in
  guard (existsb (λ u, String.eqb (TrimSpace (route_Route u)) "") rows) ErrInvalidData ;;;
  ret rows.
(** [UsageReportService.Report]; [queue] is the live usage queue. *)
Definition Report (queue : M UsageQueueStats) (windowKey : string) (ascending : bool) : M UsageReport :=
  let '(key, duration) := Window windowKey in
  let! until := time_Now in
  let since := until - duration in
  let! rows := QueryRouteUsage (mkRouteQuery (Unix since) (Unix until) DefaultUsageReportLimit ascending) in
  let! stats := queue in
  ret (mkUsageReport key duration (Unix since) (Unix until) ascending rows stats).

(** ** Accounts worth a look *)

(** [GROUP BY user_id]: requests and distinct addresses of each account. *)
Definition account_usage (events : list UsageEvent) : list AccountUsage :=
  (λ user, let own := filter (λ e, usage_UserID e = Some user) events in
           mkAccountUsage user (Z.of_nat (length own)) (Z.of_nat (length (remove_dups (omap usage_IP own)))))
  <$> remove_dups (omap usage_UserID events).
Definition busier (a b : AccountUsage) : bool :=
  if usage_Requests a =? usage_Requests b then usage_Account a <=? usage_Account b else usage_Requests b <? usage_Requests a.
Definition busier_rel : relation AccountUsage := λ a b, busier a b = true.
#[global] Instance busier_dec : RelDecision busier_rel := λ a b, decide (busier a b = true).
Definition over_threshold (q : AccountUsageQuery) (u : AccountUsage) : bool :=
  (account_ActionThreshold q <=? usage_Requests u) || (account_OriginThreshold q <=? usage_DistinctOrigins u).
Definition QueryAccountUsage (q : AccountUsageQuery) : M (list AccountUsage) :=
  guard ((account_Since q <=? 0) || (account_Until q <=? account_Since q) || (account_ActionThreshold q <=? 0) || (account_OriginThreshold q <=? 0))
    ErrInvalidData ;;;
  let limit := if (account_Limit q <=? 0) || (MaxSuspiciousAccounts <? account_Limit q) then MaxSuspiciousAccounts else account_Limit q in
  let! rows := map_err (wrapOperation "query suspicious accounts")
    (query (λ d, Ok (page_of limit 0 (merge_sort busier_rel
       (filter (λ u, over_threshold q u = true) (account_usage (filter (in_window (account_Since q) (account_Until q)) (usage_events d)))))))) in
  guard (existsb (λ u, usage_Account u <=? 0) rows) ErrInvalidData ;;;
  ret rows.
Definition suspicious_account (u : AccountUsage) : SuspiciousAccount :=
  mkSuspicious (usage_Account u) (usage_Requests u) (usage_DistinctOrigins u)
    (SuspiciousActionCountThreshold <=? usage_Requests u) (SuspiciousDistinctOriginThreshold <=? usage_DistinctOrigins u).
(** [SuspiciousAccountService.Report]. *)
Definition SuspiciousReport_ (windowKey : string) : M SuspiciousReport :=
  let '(key, duration) := Window windowKey in
  let! until := time_Now in
  let since := until - duration in
  let! rows := QueryAccountUsage (mkAccountQuery (Unix since) (Unix until) SuspiciousActionCountThreshold
    SuspiciousDistinctOriginThreshold MaxSuspiciousAccounts) in
  ret (mkSuspiciousReport key (Unix since) (Unix until) SuspiciousActionCountThreshold SuspiciousDistinctOriginThreshold
         (suspicious_account <$> List.filter (λ u, 0 <? usage_Account u) rows)).
End reports.
End UsageReports.

(** ** Health counts *)
Record AccountCounts := mkAccountCounts {
  count_Total : Z; count_Guests : Z; count_Administrators : Z; count_Unconfirmed : Z; count_WithoutPassword : Z }.
Record DatastoreCounts := mkCounts {
  counts_TotalAccounts : Z; counts_GuestAccounts : Z; counts_AdministratorAccounts : Z; counts_UnconfirmedAccounts : Z;
  counts_AccountsWithoutPassword : Z; counts_ActiveSessions : Z; counts_ExpiredSessions : Z; counts_ExpiredEmailTokens : Z;
  counts_ExpiredPasswordResetTokens : Z; counts_ExpiredOAuthStates : Z; counts_RecentFailedSignIns : Z; counts_CurrentLockouts : Z }.
(** The cached counts and when they were taken. *)
Definition StatsCache : Type := option (DatastoreCounts * Z).

Module DatastoreStats.
Definition RecentFailedSignInWindow : Z := hours 24.
Definition DefaultDatastoreStatsCacheTTL : Z := 10 * second.

Definition users_where (P : User → bool) (d : DB) : Z := count_rows (λ kv, P kv.2) (users d).
Definition CountAccounts : M AccountCounts :=
  map_err (wrapOperation "count accounts") (query (λ d, Ok (mkAccountCounts
    (users_where (λ _, true) d) (users_where user_IsGuest d) (users_where user_IsAdmin d)
    (users_where (λ u, negb (user_IsGuest u) && negb (is_nil (user_Email u)) && is_nil (user_EmailVerifiedAt u)) d)
    (users_where (λ u, is_nil (user_PasswordHash u)) d)))).
Definition count (operation : string) (argument : Z) (sql : DB → Z) : M Z :=
  guard (argument <=? 0) ErrInvalidData ;;;
  map_err (wrapOperation operation) (query (λ d, Ok (sql d))).
Definition session_live (now : Z) (s : Session) : bool := is_nil (session_RevokedAt s) && (now <? session_ExpiresAt s).
Definition CountActiveSessions (now : Z) : M Z :=
  count "count active sessions" now (λ d, count_rows (λ kv, session_live now kv.2) (sessions d)).
Definition CountExpiredSessions (now : Z) : M Z :=
  count "count expired sessions" now (λ d, count_rows (λ kv, negb (is_nil (session_RevokedAt kv.2)) || (session_ExpiresAt kv.2 <=? now)) (sessions d)).
Definition CountExpiredEmailTokens (now : Z) : M Z :=
  count "count expired email tokens" now (λ d, count_rows (λ kv, RetentionRepository.expired_token now kv.2.2) (email_tokens d)).
Definition CountExpiredPasswordResetTokens (now : Z) : M Z :=
  count "count expired password reset tokens" now (λ d, count_rows (λ kv, RetentionRepository.expired_token now kv.2.2) (reset_tokens d)).
Definition CountExpiredOAuthStates (now : Z) : M Z :=
  count "count expired oauth states" now (λ d, count_rows (λ kv, RetentionRepository.expired_state now kv.2) (oauth_states d)).
Definition CountRecentFailedSignIns (since : Z) : M Z :=
  count "count recent failed sign-ins" since (λ d, Z.of_nat (length
    (filter (λ a, attempt_Outcome a = "invalid_credentials" ∧ since ≤ attempt_CreatedAt a) (login_attempts d)))).

(** [loadCounts] at the time [now] in nanoseconds. *)
Definition loadCounts (now : Z) : M DatastoreCounts :=
  let! accounts := CountAccounts in
  let! activeSessions := CountActiveSessions (Unix now) in
  let! expiredSessions := CountExpiredSessions (Unix now) in
  let! expiredEmailTokens := CountExpiredEmailTokens (Unix now) in
  let! expiredResetTokens := CountExpiredPasswordResetTokens (Unix now) in
  let! expiredStates := CountExpiredOAuthStates (Unix now) in
  let! failedSignIns := CountRecentFailedSignIns (Unix (now - RecentFailedSignInWindow)) in
  ret (mkCounts (count_Total accounts) (count_Guests accounts) (count_Administrators accounts) (count_Unconfirmed accounts)
         (count_WithoutPassword accounts) activeSessions expiredSessions expiredEmailTokens expiredResetTokens expiredStates failedSignIns 0).

(** A service call beside its cache. *)
Definition cached_world {A} (m : M A) : ST (World * StatsCache) A := λ s, let (w, r) := m s.1 in ((w, s.2), r).
Definition with_lockouts (n : Z) (c : DatastoreCounts) : DatastoreCounts :=
  mkCounts (counts_TotalAccounts c) (counts_GuestAccounts c) (counts_AdministratorAccounts c) (counts_UnconfirmedAccounts c)
    (counts_AccountsWithoutPassword c) (counts_ActiveSessions c) (counts_ExpiredSessions c) (counts_ExpiredEmailTokens c)
    (counts_ExpiredPasswordResetTokens c) (counts_ExpiredOAuthStates c) (counts_RecentFailedSignIns c) n.
Section service.
Context (cacheTTL : Z) (lockouts : M Z).
Definition cachedCounts (now : Z) : ST (World * StatsCache) DatastoreCounts :=
  let! cached := gets snd in
  match cached with
  | Some (counts, cachedAt) =>
    if (0 <? cacheTTL) && (now - cachedAt <? cacheTTL) then ret counts else
    let! counts := cached_world (loadCounts now) in
    modify (λ s, (s.1, Some (counts, now))) ;;; ret counts
  | None =>
    let! counts := cached_world (loadCounts now) in
    modify (λ s, (s.1, Some (counts, now))) ;;; ret counts
  end.
(** [Counts]: current lockouts are always read live. *)
Definition Counts : ST (World * StatsCache) DatastoreCounts :=
  let! now := cached_world time_Now in
  let! counts := cachedCounts now in
  let! locked := cached_world lockouts in
  ret (with_lockouts locked counts).
End service.
End DatastoreStats.

(** ** One account's diagnostics *)
Record AdminUserDetail := mkAdminDetail {
  admin_User : User; admin_Confirmed : bool; admin_ConfirmationLinkActive : bool; admin_ConfirmationLinkExpiry : Z;
  admin_Sessions : list Session; admin_LoginAttempts : list LoginAttempt; admin_Identities : list OAuthIdentity }.

Module AdminDiagnostics.
Section diagnostics.
Context `{Unicode, Postgres}.

(** [ORDER BY created_at DESC, id DESC]; the identifiers are digests. *)
Definition session_newer (a b : Session) : bool :=
  if session_CreatedAt a =? session_CreatedAt b then
    match sql_text_compare (session_ID b) (session_ID a) with Gt => false | _ => true end
  else session_CreatedAt b <? session_CreatedAt a.
Definition session_order : relation Session := λ a b, session_newer a b = true.
#[global] Instance session_order_dec : RelDecision session_order := λ a b, decide (session_newer a b = true).
Fixpoint scan_sessions (rows : list Session) : outcome (list Session) :=
  match rows with
  | [] => Ok []
  | row :: rows =>
    match SessionRepository.scanSession row, scan_sessions rows with
    | Ok s, Ok ss => Ok (s :: ss)
    | Err e, _ | _, Err e => Err e
    end
  end.
Definition ListActiveSessions (userID : Z) : M (list Session) :=
  guard (userID <=? 0) ErrInvalidSessionUserID ;;;
  let! now := unix_now in
  map_err SessionRepository.mapSessionError (
    let! rows := query (λ d, Ok (merge_sort session_order
      (filter (λ s, SessionRepository.is_active userID now s = true) (snd <$> map_to_list (sessions d))))) in
    lift (scan_sessions rows)).

Definition Detail (userID : Z) : M AdminUserDetail :=
  guard (userID <=? 0) ErrInvalidUserID ;;;
  let! user := map_err record_not_found (FindUserByID userID) in
  let! active := ListActiveSessions userID in
  let! attempts := AdminHistory.ListLoginAttemptsForUser userID MaxAdminLoginAttempts in
  let! identities := OAuthIdentityRepository.ListOAuthIdentities userID in
  let! now := unix_now in
  let! link := attempt (TokenRepository.FindActiveEmailConfirmationToken userID now) in
  let detail active expiry := mkAdminDetail (with_PasswordHash None user) (negb (is_nil (user_EmailVerifiedAt user))) active expiry in
  match link with
  | Ok link => ret (detail true (token_ExpiresAt link) active attempts identities)
  | Err e => if errors_Is e ErrEmailConfirmationTokenNotFound then ret (detail false 0 active attempts identities) else throw e
  end.
End diagnostics.
End AdminDiagnostics.

(** ** The system overview: internal/service/system.go and runtime.go *)
Record SystemInfoSettings := mkSystemSettings {
  sys_Environment : string; sys_PublicAddress : string; sys_PublicURL : string; sys_EmailConfirmationRequired : bool;
  sys_SecureSessionCookies : bool; sys_Providers : list string; sys_MailConfigured : bool; sys_MailRelay : string;
  sys_SessionLifetime : Z; sys_GuestRetention : Z; sys_LoginAttemptRetention : Z; sys_UsageRetention : Z;
  sys_MaintenanceInterval : Z; sys_TrustedProxy : string; sys_AuthMode : string; sys_SSOIssuer : string; sys_HydraAdmin : string }.
(** The overview and the baseline rate limit it states. *)
Record SystemConfiguration := mkSystemConfiguration {
  conf_settings : SystemInfoSettings; conf_AuthRateLimit : Z; conf_AuthRateLimitWindow : Z; conf_AuthRateLimitMaxKeys : Z }.
Record RuntimeInfo := mkRuntimeInfo {
  rt_Version : string; rt_StartedAt : Z; rt_Uptime : Z; rt_GoVersion : string; rt_GOOS : string; rt_GOARCH : string;
  rt_NumCPU : Z; rt_GOMAXPROCS : Z; rt_Goroutines : Z; rt_HeapAllocBytes : Z; rt_SysBytes : Z; rt_NumGC : Z }.
(** [InstalledAt] in seconds. *)
Record MigrationInfo := mkMigrationInfo {
  mig_Rank : Z; mig_Version : Z; mig_Description : string; mig_Installed : bool; mig_InstalledAt : option Z }.

Module SystemInfo.
Section system.
Context `{Unicode, URLParser}.
Definition AuthenticationRateLimit : Z := 10.
Definition AuthenticationRateLimitWindow : Z := 60 * second.
Definition AuthenticationRateLimitMaxKeys : Z := 10000.
Definition sanitizeURL (raw : string) : string :=
  let trimmed := TrimSpace raw in
  if String.eqb trimmed "" then "" else
  match url_Parse trimmed with
  | Some (scheme, host, _) => if String.eqb host "" then "" else scheme +:+ "://" +:+ host
  | None => ""
  end.
Definition NewSystemInfoService (s : SystemInfoSettings) : SystemInfoSettings :=
  mkSystemSettings (sys_Environment s) (sys_PublicAddress s) (sanitizeURL (sys_PublicURL s)) (sys_EmailConfirmationRequired s)
    (sys_SecureSessionCookies s) (List.filter (λ name, negb (String.eqb name "")) (TrimSpace <$> sys_Providers s)) (sys_MailConfigured s)
    (sanitizeURL (sys_MailRelay s)) (sys_SessionLifetime s) (sys_GuestRetention s) (sys_LoginAttemptRetention s) (sys_UsageRetention s)
    (sys_MaintenanceInterval s) (TrimSpace (sys_TrustedProxy s)) (TrimSpace (sys_AuthMode s)) (sanitizeURL (sys_SSOIssuer s))
    (sanitizeURL (sys_HydraAdmin s)).
Definition SystemConfiguration_ (s : SystemInfoSettings) : SystemConfiguration :=
  mkSystemConfiguration (NewSystemInfoService s) AuthenticationRateLimit AuthenticationRateLimitWindow AuthenticationRateLimitMaxKeys.
End system.
End SystemInfo.

(** What the administrator pages ask of the process: the services that keep
    state in memory (the cached counts, the usage queue, the maintenance
    worker) and the facts of the host. *)
Record AdminPorts := mkAdminPorts {
  port_settings : SystemInfoSettings;
  port_runtime : M RuntimeInfo;
  port_migrations : M (list MigrationInfo);
  port_queue : M UsageQueueStats;
  port_counts : M DatastoreCounts;
  port_jobs : M (list MaintenanceStatus);
  port_run : M (list MaintenanceRun);
}.
