(* ===== verification/Locale.v ===== *)
(** * Localized paths: internal/locale/locale.go

    [ParsePath] and [Path].  [url.Parse] is a parameter; [URL.String] of the
    parsed reference is written out.  The choice among
    preferences is in Catalog.v. *)
From S2P Require Export Encoding Settings.
Import Settings.

(** What [url.Parse] finds in a route. *)
Record Reference := mkReference {
  ref_Scheme : string;
  ref_Host : string;
  ref_Path : string;
  ref_RawQuery : string;
  ref_EscapedFragment : string;
}.
Class ReferenceParser := { parse_reference : string → option Reference }.

(** A route of path characters that starts with one slash is its own path. *)
Definition plain_route (route : string) : bool :=
  match route with
  | String "/" rest => negb (String.prefix "/" rest) && all_chars path_safe rest
  | _ => false
  end.
Class ReferenceParserLaws `{ReferenceParser} : Prop := {
  parse_plain route : plain_route route = true → parse_reference route = Some (mkReference "" "" route "" "");
}.

(** [URL.String] without scheme and host, for a path that starts with a slash. *)
Definition reference_String (r : Reference) : string :=
  escape path_safe (ref_Path r)
  +:+ (if String.eqb (ref_RawQuery r) "" then "" else "?" +:+ ref_RawQuery r)
  +:+ (if String.eqb (ref_EscapedFragment r) "" then "" else "#" +:+ ref_EscapedFragment r).

Module Locale.
Definition English : string := "en".
Definition Hungarian : string := "hu".
Definition Default : string := English.
Definition Codes : list string := [English; Hungarian].

(** [strings.SplitN(s, "/", 2)]. *)
Fixpoint cut_slash (s : string) : string * option string :=
  match s with
  | EmptyString => ("", None)
  | String c s => if Ascii.eqb c "/" then ("", Some s)
                  else let (a, b) := cut_slash s in (String c a, b)
  end.

Definition ParsePath (path : string) : option (string * string) :=
  match path with
  | String "/" trimmed =>
    if String.eqb trimmed "" then None else
    let (code, rest) := cut_slash trimmed in
    if negb (Supported code) then None else
    match rest with
    | None => Some (code, "/")
    | Some "" => Some (code, "/")
    | Some rest => if String.prefix "/" rest then None else Some (code, String "/" rest)
    end
  | _ => None
  end.

(** [strings.TrimPrefix(s, "/")]. *)
Definition trim_slash (s : string) : string := match s with String "/" s => s | _ => s end.

Definition Path `{ReferenceParser} (code route : string) : outcome string :=
  if negb (Supported code) then Err (Opaque "locale: unsupported language") else
  match parse_reference route with
  | None => Err (Opaque "locale: invalid path")
  | Some parsed =>
    if negb (String.eqb (ref_Scheme parsed) "") || negb (String.eqb (ref_Host parsed) "")
       || negb (String.prefix "/" (ref_Path parsed)) || String.prefix "//" (ref_Path parsed)
    then Err (Opaque "locale: invalid path") else
    let path := trim_slash (ref_Path parsed) in
    let path := if String.eqb path "" then "/" else String "/" path in
    Ok (reference_String (mkReference "" "" ("/" +:+ code +:+ path) (ref_RawQuery parsed) (ref_EscapedFragment parsed)))
  end.

(** ** Facts *)
Lemma Supported_cases code : Supported code = true → code = "en" ∨ code = "hu".
Proof. unfold Supported. rewrite orb_true_iff, !String.eqb_eq. done. Qed.

Lemma escape_safe s : all_chars path_safe s = true → escape path_safe s = s.
Proof. induction s as [|c s IH]; [done|]. cbn [all_chars escape]. intros [-> Hs]%andb_true_iff. by rewrite IH. Qed.

Lemma ParsePath_prefixed code rest :
  Supported code = true → String.prefix "/" rest = false →
  ParsePath ("/" +:+ code +:+ String "/" rest) = Some (code, String "/" rest).
Proof.
  intros Hc Hr. assert (E : ParsePath ("/" +:+ code +:+ String "/" rest) =
    match rest with EmptyString => Some (code, "/") | _ => if String.prefix "/" rest then None else Some (code, String "/" rest) end).
  { by apply Supported_cases in Hc as [->| ->]; destruct rest. }
  rewrite E, Hr. by destruct rest.
Qed.

(** A plain route under a supported language reads back as both. *)
Lemma ParsePath_Path `{ReferenceParserLaws} code route :
  Supported code = true → plain_route route = true →
  ∃ path, Path code route = Ok path ∧ ParsePath path = Some (code, route) ∧ plain_route path = true.
Proof.
  intros Hc Hr. unfold Path. rewrite Hc, (parse_plain route Hr). destruct route as [|c rest]; [done|].
  cbn [plain_route] in Hr. destruct (Ascii.eqb_spec c "/") as [->|Hne].
  2: { exfalso. revert Hr. clear -Hne. destruct c as [[] [] [] [] [] [] [] []]; done. }
  apply andb_true_iff in Hr as [Hr Hs]. apply negb_true_iff in Hr.
  cbn [ref_Scheme ref_Host ref_Path String.eqb negb orb].
  assert (E1 : String.prefix "/" (String "/" rest) = true) by (by destruct rest).
  assert (E2 : String.prefix "//" (String "/" rest) = String.prefix "/" rest) by done.
  rewrite E1, E2, Hr. cbn [negb orb trim_slash].
  eexists. split; [reflexivity|]. unfold reference_String. cbn [ref_Path ref_RawQuery ref_EscapedFragment String.eqb].
  rewrite !str_app_nil_r.
  assert (Hp : (if String.eqb rest "" then "/" else String "/" rest) = String "/" rest).
  { destruct rest; done. }
  rewrite Hp. assert (Ha : all_chars path_safe ("/" +:+ code +:+ String "/" rest) = true).
  { apply Supported_cases in Hc as [->| ->]; simpl; exact Hs. }
  rewrite escape_safe by done. split; [|by apply Supported_cases in Hc as [->| ->]; simpl].
  by apply ParsePath_prefixed.
Qed.
End Locale.
