(* ===== verification/Catalog.v ===== *)
(** * Message catalogs: internal/locale/catalog.go

    Validation, completeness and rendering of messages.  Reading directories
    and decoding JSON are the caller's: a file is its name with the decoded
    document.  Every error wraps one of the four sentinels and is that sentinel
    here. *)
From S2P Require Export Locale.
From Stdlib Require Import QArith.
Import Settings Locale.
Open Scope Z_scope.

(** A [float64] as [strconv.ParseFloat] returns it. *)
Inductive float := NaN | Inf (negative : bool) | Num (value : Q).
Class FloatParser := { ParseFloat : string → option float }.
Definition float_lt (a b : float) : bool :=
  match a, b with
  | NaN, _ | _, NaN => false
  | Inf n, Inf m => n && negb m
  | Inf n, Num _ => n
  | Num _, Inf m => negb m
  | Num x, Num y => negb (Qle_bool y x)
  end.
Definition float_eqb (a b : float) : bool :=
  match a, b with
  | Inf n, Inf m => Bool.eqb n m
  | Num x, Num y => Qeq_bool x y
  | _, _ => false
  end.

Module Catalog.
Definition ErrInvalidCatalog : error := Opaque "locale: invalid catalog".
Definition ErrMissingMessage : error := Opaque "locale: missing message".
Definition ErrMissingValue : error := Opaque "locale: missing placeholder value".
Definition ErrIncompleteCatalog : error := Opaque "locale: incomplete catalog".

Record Message := mkMessage { Text : string; One : string; Other : string }.
Definition Messages : Type := gmap string Message.
Record Catalogs := mkCatalogs { defaultLanguage : string; messages : gmap string Messages }.

(** [strings.IndexByte] with what is before and after the byte. *)
Fixpoint cut_byte (b : ascii) (s : string) : option (string * string) :=
  match s with
  | EmptyString => None
  | String c s => if Ascii.eqb c b then Some ("", s)
                  else match cut_byte b s with Some (before, after) => Some (String c before, after) | None => None end
  end.

(** The loops read one placeholder a turn: the length of the text is enough. *)
Fixpoint placeholders_fuel (fuel : nat) (text : string) : outcome (gset string) :=
  match fuel with
  | O => Ok ∅
  | S fuel =>
    match cut_byte "{" text with
    | None => Ok ∅
    | Some (_, rest) =>
      match cut_byte "}" rest with
      | None => Err ErrInvalidCatalog
      | Some (name, text) =>
        if String.eqb name "" then Err ErrInvalidCatalog else
        match placeholders_fuel fuel text with Ok names => Ok ({[name]} ∪ names) | Err e => Err e end
      end
    end
  end.
Definition placeholders (text : string) : outcome (gset string) := placeholders_fuel (String.length text) text.

Fixpoint interpolate_fuel (fuel : nat) (text : string) (values : gmap string string) : outcome string :=
  match fuel with
  | O => Ok ""
  | S fuel =>
    match cut_byte "{" text with
    | None => Ok text
    | Some (before, rest) =>
      match cut_byte "}" rest with
      | None => Err ErrInvalidCatalog
      | Some (name, text) =>
        match values !! name with
        | None => Err ErrMissingValue
        | Some value =>
          match interpolate_fuel fuel text values with
          | Ok output => Ok (before +:+ value +:+ output)
          | Err e => Err e
          end
        end
      end
    end
  end.
Definition interpolate (text : string) (values : gmap string string) : outcome string :=
  interpolate_fuel (String.length text) text values.

Definition sameStrings (left right : gset string) : bool :=
  Nat.eqb (size left) (size right) && bool_decide (set_Forall (λ value, value ∈ right) left).

Definition message_id_char (first : bool) (c : ascii) : bool :=
  let b := byte_of c in
  in_range 97 122 b || in_range 48 57 b || Ascii.eqb c "_" || (Ascii.eqb c "." && negb first).
Definition validMessageID (id : string) : bool :=
  match id with
  | EmptyString => false
  | String c rest => message_id_char true c && all_chars (message_id_char false) rest && in_range 97 122 (byte_of c)
  end.

Definition validateMessage (id : string) (message : Message) : outcome unit :=
  if negb (validMessageID id) then Err ErrInvalidCatalog else
  let plain := negb (String.eqb (Text message) "") in
  let plural := negb (String.eqb (One message) "") || negb (String.eqb (Other message) "") in
  if Bool.eqb plain plural || (plural && (String.eqb (One message) "" || String.eqb (Other message) ""))
  then Err ErrInvalidCatalog else
  match placeholders (Text message) with
  | Err _ => Err ErrInvalidCatalog
  | Ok _ =>
    if negb plural then Ok tt else
    match placeholders (One message), placeholders (Other message) with
    | Ok one, Ok other => if sameStrings one other then Ok tt else Err ErrInvalidCatalog
    | _, _ => Err ErrInvalidCatalog
    end
  end.

(** Both texts have placeholders, and the same. *)
Definition same_placeholders (expected actual : string) : bool :=
  match placeholders expected, placeholders actual with
  | Ok expected, Ok actual => sameStrings expected actual
  | _, _ => false
  end.
Definition matchingMessageShape (expected actual : Message) : bool :=
  if negb (Bool.eqb (String.eqb (Text expected) "") (String.eqb (Text actual) "")) then false
  else if negb (String.eqb (Text expected) "") then same_placeholders (Text expected) (Text actual)
  else same_placeholders (One expected) (One actual) && same_placeholders (Other expected) (Other actual).

(** [readCatalog] of a decoded document. *)
Definition readCatalog (document : option Messages) : outcome Messages :=
  match document with
  | None => Err ErrInvalidCatalog
  | Some document =>
    if Nat.eqb (size document) 0 then Err ErrInvalidCatalog
    else if forallb (λ kv, match validateMessage kv.1 kv.2 with Ok _ => true | Err _ => false end) (map_to_list document)
    then Ok document else Err ErrInvalidCatalog
  end.

(** One directory entry: its name, and what its bytes decode to. *)
Record Entry := mkEntry { entry_Name : string; entry_IsDir : bool; entry_Document : option Messages }.
Definition TrimSuffix_json (name : string) : option string :=
  let n := (String.length name - 5)%nat in
  if (5 <=? String.length name)%nat && String.eqb (substring n 5 name) ".json" then Some (substring 0 n name) else None.
Fixpoint load (entries : list Entry) (messages : gmap string Messages) : outcome (gmap string Messages) :=
  match entries with
  | [] => Ok messages
  | entry :: entries =>
    match (if entry_IsDir entry then None else TrimSuffix_json (entry_Name entry)) with
    | None => load entries messages
    | Some language =>
      if negb (Supported language) then Err ErrInvalidCatalog else
      match readCatalog (entry_Document entry) with
      | Err e => Err e
      | Ok catalog =>
        match messages !! language with
        | Some _ => Err ErrInvalidCatalog
        | None => load entries (<[language := catalog]> messages)
        end
      end
    end
  end.
Definition LoadCatalogs (entries : list Entry) : outcome Catalogs :=
  match load entries ∅ with
  | Err e => Err e
  | Ok messages =>
    if Nat.eqb (size messages) 0 then Err ErrInvalidCatalog else
    match messages !! Default with
    | None => Err ErrInvalidCatalog
    | Some _ => Ok (mkCatalogs Default messages)
    end
  end.

Definition complete_language (c : Catalogs) (expected : Messages) (language : string) : bool :=
  match messages c !! language with
  | None => false
  | Some actual =>
    Nat.eqb (size actual) (size expected) &&
    forallb (λ kv, match actual !! kv.1 with Some message => matchingMessageShape kv.2 message | None => false end)
      (map_to_list expected)
  end.
Definition ValidateCompleteness (c : Catalogs) : outcome unit :=
  match messages c !! defaultLanguage c with
  | None => Err ErrIncompleteCatalog
  | Some expected => if forallb (complete_language c expected) Codes then Ok tt else Err ErrIncompleteCatalog
  end.

Definition message (c : Catalogs) (language id : string) : option Message :=
  match messages c !! language ≫= (.!! id) with
  | Some message => Some message
  | None => messages c !! defaultLanguage c ≫= (.!! id)
  end.
Definition form `{FloatParser} (m : Message) (values : gmap string string) : outcome string :=
  if negb (String.eqb (Text m) "") then interpolate (Text m) values else
  match values !! "count" with
  | None => Err ErrMissingValue
  | Some count =>
    match ParseFloat count with
    | None => Err (Opaque "count is not numeric")
    | Some parsed => interpolate (if float_eqb parsed (Num 1) then One m else Other m) values
    end
  end.
Definition Translate `{FloatParser} (c : Catalogs) (language id : string) (values : gmap string string) : outcome string :=
  match message c language id with
  | None => Err ErrMissingMessage
  | Some m => form m values
  end.
End Catalog.

(** ** Facts *)
Section facts.
Import Catalog.
Context `{FloatParser}.

Lemma cut_byte_shorter b s before after : cut_byte b s = Some (before, after) → (String.length after < String.length s)%nat.
Proof.
  revert before. induction s as [|c s IH]; [done|]. intros before. simpl. destruct (Ascii.eqb c b); [intros [= <- <-]; lia|].
  destruct (cut_byte b s) as [[x y]|]; [|done]. intros [= <- <-]. specialize (IH x eq_refl). lia.
Qed.
Lemma cut_placeholder text before rest name text' :
  cut_byte "{" text = Some (before, rest) → cut_byte "}" rest = Some (name, text') →
  (String.length text' < String.length text)%nat.
Proof. intros H1%cut_byte_shorter H2%cut_byte_shorter. lia. Qed.

(** The fuel is enough: more of it changes nothing. *)
Lemma interpolate_fuel_irrel n m text values :
  (String.length text ≤ n)%nat → (String.length text ≤ m)%nat → interpolate_fuel n text values = interpolate_fuel m text values.
Proof.
  revert m text. induction n as [|n IH]; intros [|m] text Hn Hm; simpl.
  - done.
  - by destruct text; simpl in *; [|lia].
  - by destruct text; simpl in *; [|lia].
  - destruct (cut_byte "{" text) as [[before rest]|] eqn:E1; [|done]. destruct (cut_byte "}" rest) as [[name text']|] eqn:E2; [|done].
    destruct (values !! name) as [value|]; [|done]. pose proof (cut_placeholder _ _ _ _ _ E1 E2).
    by rewrite (IH m text') by lia.
Qed.
Lemma interpolate_next text values :
  interpolate text values =
  match cut_byte "{" text with
  | None => Ok text
  | Some (before, rest) =>
    match cut_byte "}" rest with
    | None => Err ErrInvalidCatalog
    | Some (name, text) =>
      match values !! name with
      | None => Err ErrMissingValue
      | Some value =>
        match interpolate text values with
        | Ok output => Ok (before +:+ value +:+ output)
        | Err e => Err e
        end
      end
    end
  end.
Proof.
  unfold interpolate at 1. rewrite (interpolate_fuel_irrel _ (S (String.length text))) by lia. simpl.
  destruct (cut_byte "{" text) as [[before rest]|] eqn:E1; [|done]. destruct (cut_byte "}" rest) as [[name text']|] eqn:E2; [|done].
  destruct (values !! name) as [value|]; [|done]. pose proof (cut_placeholder _ _ _ _ _ E1 E2).
  unfold interpolate. by rewrite (interpolate_fuel_irrel _ (String.length text')) by lia.
Qed.

(** A text whose placeholders were read renders exactly when each has a value. *)
Lemma interpolate_iff text names values :
  placeholders text = Ok names → (is_ok (interpolate text values) = true ↔ names ⊆ dom values).
Proof.
  unfold placeholders, interpolate. generalize (String.length text). intros n. revert text names.
  induction n as [|n IH]; intros text names; simpl.
  { intros [= <-]. split; [set_solver|done]. }
  destruct (cut_byte "{" text) as [[before rest]|]; [|intros [= <-]; split; [set_solver|done]].
  destruct (cut_byte "}" rest) as [[name text']|]; [|done]. destruct (String.eqb name ""); [done|].
  destruct (placeholders_fuel n text') as [names'|] eqn:E; [|done]. intros [= <-]. specialize (IH text' names' E).
  rewrite union_subseteq, singleton_subseteq_l, elem_of_dom. destruct (values !! name) as [value|].
  - rewrite <- IH. destruct (interpolate_fuel n text' values); simpl; split; [intros; split; eauto|done|done|by intros [_ ?]].
  - simpl. split; [done|]. intros [[? ?] _]. done.
Qed.

Lemma sameStrings_eq left right : sameStrings left right = true ↔ left = right.
Proof.
  unfold sameStrings. rewrite andb_true_iff, Nat.eqb_eq, bool_decide_eq_true. split.
  - intros [Hs Hf]. apply set_subseteq_size_eq; [intros x Hx; by apply Hf|lia].
  - intros ->. split; [done|]. by intros ? ?.
Qed.
Lemma same_placeholders_iff a b : same_placeholders a b = true ↔ ∃ names, placeholders a = Ok names ∧ placeholders b = Ok names.
Proof.
  unfold same_placeholders. destruct (placeholders a) as [x|], (placeholders b) as [y|]; rewrite ?sameStrings_eq; (split; [intros E|intros (? & E1 & E2)]); simplify_eq; by eauto.
Qed.

(** What validation leaves of a message. *)
Definition fillable (m : Message) : Prop :=
  if String.eqb (Text m) "" then ∃ names, placeholders (One m) = Ok names ∧ placeholders (Other m) = Ok names
  else ∃ names, placeholders (Text m) = Ok names.
Lemma validateMessage_fillable id m : validateMessage id m = Ok tt → fillable m.
Proof.
  unfold validateMessage, fillable. destruct (validMessageID id); [|done]. simpl.
  destruct (String.eqb (Text m) "") eqn:Et; simpl.
  - destruct (negb (String.eqb (One m) "") || negb (String.eqb (Other m) "")) eqn:Ep; simpl; [|done].
    destruct (String.eqb (One m) "" || String.eqb (Other m) ""); [done|].
    destruct (placeholders (Text m)); [|done]. destruct (placeholders (One m)) as [one|], (placeholders (Other m)) as [other|]; try done.
    destruct (sameStrings one other) eqn:Es; [|done]. apply sameStrings_eq in Es as ->. by exists other.
  - destruct (negb (String.eqb (One m) "") || negb (String.eqb (Other m) "")) eqn:Ep; simpl; [done|].
    destruct (placeholders (Text m)) as [names|]; [by exists names|done].
Qed.
Definition all_fillable (ms : gmap string Messages) : Prop :=
  ∀ language catalog id m, ms !! language = Some catalog → catalog !! id = Some m → fillable m.
Lemma readCatalog_fillable document catalog id m : readCatalog document = Ok catalog → catalog !! id = Some m → fillable m.
Proof.
  destruct document as [d|]; [|done]. simpl. destruct (Nat.eqb (size d) 0); [done|].
  destruct (forallb _ _) eqn:Ef; [|done]. intros [= <-] Hm. rewrite forallb_forall in Ef.
  specialize (Ef (id, m)). simpl in Ef. destruct (validateMessage id m) as [[]|] eqn:Ev.
  - by eapply validateMessage_fillable.
  - apply elem_of_map_to_list, list_elem_of_In in Hm. by specialize (Ef Hm).
Qed.
Lemma load_fillable entries ms ms' : all_fillable ms → load entries ms = Ok ms' → all_fillable ms'.
Proof.
  revert ms. induction entries as [|entry entries IH]; intros ms Hms; simpl; [by intros [= <-]|].
  destruct (if entry_IsDir entry then None else _) as [language|]; [|by apply IH]. destruct (Supported language); [|done]. simpl.
  destruct (readCatalog (entry_Document entry)) as [catalog|] eqn:Er; [|done]. destruct (ms !! language); [done|]. apply IH.
  intros l' c' id m Hl Hm. destruct (decide (l' = language)) as [->|Hne].
  - rewrite lookup_insert_eq in Hl. simplify_eq. by eapply readCatalog_fillable.
  - rewrite lookup_insert_ne in Hl by done. by eapply Hms.
Qed.

(** The values a message asks for: one for each placeholder, and a numeric
    count when it has plural forms. *)
Definition supplies (m : Message) (values : gmap string string) : Prop :=
  (∃ names, placeholders (if String.eqb (Text m) "" then One m else Text m) = Ok names ∧ names ⊆ dom values) ∧
  (Text m = "" → ∃ count n, values !! "count" = Some count ∧ ParseFloat count = Some n).
Lemma form_iff m values : fillable m → (is_ok (form m values) = true ↔ supplies m values).
Proof.
  unfold fillable, form, supplies. destruct (String.eqb_spec (Text m) "") as [Et|Et]; simpl.
  - intros (names & H1 & H2). destruct (values !! "count") as [count|] eqn:Ec; [destruct (ParseFloat count) as [n|] eqn:Ep|].
    + rewrite (interpolate_iff _ names) by by destruct (float_eqb n (Num 1)). rewrite H1.
      split; [intros Hn; split; [by exists names|intros _; by exists count, n]|by intros [(? & [= <-] & Hn) _]].
    + split; [done|]. intros [_ Hc]. destruct (Hc Et) as (? & ? & [= <-] & ?). congruence.
    + split; [done|]. intros [_ Hc]. destruct (Hc Et) as (? & ? & ? & ?). congruence.
  - intros (names & H1). rewrite (interpolate_iff _ names) by done. rewrite H1.
    split; [intros Hn; split; [by exists names|done]|by intros [(? & [= <-] & Hn) _]].
Qed.
Lemma matchingMessageShape_supplies expected actual values :
  matchingMessageShape expected actual = true → (supplies actual values ↔ supplies expected values).
Proof.
  unfold matchingMessageShape, supplies.
  destruct (String.eqb_spec (Text expected) "") as [E1|E1], (String.eqb_spec (Text actual) "") as [E2|E2]; simpl; try done.
  - rewrite andb_true_iff, !same_placeholders_iff. intros [(names & -> & ->) _]. by rewrite E1, E2.
  - rewrite same_placeholders_iff. intros (names & -> & ->). split; intros [? ?]; split; done.
Qed.

(** Catalogs that load and pass the completeness check never surprise a
    page: every message of the default language exists in every supported
    language, and renders there exactly when the values suit the default
    message (a value for each placeholder, a numeric count for plurals). *)
Theorem complete_catalogs_translate entries c language id m values :
  LoadCatalogs entries = Ok c → ValidateCompleteness c = Ok tt → Supported language = true →
  messages c !! Default ≫= (.!! id) = Some m →
  (∃ own, messages c !! language ≫= (.!! id) = Some own ∧ Translate c language id values = form own values) ∧
  (is_ok (Translate c language id values) = true ↔ supplies m values).
Proof.
  unfold LoadCatalogs. destruct (load entries ∅) as [ms|] eqn:El; [|done].
  assert (all_fillable ms) as Hf by (eapply load_fillable; [|done]; intros ? ? ? ? E; by rewrite lookup_empty in E).
  destruct (Nat.eqb (size ms) 0); [done|]. destruct (ms !! Default) as [default|] eqn:Ed; [|done]. intros [= <-].
  unfold ValidateCompleteness. cbn [messages defaultLanguage]. rewrite Ed. destruct (forallb (complete_language (mkCatalogs Default ms) default) Codes) eqn:Ec; [|done].
  intros _ Hl Hm. assert (complete_language (mkCatalogs Default ms) default language = true) as Hc.
  { simpl in Ec. rewrite !andb_true_iff in Ec. apply Supported_cases in Hl as [->| ->]; tauto. }
  unfold complete_language in Hc. simpl in Hc. unfold Translate, message. simpl.
  destruct (ms !! language) as [actual|] eqn:Ea; [|done]. simpl. apply andb_true_iff in Hc as [_ Hc].
  rewrite forallb_forall in Hc. change (default !! id = Some m) in Hm. apply elem_of_map_to_list, list_elem_of_In in Hm. apply Hc in Hm. cbn [fst snd] in Hm.
  destruct (actual !! id) as [own|] eqn:Eo; [|done]. split; [by exists own|].
  rewrite form_iff by by eapply Hf. by apply matchingMessageShape_supplies.
Qed.
End facts.

(** ** Choosing a language: [Resolve] of internal/locale/locale.go

    URL, account and browser preferences in order, then the Accept-Language
    header.  [sort.SliceStable] is its insertion sort (20 candidates and fewer;
    for more, any stable sort agrees unless a quality is not a number). *)

Module Negotiate.
Inductive Source := SourceURL | SourceAccount | SourceBrowser | SourceBrowserLanguage | SourceDefault.
Record Preferences := mkPreferences { URL_ : string; Account_ : string; Browser_ : string; AcceptLanguage : string }.

Record languageCandidate := mkCandidate { code : string; quality : float; order : nat }.

Section negotiate.
Context `{Unicode, FloatParser}.

(** The parameters after a tag: [None] when a quality is invalid. *)
Fixpoint parameters (quality : float) (parts : list string) : option float :=
  match parts with
  | [] => Some quality
  | parameter :: parts =>
    match Catalog.cut_byte "=" (TrimSpace parameter) with
    | None => parameters quality parts
    | Some (key, value) =>
      if negb (String.eqb (ToLower (TrimSpace key)) "q") then parameters quality parts else
      match ParseFloat (TrimSpace value) with
      | None => None
      | Some parsed =>
        if float_lt parsed (Num 0%Q) || float_lt (Num 1%Q) parsed then None else parameters parsed parts
      end
    end
  end.
(** [strings.SplitN(tag, "-", 2)[0]]. *)
Definition primary (tag : string) : string :=
  match Catalog.cut_byte "-" tag with Some (before, _) => before | None => tag end.
Definition candidate (order : nat) (raw : string) : option languageCandidate :=
  let parts := Split ";" raw in
  let tag := ToLower (TrimSpace (hd "" parts)) in
  if String.eqb tag "" || String.eqb tag "*" then None else
  match parameters (Num 1%Q) (tail parts) with
  | None => None
  | Some quality =>
    if float_eqb quality (Num 0%Q) then None
    else if Supported tag then Some (mkCandidate tag quality order)
    else if Supported (primary tag) then Some (mkCandidate (primary tag) quality order) else None
  end.
Fixpoint candidates_from (order : nat) (raws : list string) : list languageCandidate :=
  match raws with
  | [] => []
  | raw :: raws => match candidate order raw with
                   | Some c => c :: candidates_from (S order) raws
                   | None => candidates_from (S order) raws
                   end
  end.
Definition candidates (header : string) : list languageCandidate :=
  candidates_from 0 (Split "," header).

Definition preferred (left right : languageCandidate) : bool :=
  if float_eqb (quality left) (quality right) then (order left <? order right)%nat
  else float_lt (quality right) (quality left).
(** [insertionSort]: each element moves left past those it precedes; the
    sorted prefix is held last to first. *)
Fixpoint insert_last (x : languageCandidate) (sorted : list languageCandidate) : list languageCandidate :=
  match sorted with
  | [] => [x]
  | y :: sorted => if preferred x y then y :: insert_last x sorted else x :: y :: sorted
  end.
Definition SliceStable (cs : list languageCandidate) : list languageCandidate :=
  rev (fold_left (λ sorted x, insert_last x sorted) cs []).

Definition acceptLanguage (header : string) : option string :=
  if String.eqb (TrimSpace header) "" then None else
  match SliceStable (candidates header) with
  | [] => None
  | best :: _ => Some (code best)
  end.

Definition Resolve (preferences : Preferences) : string * Source :=
  if Supported (URL_ preferences) then (URL_ preferences, SourceURL)
  else if Supported (Account_ preferences) then (Account_ preferences, SourceAccount)
  else if Supported (Browser_ preferences) then (Browser_ preferences, SourceBrowser)
  else match acceptLanguage (AcceptLanguage preferences) with
       | Some code => (code, SourceBrowserLanguage)
       | None => (Default, SourceDefault)
       end.
End negotiate.
End Negotiate.

(** ** Facts *)
Section facts.
Import Negotiate.
Context `{Unicode, FloatParser}.

Lemma candidate_supported order raw c : candidate order raw = Some c → Supported (code c) = true.
Proof.
  unfold candidate. destruct (_ || _); [done|].
  destruct (parameters _ _) as [q|]; [|done]. destruct (float_eqb q _); [done|].
  destruct (Supported (ToLower (TrimSpace (hd "" (Split ";" raw))))) eqn:E1; [by intros [= <-]|].
  destruct (Supported (primary _)) eqn:E2; [by intros [= <-]|done].
Qed.
Lemma candidates_from_supported order raws : Forall (λ c, Supported (code c) = true) (candidates_from order raws).
Proof.
  revert order. induction raws as [|raw raws IH]; intros order; simpl; [constructor|].
  destruct (candidate order raw) eqn:E; [constructor; [by eapply candidate_supported|]|]; apply IH.
Qed.
Lemma insert_last_perm x sorted : insert_last x sorted ≡ₚ x :: sorted.
Proof. induction sorted as [|y sorted IH]; simpl; [done|]. destruct (preferred x y); [|done]. rewrite IH. apply Permutation_swap. Qed.
Lemma SliceStable_perm cs : SliceStable cs ≡ₚ cs.
Proof.
  unfold SliceStable. rewrite <- Permutation_rev. assert (∀ acc, fold_left (λ sorted x, insert_last x sorted) cs acc ≡ₚ acc ++ cs) as Hf.
  { induction cs as [|c cs IH]; intros acc; simpl; [by rewrite app_nil_r|]. rewrite IH, insert_last_perm.
    by rewrite <- Permutation_middle. }
  apply Hf.
Qed.
Lemma acceptLanguage_supported header lang : acceptLanguage header = Some lang → Supported lang = true.
Proof.
  unfold acceptLanguage. destruct (String.eqb _ _); [done|].
  pose proof (SliceStable_perm (candidates header)) as Hp. destruct (SliceStable (candidates header)) as [|best rest]; [done|].
  intros [= <-]. assert (best ∈ candidates header) as Hb by (rewrite <- Hp; left).
  pose proof (candidates_from_supported 0 (Split "," header)) as Hf. rewrite Forall_forall in Hf. by apply Hf.
Qed.
(** Whatever the visitor prefers, the page has a catalog. *)
Lemma Resolve_supported p : Supported (fst (Resolve p)) = true.
Proof.
  unfold Resolve. destruct (Supported (URL_ p)) eqn:E1; [done|]. destruct (Supported (Account_ p)) eqn:E2; [done|].
  destruct (Supported (Browser_ p)) eqn:E3; [done|]. destruct (acceptLanguage _) eqn:E4; [by eapply acceptLanguage_supported|done].
Qed.
End facts.
