(* ===== verification/ClientAddress.v ===== *)
(** * The client's address: internal/adapter/http/middleware/client_ip.go

    With the parts of package [net] it uses: [SplitHostPort], [ParseIP],
    [ParseCIDR], [IPNet.Contains] and [IP.String].  A [net.IP] is an [Addr]
    without zone whose IPv4-mapped form is IPv4, as [net.IP] identifies them. *)
From S2P Require Export Netip Encoding.

(** ** Package net *)

Fixpoint index_byte (c : ascii) (s : string) : option nat :=
  match s with
  | EmptyString => None
  | String d s => if Ascii.eqb c d then Some O else S <$> index_byte c s
  end.
Fixpoint last_index (c : ascii) (s : string) : option nat :=
  match s with
  | EmptyString => None
  | String d s => match last_index c s with
                  | Some i => Some (S i)
                  | None => if Ascii.eqb c d then Some O else None
                  end
  end.
Definition from (n : nat) (s : string) : string := substring n (String.length s - n) s.

(** The host of [net.SplitHostPort]. *)
Definition split_host (hostport : string) : option string :=
  match last_index ":" hostport with
  | None => None
  | Some i =>
    match hostport with
    | String "[" _ =>
      match index_byte "]" hostport with
      | None => None
      | Some end_ =>
        if (S end_ =? i)%nat then
          if contains_char "[" (from 1 hostport) || contains_char "]" (from (S end_) hostport) then None
          else Some (substring 1 (end_ - 1) hostport)
        else None
      end
    | _ =>
      let host := substring 0 i hostport in
      if contains_char ":" host || contains_char "[" hostport || contains_char "]" hostport then None
      else Some host
    end
  end.

Definition ParseIP (s : string) : option Addr :=
  match ParseAddr s with
  | Some a => if String.eqb (Zone a) "" then Some (Unmap a) else None
  | None => None
  end.

Definition IP_String (a : Addr) : string :=
  match a with Addr4 os => String4 os | Addr6 gs _ => string_of_groups gs end.

(** [IP.Equal]. *)
Definition IP_Equal (a b : Addr) : bool :=
  match a, b with
  | Addr4 x, Addr4 y => bool_decide (x = y)
  | Addr6 x _, Addr6 y _ => bool_decide (x = y)
  | _, _ => false
  end.

(** The bits of an address, most significant first. *)
Definition bits (w : nat) (x : Z) : list bool := (λ i, Z.testbit x (Z.of_nat i)) <$> rev (seq 0 w).
Definition IP_bits (a : Addr) : list bool :=
  match a with Addr4 os => os ≫= bits 8 | Addr6 gs _ => gs ≫= bits 16 end.

(** [dtoi]: the digits before the first other character, below 0xFFFFFF. *)
Fixpoint dtoi (s : string) (n : Z) : option Z :=
  match s with
  | EmptyString => Some n
  | String c s => match digit_value c with
                  | Some d => if 16777215 <=? n * 10 + d then None else dtoi s (n * 10 + d)
                  | None => None
                  end
  end.

(** [IPNet]: its address as written and the length of its prefix in that form. *)
Record Network := mkNetwork { net_Addr : Addr; net_Prefix : Z }.
Definition ParseCIDR (s : string) : option Network :=
  match index_byte "/" s with
  | None => None
  | Some i =>
    match ParseAddr (substring 0 i s), from (S i) s with
    | _, EmptyString => None
    | Some a, mask =>
      match dtoi mask 0 with
      | Some n =>
        if String.eqb (Zone a) "" && (n <=? if Is4 a then 32 else 128) then Some (mkNetwork a n) else None
      | None => None
      end
    | None, _ => None
    end
  end.

(** [Contains]: an IPv4-mapped network is an IPv4 network when its mask covers
    the mapping prefix, and otherwise contains no address of IPv4. *)
Definition Contains (n : Network) (ip : Addr) : bool :=
  let network := if Is4 (net_Addr n) || (96 <=? net_Prefix n) then Unmap (net_Addr n) else net_Addr n in
  let prefix := if Is4 network && negb (Is4 (net_Addr n)) then net_Prefix n - 96 else net_Prefix n in
  Bool.eqb (Is4 network) (Is4 ip)
  && bool_decide (take (Z.to_nat prefix) (IP_bits network) = take (Z.to_nat prefix) (IP_bits ip)).

(** [strings.Trim(s, "[]")]. *)
Definition bracket (c : ascii) : bool := Ascii.eqb c "[" || Ascii.eqb c "]".
Fixpoint trim_left (s : string) : string :=
  match s with String c s' => if bracket c then trim_left s' else s | EmptyString => "" end.
Fixpoint trim_right (s : string) : string :=
  match s with
  | EmptyString => ""
  | String c s => let t := trim_right s in if bracket c && String.eqb t "" then "" else String c t
  end.

(** ** client_ip.go *)
Module ClientIP.

Definition parseAddress (value : string) : option Addr :=
  let value := TrimSpace value in
  let value := match split_host value with Some host => host | None => value end in
  ParseIP (trim_right (trim_left value)).

Definition PeerIP (remoteAddr : string) : string :=
  match parseAddress remoteAddr with Some ip => IP_String ip | None => TrimSpace remoteAddr end.

Definition parseTrustedProxy (value : string) : Addr → bool :=
  let value := TrimSpace value in
  match ParseCIDR value with
  | Some network => Contains network
  | None => match ParseIP value with Some ip => IP_Equal ip | None => λ _, false end
  end.

(** The loop over the hops, from the last one. *)
Fixpoint client_hop (trusted : Addr → bool) (peer : Addr) (hops : list string) : string :=
  match hops with
  | [] => IP_String peer
  | hop :: hops =>
    match parseAddress hop with
    | None => IP_String peer
    | Some ip => if negb (trusted ip) then IP_String ip else client_hop trusted peer hops
    end
  end.

(** [strings.Join(values, ",")]. *)
Fixpoint join_commas (values : list string) : string :=
  match values with [] => "" | [v] => v | v :: vs => v +:+ "," +:+ join_commas vs end.

Definition resolveClientIP (remoteAddr : string) (forwarded : list string) (trusted : Addr → bool) : string :=
  match parseAddress remoteAddr with
  | None => PeerIP remoteAddr
  | Some peer =>
    if negb (trusted peer) then IP_String peer
    else client_hop trusted peer (rev (Split "," (join_commas forwarded)))
  end.
End ClientIP.

(** ** The repository's own cases, and the corners of Contains *)
Import ClientIP.
Example client_ips :
  (λ '(proxy, peer, forwarded), resolveClientIP peer forwarded (parseTrustedProxy proxy)) <$>
  [("", "203.0.113.5:51234", []); ("", "[2001:db8::7]:443", []); ("10.0.0.1", "203.0.113.5:1", ["198.51.100.9"]);
   ("", "10.0.0.1:1", ["198.51.100.9"]); ("10.0.0.1", "10.0.0.1:9000", ["198.51.100.66, 203.0.113.5"]);
   ("10.0.0.0/8", "10.0.0.1:9000", ["198.51.100.66"; "203.0.113.5, 10.2.3.4"]);
   ("10.0.0.1", "10.0.0.1:9000", ["198.51.100.66, not-an-ip"]); ("10.0.0.1", "10.0.0.1:9000", [])]
  = ["203.0.113.5"; "2001:db8::7"; "203.0.113.5"; "10.0.0.1"; "203.0.113.5"; "203.0.113.5"; "10.0.0.1"; "10.0.0.1"].
Proof. vm_compute. reflexivity. Qed.
Example mapped_networks :
  (λ '(n, a), match ParseCIDR n, ParseIP a with Some n, Some a => Contains n a | _, _ => false end) <$>
  [("::ffff:10.0.0.0/104", "10.1.2.3"); ("::/0", "10.1.2.3"); ("::ffff:10.0.0.0/80", "10.0.0.0"); ("10.0.0.0/31", "::ffff:10.0.0.1")]
  = [true; false; false; true].
Proof. vm_compute. reflexivity. Qed.

(** ** What a client can make of its address *)

Lemma client_hop_app trusted peer hops hops' :
  client_hop trusted peer (hops ++ hops') =
  if forallb (λ h, match parseAddress h with Some ip => trusted ip | None => false end) hops
  then client_hop trusted peer hops' else client_hop trusted peer hops.
Proof.
  induction hops as [|h hops IH]; simpl; [done|]. destruct (parseAddress h) as [ip|]; [|done].
  destruct (trusted ip); simpl; [apply IH|done].
Qed.

Lemma Split_comma_app s t : Split "," (s +:+ "," +:+ t) = Split "," s ++ Split "," t.
Proof.
  induction s as [|c s IH]; [done|]. change (String c s +:+ "," +:+ t) with (String c (s +:+ "," +:+ t)).
  cbn [Split]. destruct (Ascii.eqb c ","); [by rewrite IH|]. rewrite IH.
  destruct (Split "," s) as [|p ps] eqn:E; [|done]. exfalso. clear -E. destruct s; simpl in E; [done|].
  by repeat case_match.
Qed.

(** The entries of all the header's lines, in order. *)
Definition entries (forwarded : list string) : list string := forwarded ≫= Split ",".
(** An entry that is the address of a trusted proxy. *)
Definition trusted_hop (trusted : Addr → bool) (hop : string) : bool :=
  match parseAddress hop with Some ip => trusted ip | None => false end.

Lemma entries_joined forwarded : forwarded ≠ [] → Split "," (join_commas forwarded) = entries forwarded.
Proof.
  unfold entries. induction forwarded as [|v vs IH]; [done|]. intros _. destruct vs as [|v' vs]; simpl in *.
  - by rewrite app_nil_r.
  - by rewrite Split_comma_app, IH.
Qed.

Lemma client_hop_all trusted peer hops : forallb (trusted_hop trusted) hops = true → client_hop trusted peer hops = IP_String peer.
Proof.
  unfold trusted_hop. induction hops as [|h hops IH]; simpl; [done|]. destruct (parseAddress h) as [ip|]; [|done].
  destruct (trusted ip); [exact IH|done].
Qed.

Lemma forallb_rev {A} (f : A → bool) l : forallb f (rev l) = forallb f l.
Proof.
  induction l as [|a l IH]; simpl; [done|]. rewrite forallb_app, IH. simpl. rewrite andb_true_r. apply andb_comm.
Qed.

(** C39. The address of a request cannot be forged.  Without a trusted proxy in
    between it is the address of the peer, whatever the request claims; behind
    trusted proxies it is the last entry, over all the lines of the header,
    that is not one of them, whatever stands before it, or the peer's when that
    entry is no address or there is none. *)
Theorem client_address_not_forged remoteAddr trusted peer forwarded :
  parseAddress remoteAddr = Some peer →
  (trusted peer = false → resolveClientIP remoteAddr forwarded trusted = IP_String peer) ∧
  (trusted peer = true →
    (∀ claimed hop proxies, entries forwarded = claimed ++ hop :: proxies →
       forallb (trusted_hop trusted) proxies = true → trusted_hop trusted hop = false →
       resolveClientIP remoteAddr forwarded trusted =
         match parseAddress hop with Some ip => IP_String ip | None => IP_String peer end) ∧
    (forallb (trusted_hop trusted) (entries forwarded) = true →
       resolveClientIP remoteAddr forwarded trusted = IP_String peer)).
Proof.
  intros Hp. unfold resolveClientIP. rewrite Hp. split; [by intros ->|]. intros ->. cbn [negb]. split.
  - intros claimed hop proxies He Hall Hhop.
    rewrite entries_joined, He by (intros ->; by destruct claimed).
    rewrite rev_app_distr. simpl. rewrite <- app_assoc, client_hop_app.
    change (forallb (λ h, match parseAddress h with Some ip => trusted ip | None => false end) (rev proxies))
      with (forallb (trusted_hop trusted) (rev proxies)).
    rewrite forallb_rev, Hall. simpl. unfold trusted_hop in Hhop. destruct (parseAddress hop) as [ip|]; [by rewrite Hhop|done].
  - intros Hall. destruct (decide (forwarded = [])) as [->|Hne]; [done|].
    rewrite entries_joined by done. apply client_hop_all. by rewrite forallb_rev.
Qed.

(** Two header lines: the client's own, and the one its proxies wrote. *)
Lemma client_address_not_forged_witness :
  resolveClientIP "10.0.0.1:9000" ["127.0.0.1, 198.51.100.66"; "203.0.113.5, 10.2.3.4"] (parseTrustedProxy "10.0.0.0/8") = "203.0.113.5".
Proof.
  exact (proj1 (proj2 (client_address_not_forged "10.0.0.1:9000" (parseTrustedProxy "10.0.0.0/8") (Addr4 [10; 0; 0; 1])
    ["127.0.0.1, 198.51.100.66"; "203.0.113.5, 10.2.3.4"] ltac:(vm_compute; reflexivity)) ltac:(vm_compute; reflexivity))
    ["127.0.0.1"; " 198.51.100.66"] "203.0.113.5" [" 10.2.3.4"] ltac:(vm_compute; reflexivity) ltac:(vm_compute; reflexivity)
    ltac:(vm_compute; reflexivity)).
Defined.
