(* ===== verification/Migrations.v ===== *)
(** * Database migrations: internal/store/migrator.go

    Loading the scripts of a release, installing those the ledger does not
    have, and reporting them (with internal/app/runtime.go).  What a script does
    to the tables is the database's, a parameter; a script leaves the ledger
    alone.  [Apply] runs in one transaction that other runners wait for at the
    advisory lock, so it is one step of the database; every round trip can
    fail, and a failed commit may have been applied. *)
From S2P Require Export AdminReports ClientAddress.

(** A file of [fs.FS]; [None] where [fs.ReadFile] fails. *)
Record DirEntry := mkDirEntry { entry_Name : string; entry_IsDir : bool; entry_Data : option string }.
(** [fs.ReadDir(source, ".")]. *)
Definition MigrationFS : Type := option (list DirEntry).
(** Running a script, all or nothing. *)
Class ScriptEngine (T : Type) := { run_script : string → T → outcome T }.

Module Migrator.
Definition ErrInvalidMigrationName : error := Opaque "store: invalid migration name".
Definition ErrDuplicateMigration : error := Opaque "store: duplicate migration version".
Definition ErrMigrationDrift : error := Opaque "store: migration metadata drift".

Record Migration := mkMigration { Version : Z; Description : string; SQL : string }.
Record MigrationStatus := mkMigrationStatus { st_Version : Z; st_Description : string; st_Installed : bool; st_InstalledAt : option Z }.
Record installedMigration := mkInstalled { description : string; installedAt : Z }.
#[local] Abbreviation Ledger := (gmap Z installedMigration).
(** The order in which [range] yields a map. *)
Class LedgerOrder := { ledger_order : Ledger → list (Z * installedMigration); ledger_order_perm m : ledger_order m ≡ₚ map_to_list m }.

(** ** Loading *)
Definition HasSuffix (s suffix : string) : bool :=
  (String.length suffix <=? String.length s)%nat && String.eqb (from (String.length s - String.length suffix) s) suffix.
Definition digit (c : ascii) : bool := in_range 48 57 (byte_of c).
Definition name_start (c : ascii) : bool := in_range 97 122 (byte_of c) || digit c.
Definition name_char (c : ascii) : bool := name_start c || Ascii.eqb c "_" || Ascii.eqb c "-".
(** The groups of [migrationNameRE]: six digits, an underscore, a description. *)
Definition match_name (name : string) : option (string * string) :=
  if negb (HasSuffix name ".up.sql") then None else
  let stem := substring 0 (String.length name - 7) name in
  let digits := substring 0 6 stem in
  match from 6 stem with
  | String "_" (String c text) =>
    if (String.length digits =? 6)%nat && all_chars digit digits && name_start c && all_chars name_char text
    then Some (digits, String c text) else None
  | _ => None
  end.
Definition invalid_name (name : string) : error := Errorf name ErrInvalidMigrationName.
(** The loop of [loadMigrations] over the entries, with the versions seen. *)
Fixpoint load_entries (entries : list DirEntry) (seen : gset Z) : outcome (list Migration) :=
  match entries with
  | [] => Ok []
  | entry :: entries =>
    if entry_IsDir entry || negb (HasSuffix (entry_Name entry) ".up.sql") then load_entries entries seen else
    match match_name (entry_Name entry) with
    | None => Err (invalid_name (entry_Name entry))
    | Some (digits, text) =>
      match ParseInt digits with
      | None => Err (invalid_name (entry_Name entry))
      | Some version =>
        if version <? 1 then Err (invalid_name (entry_Name entry))
        else if bool_decide (version ∈ seen) then Err (Errorf (pad 6 version) ErrDuplicateMigration) else
        match entry_Data entry with
        | None => Err (Errorf ("read migration " +:+ entry_Name entry) (Opaque "fs"))
        | Some data =>
          if String.eqb (TrimSpace data) "" then Err (Errorf ("empty migration " +:+ entry_Name entry) ErrInvalidMigrationName) else
          match load_entries entries ({[version]} ∪ seen) with
          | Ok migrations => Ok (mkMigration version text data :: migrations)
          | Err e => Err e
          end
        end
      end
    end
  end.
Definition version_order : relation Migration := λ a b, Version a ≤ Version b.
Definition version_order_dec : RelDecision version_order := λ a b, decide (Version a ≤ Version b).
#[local] Existing Instance version_order_dec.
Definition loadMigrations (source : MigrationFS) : outcome (list Migration) :=
  match source with
  | None => Err (Errorf "read migration directory" (Opaque "fs"))
  | Some entries =>
    match load_entries entries ∅ with
    | Ok migrations => Ok (merge_sort version_order migrations)
    | Err e => Err e
    end
  end.

(** ** The database *)
Section migrator.
Context {T : Type} `{ScriptEngine T, LedgerOrder}.
(** The tables, the ledger once it exists, the time and the failures to come. *)
Record Database := mkDatabase { tables : T; ledger : option Ledger; time_now : Z; failures : list (option fault) }.
Definition with_failures (fs : list (option fault)) (d : Database) : Database := mkDatabase (tables d) (ledger d) (time_now d) fs.
Definition DB_ : Type → Type := ST Database.
(** A statement of the open transaction; one that fails ends it. *)
Definition trip {A} (sql : Database → outcome (Database * A)) : DB_ A := λ d,
  let d1 := with_failures (tail (failures d)) d in
  match head (failures d) with
  | Some (Some f) => (d1, Err (fault_error f))
  | _ => match sql d1 with Ok (d2, a) => (d2, Ok a) | Err e => (d1, Err e) end
  end.
Definition ExecContext (sql : Database → outcome Database) : DB_ unit :=
  trip (λ d, match sql d with Ok d' => Ok (d', tt) | Err e => Err e end).
Definition QueryContext {A} (sql : Database → outcome A) : DB_ A :=
  trip (λ d, match sql d with Ok a => Ok (d, a) | Err e => Err e end).

Definition createLedgerSQL (d : Database) : outcome Database :=
  Ok (mkDatabase (tables d) (Some (default ∅ (ledger d))) (time_now d) (failures d)).
Definition installedSQL (d : Database) : outcome (list (Z * installedMigration)) :=
  match ledger d with Some l => Ok (map_to_list l) | None => Err (PgError "42P01" "schema_migrations") end.
Definition insertMigration (version : Z) (text : string) (d : Database) : outcome Database :=
  match ledger d with
  | None => Err (PgError "42P01" "schema_migrations")
  | Some l =>
    match l !! version with
    | Some _ => Err (PgError "23505" "schema_migrations_pkey")
    | None => Ok (mkDatabase (tables d) (Some (<[version := mkInstalled text (time_now d)]> l)) (time_now d) (failures d))
    end
  end.
Definition script (sql : string) (d : Database) : outcome Database :=
  match run_script sql (tables d) with Ok t => Ok (mkDatabase t (ledger d) (time_now d) (failures d)) | Err e => Err e end.
(** [BeginTx], the statements, [Commit], and the deferred [Rollback]. *)
Definition transaction (body : DB_ unit) : DB_ unit := λ d,
  match trip (λ d, Ok (d, tt)) d with
  | (d1, Err e) => (d1, Err (Errorf "begin migration transaction" e))
  | (d1, Ok _) =>
    match body d1 with
    | (d2, Err e) => (with_failures (failures d2) d1, Err e)
    | (d2, Ok _) =>
      let d3 := with_failures (tail (failures d2)) d2 in
      match head (failures d2) with
      | Some (Some f) =>
        (if fault_applied f then d3 else with_failures (failures d3) d1, Err (Errorf "commit migrations" (fault_error f)))
      | _ => (d3, Ok tt)
      end
    end
  end.

(** ** Applying *)
Definition acquireMigrationLock : DB_ unit := map_err (Errorf "lock migrations") (QueryContext (λ _, Ok tt)).
Fixpoint scanInstalled (rows : list (Z * installedMigration)) (installed : Ledger) : outcome Ledger :=
  match rows with
  | [] => Ok installed
  | (version, entry) :: rows =>
    match installed !! version with
    | Some _ => Err (Errorf ("duplicate ledger version " +:+ pad 6 version) ErrMigrationDrift)
    | None => scanInstalled rows (<[version := entry]> installed)
    end
  end.
Definition readInstalled : DB_ Ledger := let! rows := QueryContext installedSQL in lift (scanInstalled rows ∅).
Definition source_of (migrations : list Migration) : gmap Z string :=
  foldl (λ m migration, <[Version migration := Description migration]> m) ∅ migrations.
Definition drifts (source : gmap Z string) (row : Z * installedMigration) : bool :=
  negb (bool_decide (source !! row.1 = Some (description row.2))).
Definition validateInstalled (migrations : list Migration) (installed : Ledger) : outcome unit :=
  match List.find (drifts (source_of migrations)) (ledger_order installed) with
  | Some row => Err (Errorf ("version " +:+ pad 6 row.1) ErrMigrationDrift)
  | None => Ok tt
  end.
Definition install (installed : Ledger) (migration : Migration) : DB_ unit :=
  match installed !! Version migration with
  | Some _ => ret tt
  | None =>
    map_err (Errorf ("apply migration " +:+ pad 6 (Version migration))) (ExecContext (script (SQL migration))) ;;;
    map_err (Errorf ("record migration " +:+ pad 6 (Version migration))) (ExecContext (insertMigration (Version migration) (Description migration)))
  end.
Definition apply_body (migrations : list Migration) : DB_ unit :=
  map_err (Errorf "create migration ledger") (ExecContext createLedgerSQL) ;;;
  acquireMigrationLock ;;;
  let! installed := map_err (Errorf "read migration ledger") readInstalled in
  lift (validateInstalled migrations installed) ;;;
  for_each migrations (install installed).
Definition Apply (source : MigrationFS) : DB_ unit :=
  let! migrations := map_err (Errorf "load migrations") (lift (loadMigrations source)) in
  transaction (apply_body migrations).

(** ** Reporting *)
Definition status_of (installed : Ledger) (m : Migration) : MigrationStatus :=
  match installed !! Version m with
  | Some entry => mkMigrationStatus (Version m) (Description m) true (Some (installedAt entry))
  | None => mkMigrationStatus (Version m) (Description m) false None
  end.
Definition Status (source : MigrationFS) : DB_ (list MigrationStatus) :=
  let! migrations := map_err (Errorf "load migrations") (lift (loadMigrations source)) in
  let! rows := map_err (Errorf "read migration ledger") (QueryContext installedSQL) in
  let! installed := map_err (Errorf "scan migration ledger") (lift (scanInstalled rows ∅)) in
  lift (validateInstalled migrations installed) ;;;
  ret (status_of installed <$> migrations).
(** The rows of the system page; ranks count from one. *)
Definition MigrationStatus_ (source : MigrationFS) : DB_ (list MigrationInfo) :=
  let! statuses := Status source in
  ret (imap (λ rank s, mkMigrationInfo (Z.of_nat rank + 1) (st_Version s) (st_Description s) (st_Installed s) (st_InstalledAt s)) statuses).
End migrator.
Arguments Database : clear implicits.

(** ** Maps from versions *)
Definition add {A} (f : Migration → A) (m : gmap Z A) (ms : list Migration) : gmap Z A := foldl (λ m x, <[Version x := f x]> m) m ms.
Lemma add_other {A} (f : Migration → A) ms : ∀ m v, v ∉ Version <$> ms → add f m ms !! v = m !! v.
Proof.
  induction ms as [|x ms IH]; intros m v Hv; [done|]. rewrite fmap_cons, not_elem_of_cons in Hv. destruct Hv as [Hx Hv].
  unfold add in *. cbn [foldl]. by rewrite IH, lookup_insert_ne by done.
Qed.
Lemma add_mine {A} (f : Migration → A) ms : ∀ m x, NoDup (Version <$> ms) → x ∈ ms → add f m ms !! Version x = Some (f x).
Proof.
  induction ms as [|y ms IH]; intros m x; [intros _ Hx; by apply elem_of_nil in Hx|]. rewrite fmap_cons. intros [Hy Hms]%NoDup_cons. intros [->|Hx]%elem_of_cons.
  - unfold add. cbn [foldl]. fold (add f (<[Version y := f y]> m) ms). by rewrite add_other, lookup_insert_eq.
  - unfold add. cbn [foldl]. by apply (IH _ x).
Qed.
Lemma source_of_add ms : source_of ms = add Description ∅ ms.
Proof. done. Qed.
(** What a ledger says of each version. *)
Definition descriptions (l : option Ledger) : gmap Z string := description <$> default ∅ l.

(** ** What loads *)
Lemma load_entries_ok entries : ∀ seen ms, load_entries entries seen = Ok ms →
  NoDup (Version <$> ms) ∧ Forall (λ m, (Version m ∉ seen) ∧ 1 ≤ Version m) ms.
Proof.
  induction entries as [|entry entries IH]; intros seen ms; cbn [load_entries]; [intros [= <-]; by split; constructor|].
  destruct (_ || _); [apply IH|]. destruct (match_name _) as [[digits text]|]; [|done]. destruct (ParseInt digits) as [version|]; [|done].
  destruct (Z.ltb_spec version 1); [done|]. case_bool_decide; [done|]. destruct (entry_Data entry) as [data|]; [|done].
  destruct (String.eqb _ ""); [done|]. destruct (load_entries entries _) as [ms'|] eqn:E; [|done]. intros [= <-]. apply IH in E as [Hn Hf]. split.
  - cbn. apply NoDup_cons. split; [|done]. intros (m & Hv & Hm)%list_elem_of_fmap. rewrite Forall_forall in Hf. destruct (Hf _ Hm) as [Hs _].
    by apply Hs, elem_of_union_l, elem_of_singleton.
  - constructor; [done|]. eapply Forall_impl; [exact Hf|]. intros m [[_ Hs]%not_elem_of_union Hl]. done.
Qed.
Lemma loadMigrations_ok source ms : loadMigrations source = Ok ms → NoDup (Version <$> ms) ∧ Sorted version_order ms ∧ Forall (λ m, 1 ≤ Version m) ms.
Proof.
  unfold loadMigrations. destruct source as [entries|]; [|done]. destruct (load_entries entries ∅) as [ms'|] eqn:E; [|done]. intros [= <-].
  apply load_entries_ok in E as [Hn Hf]. pose proof (merge_sort_Permutation version_order ms') as Hp. split_and!.
  - by rewrite Hp.
  - apply Sorted_merge_sort. intros a b. unfold version_order. lia.
  - rewrite Hp. eapply Forall_impl; [exact Hf|]. by intros m [].
Qed.

(** ** One transaction *)
Lemma scanInstalled_ok rows : ∀ l, NoDup rows.*1 → (∀ v e, (v, e) ∈ rows → l !! v = None) →
  scanInstalled rows l = Ok (list_to_map rows ∪ l).
Proof.
  induction rows as [|[v e] rows IH]; intros l; cbn [scanInstalled]; [intros _ _; simpl; by rewrite map_empty_union|].
  rewrite fmap_cons. intros [Hv Hn]%NoDup_cons Hl. rewrite (Hl v e) by apply list_elem_of_here. rewrite IH.
  - f_equal. cbn [list_to_map foldr]. rewrite <- insert_union_l, insert_union_r; [done|]. by apply not_elem_of_list_to_map.
  - done.
  - intros v' e' Hin. rewrite lookup_insert_ne; [|intros <-; apply Hv, list_elem_of_fmap; by exists (v, e')]. eapply Hl. by apply list_elem_of_further.
Qed.
Lemma scanInstalled_ledger l : scanInstalled (map_to_list l) ∅ = Ok l.
Proof.
  rewrite scanInstalled_ok; [by rewrite list_to_map_to_list, map_union_empty|apply NoDup_fst_map_to_list|]. intros. apply lookup_empty.
Qed.
Lemma validateInstalled_ok `{LedgerOrder} ms l : validateInstalled ms l = Ok tt ↔ descriptions (Some l) ⊆ source_of ms.
Proof.
  unfold validateInstalled. destruct (List.find _ _) as [[v e]|] eqn:E; split; intros Hv; try done.
  - exfalso. apply find_some in E as [Hin Hd]. apply list_elem_of_In in Hin. rewrite ledger_order_perm in Hin. apply elem_of_map_to_list in Hin.
    unfold drifts in Hd. simpl in Hd. bool_props. apply Hd. eapply lookup_weaken; [|exact Hv]. unfold descriptions. simpl. by rewrite lookup_fmap, Hin.
  - apply map_subseteq_spec. intros v d Hd. unfold descriptions in Hd. simpl in Hd. rewrite lookup_fmap in Hd.
    destruct (l !! v) as [e|] eqn:El; [|done]. injection Hd as <-. apply elem_of_map_to_list in El. rewrite <- ledger_order_perm in El.
    apply list_elem_of_In in El. pose proof (find_none _ _ E _ El) as Hn. unfold drifts in Hn. simpl in Hn. bool_props. done.
Qed.

Section applying.
Context {T : Type} `{ScriptEngine T, LedgerOrder}.
Implicit Types (d : Database T) (ms : list Migration).

(** The scripts one after another, as on a fresh database. *)
Fixpoint run_all ms (t : T) : outcome T :=
  match ms with
  | [] => Ok t
  | m :: ms => match run_script (SQL m) t with Ok t' => run_all ms t' | Err e => Err e end
  end.
Lemma run_all_app ms ms' t : run_all (ms ++ ms') t = match run_all ms t with Ok t' => run_all ms' t' | Err e => Err e end.
Proof. revert t. induction ms as [|m ms IH]; intros t; [done|]. cbn [run_all app]. by destruct (run_script _ t). Qed.
(** What one database differs from another in but for failures to come. *)
Definition same_data d d' : Prop := tables d' = tables d ∧ ledger d' = ledger d ∧ time_now d' = time_now d.
Lemma trip_ok {A} (sql : Database T → outcome (Database T * A)) d d' a :
  trip sql d = (d', Ok a) → sql (with_failures (tail (failures d)) d) = Ok (d', a).
Proof. unfold trip. destruct (head (failures d)) as [[f|]|]; [done| |]; destruct (sql _) as [[]|]; intros [=]; by subst. Qed.
Lemma exec_ok (sql : Database T → outcome (Database T)) d d' u :
  ExecContext sql d = (d', Ok u) → sql (with_failures (tail (failures d)) d) = Ok d'.
Proof. unfold ExecContext. intros Hx%trip_ok. destruct (sql _); [|done]. by injection Hx as ->. Qed.
Lemma fetch_ok {A} (sql : Database T → outcome A) d d' a :
  QueryContext sql d = (d', Ok a) → same_data d d' ∧ sql (with_failures (tail (failures d)) d) = Ok a.
Proof. unfold QueryContext. intros Hx%trip_ok. destruct (sql _); [|done]. injection Hx as <- <-. done. Qed.

Definition pending (l : Ledger) ms : list Migration := filter (λ m, l !! Version m = None) ms.
Definition record_at (now : Z) (m : Migration) : installedMigration := mkInstalled (Description m) now.
Lemma install_ok installed ms : ∀ d d' u l, NoDup (Version <$> ms) → ledger d = Some l →
  for_each ms (install installed) d = (d', Ok u) →
  run_all (pending installed ms) (tables d) = Ok (tables d') ∧ time_now d' = time_now d ∧
  ledger d' = Some (add (record_at (time_now d)) l (pending installed ms)).
Proof.
  induction ms as [|m ms IH]; intros d d' u l; [intros _ Hl [= <- _]; done|]. rewrite fmap_cons. intros [Hm Hms]%NoDup_cons Hl. cbn [for_each].
  intros (d1 & [] & Hi & Hr)%bind_ok. unfold install in Hi. unfold pending. rewrite filter_cons. case_match eqn:E.
  - injection Hi as <-. rewrite decide_False by congruence. by eapply IH.
  - rewrite decide_True by done. apply bind_ok in Hi as (d2 & [] & Hs%map_err_ok%exec_ok & Hi%map_err_ok%exec_ok).
    unfold script in Hs. simpl in Hs. destruct (run_script (SQL m) (tables d)) as [t|] eqn:Ht; [|done]. injection Hs as <-.
    unfold insertMigration in Hi. simpl in Hi. rewrite Hl in Hi. destruct (l !! Version m); [done|]. injection Hi as <-.
    eapply IH in Hr as (Ht' & Hnow & Hl'); [|done|done]. simpl in *. cbn [run_all]. by rewrite Ht.
Qed.

Lemma apply_body_ok ms d d' u : NoDup (Version <$> ms) → apply_body ms d = (d', Ok u) →
  let l := default ∅ (ledger d) in
  descriptions (ledger d) ⊆ source_of ms ∧ run_all (pending l ms) (tables d) = Ok (tables d') ∧ time_now d' = time_now d ∧
  ledger d' = Some (add (record_at (time_now d)) l (pending l ms)).
Proof.
  intros Hms. unfold apply_body. intros (d1 & [] & Hc%map_err_ok%exec_ok & (d2 & [] & Hl & Hb)%bind_ok)%bind_ok.
  unfold createLedgerSQL in Hc. injection Hc as <-. unfold acquireMigrationLock in Hl. apply map_err_ok, fetch_ok in Hl as [(Ht2 & Hl2 & Hn2) _].
  simpl in Ht2, Hl2, Hn2. apply bind_ok in Hb as (d3 & installed & Hr & Hb). apply map_err_ok in Hr. unfold readInstalled in Hr.
  apply bind_ok in Hr as (d4 & rows & Hq & Hr). apply fetch_ok in Hq as [(Ht4 & Hl4 & Hn4) Hq]. unfold installedSQL in Hq. simpl in Hq. rewrite Hl2 in Hq.
  injection Hq as <-. rewrite scanInstalled_ledger in Hr. injection Hr as <- <-.
  apply bind_ok in Hb as (d5 & [] & Hv & Hb). injection Hv as <- Hv. apply validateInstalled_ok in Hv. split; [exact Hv|].
  apply (install_ok _ _ _ _ _ (default ∅ (ledger d)) Hms) in Hb as (Ht & Hn & Hl'); [|congruence]. rewrite Ht4, Ht2 in Ht. rewrite Hn4, Hn2 in Hn, Hl'. done.
Qed.

(** Either nothing has changed, and the answer is an error, or the whole of the
    source is in the database, and the answer is success unless the answer of
    the commit was lost. *)
Definition unchanged d d' : Prop := tables d' = tables d ∧ ledger d' = ledger d.
Definition installed_whole ms d d' : Prop :=
  descriptions (ledger d) ⊆ source_of ms ∧ descriptions (ledger d') = source_of ms ∧
  run_all (pending (default ∅ (ledger d)) ms) (tables d) = Ok (tables d').
Lemma filter_versions (P : Migration → Prop) `{!∀ m, Decision (P m)} ms : NoDup (Version <$> ms) → NoDup (Version <$> filter P ms).
Proof.
  induction ms as [|m ms IH]; [done|]. rewrite fmap_cons, filter_cons. intros [Hm Hms]%NoDup_cons. destruct (decide (P m)); [|by apply IH].
  rewrite fmap_cons. apply NoDup_cons. split; [|by apply IH].
  intros (x & Hx & [_ Hin]%list_elem_of_filter)%list_elem_of_fmap. apply Hm, list_elem_of_fmap. by exists x.
Qed.
Lemma descriptions_add now l ms : NoDup (Version <$> ms) → descriptions (Some l) ⊆ source_of ms →
  descriptions (Some (add (record_at now) l (pending l ms))) = source_of ms.
Proof.
  intros Hms Hl. apply map_eq. intros v. unfold descriptions in *. simpl in *. rewrite lookup_fmap.
  assert (NoDup (Version <$> pending l ms)) as Hp by (by apply filter_versions).
  destruct (decide (v ∈ Version <$> ms)) as [(m & -> & Hm)%list_elem_of_fmap|Hv].
  - rewrite source_of_add, (add_mine Description ms ∅ m) by done. destruct (l !! Version m) as [e|] eqn:E.
    + rewrite add_other, E.
      * simpl. assert (description <$> l !! Version m = Some (description e)) as He by (by rewrite E). rewrite <- lookup_fmap in He.
        eapply lookup_weaken in He; [|exact Hl]. rewrite source_of_add, (add_mine Description ms ∅ m) in He by done. congruence.
      * intros (m' & Hm' & Hin)%list_elem_of_fmap. apply list_elem_of_filter in Hin as [Hin _]. congruence.
    + rewrite (add_mine _ _ _ m); [done|done|]. by apply list_elem_of_filter.
  - rewrite source_of_add, !add_other; [|done|intros (m & -> & [_ Hm]%list_elem_of_filter)%list_elem_of_fmap; apply Hv, list_elem_of_fmap; by exists m].
    rewrite lookup_empty. destruct (l !! v) as [e|] eqn:E; [|done]. exfalso.
    assert ((description <$> l) !! v = Some (description e)) as He by (by rewrite lookup_fmap, E). eapply lookup_weaken in He; [|exact Hl].
    by rewrite source_of_add, add_other, lookup_empty in He.
Qed.
Lemma Apply_spec source ms d d' r : loadMigrations source = Ok ms → Apply source d = (d', r) →
  unchanged d d' ∧ is_ok r = false ∨ installed_whole ms d d'.
Proof.
  intros Hload. pose proof (loadMigrations_ok _ _ Hload) as (Hms & _). unfold Apply. rewrite Hload.
  change (bind (map_err _ (lift (Ok ms))) _ d) with (transaction (apply_body ms) d). unfold transaction.
  destruct (trip _ d) as [d1 [[]|e]] eqn:Hb.
  - apply trip_ok in Hb. injection Hb as <-. set (d1 := with_failures (tail (failures d)) d).
    destruct (apply_body ms d1) as [d2 [[]|e]] eqn:E; [|intros [= <- <-]; by left].
    apply apply_body_ok in E as (Hv & Hr & Hn & Hl); [|done]. simpl in *.
    assert (installed_whole ms d d2) as Hw.
    { split; [done|]. split; [|done]. rewrite Hl. apply descriptions_add; [done|]. by destruct (ledger d). }
    destruct (head (failures d2)) as [[f|]|]; [|intros [= <- <-]; by right|intros [= <- <-]; by right].
    destruct (fault_applied f); intros [= <- <-]; [by right|by left].
  - unfold trip in Hb. destruct (head (failures d)) as [[f|]|]; [|done|done]. injection Hb as <- <-. intros [= <- <-]. by left.
Qed.

(** ** Releases over time *)
(** Deployments one after another, whatever fails of them. *)
Fixpoint deploy (sources : list MigrationFS) d : Database T :=
  match sources with [] => d | source :: sources => deploy sources (fst (Apply source d)) end.
(** A database that holds the first [n] migrations of a release. *)
Definition holds (n : nat) final (t0 : T) d : Prop :=
  (n ≤ length final)%nat ∧ descriptions (ledger d) = source_of (take n final) ∧ run_all (take n final) t0 = Ok (tables d).
Lemma source_of_Some ms v : NoDup (Version <$> ms) → is_Some (source_of ms !! v) ↔ v ∈ Version <$> ms.
Proof.
  intros Hms. split.
  - intros [x Hx]. destruct (decide (v ∈ Version <$> ms)) as [|Hv]; [done|]. by rewrite source_of_add, add_other, lookup_empty in Hx.
  - intros (m & -> & Hm)%list_elem_of_fmap. exists (Description m). by rewrite source_of_add, (add_mine Description ms ∅ m).
Qed.
Lemma take_versions n ms : NoDup (Version <$> ms) → NoDup (Version <$> take n ms).
Proof. intros Hms. rewrite fmap_take. by eapply sublist_NoDup; [exact Hms|apply sublist_take]. Qed.
Lemma version_in_take n ms i m : NoDup (Version <$> ms) → ms !! i = Some m → Version m ∈ Version <$> take n ms ↔ (i < n)%nat.
Proof.
  intros Hms Hi. split.
  - intros (m' & Hv & (j & Hj & Hlt)%elem_of_take)%list_elem_of_fmap. assert (i = j) as ->; [|done].
    apply (NoDup_lookup _ _ _ (Version m) Hms); rewrite list_lookup_fmap, ?Hi, ?Hj; [done|]. by rewrite Hv.
  - intros Hlt. apply list_elem_of_fmap. exists m. split; [done|]. apply elem_of_take. by exists i.
Qed.
Lemma source_of_take_le n k ms : NoDup (Version <$> ms) → (n ≤ length ms)%nat → source_of (take n ms) ⊆ source_of (take k ms) → (n ≤ k)%nat.
Proof.
  intros Hms Hn Hs. destruct (decide (n ≤ k)%nat) as [|Hk]; [done|exfalso]. destruct (lookup_lt_is_Some_2 ms k) as [m Hm]; [lia|].
  assert (Version m ∈ Version <$> take n ms) as [d Hd]%(source_of_Some _ _ (take_versions n ms Hms)) by (apply (version_in_take _ _ k); [done|done|lia]).
  eapply lookup_weaken in Hd; [|exact Hs]. assert (is_Some (source_of (take k ms) !! Version m)) as Hin by (by exists d).
  apply (source_of_Some _ _ (take_versions k ms Hms)), (version_in_take _ _ k) in Hin; [lia|done|done].
Qed.
Lemma filter_all (P : Migration → Prop) `{!∀ m, Decision (P m)} ms : Forall P ms → filter P ms = ms.
Proof. induction 1 as [|m ms Hm _ IH]; [done|]. by rewrite filter_cons, decide_True, IH. Qed.
Lemma filter_none (P : Migration → Prop) `{!∀ m, Decision (P m)} ms : Forall (λ m, ¬ P m) ms → filter P ms = [].
Proof. induction 1 as [|m ms Hm _ IH]; [done|]. by rewrite filter_cons, decide_False, IH. Qed.
(** What the first [k] migrations still lack when the first [n] are there. *)
Lemma pending_take l n k ms : NoDup (Version <$> ms) → (n ≤ k)%nat → descriptions (Some l) = source_of (take n ms) →
  pending l (take k ms) = drop n (take k ms).
Proof.
  intros Hms Hk Hl. assert (∀ m, l !! Version m = None ↔ Version m ∉ Version <$> take n ms) as Hnone.
  { intros m. rewrite <- (source_of_Some _ _ (take_versions n ms Hms)), <- Hl. unfold descriptions. simpl. rewrite lookup_fmap.
    destruct (l !! Version m); simpl; [|split; [intros _ []|]; done]. split; [done|]. intros Hn. exfalso. by apply Hn. }
  rewrite <- (take_drop n (take k ms)) at 1. unfold pending. rewrite filter_app, filter_none, filter_all; [done| |].
  - apply Forall_forall. intros m (i & Hi)%list_elem_of_lookup. rewrite lookup_drop in Hi. apply lookup_take_Some in Hi as [Hi _]. apply Hnone.
    intros Hv%(version_in_take _ _ _ _ Hms Hi). lia.
  - apply Forall_forall. intros m Hm Hn%Hnone. rewrite take_take, Nat.min_l in Hm by lia. apply Hn, list_elem_of_fmap. by exists m.
Qed.
Lemma Apply_holds final t0 source d n : NoDup (Version <$> final) → (∀ ms, loadMigrations source = Ok ms → ms `prefix_of` final) →
  holds n final t0 d → ∃ n', (n ≤ n')%nat ∧ holds n' final t0 (fst (Apply source d)).
Proof.
  intros Hf Hp (Hn & Hd & Hr). destruct (loadMigrations source) as [ms|e] eqn:Hload.
  2:{ exists n. split; [done|]. unfold Apply. rewrite Hload. done. }
  specialize (Hp ms eq_refl). destruct (Apply source d) as [d' r] eqn:Ha. destruct (Apply_spec _ _ _ _ _ Hload Ha) as [[[Ht Hl] _]|(Hs & Hd' & Hr')].
  { exists n. split; [done|]. unfold holds. simpl. by rewrite Ht, Hl. }
  destruct Hp as [rest Hrest]. assert (ms = take (length ms) final) as Hms by (by rewrite Hrest, take_app_length).
  rewrite Hd, Hms in Hs. apply source_of_take_le in Hs; [|done|done].
  exists (length ms). split; [done|]. rewrite Hms in Hr'. rewrite (pending_take _ n) in Hr'; [|done|done|by destruct (ledger d)].
  split; [by rewrite Hrest, length_app; lia|]. simpl. rewrite <- Hms. split; [done|]. rewrite <- Hms in Hr'.
  rewrite <- (take_drop n ms), run_all_app. assert (take n ms = take n final) as ->; [|by rewrite Hr].
  by rewrite Hrest, take_app_le.
Qed.
Lemma deploy_holds final t0 sources : ∀ d n, NoDup (Version <$> final) → Forall (λ s, ∀ ms, loadMigrations s = Ok ms → ms `prefix_of` final) sources →
  holds n final t0 d → ∃ n', (n ≤ n')%nat ∧ holds n' final t0 (deploy sources d).
Proof.
  intros d n Hf Hs. revert d n. induction Hs as [|source sources Hsrc _ IH]; intros d n Hd; [by exists n|]. cbn [deploy].
  destruct (Apply_holds _ _ _ _ _ Hf Hsrc Hd) as (n1 & Hn1 & H1). destruct (IH _ _ H1) as (n2 & Hn2 & H2). exists n2. split; [lia|done].
Qed.

(** Without failures of the database, scripts that run are installed. *)
Lemma trip_calm {A} (sql : Database T → outcome (Database T * A)) d d' a :
  failures d = [] → sql d = Ok (d', a) → trip sql d = (d', Ok a).
Proof. intros Hf Hs. unfold trip. rewrite Hf. simpl. destruct d as [t l n fs]. simpl in *. subst. unfold with_failures. simpl. by rewrite Hs. Qed.
Lemma exec_calm (sql : Database T → outcome (Database T)) d d' : failures d = [] → sql d = Ok d' → ExecContext sql d = (d', Ok tt).
Proof. intros Hf Hs. apply trip_calm; [done|]. by rewrite Hs. Qed.
Lemma query_calm {A} (sql : Database T → outcome A) d a : failures d = [] → sql d = Ok a → QueryContext sql d = (d, Ok a).
Proof. intros Hf Hs. apply trip_calm; [done|]. by rewrite Hs. Qed.
Lemma map_err_done {A} f (m : DB_ A) d d' a : m d = (d', Ok a) → map_err f m d = (d', Ok a).
Proof. unfold map_err. by intros ->. Qed.
Lemma install_calm installed ms : ∀ d l t, NoDup (Version <$> ms) → failures d = [] → ledger d = Some l →
  (∀ m, m ∈ pending installed ms → l !! Version m = None) → run_all (pending installed ms) (tables d) = Ok t →
  ∃ d', for_each ms (install installed) d = (d', Ok tt) ∧ failures d' = [].
Proof.
  induction ms as [|m ms IH]; intros d l t; [intros _ Hf _ _ _; by exists d|]. rewrite fmap_cons. intros [Hm Hms]%NoDup_cons Hf Hl Hfree Hr.
  cbn [for_each]. unfold install at 1. unfold pending in Hfree, Hr. rewrite filter_cons in Hfree, Hr. destruct (installed !! Version m) eqn:E.
  - rewrite decide_False in Hfree, Hr by congruence. by apply (IH d l t).
  - rewrite decide_True in Hfree, Hr by done. cbn [run_all] in Hr. destruct (run_script (SQL m) (tables d)) as [t1|] eqn:Ht; [|done].
    set (d1 := mkDatabase t1 (ledger d) (time_now d) (failures d)).
    set (d2 := mkDatabase t1 (Some (<[Version m := record_at (time_now d) m]> l)) (time_now d) (failures d)).
    assert (ExecContext (script (SQL m)) d = (d1, Ok tt)) as H1 by (apply exec_calm; [done|]; unfold script; by rewrite Ht).
    assert (ExecContext (insertMigration (Version m) (Description m)) d1 = (d2, Ok tt)) as H2.
    { apply exec_calm; [done|]. unfold insertMigration. simpl. rewrite Hl, (Hfree m); [done|apply list_elem_of_here]. }
    destruct (IH d2 (<[Version m := record_at (time_now d) m]> l) t) as (d' & Hd' & Hf'); try done.
    + intros m' Hm'. rewrite lookup_insert_ne; [by apply Hfree, list_elem_of_further|]. intros Heq. apply Hm. rewrite Heq.
      apply list_elem_of_fmap. exists m'. split; [done|]. by apply list_elem_of_filter in Hm' as [_ ?].
    + exists d'. split; [|done]. rewrite (bind_of_ok _ _ d d2 tt); [done|].
      rewrite (bind_of_ok _ _ d d1 tt) by (by apply map_err_done). by apply map_err_done.
Qed.
Lemma Apply_calm source ms d : loadMigrations source = Ok ms → failures d = [] → descriptions (ledger d) ⊆ source_of ms →
  is_ok (run_all (pending (default ∅ (ledger d)) ms) (tables d)) = true → ∃ d', Apply source d = (d', Ok tt).
Proof.
  intros Hload Hf Hs Hr. pose proof (loadMigrations_ok _ _ Hload) as (Hms & _). unfold Apply. rewrite Hload.
  change (bind (map_err _ (lift (Ok ms))) _ d) with (transaction (apply_body ms) d). unfold transaction.
  rewrite (trip_calm _ d d tt) by done. set (l := default ∅ (ledger d)) in *.
  set (d1 := mkDatabase (tables d) (Some l) (time_now d) (failures d)).
  destruct (run_all (pending l ms) (tables d)) as [t|] eqn:Ht; [|done].
  destruct (install_calm l ms d1 l t) as (d' & Hd' & Hf'); try done; [by intros m [? _]%list_elem_of_filter|].
  assert (apply_body ms d = (d', Ok tt)) as ->.
  { unfold apply_body. rewrite (bind_of_ok _ _ d d1 tt) by (by apply map_err_done, exec_calm).
    rewrite (bind_of_ok _ _ d1 d1 tt) by (by apply map_err_done, query_calm).
    rewrite (bind_of_ok _ _ d1 d1 l).
    - rewrite (bind_of_ok _ _ d1 d1 tt); [done|]. unfold lift. f_equal. apply validateInstalled_ok. unfold l. by destruct (ledger d).
    - apply map_err_done. unfold readInstalled. rewrite (bind_of_ok _ _ d1 d1 (map_to_list l)) by (by apply query_calm).
      unfold lift. by rewrite scanInstalled_ledger. }
  rewrite Hf'. by eexists.
Qed.

(** C23. [Apply] is all or nothing: after it either the tables and the ledger are
    as before and it reports an error, or the whole release is installed, its
    missing scripts run once each and in order.  It refuses a database with a
    migration that the release does not have under that name, and without
    failures of the database it installs what can run. *)
Theorem apply_is_all_or_nothing source ms d d' r :
  loadMigrations source = Ok ms → Apply source d = (d', r) →
  (unchanged d d' ∧ is_ok r = false ∨ installed_whole ms d d') ∧
  (¬ descriptions (ledger d) ⊆ source_of ms → unchanged d d' ∧ is_ok r = false) ∧
  (failures d = [] → descriptions (ledger d) ⊆ source_of ms →
    is_ok (run_all (pending (default ∅ (ledger d)) ms) (tables d)) = true → r = Ok tt).
Proof.
  intros Hload Ha. pose proof (Apply_spec _ _ _ _ _ Hload Ha) as Hspec. split; [done|]. split.
  - intros Hno. by destruct Hspec as [|[? _]].
  - intros Hf Hs Hr. destruct (Apply_calm _ _ _ Hload Hf Hs Hr) as [d1 Hd1]. congruence.
Qed.

(** C22. Upgrading agrees with installing afresh: through any deployments of
    releases that the last one extends, in any order and whatever fails of them,
    a database that the last release is applied to has the tables that its
    scripts make of an empty one, every script run once and in order; and
    deploying again changes neither tables nor ledger entries. *)
Theorem upgrades_agree_with_fresh_install sources source final d d' :
  ledger d = None → Forall (λ s, ∀ ms, loadMigrations s = Ok ms → ms `prefix_of` final) sources → loadMigrations source = Ok final →
  Apply source (deploy sources d) = (d', Ok tt) →
  run_all final (tables d) = Ok (tables d') ∧ descriptions (ledger d') = source_of final ∧
  ∀ again, Forall (λ s, ∀ ms, loadMigrations s = Ok ms → ms `prefix_of` final) again →
    tables (deploy again d') = tables d' ∧ descriptions (ledger (deploy again d')) = source_of final.
Proof.
  intros Hd Hsources Hload Ha. pose proof (loadMigrations_ok _ _ Hload) as (Hms & _).
  assert (holds 0 final (tables d) d) as H0h by (split; [lia|]; rewrite Hd; done).
  destruct (deploy_holds _ _ _ _ _ Hms Hsources H0h) as (n & _ & Hn).
  destruct (Apply_holds final (tables d) source (deploy sources d) n Hms) as (n' & _ & Hn'); [|done|].
  { intros ms Hl. assert (ms = final) as -> by congruence. done. }
  rewrite Ha in Hn'. simpl in Hn'. destruct (Apply_spec _ _ _ _ _ Hload Ha) as [[_ Hno]|(_ & Hdesc & _)]; [done|].
  assert (∀ n d1, holds n final (tables d) d1 → (length final ≤ n)%nat →
    run_all final (tables d) = Ok (tables d1) ∧ descriptions (ledger d1) = source_of final) as Hwhole.
  { intros n1 d1 (_ & Hd1 & Hr1) Hle. by rewrite !take_ge in Hd1, Hr1 by done. }
  assert (length final ≤ n')%nat as Hle.
  { destruct Hn' as (Hb & Hd1 & _). apply (source_of_take_le _ _ final); [done|done|]. by rewrite take_ge, <- Hdesc, Hd1. }
  destruct (Hwhole _ _ Hn' Hle) as [Hr _]. split_and!; [done|done|]. intros again Hagain.
  destruct (deploy_holds _ _ again _ _ Hms Hagain Hn') as (n2 & Hn2 & H2). destruct (Hwhole _ _ H2) as [Hr2 Hd2]; [lia|]. split; [congruence|done].
Qed.
End applying.
End Migrator.

(** ** Two releases *)
Import Migrator.
Section releases.
(** A database whose tables are the scripts it has run; an unknown script fails. *)
#[local] Instance transcript : ScriptEngine (list string) :=
  {| run_script sql t := if String.prefix "CREATE" sql || String.prefix "ALTER" sql then Ok (t ++ [sql]) else Err (PgError "42601" "") |}.
#[local] Instance by_version : LedgerOrder := {| ledger_order := map_to_list; ledger_order_perm _ := Permutation_refl _ |}.
Definition script_file (name data : string) : DirEntry := mkDirEntry name false (Some data).
Definition first_release : MigrationFS :=
  Some [script_file "000001_create_users.up.sql" "CREATE TABLE users"; script_file "000002_create_groups.up.sql" "CREATE TABLE groups"].
Definition second_release : MigrationFS :=
  Some [script_file "000003_group-codes.up.sql" "ALTER TABLE groups"; script_file "000002_create_groups.up.sql" "CREATE TABLE groups";
        script_file "000001_create_users.up.sql" "CREATE TABLE users"; script_file "README.md" "notes"].
Definition second_migrations : list Migration :=
  [mkMigration 1 "create_users" "CREATE TABLE users"; mkMigration 2 "create_groups" "CREATE TABLE groups"; mkMigration 3 "group-codes" "ALTER TABLE groups"].
Example second_loads : loadMigrations second_release = Ok second_migrations.
Proof. vm_compute. reflexivity. Qed.
Example bad_names :
  (λ name, is_ok (loadMigrations (Some [script_file name "CREATE"]))) <$>
    ["000001_bad name.up.sql"; "00001_x.up.sql"; "000000_x.up.sql"; "000001_-x.up.sql"; "000001_x-y_z.up.sql"; "000001_x.down.sql"]
  = [false; false; false; false; true; true].
Proof. vm_compute. reflexivity. Qed.
(** A connection lost after the statement, and an empty database. *)
Definition lost : option fault := Some (mkFault ConnectionLost true).
Definition new_database (fs : list (option fault)) : Database (list string) := mkDatabase [] None 1000 fs.
(** The first release fails half way, then loses the answer of its commit; the
    second one is installed; a late start of the first one is refused. *)
Definition troubled : list (option fault) := [None; None; None; None; None; lost; None; None; None; None; None; None; None; None; lost].
Example troubled_deployments :
  (λ s, (tables s, length (map_to_list (default ∅ (ledger s))))) <$>
    [fst (Apply first_release (new_database troubled)); deploy [first_release; first_release] (new_database troubled);
     deploy [first_release; first_release; second_release] (new_database troubled);
     deploy [first_release; first_release; second_release; first_release] (new_database troubled)]
  = [([], 0%nat); (["CREATE TABLE users"; "CREATE TABLE groups"], 2%nat);
     (["CREATE TABLE users"; "CREATE TABLE groups"; "ALTER TABLE groups"], 3%nat);
     (["CREATE TABLE users"; "CREATE TABLE groups"; "ALTER TABLE groups"], 3%nat)].
Proof. vm_compute. reflexivity. Qed.
Lemma loads_prefix source ms final : loadMigrations source = Ok ms → (∃ rest, final = ms ++ rest) → ∀ ms', loadMigrations source = Ok ms' → ms' `prefix_of` final.
Proof. intros Hl [rest ->] ms' Hl'. assert (ms' = ms) as -> by congruence. by exists rest. Qed.

Lemma apply_is_all_or_nothing_witness :
  let d := fst (Apply second_release (new_database [])) in
  snd (Apply second_release (new_database [])) = Ok tt ∧ unchanged d (fst (Apply first_release d)) ∧ is_ok (snd (Apply first_release d)) = false.
Proof.
  destruct (Apply second_release (new_database [])) as [d r] eqn:E.
  destruct (apply_is_all_or_nothing second_release second_migrations (new_database []) d r second_loads E) as (_ & _ & Hok).
  destruct (Apply first_release d) as [d2 r2] eqn:E2.
  assert (loadMigrations first_release = Ok (take 2 second_migrations)) as Hfirst by (vm_compute; reflexivity).
  destruct (apply_is_all_or_nothing first_release _ d d2 r2 Hfirst E2) as (_ & Hno & _). cbv zeta. cbn [fst snd]. rewrite E2. cbn [fst snd]. split; [|apply Hno].
  - apply Hok; [reflexivity|apply map_subseteq_spec; intros i x Hx; unfold descriptions in Hx; simpl in Hx; rewrite lookup_fmap, lookup_empty in Hx; discriminate Hx|vm_compute; reflexivity].
  - intros Hs. assert (descriptions (ledger d) !! 3 = Some "group-codes") as H3.
    { apply (f_equal (λ p, descriptions (ledger (fst p)) !! 3)) in E. vm_compute in E. symmetry. exact E. }
    eapply lookup_weaken in H3; [|exact Hs]. vm_compute in H3. discriminate H3.
Defined.
Lemma upgrades_agree_with_fresh_install_witness :
  let d := deploy [first_release; first_release] (new_database troubled) in
  tables (fst (Apply second_release d)) = ["CREATE TABLE users"; "CREATE TABLE groups"; "ALTER TABLE groups"].
Proof.
  intros d. assert (snd (Apply second_release d) = Ok tt) as Hok by (vm_compute; reflexivity).
  destruct (Apply second_release d) as [d' r] eqn:E. simpl in Hok. subst r.
  assert (∀ ms, loadMigrations first_release = Ok ms → ms `prefix_of` second_migrations) as Hfirst.
  { eapply loads_prefix; [vm_compute; reflexivity|]. eexists. reflexivity. }
  destruct (upgrades_agree_with_fresh_install [first_release; first_release] second_release second_migrations (new_database troubled) d' eq_refl
    (Forall_cons_2 _ _ _ Hfirst (Forall_cons_2 _ _ _ Hfirst (Forall_nil_2 _))) second_loads E) as (Hr & _).
  vm_compute in Hr. injection Hr as Hr. symmetry. exact Hr.
Defined.

(** The ledger holds names, not scripts: a script edited after it was
    installed is not noticed. *)
Definition edited_release : MigrationFS :=
  Some [script_file "000001_create_users.up.sql" "CREATE TABLE accounts"; script_file "000002_create_groups.up.sql" "CREATE TABLE groups"].
Theorem edited_script_is_not_noticed :
  let d := fst (Apply first_release (new_database [])) in
  snd (Apply edited_release d) = Ok tt ∧ tables (fst (Apply edited_release d)) = tables d ∧
  run_all [mkMigration 1 "create_users" "CREATE TABLE accounts"; mkMigration 2 "create_groups" "CREATE TABLE groups"] [] ≠ Ok (tables d).
Proof. vm_compute. split; [reflexivity|]. split; [reflexivity|discriminate]. Qed.
End releases.
