(* ===== verification/Config.v ===== *)
(** * Deployment configuration: internal/config/config.go

    [Load] reads the environment variables, applies defaults and refuses what
    is malformed, contradictory or unsafe in production.  A computation in
    [Setup] reads the environment; nothing changes it.  [url.Parse],
    [mail.ParseAddress] and [time.ParseDuration] are parameters. *)
From S2P Require Export Locale ClientAddress OAuth World.
Import Locale.

(** [url.URL]; [u_User] tells whether there is a user.  An address whose path
    has an unusual escaping ([RawPath]) is not told apart. *)
Record ParsedURL := mkParsedURL {
  u_Scheme : string; u_Host : string; u_User : bool; u_Path : string; u_RawQuery : string; u_Fragment : string }.
Class AddressParser := { parse_url : string → option ParsedURL }.
#[export] Instance addresses `{AddressParser} : URLParser :=
  {| url_Parse s := (λ u, (u_Scheme u, u_Host u, u_User u)) <$> parse_url s |}.
(** The name and the address of [mail.ParseAddress]. *)
Class MailAddressParser := { mail_ParseAddress : string → option (string * string) }.
#[export] Instance mail_addresses `{MailAddressParser} : MailParser := {| ParseAddress s := snd <$> mail_ParseAddress s |}.
(** Nanoseconds. *)
Class DurationParser := { ParseDuration : string → option Z }.

(** [URL.String] of an address with neither user, query nor fragment. *)
Definition address_String (u : ParsedURL) : string := url_String (mkURL (u_Scheme u) (u_Host u) (u_Path u)).

(** [URL.Hostname] and [URL.Port] of a host. *)
Definition validOptionalPort (port : string) : bool :=
  match port with
  | EmptyString => true
  | String c digits => Ascii.eqb c ":" && all_chars (λ c, in_range 48 57 (byte_of c)) digits
  end.
Definition strip_brackets (host : string) : string :=
  if String.prefix "[" host && (match last_index "]" host with Some i => (S i =? String.length host)%nat | None => false end)
  then substring 1 (String.length host - 2) host else host.
Definition splitHostPort (hostPort : string) : string * string :=
  match last_index ":" hostPort with
  | Some i => if validOptionalPort (from i hostPort) then (strip_brackets (substring 0 i hostPort), from (S i) hostPort)
              else (strip_brackets hostPort, "")
  | None => (strip_brackets hostPort, "")
  end.
Definition Hostname (u : ParsedURL) : string := (splitHostPort (u_Host u)).1.
Definition Port (u : ParsedURL) : string := (splitHostPort (u_Host u)).2.

(** The port of [net.SplitHostPort]. *)
Definition split_port (hostport : string) : option string :=
  _ ← split_host hostport; i ← last_index ":" hostport; Some (from (S i) hostport).
(** [strconv.ParseBool]. *)
Definition ParseBool (s : string) : option bool :=
  if existsb (String.eqb s) ["1"; "t"; "T"; "true"; "TRUE"; "True"] then Some true
  else if existsb (String.eqb s) ["0"; "f"; "F"; "false"; "FALSE"; "False"] then Some false
  else None.
(** [unicode.IsControl]. *)
Definition IsControl (r : Z) : bool := (r <? 32) || in_range 127 159 r.

Module Config.
Definition EnvironmentEnv : string := "GOWEB_ENV".
Definition HTTPAddressEnv : string := "GOWEB_HTTP_ADDR".
Definition PublicURLEnv : string := "GOWEB_PUBLIC_URL".
Definition SessionCookieSecureEnv : string := "GOWEB_SESSION_COOKIE_SECURE".
Definition EmailConfirmationRequiredEnv : string := "GOWEB_EMAIL_CONFIRMATION_REQUIRED".
Definition SessionLifetimeEnv : string := "GOWEB_SESSION_LIFETIME".
Definition GuestRetentionEnv : string := "GOWEB_GUEST_RETENTION".
Definition LoginAttemptRetentionEnv : string := "GOWEB_LOGIN_ATTEMPT_RETENTION".
Definition UsageRetentionEnv : string := "GOWEB_USAGE_RETENTION".
Definition AuthRateLimitEnv : string := "GOWEB_AUTH_RATE_LIMIT".
Definition MailRelayEnv : string := "GOWEB_MAIL_RELAY".
Definition ResendAPIKeyEnv : string := "GOWEB_RESEND_API_KEY".
Definition MailFromEnv : string := "GOWEB_MAIL_FROM".
Definition TrustedProxyEnv : string := "GOWEB_TRUSTED_PROXY".
Definition DatabaseURLEnv : string := "GOWEB_DATABASE_URL".
Definition SessionSecretEnv : string := "GOWEB_SESSION_SECRET".
Definition BootstrapAdminEmailEnv : string := "GOWEB_BOOTSTRAP_ADMIN_EMAIL".
Definition BootstrapAdminPasswordEnv : string := "GOWEB_BOOTSTRAP_ADMIN_PASSWORD".
Definition GoogleClientIDEnv : string := "GOWEB_GOOGLE_CLIENT_ID".
Definition GoogleClientSecretEnv : string := "GOWEB_GOOGLE_CLIENT_SECRET".
Definition GoogleRedirectURLEnv : string := "GOWEB_GOOGLE_REDIRECT_URL".
Definition AuthModeEnv : string := "GOWEB_AUTH_MODE".
Definition HydraAdminURLEnv : string := "GOWEB_HYDRA_ADMIN_URL".
Definition SSOIssuerURLEnv : string := "GOWEB_SSO_ISSUER_URL".
Definition SSOClientIDEnv : string := "GOWEB_SSO_CLIENT_ID".
Definition SSOClientSecretEnv : string := "GOWEB_SSO_CLIENT_SECRET".
Definition SSORedirectURLEnv : string := "GOWEB_SSO_REDIRECT_URL".
Definition SSOAccountURLEnv : string := "GOWEB_SSO_ACCOUNT_URL".

Definition hour : Z := 3600 * second.
Definition MinimumBootstrapAdminPasswordLength : Z := 8.
Definition EnvironmentDevelopment : string := "development".
Definition EnvironmentTest : string := "test".
Definition EnvironmentProduction : string := "production".
Definition DefaultEnvironment : string := EnvironmentDevelopment.
Definition DefaultHTTPAddress : string := ":8080".
Definition DefaultPublicURL : string := "http://localhost:8080".
Definition DefaultSessionLifetime : Z := 24 * hour.
Definition DefaultGuestRetention : Z := 30 * 24 * hour.
Definition DefaultLoginAttemptRetention : Z := 30 * 24 * hour.
Definition DefaultUsageRetention : Z := 90 * 24 * hour.
Definition DefaultAuthRateLimit : Z := 10.
Definition MaximumAuthRateLimit : Z := 10000.
Definition MinimumSessionSecretLength : Z := 32.
Definition AuthModeLocal : string := "local".
Definition AuthModeProvider : string := "provider".
Definition AuthModeClient : string := "client".

Definition ErrInvalidEnvironment : error := Opaque "config: invalid environment".
Definition ErrInvalidHTTPAddress : error := Opaque "config: invalid http address".
Definition ErrInvalidPublicURL : error := Opaque "config: invalid public url".
Definition ErrInvalidBoolean : error := Opaque "config: invalid boolean".
Definition ErrInvalidDuration : error := Opaque "config: invalid duration".
Definition ErrInvalidRateLimit : error := Opaque "config: invalid rate limit".
Definition ErrWeakSecret : error := Opaque "config: weak secret".
Definition ErrInvalidBootstrapAdmin : error := Opaque "config: invalid bootstrap administrator".
Definition ErrBootstrapAdminForbidden : error := Opaque "config: bootstrap administrator is not allowed in production".
Definition ErrInvalidMailRelay : error := Opaque "config: invalid mail relay".
Definition ErrInvalidTrustedProxy : error := Opaque "config: invalid trusted proxy".
Definition ErrInvalidOAuth : error := Opaque "config: invalid oauth configuration".
Definition ErrInvalidAuthMode : error := Opaque "config: invalid auth mode configuration".
Definition ErrUnsafeProductionConfig : error := Opaque "config: unsafe production configuration".

(** ** Secrets *)
Record Secret := mkSecret { value : string }.
Definition IsSet (s : Secret) : bool := negb (String.eqb (value s) "").
Definition Reveal (s : Secret) : string := value s.
Definition bool_text (b : bool) : string := if b then "true" else "false".
Definition Secret_String (s : Secret) : string := if IsSet s then "[redacted]" else "".
Definition GoString (s : Secret) : string := "config.Secret{configured:" +:+ bool_text (IsSet s) +:+ "}".
Definition quote : string := String (ascii_of_nat 34) "".
Definition MarshalJSON (s : Secret) : string := if IsSet s then quote +:+ "[redacted]" +:+ quote else "null".

Record Config := mkConfig {
  Environment : string;
  HTTPAddress : string;
  PublicURL : ParsedURL;
  SessionCookieSecure : bool;
  EmailConfirmationRequired : bool;
  SessionLifetime : Z;
  GuestRetention : Z;
  LoginAttemptRetention : Z;
  UsageRetention : Z;
  AuthRateLimit : Z;
  DatabaseURL : Secret;
  SessionSecret : Secret;
  BootstrapAdminEmail : string;
  BootstrapAdminPassword : Secret;
  MailRelay : Secret;
  ResendAPIKey : Secret;
  MailFrom : string;
  mailFromConfigured : bool;
  TrustedProxy : string;
  GoogleClientID : string;
  GoogleClientSecret : Secret;
  GoogleRedirectURL : string;
  AuthMode : string;
  HydraAdminURL : string;
  SSOIssuerURL : string;
  SSOClientID : string;
  SSOClientSecret : Secret;
  SSORedirectURL : string;
  SSOAccountURL : string;
}.
(** The fields of single sign-on, which [applyAuthMode] sets. *)
Definition with_role (c : Config) (mode admin issuer client : string) (secret : Secret) (redirect account : string) : Config :=
  mkConfig (Environment c) (HTTPAddress c) (PublicURL c) (SessionCookieSecure c) (EmailConfirmationRequired c) (SessionLifetime c)
    (GuestRetention c) (LoginAttemptRetention c) (UsageRetention c) (AuthRateLimit c) (DatabaseURL c) (SessionSecret c)
    (BootstrapAdminEmail c) (BootstrapAdminPassword c) (MailRelay c) (ResendAPIKey c) (MailFrom c) (mailFromConfigured c)
    (TrustedProxy c) (GoogleClientID c) (GoogleClientSecret c) (GoogleRedirectURL c)
    mode admin issuer client secret redirect account.
Definition blank (s : string) : bool := String.eqb (TrimSpace s) "".
Definition GoogleOAuthConfigured (c : Config) : bool :=
  negb (blank (GoogleClientID c)) && IsSet (GoogleClientSecret c) && negb (blank (GoogleRedirectURL c)).
Definition MailConfigured (c : Config) : bool := IsSet (MailRelay c) || IsSet (ResendAPIKey c).
Definition BootstrapAdminConfigured (c : Config) : bool :=
  negb (blank (BootstrapAdminEmail c)) && IsSet (BootstrapAdminPassword c).
(** [String]: the summary for logs. *)
Definition String_ (c : Config) : string := String.concat " " [
  "environment=" +:+ Environment c; "http_address=" +:+ HTTPAddress c; "public_url=" +:+ address_String (PublicURL c);
  "session_cookie_secure=" +:+ bool_text (SessionCookieSecure c);
  "email_confirmation_required=" +:+ bool_text (EmailConfirmationRequired c);
  "session_lifetime=" +:+ duration_String (SessionLifetime c); "guest_retention=" +:+ duration_String (GuestRetention c);
  "login_attempt_retention=" +:+ duration_String (LoginAttemptRetention c);
  "usage_retention=" +:+ duration_String (UsageRetention c); "auth_rate_limit=" +:+ FormatInt (AuthRateLimit c);
  "database_configured=" +:+ bool_text (IsSet (DatabaseURL c)); "session_secret_configured=" +:+ bool_text (IsSet (SessionSecret c));
  "bootstrap_admin_configured=" +:+ bool_text (BootstrapAdminConfigured c);
  "mail_relay_configured=" +:+ bool_text (IsSet (MailRelay c)); "resend_configured=" +:+ bool_text (IsSet (ResendAPIKey c));
  "trusted_proxy_configured=" +:+ bool_text (negb (String.eqb (TrustedProxy c) ""));
  "google_oauth_configured=" +:+ bool_text (GoogleOAuthConfigured c); "auth_mode=" +:+ AuthMode c;
  "hydra_admin_configured=" +:+ bool_text (negb (String.eqb (HydraAdminURL c) ""));
  "sso_client_configured=" +:+ bool_text (IsSet (SSOClientSecret c))].

(** ** Parsing *)
Definition Setup : Type → Type := ST (string → string).
Definition getenv (name : string) : Setup string := gets (λ env, env name).
(** [fmt.Errorf("%w: reason", kind)]. *)
Definition wrong (kind : error) (reason : string) : error := Errorf reason kind.

Section loading.
Context `{Unicode, AddressParser, MailAddressParser, DurationParser, ReferenceParser}.

Definition valueOrDefault (value fallback : string) : string := if blank value then fallback else TrimSpace value.
Definition parseEnvironment (raw : string) : outcome string :=
  let environment := ToLower (TrimSpace raw) in
  if String.eqb environment "" then Ok DefaultEnvironment
  else if negb (existsb (String.eqb environment) [EnvironmentDevelopment; EnvironmentTest; EnvironmentProduction])
  then Err (wrong ErrInvalidEnvironment EnvironmentEnv) else Ok environment.
Definition parseHTTPAddress (address : string) : outcome string :=
  match split_port address with
  | None => Err (wrong ErrInvalidHTTPAddress "value must include host and port")
  | Some port =>
    match ParseInt port with
    | Some n => if (n <? 1) || (65535 <? n) then Err (wrong ErrInvalidHTTPAddress "port must be between 1 and 65535") else Ok address
    | None => Err (wrong ErrInvalidHTTPAddress "port must be between 1 and 65535")
    end
  end.
(** The address has neither user, query nor fragment, and the scheme is one of two. *)
Definition plain_address (u : ParsedURL) : bool :=
  negb (String.eqb (u_Scheme u) "") && negb (String.eqb (u_Host u) "") && negb (u_User u)
  && String.eqb (u_RawQuery u) "" && String.eqb (u_Fragment u) "".
Definition web_scheme (u : ParsedURL) : bool := String.eqb (u_Scheme u) "http" || String.eqb (u_Scheme u) "https".
Definition parsePublicURL (raw : string) : outcome ParsedURL :=
  match parse_url raw with
  | Some u =>
    if negb (plain_address u) then Err (wrong ErrInvalidPublicURL "value must be an http or https URL without credentials or query data")
    else if negb (web_scheme u) then Err (wrong ErrInvalidPublicURL "scheme must be http or https") else Ok u
  | None => Err (wrong ErrInvalidPublicURL "value must be an http or https URL without credentials or query data")
  end.
Definition parseBool (name raw : string) (defaultValue : bool) : outcome bool :=
  if blank raw then Ok defaultValue else
  match ParseBool raw with
  | Some value => Ok value
  | None => Err (wrong ErrInvalidBoolean (name +:+ " must be true or false"))
  end.
Definition parseRetention (name raw : string) (fallback : Z) : outcome Z :=
  if blank raw then Ok fallback else
  match ParseDuration raw with
  | Some period => if period <=? 0 then Err (wrong ErrInvalidDuration (name +:+ " must be a positive duration")) else Ok period
  | None => Err (wrong ErrInvalidDuration (name +:+ " must be a positive duration"))
  end.
Definition parseSessionLifetime (raw : string) : outcome Z := parseRetention SessionLifetimeEnv raw DefaultSessionLifetime.
Definition parseAuthRateLimit (raw : string) : outcome Z :=
  let refused := wrong ErrInvalidRateLimit (AuthRateLimitEnv +:+ " must be an integer between 1 and " +:+ FormatInt MaximumAuthRateLimit) in
  if blank raw then Ok DefaultAuthRateLimit else
  match ParseInt (TrimSpace raw) with
  | Some limit => if (limit <? 1) || (MaximumAuthRateLimit <? limit) then Err refused else Ok limit
  | None => Err refused
  end.
Definition validateHTTPURL (kind : error) (name raw : string) : outcome unit :=
  match parse_url raw with
  | Some u =>
    if negb (plain_address u) then Err (wrong kind (name +:+ " must be an absolute http or https URL without credentials or query data"))
    else if negb (web_scheme u) then Err (wrong kind (name +:+ " scheme must be http or https")) else Ok tt
  | None => Err (wrong kind (name +:+ " must be an absolute http or https URL without credentials or query data"))
  end.
Definition validProxyAddress (raw : string) : bool := negb (is_nil (ParseIP raw)) || negb (is_nil (ParseCIDR raw)).
Definition plainEmailAddress (value : string) : bool :=
  match mail_ParseAddress value with
  | Some (name, address) => String.eqb name "" && String.eqb address value
  | None => false
  end.

(** ** The role in single sign-on *)
Definition ssoClientURLs (c : Config) : list (string * string) :=
  [(SSOIssuerURLEnv, SSOIssuerURL c); (SSORedirectURLEnv, SSORedirectURL c); (SSOAccountURLEnv, SSOAccountURL c)].
Definition requires (setting modes : string) : error :=
  wrong ErrInvalidAuthMode (setting +:+ " requires " +:+ AuthModeEnv +:+ "=" +:+ modes).
Definition missing (mode settings : string) : error :=
  wrong ErrInvalidAuthMode (AuthModeEnv +:+ "=" +:+ mode +:+ " requires " +:+ settings).
Definition client_settings (c : Config) : list (string * bool) :=
  [(SSOClientIDEnv, negb (String.eqb (SSOClientID c) "")); (SSOClientSecretEnv, IsSet (SSOClientSecret c));
   (SSORedirectURLEnv, negb (String.eqb (SSORedirectURL c) "")); (SSOAccountURLEnv, negb (String.eqb (SSOAccountURL c) ""))].
(** [strings.TrimRight(PublicURL.String(), "/") + path]. *)
Definition derived_URL (public : ParsedURL) (route : string) (failure : error) : Setup string :=
  match Path Default route with
  | Ok path => ret (TrimRightSlash (address_String public) +:+ path)
  | Err _ => throw failure
  end.
Definition applyAuthMode (c : Config) : Setup Config :=
  let! raw := getenv AuthModeEnv in
  let mode := let m := ToLower (TrimSpace raw) in if String.eqb m "" then AuthModeLocal else m in
  guard (negb (existsb (String.eqb mode) [AuthModeLocal; AuthModeProvider; AuthModeClient]))
    (wrong ErrInvalidAuthMode (AuthModeEnv +:+ " must be local, provider, or client")) ;;;
  let! admin := getenv HydraAdminURLEnv in
  let! issuer := getenv SSOIssuerURLEnv in
  let! client := getenv SSOClientIDEnv in
  let! secret := getenv SSOClientSecretEnv in
  let! redirect := getenv SSORedirectURLEnv in
  let! account := getenv SSOAccountURLEnv in
  let c := with_role c mode (TrimSpace admin) (TrimSpace issuer) (TrimSpace client) (mkSecret secret) (TrimSpace redirect) (TrimSpace account) in
  let role m := String.eqb mode m in
  guard (negb (role AuthModeProvider) && negb (String.eqb (HydraAdminURL c) "")) (requires HydraAdminURLEnv AuthModeProvider) ;;;
  guard (role AuthModeLocal && negb (String.eqb (SSOIssuerURL c) "")) (requires SSOIssuerURLEnv (AuthModeProvider +:+ " or " +:+ AuthModeClient)) ;;;
  (if role AuthModeClient then ret tt
   else for_each (client_settings c) (λ s, guard s.2 (requires s.1 AuthModeClient))) ;;;
  guard (negb (role AuthModeLocal) && negb (IsSet (DatabaseURL c))) (missing mode DatabaseURLEnv) ;;;
  if role AuthModeProvider then
    guard (String.eqb (HydraAdminURL c) "" || String.eqb (SSOIssuerURL c) "") (missing mode (HydraAdminURLEnv +:+ " and " +:+ SSOIssuerURLEnv)) ;;;
    lift (validateHTTPURL ErrInvalidAuthMode HydraAdminURLEnv (HydraAdminURL c)) ;;;
    lift (validateHTTPURL ErrInvalidAuthMode SSOIssuerURLEnv (SSOIssuerURL c)) ;;;
    ret c
  else if role AuthModeClient then
    guard (String.eqb (SSOIssuerURL c) "" || String.eqb (SSOClientID c) "" || negb (IsSet (SSOClientSecret c)))
      (missing mode (SSOIssuerURLEnv +:+ ", " +:+ SSOClientIDEnv +:+ ", and " +:+ SSOClientSecretEnv)) ;;;
    guard (negb (String.eqb (GoogleClientID c) "") || IsSet (GoogleClientSecret c) || negb (String.eqb (GoogleRedirectURL c) ""))
      (wrong ErrInvalidAuthMode ("Google sign-in is configured on the provider, not on " +:+ AuthModeEnv +:+ "=" +:+ mode)) ;;;
    let! redirect :=
      if String.eqb (SSORedirectURL c) ""
      then derived_URL (PublicURL c) "/oauth/sso/callback" (wrong ErrInvalidAuthMode ("cannot derive " +:+ SSORedirectURLEnv))
      else ret (SSORedirectURL c) in
    let c := with_role c mode (HydraAdminURL c) (SSOIssuerURL c) (SSOClientID c) (SSOClientSecret c) redirect (SSOAccountURL c) in
    for_each (ssoClientURLs c) (λ s, if String.eqb s.2 "" then ret tt else lift (validateHTTPURL ErrInvalidAuthMode s.1 s.2)) ;;;
    ret c
  else ret c.

(** ** Production *)
Definition problem (unsafe : bool) (text : string) : list string := if unsafe then [text] else [].
Definition not_https (raw : string) : bool := match parse_url raw with Some u => negb (String.eqb (u_Scheme u) "https") | None => true end.
Definition problems (c : Config) : list string :=
  problem (negb (SessionCookieSecure c)) (SessionCookieSecureEnv +:+ " must be true")
  ++ problem (negb (String.eqb (u_Scheme (PublicURL c)) "https")) (PublicURLEnv +:+ " must use https")
  ++ problem (negb (IsSet (DatabaseURL c))) (DatabaseURLEnv +:+ " must be set")
  ++ problem (negb (IsSet (SessionSecret c))) (SessionSecretEnv +:+ " must be set")
  ++ problem (negb (MailConfigured c))
       (MailRelayEnv +:+ " or " +:+ ResendAPIKeyEnv +:+ " must be set so password reset and confirmation mail is delivered")
  ++ problem (DefaultAuthRateLimit <? AuthRateLimit c) (AuthRateLimitEnv +:+ " must be at most " +:+ FormatInt DefaultAuthRateLimit)
  ++ problem (IsSet (ResendAPIKey c) && negb (mailFromConfigured c)) (MailFromEnv +:+ " must be set to an address on a domain verified in Resend")
  ++ problem (GoogleOAuthConfigured c && not_https (GoogleRedirectURL c)) (GoogleRedirectURLEnv +:+ " must use https")
  ++ problem (String.eqb (AuthMode c) AuthModeProvider && negb (String.prefix "https://" (SSOIssuerURL c))) (SSOIssuerURLEnv +:+ " must use https")
  ++ (if String.eqb (AuthMode c) AuthModeClient
      then ssoClientURLs c ≫= λ s, problem (negb (String.eqb s.2 "") && not_https s.2) (s.1 +:+ " must use https") else []).
Definition validateProduction (c : Config) : outcome unit :=
  if negb (String.eqb (Environment c) EnvironmentProduction) then Ok tt else
  match problems c with
  | [] => Ok tt
  | texts => Err (wrong ErrUnsafeProductionConfig (String.concat "; " texts))
  end.

(** ** Loading *)
Definition bootstrap_admin (environment : string) : Setup (string * Secret) :=
  let! rawEmail := getenv BootstrapAdminEmailEnv in
  let email := TrimSpace rawEmail in
  let! rawPassword := getenv BootstrapAdminPasswordEnv in
  let password := mkSecret rawPassword in
  if String.eqb email "" && negb (IsSet password) then ret (email, password) else
  guard (String.eqb email "" || negb (IsSet password))
    (wrong ErrInvalidBootstrapAdmin (BootstrapAdminEmailEnv +:+ " and " +:+ BootstrapAdminPasswordEnv +:+ " must be set together")) ;;;
  guard (is_nil (mail_ParseAddress email)) (wrong ErrInvalidBootstrapAdmin (BootstrapAdminEmailEnv +:+ " must be a valid email address")) ;;;
  guard (len (value password) <? MinimumBootstrapAdminPasswordLength)
    (wrong ErrWeakSecret (BootstrapAdminPasswordEnv +:+ " must contain at least " +:+ FormatInt MinimumBootstrapAdminPasswordLength +:+ " characters")) ;;;
  guard (String.eqb environment EnvironmentProduction) ErrBootstrapAdminForbidden ;;;
  ret (email, password).
Definition relay_address (u : ParsedURL) : bool :=
  (String.eqb (u_Scheme u) "smtp" || String.eqb (u_Scheme u) "smtps") && negb (String.eqb (u_Host u) "") && negb (u_User u)
  && String.eqb (u_RawQuery u) "" && String.eqb (u_Fragment u) "".
Definition mail_delivery : Setup (Secret * Secret) :=
  let! rawRelay := getenv MailRelayEnv in
  let mailRelay := mkSecret rawRelay in
  guard (IsSet mailRelay && negb (match parse_url (TrimSpace (value mailRelay)) with Some u => relay_address u | None => false end))
    (wrong ErrInvalidMailRelay (MailRelayEnv +:+ " must be an smtp:// or smtps:// host address without credentials")) ;;;
  let! rawKey := getenv ResendAPIKeyEnv in
  let resendAPIKey := mkSecret (TrimSpace rawKey) in
  guard (IsSet resendAPIKey && IsSet mailRelay)
    (wrong ErrInvalidMailRelay ("set only one of " +:+ MailRelayEnv +:+ " and " +:+ ResendAPIKeyEnv)) ;;;
  guard (IsSet resendAPIKey && ((256 <? len (value resendAPIKey)) || existsb (λ r, IsSpace r || IsControl r) (runes (value resendAPIKey))))
    (wrong ErrInvalidMailRelay (ResendAPIKeyEnv +:+ " must be a single token without whitespace")) ;;;
  ret (mailRelay, resendAPIKey).
(** The sender and whether it was set. *)
Definition mail_from (public : ParsedURL) : Setup (string * bool) :=
  let! raw := getenv MailFromEnv in
  let mailFrom := TrimSpace raw in
  if String.eqb mailFrom "" then
    let derived := "no-reply@" +:+ Hostname public in
    ret (if plainEmailAddress derived then derived else "no-reply@localhost", false)
  else
    guard (negb (plainEmailAddress mailFrom)) (wrong ErrInvalidMailRelay (MailFromEnv +:+ " must be a plain email address")) ;;;
    ret (mailFrom, true).
Definition google_client (public : ParsedURL) : Setup (string * Secret * string) :=
  let! rawID := getenv GoogleClientIDEnv in
  let googleClientID := TrimSpace rawID in
  let! rawSecret := getenv GoogleClientSecretEnv in
  let googleClientSecret := mkSecret rawSecret in
  let! rawRedirect := getenv GoogleRedirectURLEnv in
  let redirect := TrimSpace rawRedirect in
  let! redirect :=
    if String.eqb googleClientID "" && negb (IsSet googleClientSecret) then ret redirect else
    guard (String.eqb googleClientID "" || negb (IsSet googleClientSecret))
      (wrong ErrInvalidOAuth (GoogleClientIDEnv +:+ " and " +:+ GoogleClientSecretEnv +:+ " must be set together")) ;;;
    if String.eqb redirect ""
    then derived_URL public "/oauth/google/callback" (wrong ErrInvalidOAuth ("cannot derive " +:+ GoogleRedirectURLEnv))
    else ret redirect in
  (if String.eqb redirect "" then ret tt else lift (validateHTTPURL ErrInvalidOAuth GoogleRedirectURLEnv redirect)) ;;;
  ret (googleClientID, googleClientSecret, redirect).

Definition load : Setup Config :=
  let! raw := getenv EnvironmentEnv in let! environment := lift (parseEnvironment raw) in
  let! raw := getenv HTTPAddressEnv in let! httpAddress := lift (parseHTTPAddress (valueOrDefault raw DefaultHTTPAddress)) in
  let! raw := getenv PublicURLEnv in let! publicURL := lift (parsePublicURL (valueOrDefault raw DefaultPublicURL)) in
  let! raw := getenv SessionCookieSecureEnv in
  let! cookieSecure := lift (parseBool SessionCookieSecureEnv raw
    (String.eqb environment EnvironmentProduction || String.eqb (u_Scheme publicURL) "https")) in
  let! raw := getenv EmailConfirmationRequiredEnv in
  let! emailConfirmationRequired := lift (parseBool EmailConfirmationRequiredEnv raw false) in
  let! raw := getenv SessionLifetimeEnv in let! sessionLifetime := lift (parseSessionLifetime raw) in
  let! raw := getenv GuestRetentionEnv in let! guestRetention := lift (parseRetention GuestRetentionEnv raw DefaultGuestRetention) in
  let! raw := getenv LoginAttemptRetentionEnv in
  let! loginAttemptRetention := lift (parseRetention LoginAttemptRetentionEnv raw DefaultLoginAttemptRetention) in
  let! raw := getenv UsageRetentionEnv in let! usageRetention := lift (parseRetention UsageRetentionEnv raw DefaultUsageRetention) in
  let! raw := getenv AuthRateLimitEnv in let! authRateLimit := lift (parseAuthRateLimit raw) in
  let! raw := getenv SessionSecretEnv in
  let sessionSecret := mkSecret raw in
  guard (IsSet sessionSecret && (len (value sessionSecret) <? MinimumSessionSecretLength))
    (wrong ErrWeakSecret (SessionSecretEnv +:+ " must contain at least " +:+ FormatInt MinimumSessionSecretLength +:+ " characters")) ;;;
  let! bootstrap := bootstrap_admin environment in
  let! delivery := mail_delivery in
  let! sender := mail_from publicURL in
  let! raw := getenv TrustedProxyEnv in
  let trustedProxy := TrimSpace raw in
  guard (negb (String.eqb trustedProxy "") && negb (validProxyAddress trustedProxy))
    (wrong ErrInvalidTrustedProxy (TrustedProxyEnv +:+ " must be an IP address or CIDR network")) ;;;
  let! google := google_client publicURL in
  let! database := getenv DatabaseURLEnv in
  let! loaded := applyAuthMode (mkConfig environment httpAddress publicURL cookieSecure emailConfirmationRequired sessionLifetime
    guestRetention loginAttemptRetention usageRetention authRateLimit (mkSecret database) sessionSecret bootstrap.1 bootstrap.2
    delivery.1 delivery.2 sender.1 sender.2 trustedProxy google.1.1 google.1.2 google.2 "" "" "" "" (mkSecret "") "" "") in
  lift (validateProduction loaded) ;;;
  ret loaded.
Definition Load (env : string → string) : outcome Config := snd (load env).
End loading.
End Config.

(** ** What a loaded configuration promises *)
Import Config.
Section facts.
Context `{Unicode, AddressParser, MailAddressParser, DurationParser, ReferenceParser}.
Implicit Types (env : string → string) (c : Config).

(** An absolute http or https address with neither user, query nor fragment. *)
Definition web_address (raw : string) (scheme : string) : Prop :=
  raw ≠ "" ∧ ∃ u, parse_url raw = Some u ∧ plain_address u = true ∧ web_scheme u = true ∧ u_Scheme u = scheme.
Definition some_web_address (raw : string) : Prop := ∃ scheme, web_address raw scheme.

Lemma validateHTTPURL_ok kind name raw : raw ≠ "" → validateHTTPURL kind name raw = Ok tt → some_web_address raw.
Proof. unfold validateHTTPURL. intros Hne Hv. repeat case_in Hv; bool_props. eexists _. split; [done|]. eexists _. by split_and!. Qed.
Lemma parsePublicURL_ok raw u : parsePublicURL raw = Ok u → (∃ raw, parse_url raw = Some u) ∧ plain_address u = true ∧ web_scheme u = true.
Proof. unfold parsePublicURL. intros Hv. repeat case_in Hv; bool_props. injection Hv as ->. by split; [exists raw|]. Qed.
Lemma parseRetention_ok name raw fallback d : 0 < fallback → parseRetention name raw fallback = Ok d → 0 < d.
Proof. unfold parseRetention. intros Hf Hv. repeat case_in Hv; injection Hv as <-; bool_props; done. Qed.
Lemma parseAuthRateLimit_ok raw n : parseAuthRateLimit raw = Ok n → 1 ≤ n ≤ MaximumAuthRateLimit.
Proof. unfold parseAuthRateLimit, MaximumAuthRateLimit, DefaultAuthRateLimit. intros Hv. repeat case_in Hv; injection Hv as <-; bool_props; lia. Qed.
Lemma for_each_ok {S A} (xs : list A) (f : A → ST S unit) s s' u :
  (∀ x s s' u, f x s = (s', Ok u) → s' = s) → for_each xs f s = (s', Ok u) → s' = s ∧ Forall (λ x, f x s = (s, Ok tt)) xs.
Proof.
  intros Hf. induction xs as [|x xs IH]; simpl; intros Hx; [by inv_ok|].
  apply bind_ok in Hx as (s1 & [] & Hx & Hxs). pose proof (Hf _ _ _ _ Hx) as ->. apply IH in Hxs as [-> Hxs]. by repeat constructor.
Qed.

Lemma bind_getenv {A} name (f : string → Setup A) env : bind (getenv name) f env = f (env name) env.
Proof. done. Qed.
Lemma setup_guard {A} b e (f : unit → Setup A) env r : bind (guard b e) f env = (env, Ok r) → b = false ∧ f tt env = (env, Ok r).
Proof. by destruct b. Qed.
(** Nothing changes the environment. *)
Definition reads {A} (m : Setup A) : Prop := ∀ env, (m env).1 = env.
Lemma reads_ok {A} (m : Setup A) env env' r : reads m → m env = (env', r) → env' = env.
Proof. intros Hm Hx. pose proof (Hm env) as Hr. by rewrite Hx in Hr. Qed.
Lemma reads_bind {A B} (m : Setup A) (f : A → Setup B) : reads m → (∀ a, reads (f a)) → reads (bind m f).
Proof. intros Hm Hf env. unfold bind. pose proof (Hm env) as Hr. destruct (m env) as [env' [a|e]]; simpl in *; subst; [apply Hf|done]. Qed.
Lemma reads_ret {A} (a : A) : reads (ret a).
Proof. done. Qed.
Lemma reads_lift {A} (r : outcome A) : reads (lift r).
Proof. done. Qed.
Lemma reads_getenv name : reads (getenv name).
Proof. done. Qed.
Lemma reads_throw {A} e : reads (throw (A := A) e).
Proof. done. Qed.
Lemma reads_guard b e : reads (guard b e).
Proof. by destruct b. Qed.
Lemma reads_for_each {A} (xs : list A) f : (∀ x, reads (f x)) → reads (for_each xs f).
Proof. intros Hf. induction xs as [|x xs IH]; simpl; [apply reads_ret|]. apply reads_bind; [done|]. intros _. apply IH. Qed.
Ltac reads_tac := repeat first [apply reads_bind; [|intros ?] | apply reads_ret | apply reads_lift | apply reads_getenv | apply reads_throw
  | apply reads_guard | apply reads_for_each; intros ? | progress cbv zeta | case_match].
Lemma derived_URL_reads public route failure : reads (derived_URL public route failure).
Proof. unfold derived_URL. reads_tac. Qed.
Lemma bootstrap_admin_reads environment : reads (bootstrap_admin environment).
Proof. unfold bootstrap_admin. reads_tac. Qed.
Lemma mail_delivery_reads : reads mail_delivery.
Proof. unfold mail_delivery. reads_tac. Qed.
Lemma mail_from_reads public : reads (mail_from public).
Proof. unfold mail_from. reads_tac. Qed.
Lemma google_client_reads public : reads (google_client public).
Proof. unfold google_client, derived_URL. reads_tac. Qed.
Lemma applyAuthMode_reads c : reads (applyAuthMode c).
Proof. unfold applyAuthMode, derived_URL. reads_tac. Qed.

Ltac read_env H := repeat first [rewrite bind_getenv in H; cbv beta zeta in H | apply setup_guard in H as [? H]; cbv beta in H].
Lemma bootstrap_admin_ok environment env email password :
  bootstrap_admin environment env = (env, Ok (email, password)) →
  (environment = EnvironmentProduction → email = "" ∧ IsSet password = false) ∧
  (IsSet password = true → MinimumBootstrapAdminPasswordLength ≤ len (value password) ∧ is_Some (mail_ParseAddress email)).
Proof.
  unfold bootstrap_admin. intros Hx. read_env Hx. destruct (String.eqb _ "" && _) eqn:E.
  - bool_props. injection Hx as <- <-. split; intros; [done|congruence].
  - read_env Hx. injection Hx as <- <-. bool_props. split; [done|]. intros _. split; [done|]. by destruct (mail_ParseAddress _).
Qed.
Lemma mail_delivery_ok env relay key :
  mail_delivery env = (env, Ok (relay, key)) →
  (IsSet relay = true → IsSet key = false ∧ ∃ u, parse_url (TrimSpace (value relay)) = Some u ∧ relay_address u = true) ∧
  (IsSet key = true → value key = TrimSpace (env ResendAPIKeyEnv) ∧ len (value key) ≤ 256 ∧ existsb (λ r, IsSpace r || IsControl r) (runes (value key)) = false).
Proof.
  unfold mail_delivery. intros Hx. read_env Hx. injection Hx as <- <-. split.
  - intros Hr. rewrite Hr in *. rewrite andb_true_r in *. simpl in *. bool_props. split; [done|].
    destruct (parse_url _) as [u|]; [by exists u|done].
  - intros Hk. rewrite Hk in *. simpl in *. bool_props. done.
Qed.
Lemma mail_from_ok public env from set :
  mail_from public env = (env, Ok (from, set)) → plainEmailAddress from = true ∨ from = "no-reply@localhost".
Proof.
  unfold mail_from. intros Hx. read_env Hx. destruct (String.eqb _ "").
  - injection Hx as <- <-. destruct (plainEmailAddress ("no-reply@" +:+ _)) eqn:E; rewrite ?E; [by left|by right].
  - read_env Hx. injection Hx as <- <-. bool_props. by auto.
Qed.
Lemma reads_bind_ok {A B} (m : Setup A) (f : A → Setup B) env b :
  reads m → bind m f env = (env, Ok b) → ∃ a, m env = (env, Ok a) ∧ f a env = (env, Ok b).
Proof. intros Hm Hx. apply bind_ok in Hx as (env' & a & Hx & Hf). pose proof (reads_ok _ _ _ _ Hm Hx) as ->. by exists a. Qed.
Lemma Path_nonempty language route path : Path language route = Ok path → path ≠ "".
Proof. unfold Path. intros Hp. repeat case_in Hp; injection Hp as <-; done. Qed.
Lemma append_nonempty a b : b ≠ "" → a +:+ b ≠ "".
Proof. by destruct a. Qed.
Lemma derived_URL_ok public route failure env url : derived_URL public route failure env = (env, Ok url) → url ≠ "".
Proof.
  unfold derived_URL. destruct (Path Default route) as [path|] eqn:E; [|done]. intros [= <-].
  by apply append_nonempty, (Path_nonempty _ _ _ E).
Qed.

(** The redirect address is the trimmed setting, or derived. *)
Definition callback_settled public env redirect : Prop :=
  TrimSpace redirect = redirect ∨
  derived_URL public "/oauth/google/callback" (wrong ErrInvalidOAuth ("cannot derive " +:+ GoogleRedirectURLEnv)) env = (env, Ok redirect).
Lemma google_client_ok public env id secret redirect :
  google_client public env = (env, Ok (id, secret, redirect)) →
  ((redirect = "" ∨ some_web_address redirect) ∧ callback_settled public env redirect) ∧
  (id = "" ∧ IsSet secret = false ∨ id ≠ "" ∧ TrimSpace id = id ∧ IsSet secret = true ∧ some_web_address redirect).
Proof.
  unfold google_client. intros Hx. read_env Hx.
  apply reads_bind_ok in Hx as (url & Hu & Hx); [|unfold derived_URL; reads_tac].
  apply reads_bind_ok in Hx as ([] & Hv & Hx); [|reads_tac]. injection Hx as <- <- <-.
  assert (url = "" ∨ url ≠ "" ∧ some_web_address url) as Hweb.
  { destruct (String.eqb_spec url "") as [|Hne]; [by left|right]. split; [done|]. injection Hv as Hv. by apply validateHTTPURL_ok in Hv. }
  split; [split; [tauto|]|].
  { unfold callback_settled. case_in Hu; [injection Hu as <-; left; apply TrimSpace_idemp|]. read_env Hu. case_in Hu; [by right|].
    injection Hu as <-. left. apply TrimSpace_idemp. }
  destruct (_ && _) eqn:E in Hu.
  - bool_props. by left.
  - right. read_env Hu. bool_props. split_and!; [done|apply TrimSpace_idemp|done|].
    destruct Hweb as [->|[_ Hweb]]; [exfalso|done]. destruct (String.eqb_spec (TrimSpace (env GoogleRedirectURLEnv)) "") as [|Hne].
    + by apply derived_URL_ok in Hu.
    + injection Hu as ?. done.
Qed.

(** The settings of one role and of no other. *)
Definition no_client_settings c : Prop := SSOClientID c = "" ∧ IsSet (SSOClientSecret c) = false ∧ SSORedirectURL c = "" ∧ SSOAccountURL c = "".
Definition role_settled c : Prop :=
  AuthMode c = AuthModeLocal ∧ HydraAdminURL c = "" ∧ SSOIssuerURL c = "" ∧ no_client_settings c ∨
  AuthMode c = AuthModeProvider ∧ some_web_address (HydraAdminURL c) ∧ some_web_address (SSOIssuerURL c) ∧ no_client_settings c ∧
    IsSet (DatabaseURL c) = true ∨
  AuthMode c = AuthModeClient ∧ HydraAdminURL c = "" ∧ some_web_address (SSOIssuerURL c) ∧ SSOClientID c ≠ "" ∧ TrimSpace (SSOClientID c) = SSOClientID c ∧
    IsSet (SSOClientSecret c) = true ∧ some_web_address (SSORedirectURL c) ∧ (SSOAccountURL c = "" ∨ some_web_address (SSOAccountURL c)) ∧
    GoogleClientID c = "" ∧ IsSet (GoogleClientSecret c) = false ∧ GoogleRedirectURL c = "" ∧ IsSet (DatabaseURL c) = true.
Lemma no_client_settings_ok c : Forall (λ s : string * bool, s.2 = false) (client_settings c) → no_client_settings c.
Proof. unfold client_settings. rewrite !Forall_cons. simpl. intros (? & ? & ? & ? & _). bool_props. by split_and!. Qed.
Definition services_trimmed c : Prop := TrimSpace (HydraAdminURL c) = HydraAdminURL c ∧ TrimSpace (SSOIssuerURL c) = SSOIssuerURL c.
Lemma applyAuthMode_ok c env c' :
  applyAuthMode c env = (env, Ok c') →
  (role_settled c' ∧ services_trimmed c') ∧ ∃ mode admin issuer client secret redirect account, c' = with_role c mode admin issuer client secret redirect account.
Proof.
  unfold applyAuthMode. intros Hx. read_env Hx.
  set (mode := let m := ToLower (TrimSpace (env AuthModeEnv)) in if String.eqb m "" then AuthModeLocal else m) in *. clearbody mode.
  set (c1 := with_role c mode _ _ _ _ _ _) in Hx.
  apply reads_bind_ok in Hx as ([] & Hs & Hx); [|reads_tac]. read_env Hx.
  assert (mode ∈ [AuthModeLocal; AuthModeProvider; AuthModeClient]) as Hmode.
  { bool_props. match goal with E : existsb _ _ = true |- _ => apply existsb_exists in E as (m & Hm & Heq) end.
    apply String.eqb_eq in Heq as ->. by apply list_elem_of_In. }
  assert (String.eqb mode AuthModeClient = false → no_client_settings c1) as Hnone.
  { intros E. rewrite E in Hs. apply for_each_ok in Hs as [_ Hs]; [|by intros ???? [_ ->]%guard_ok].
    apply no_client_settings_ok. eapply Forall_impl; [exact Hs|]. intros x Hx'. by apply guard_ok in Hx' as [? _]. }
  rewrite !elem_of_cons, elem_of_nil in Hmode. destruct Hmode as [->|[->|[->|[]]]]; simpl in *; bool_props.
  - injection Hx as <-. split; [split; [left|]|by repeat eexists]; [by split_and!; [..|apply Hnone]|by split; apply TrimSpace_idemp].
  - read_env Hx. apply reads_bind_ok in Hx as ([] & Hv1 & Hx); [|reads_tac]. apply reads_bind_ok in Hx as ([] & Hv2 & Hx); [|reads_tac].
    injection Hx as <-. injection Hv1 as Hv1. injection Hv2 as Hv2. bool_props. split; [split; [right; left|by split; apply TrimSpace_idemp]|by repeat eexists].
    split_and!; [done|by eapply validateHTTPURL_ok|by eapply validateHTTPURL_ok|by apply Hnone|done].
  - read_env Hx. apply reads_bind_ok in Hx as (redirect & Hr & Hx); [|unfold derived_URL; reads_tac].
    apply reads_bind_ok in Hx as ([] & Hv & Hx); [|reads_tac]. injection Hx as <-. bool_props.
    apply reads_bind_ok in Hv as ([] & Hv1 & Hv); [|reads_tac]. apply reads_bind_ok in Hv as ([] & Hv2 & Hv); [|reads_tac].
    apply reads_bind_ok in Hv as ([] & Hv3 & _); [|reads_tac]. split; [split; [right; right|by split; apply TrimSpace_idemp]|by repeat eexists].
    assert (redirect ≠ "") as Hne. { destruct (String.eqb_spec (TrimSpace (env SSORedirectURLEnv)) ""); [by eapply derived_URL_ok|]. injection Hr as <-. done. }
    pose proof Hne as Hne'. apply String.eqb_neq in Hne'. rewrite Hne' in Hv2. injection Hv2 as Hv2.
    assert (∀ raw, (if String.eqb raw "" then ret tt else lift (validateHTTPURL ErrInvalidAuthMode SSOIssuerURLEnv raw)) env = (env, Ok tt) → raw ≠ "" → some_web_address raw).
    { intros raw Hw Hraw. pose proof Hraw as Hraw'. apply String.eqb_neq in Hraw'. rewrite Hraw' in Hw. injection Hw as Hw. by eapply validateHTTPURL_ok. }
    split_and!; try done; [by eauto|apply TrimSpace_idemp|by eapply validateHTTPURL_ok|].
    destruct (String.eqb_spec (TrimSpace (env SSOAccountURLEnv)) "") as [|Hna]; [by left|right]. injection Hv3 as Hv3. by eapply validateHTTPURL_ok.
Qed.
(** Everything [load] checks of the settings outside single sign-on. *)
Definition settings_sound env c : Prop :=
  ((∃ raw, parse_url raw = Some (PublicURL c)) ∧ plain_address (PublicURL c) = true ∧ web_scheme (PublicURL c) = true) ∧
  (0 < SessionLifetime c ∧ 0 < GuestRetention c ∧ 0 < LoginAttemptRetention c ∧ 0 < UsageRetention c) ∧
  1 ≤ AuthRateLimit c ≤ MaximumAuthRateLimit ∧
  (IsSet (SessionSecret c) = true → MinimumSessionSecretLength ≤ len (value (SessionSecret c))) ∧
  ((Environment c = EnvironmentProduction → BootstrapAdminEmail c = "" ∧ IsSet (BootstrapAdminPassword c) = false) ∧
   (IsSet (BootstrapAdminPassword c) = true →
     MinimumBootstrapAdminPasswordLength ≤ len (value (BootstrapAdminPassword c)) ∧ is_Some (mail_ParseAddress (BootstrapAdminEmail c)))) ∧
  ((IsSet (MailRelay c) = true → IsSet (ResendAPIKey c) = false ∧ ∃ u, parse_url (TrimSpace (value (MailRelay c))) = Some u ∧ relay_address u = true) ∧
   (IsSet (ResendAPIKey c) = true → value (ResendAPIKey c) = TrimSpace (env ResendAPIKeyEnv) ∧ len (value (ResendAPIKey c)) ≤ 256 ∧
     existsb (λ r, IsSpace r || IsControl r) (runes (value (ResendAPIKey c))) = false)) ∧
  (plainEmailAddress (MailFrom c) = true ∨ MailFrom c = "no-reply@localhost") ∧
  (TrustedProxy c = "" ∨ validProxyAddress (TrustedProxy c) = true) ∧
  ((GoogleRedirectURL c = "" ∨ some_web_address (GoogleRedirectURL c)) ∧ callback_settled (PublicURL c) env (GoogleRedirectURL c)) ∧
  (GoogleClientID c = "" ∧ IsSet (GoogleClientSecret c) = false ∨
   GoogleClientID c ≠ "" ∧ TrimSpace (GoogleClientID c) = GoogleClientID c ∧ IsSet (GoogleClientSecret c) = true ∧ some_web_address (GoogleRedirectURL c)).
Ltac next_setting H x E := rewrite bind_getenv in H; cbv beta zeta in H; apply reads_bind_ok in H as (x & E & H); [|reads_tac].
Lemma load_ok env c : Load env = Ok c → settings_sound env c ∧ (role_settled c ∧ services_trimmed c) ∧ validateProduction c = Ok tt.
Proof.
  unfold Load. intros Hl. assert (load env = (env, Ok c)) as Hx.
  { destruct (load env) as [env' r] eqn:E. simpl in Hl. subst r. f_equal. revert E. apply reads_ok. unfold load.
    reads_tac; auto using derived_URL_reads, bootstrap_admin_reads, mail_delivery_reads, mail_from_reads, google_client_reads, applyAuthMode_reads. }
  clear Hl. unfold load in Hx.
  next_setting Hx environment Henv. next_setting Hx address Haddr. next_setting Hx public Hpub. next_setting Hx secure Hsec.
  next_setting Hx confirm Hconf. next_setting Hx life1 Hlife. next_setting Hx guests Hguests. next_setting Hx attempts Hattempts.
  next_setting Hx usage1 Husage. next_setting Hx limit1 Hlimit. read_env Hx.
  apply reads_bind_ok in Hx as ([email password] & Hboot & Hx); [|apply bootstrap_admin_reads].
  apply reads_bind_ok in Hx as ([relay key] & Hmail & Hx); [|apply mail_delivery_reads].
  apply reads_bind_ok in Hx as ([from set] & Hfrom & Hx); [|apply mail_from_reads]. read_env Hx.
  apply reads_bind_ok in Hx as ([[id secret] redirect] & Hgoogle & Hx); [|apply google_client_reads]. read_env Hx.
  apply reads_bind_ok in Hx as (c' & Hrole & Hx); [|apply applyAuthMode_reads].
  apply reads_bind_ok in Hx as ([] & Hprod & Hx); [|reads_tac]. injection Hx as <-. injection Hprod as Hprod.
  apply applyAuthMode_ok in Hrole as (Hrole & mode & admin & issuer & client & csecret & credirect & account & ->).
  split; [|done]. injection Hpub as Hpub. injection Hlife as Hlife. injection Hguests as Hguests. injection Hattempts as Hattempts.
  injection Husage as Husage. injection Hlimit as Hlimit. unfold settings_sound. simpl.
  split_and!; try (eapply parsePublicURL_ok; exact Hpub); try (eapply parseRetention_ok; [|eassumption]; reflexivity);
    try (eapply parseAuthRateLimit_ok; eassumption); try (eapply bootstrap_admin_ok; eassumption); try (eapply mail_delivery_ok; eassumption);
    try (eapply mail_from_ok; eassumption); try (eapply google_client_ok; eassumption).
  - intros Hset. match goal with E : _ && (_ <? MinimumSessionSecretLength) = false |- _ => rewrite Hset in E; simpl in E end. bool_props. done.
  - match goal with E : negb (String.eqb (TrimSpace (env TrustedProxyEnv)) "") && _ = false |- _ => revert E end.
    destruct (String.eqb_spec (TrimSpace (env TrustedProxyEnv)) ""); [by left|]. simpl. intros E. bool_props. by right.
Qed.

(** ** What an error tells *)
(** Every refusal but that of [validateProduction], none with a value in it. *)
Definition url_refusals (kind : error) (name : string) : list error :=
  [wrong kind (name +:+ " must be an absolute http or https URL without credentials or query data");
   wrong kind (name +:+ " scheme must be http or https")].
Definition refusals : list error :=
  [wrong ErrInvalidEnvironment EnvironmentEnv;
   wrong ErrInvalidHTTPAddress "value must include host and port"; wrong ErrInvalidHTTPAddress "port must be between 1 and 65535";
   wrong ErrInvalidPublicURL "value must be an http or https URL without credentials or query data";
   wrong ErrInvalidPublicURL "scheme must be http or https"]
  ++ ((λ name, wrong ErrInvalidBoolean (name +:+ " must be true or false")) <$> [SessionCookieSecureEnv; EmailConfirmationRequiredEnv])
  ++ ((λ name, wrong ErrInvalidDuration (name +:+ " must be a positive duration"))
      <$> [SessionLifetimeEnv; GuestRetentionEnv; LoginAttemptRetentionEnv; UsageRetentionEnv])
  ++ [wrong ErrInvalidRateLimit (AuthRateLimitEnv +:+ " must be an integer between 1 and " +:+ FormatInt MaximumAuthRateLimit);
      wrong ErrWeakSecret (SessionSecretEnv +:+ " must contain at least " +:+ FormatInt MinimumSessionSecretLength +:+ " characters");
      wrong ErrInvalidBootstrapAdmin (BootstrapAdminEmailEnv +:+ " and " +:+ BootstrapAdminPasswordEnv +:+ " must be set together");
      wrong ErrInvalidBootstrapAdmin (BootstrapAdminEmailEnv +:+ " must be a valid email address");
      wrong ErrWeakSecret (BootstrapAdminPasswordEnv +:+ " must contain at least " +:+ FormatInt MinimumBootstrapAdminPasswordLength +:+ " characters");
      ErrBootstrapAdminForbidden;
      wrong ErrInvalidMailRelay (MailRelayEnv +:+ " must be an smtp:// or smtps:// host address without credentials");
      wrong ErrInvalidMailRelay ("set only one of " +:+ MailRelayEnv +:+ " and " +:+ ResendAPIKeyEnv);
      wrong ErrInvalidMailRelay (ResendAPIKeyEnv +:+ " must be a single token without whitespace");
      wrong ErrInvalidMailRelay (MailFromEnv +:+ " must be a plain email address");
      wrong ErrInvalidTrustedProxy (TrustedProxyEnv +:+ " must be an IP address or CIDR network");
      wrong ErrInvalidOAuth (GoogleClientIDEnv +:+ " and " +:+ GoogleClientSecretEnv +:+ " must be set together");
      wrong ErrInvalidOAuth ("cannot derive " +:+ GoogleRedirectURLEnv);
      wrong ErrInvalidAuthMode (AuthModeEnv +:+ " must be local, provider, or client");
      requires HydraAdminURLEnv AuthModeProvider; requires SSOIssuerURLEnv (AuthModeProvider +:+ " or " +:+ AuthModeClient);
      missing AuthModeProvider DatabaseURLEnv; missing AuthModeClient DatabaseURLEnv;
      missing AuthModeProvider (HydraAdminURLEnv +:+ " and " +:+ SSOIssuerURLEnv);
      missing AuthModeClient (SSOIssuerURLEnv +:+ ", " +:+ SSOClientIDEnv +:+ ", and " +:+ SSOClientSecretEnv);
      wrong ErrInvalidAuthMode ("Google sign-in is configured on the provider, not on " +:+ AuthModeEnv +:+ "=" +:+ AuthModeClient);
      wrong ErrInvalidAuthMode ("cannot derive " +:+ SSORedirectURLEnv)]
  ++ ((λ name, requires name AuthModeClient) <$> [SSOClientIDEnv; SSOClientSecretEnv; SSORedirectURLEnv; SSOAccountURLEnv])
  ++ url_refusals ErrInvalidOAuth GoogleRedirectURLEnv
  ++ ([HydraAdminURLEnv; SSOIssuerURLEnv; SSORedirectURLEnv; SSOAccountURLEnv] ≫= url_refusals ErrInvalidAuthMode).
Definition production_texts : list string :=
  [SessionCookieSecureEnv +:+ " must be true"; PublicURLEnv +:+ " must use https"; DatabaseURLEnv +:+ " must be set"; SessionSecretEnv +:+ " must be set";
   MailRelayEnv +:+ " or " +:+ ResendAPIKeyEnv +:+ " must be set so password reset and confirmation mail is delivered";
   AuthRateLimitEnv +:+ " must be at most " +:+ FormatInt DefaultAuthRateLimit;
   MailFromEnv +:+ " must be set to an address on a domain verified in Resend"; GoogleRedirectURLEnv +:+ " must use https";
   SSOIssuerURLEnv +:+ " must use https"; SSORedirectURLEnv +:+ " must use https"; SSOAccountURLEnv +:+ " must use https"].
Definition tells_no_value (e : error) : Prop :=
  e ∈ refusals ∨ ∃ texts, texts ⊆ production_texts ∧ e = wrong ErrUnsafeProductionConfig (String.concat "; " texts).

Definition discreet {A} (m : Setup A) : Prop := ∀ env env' e, m env = (env', Err e) → tells_no_value e.
Lemma discreet_ret {A} (a : A) : discreet (ret a).
Proof. done. Qed.
Lemma discreet_getenv name : discreet (getenv name).
Proof. done. Qed.
Lemma discreet_bind {A B} (m : Setup A) (f : A → Setup B) : discreet m → (∀ a, discreet (f a)) → discreet (bind m f).
Proof. intros Hm Hf env env' e. unfold bind. destruct (m env) as [env1 [a|e1]] eqn:E; [apply Hf|]. intros [= <- <-]. by eapply Hm. Qed.
Lemma discreet_lift {A} (r : outcome A) : (∀ e, r = Err e → e ∈ refusals) → discreet (lift r).
Proof. intros Hr env env' e [= <- He]. left. by apply Hr. Qed.
Lemma discreet_throw {A} e : e ∈ refusals → discreet (throw (A := A) e).
Proof. intros He env env' e' [= <- <-]. by left. Qed.
Lemma discreet_guard {A} b e (f : unit → Setup A) : e ∈ refusals → (b = false → discreet (f tt)) → discreet (bind (guard b e) f).
Proof. intros He Hf. destruct b; [|by apply Hf]. intros env env' e' [= <- <-]. by left. Qed.
Lemma discreet_for_each {A} (xs : list A) f : Forall (λ x, discreet (f x)) xs → discreet (for_each xs f).
Proof. induction 1 as [|x xs Hx Hxs IH]; simpl; [apply discreet_ret|]. by apply discreet_bind. Qed.
Ltac listed := unfold refusals; repeat first [apply list_elem_of_here | apply list_elem_of_further | progress simpl].
Ltac discreet_tac := repeat first [apply discreet_guard; [listed|intros _] | apply discreet_bind; [|intros ?] | apply discreet_ret | apply discreet_getenv
  | apply discreet_throw; listed | progress cbv zeta].
Lemma problem_none b text : problem b text = [] → b = false.
Proof. by destruct b. Qed.
Lemma https_address raw : not_https raw = false → some_web_address raw → web_address raw "https".
Proof. unfold not_https. intros Hn (scheme & Hne & u & Hu & Hp & Hw & Hs). rewrite Hu in Hn. bool_props. split; [done|]. exists u. by split_and!. Qed.
Lemma https_address_set raw : negb (String.eqb raw "") && not_https raw = false → some_web_address raw → web_address raw "https".
Proof. intros Hn Hw. destruct Hw as (scheme & Hne & Hw). pose proof Hne as Hne'. apply String.eqb_neq in Hne'. rewrite Hne' in Hn. apply https_address; [done|]. by exists scheme. Qed.
Lemma bootstrap_admin_discreet environment : discreet (bootstrap_admin environment).
Proof. unfold bootstrap_admin. discreet_tac. destruct (_ && _); discreet_tac. Qed.
Lemma mail_delivery_discreet : discreet mail_delivery.
Proof. unfold mail_delivery. discreet_tac. Qed.
Lemma mail_from_discreet public : discreet (mail_from public).
Proof. unfold mail_from. discreet_tac. destruct (String.eqb _ ""); discreet_tac. Qed.
Lemma validateHTTPURL_refuses kind name raw e : validateHTTPURL kind name raw = Err e → e ∈ url_refusals kind name.
Proof. unfold validateHTTPURL, url_refusals. intros Hv. repeat case_in Hv; injection Hv as <-; rewrite !elem_of_cons; auto. Qed.
Lemma url_refusals_listed name e :
  name ∈ [HydraAdminURLEnv; SSOIssuerURLEnv; SSORedirectURLEnv; SSOAccountURLEnv] → e ∈ url_refusals ErrInvalidAuthMode name → e ∈ refusals.
Proof. intros Hn He. unfold refusals. rewrite !elem_of_app. do 6 right. apply list_elem_of_bind. by exists name. Qed.
Lemma discreet_validate name raw : name ∈ [HydraAdminURLEnv; SSOIssuerURLEnv; SSORedirectURLEnv; SSOAccountURLEnv] →
  discreet (lift (validateHTTPURL ErrInvalidAuthMode name raw)).
Proof. intros Hn. apply discreet_lift. intros e He%validateHTTPURL_refuses. by apply (url_refusals_listed name). Qed.
Lemma derived_URL_discreet public route failure : failure ∈ refusals → discreet (derived_URL public route failure).
Proof. intros Hf. unfold derived_URL. destruct (Path _ _); [apply discreet_ret|by apply discreet_throw]. Qed.
Lemma google_client_discreet public : discreet (google_client public).
Proof.
  unfold google_client. discreet_tac.
  - destruct (_ && _); [discreet_tac|]. discreet_tac. destruct (String.eqb _ ""); [|discreet_tac]. apply derived_URL_discreet. listed.
  - destruct (String.eqb _ ""); [discreet_tac|]. apply discreet_lift. intros e He%validateHTTPURL_refuses.
    unfold refusals. rewrite !elem_of_app. do 5 right. by left.
Qed.
Lemma client_settings_discreet c : discreet (for_each (client_settings c) (λ s, guard s.2 (requires s.1 AuthModeClient))).
Proof.
  apply discreet_for_each. unfold client_settings.
  repeat (apply Forall_cons; split; [intros env env' e Hg; destruct (_ : bool) in Hg; [|done]; injection Hg as _ <-; left; listed|]). apply Forall_nil. done.
Qed.
Lemma applyAuthMode_discreet c : discreet (applyAuthMode c).
Proof.
  unfold applyAuthMode. apply discreet_bind; [apply discreet_getenv|intros raw]. cbv zeta.
  set (mode := if String.eqb (ToLower (TrimSpace raw)) "" then AuthModeLocal else ToLower (TrimSpace raw)). clearbody mode.
  apply discreet_guard; [listed|intros Hmode].
  assert (mode ∈ [AuthModeLocal; AuthModeProvider; AuthModeClient]) as Hin.
  { bool_props. apply existsb_exists in Hmode as (m & Hm & ->%String.eqb_eq). by apply list_elem_of_In. }
  clear Hmode. do 6 (apply discreet_bind; [apply discreet_getenv|intros ?]). cbv zeta. set (c1 := with_role c mode _ _ _ _ _ _).
  apply discreet_guard; [listed|intros _]. apply discreet_guard; [listed|intros _]. apply discreet_bind; [|intros _].
  { destruct (String.eqb mode AuthModeClient); [apply discreet_ret|apply client_settings_discreet]. }
  rewrite !elem_of_cons, elem_of_nil in Hin. destruct Hin as [->|[->|[->|[]]]]; simpl.
  - discreet_tac.
  - discreet_tac; apply discreet_validate; listed.
  - discreet_tac; destruct (String.eqb _ ""); first [apply discreet_ret | apply discreet_validate; listed | apply derived_URL_discreet; listed].
Qed.
Lemma problems_listed c : problems c ⊆ production_texts.
Proof.
  assert (∀ b text, text ∈ production_texts → problem b text ⊆ production_texts) as Hp.
  { intros b text Ht. destruct b; simpl; [|apply list_subseteq_nil]. intros x ->%list_elem_of_singleton. done. }
  unfold problems. rewrite !list_subseteq_app_iff_l. split_and!; try (apply Hp; repeat first [apply list_elem_of_here | apply list_elem_of_further]).
  destruct (String.eqb _ _); [|apply list_subseteq_nil]. intros x (s & Hx & Hs)%list_elem_of_bind.
  unfold ssoClientURLs in Hs. rewrite !elem_of_cons, elem_of_nil in Hs. revert x Hx.
  destruct Hs as [->|[->|[->|[]]]]; simpl; apply Hp; repeat first [apply list_elem_of_here | apply list_elem_of_further].
Qed.
Lemma parseRetention_refuses name raw fallback e : parseRetention name raw fallback = Err e → e = wrong ErrInvalidDuration (name +:+ " must be a positive duration").
Proof. unfold parseRetention. intros Hp. by repeat case_in Hp; injection Hp as <-. Qed.
Lemma parsers_refuse raw e :
  (parseEnvironment raw = Err e → e ∈ refusals) ∧ (parseHTTPAddress raw = Err e → e ∈ refusals) ∧ (parsePublicURL raw = Err e → e ∈ refusals) ∧
  (∀ default, parseBool SessionCookieSecureEnv raw default = Err e → e ∈ refusals) ∧
  (∀ default, parseBool EmailConfirmationRequiredEnv raw default = Err e → e ∈ refusals) ∧ (parseAuthRateLimit raw = Err e → e ∈ refusals).
Proof.
  unfold parseEnvironment, parseHTTPAddress, parsePublicURL, parseBool, parseAuthRateLimit.
  split_and!; intros; repeat match goal with Hp : _ = Err e |- _ => progress repeat case_in Hp end; simplify_eq; listed.
Qed.
Lemma load_discreet : discreet load.
Proof.
  unfold load. repeat (apply discreet_bind; [apply discreet_getenv|intros ?]; apply discreet_bind;
    [apply discreet_lift; intros e; first [apply (parsers_refuse _ e) | intros ->%parseRetention_refuses; listed]|intros ?]).
  apply discreet_bind; [apply discreet_getenv|intros ?]. cbv zeta. apply discreet_guard; [listed|intros _].
  apply discreet_bind; [apply bootstrap_admin_discreet|intros ?]. apply discreet_bind; [apply mail_delivery_discreet|intros ?].
  apply discreet_bind; [apply mail_from_discreet|intros ?]. apply discreet_bind; [apply discreet_getenv|intros ?]. cbv zeta.
  apply discreet_guard; [listed|intros _]. apply discreet_bind; [apply google_client_discreet|intros ?].
  apply discreet_bind; [apply discreet_getenv|intros ?]. apply discreet_bind; [apply applyAuthMode_discreet|intros c].
  apply discreet_bind; [|intros ?; apply discreet_ret]. intros env env' e [= _ Hv]. unfold validateProduction in Hv.
  destruct (negb _); [done|]. right. exists (problems c). split; [apply problems_listed|]. destruct (problems c); [done|]. by injection Hv as <-.
Qed.

(** ** Theorems *)

(** C31. A configuration that loads in production is safe to serve with: cookies
    are secure and the public address is https, database and session secret are
    set, mail is delivered one way and with a sender of its own when Resend
    delivers it, the sign-in budget is no looser than the default, no bootstrap
    administrator is seeded, and every address that browsers or tokens cross for
    the deployment's role is https. *)
Theorem production_configuration_is_safe env c :
  Load env = Ok c → Environment c = EnvironmentProduction →
  SessionCookieSecure c = true ∧ u_Scheme (PublicURL c) = "https" ∧ IsSet (DatabaseURL c) = true ∧
  MinimumSessionSecretLength ≤ len (value (SessionSecret c)) ∧
  IsSet (MailRelay c) = negb (IsSet (ResendAPIKey c)) ∧ (IsSet (ResendAPIKey c) = true → mailFromConfigured c = true) ∧
  1 ≤ AuthRateLimit c ≤ DefaultAuthRateLimit ∧ BootstrapAdminConfigured c = false ∧
  (GoogleOAuthConfigured c = true → web_address (GoogleRedirectURL c) "https") ∧
  (AuthMode c = AuthModeProvider → String.prefix "https://" (SSOIssuerURL c) = true) ∧
  (AuthMode c = AuthModeClient → web_address (SSOIssuerURL c) "https" ∧ web_address (SSORedirectURL c) "https" ∧
     (SSOAccountURL c = "" ∨ web_address (SSOAccountURL c) "https")).
Proof.
  intros (Hs & [Hrole _] & Hv)%load_ok Henv. destruct Hs as (_ & _ & Hlimit & Hsecret & Hboot & Hmail & _ & _ & Hredirect & Hgoogle).
  unfold validateProduction in Hv. rewrite Henv in Hv. simpl in Hv. destruct (problems c) eqn:Hp; [clear Hv|done].
  unfold problems in Hp. repeat (apply app_eq_nil in Hp as [?Hq Hp]). apply problem_none in Hq, Hq0, Hq1, Hq2, Hq3, Hq4, Hq5, Hq6, Hq7. bool_props.
  split_and!; try done; try lia; auto.
  - unfold MailConfigured in *. destruct (IsSet (MailRelay c)); simpl in *; [by rewrite (proj1 (proj1 Hmail eq_refl))|by rewrite Hq3].
  - intros Hk. rewrite Hk in Hq5. simpl in Hq5. bool_props. done.
  - destruct (proj1 Hboot Henv) as [_ Hb]. unfold BootstrapAdminConfigured. by rewrite Hb, andb_false_r.
  - intros Hg. rewrite Hg in Hq6. apply https_address; [done|]. destruct Hgoogle as [[_ Hs]|(_ & _ & _ & Hw)]; [|done].
    unfold GoogleOAuthConfigured in Hg. by rewrite Hs, andb_false_r in Hg.
  - intros Hm. rewrite Hm in Hq7. simpl in Hq7. bool_props. done.
  - intros Hm. rewrite Hm in Hp. cbn [ssoClientURLs mbind list_bind] in Hp. repeat (apply app_eq_nil in Hp as [?Hu Hp]).
    apply problem_none in Hu, Hu0, Hu1. destruct Hrole as [(Hr & _)|[(Hr & _)|(_ & _ & Hi & _ & _ & _ & Hr & Ha & _)]]; [by rewrite Hm in Hr..|].
    split_and!; [by apply https_address_set|by apply https_address_set|]. destruct Ha as [Ha|Ha]; [by left|right]. by apply https_address_set.
Qed.

(** Two configurations that differ in the values of secrets only. *)
Definition alike_but_secrets c c' : Prop := ∃ database session bootstrap relay key google sso,
  c' = mkConfig (Environment c) (HTTPAddress c) (PublicURL c) (SessionCookieSecure c) (EmailConfirmationRequired c) (SessionLifetime c)
    (GuestRetention c) (LoginAttemptRetention c) (UsageRetention c) (AuthRateLimit c) database session (BootstrapAdminEmail c) bootstrap
    relay key (MailFrom c) (mailFromConfigured c) (TrustedProxy c) (GoogleClientID c) google (GoogleRedirectURL c) (AuthMode c)
    (HydraAdminURL c) (SSOIssuerURL c) (SSOClientID c) sso (SSORedirectURL c) (SSOAccountURL c) ∧
  Forall2 (λ s s', IsSet s = IsSet s')
    [DatabaseURL c; SessionSecret c; BootstrapAdminPassword c; MailRelay c; ResendAPIKey c; GoogleClientSecret c; SSOClientSecret c]
    [database; session; bootstrap; relay; key; google; sso].

(** C33. Diagnostics give no secret away: an error of [Load] is one of a list of
    texts that names variables and holds no value of any, or joins some of the
    production texts; the summary of a configuration, and every text and JSON
    form of a secret, are the same for any other secret that is set. *)
Theorem diagnostics_hide_secrets :
  (∀ env e, Load env = Err e → tells_no_value e) ∧
  (∀ c c', alike_but_secrets c c' → String_ c = String_ c') ∧
  (∀ s s', IsSet s = IsSet s' → Secret_String s = Secret_String s' ∧ GoString s = GoString s' ∧ MarshalJSON s = MarshalJSON s').
Proof.
  split_and!.
  - intros env e. unfold Load. destruct (load env) as [env' r] eqn:E. simpl. intros ->. by apply (load_discreet env env').
  - intros c c' (database & session & bootstrap & relay & key & google & sso & -> & Hs).
    repeat match goal with Hs : Forall2 _ (_ :: _) _ |- _ => apply Forall2_cons in Hs as [? Hs] end.
    unfold String_, GoogleOAuthConfigured, BootstrapAdminConfigured. simpl.
    repeat match goal with E : IsSet _ = IsSet _ |- _ => rewrite <- E; clear E end. reflexivity.
  - unfold Secret_String, GoString, MarshalJSON. by intros s s' ->.
Qed.
End facts.

(** ** A production deployment *)
Definition cut_address (s : string) : option ParsedURL :=
  match Split "/" s with
  | scheme :: "" :: host :: path =>
    if String.eqb (from (String.length scheme - 1) scheme) ":" then
      Some (mkParsedURL (substring 0 (String.length scheme - 1) scheme) host false (String.concat "" ((λ p, "/" +:+ p) <$> path)) "" "")
    else None
  | _ => None
  end.
#[local] Instance config_addresses : AddressParser := {| parse_url := cut_address |}.
#[local] Instance config_mail : MailAddressParser := {| mail_ParseAddress s := if contains_char "@" s then Some ("", s) else None |}.
#[local] Instance config_hours : DurationParser :=
  {| ParseDuration s := if String.eqb s "720h" then Some (720 * hour) else None |}.
#[local] Instance config_references : ReferenceParser := {| parse_reference s := Some (mkReference "" "" s "" "") |}.
#[local] Existing Instance latin1.
Definition production_env (name : string) : string :=
  match List.find (λ kv, String.eqb kv.1 name)
    [(EnvironmentEnv, "Production"); (PublicURLEnv, "https://goweb.example"); (DatabaseURLEnv, "postgres://goweb@db/goweb");
     (SessionSecretEnv, "0123456789abcdef0123456789abcdef"); (MailRelayEnv, "smtp://relay.example:587"); (AuthModeEnv, "client");
     (SSOIssuerURLEnv, "https://id.example"); (SSOClientIDEnv, "goweb"); (SSOClientSecretEnv, "hush"); (GuestRetentionEnv, "720h")] with
  | Some kv => kv.2
  | None => ""
  end.
Example production_loads :
  (λ c, (Environment c, SessionCookieSecure c, SSORedirectURL c, MailFrom c, GuestRetention c)) <$>
    match Load production_env with Ok c => Some c | Err _ => None end
  = Some ("production", true, "https://goweb.example/en/oauth/sso/callback", "no-reply@goweb.example", 720 * hour).
Proof. vm_compute. reflexivity. Qed.
Example plain_start_fails_in_production :
  Load (λ name, if String.eqb name EnvironmentEnv then "production" else "") =
  Err (wrong ErrUnsafeProductionConfig (String.concat "; " (take 4 (base.delete 0%nat production_texts)))).
Proof. vm_compute. reflexivity. Qed.
Lemma production_configuration_is_safe_witness :
  match Load production_env with Ok c => web_address (SSORedirectURL c) "https" | Err _ => False end.
Proof.
  destruct (Load production_env) as [c|] eqn:E; [|apply (f_equal is_ok) in E; vm_compute in E; discriminate E].
  assert (Environment c = EnvironmentProduction ∧ AuthMode c = AuthModeClient) as [He Hm].
  { apply (f_equal (λ r, match r with Ok c => (Environment c, AuthMode c) | Err _ => ("", "") end)) in E. vm_compute in E. injection E as E1 E2. split; symmetry; [exact E1|exact E2]. }
  destruct (production_configuration_is_safe production_env c E He) as (_ & _ & _ & _ & _ & _ & _ & _ & _ & _ & Hc). apply (Hc Hm).
Defined.
