(* ===== verification/Adapters.v ===== *)
(** * Clients of other services

    Hydra's admin API (internal/adapter/hydra/admin.go), Google
    (internal/adapter/oauth/google.go) and the mail senders
    (internal/adapter/mail), over the network [HTTPClient]; the SMTP sender is
    its dialogue with a relay that answers as it likes.  Hydra and Google
    discharge the ports [SSOAdmin] and [OAuthProviderClient] of the services. *)
From S2P Require Export Config HttpClient SSOProvider ProviderRegistry.

(** [url.Parse(s)] and its [String]. *)
Class AddressText := { address_text : string → string }.

(** [json.Decoder] on the first bytes of a body. *)
Definition decode_limited `{JSONParser} {A} (limit : Z) (decode : json → option A) (body : string) : option A :=
  json_first (substring 0 (Z.to_nat limit) body) ≫= decode.
Definition success_status (status : Z) : bool := (200 <=? status) && (status <? 300).
(** An absolute address; [user] tells whether one with a user is refused. *)
Definition absolute_address `{AddressParser} (no_user : bool) (raw : string) : option ParsedURL :=
  u ← parse_url raw;
  if String.eqb (u_Host u) "" || (no_user && u_User u) || negb (Config.web_scheme u) then None else Some u.

(** ** Hydra *)
Module Hydra.
Definition maxResponseBytes : Z := 1048576.
Definition ErrInvalidConfig : error := Opaque "hydra: invalid admin configuration".
(** [AdminClient]: the base address, its path without slashes at the end. *)
Record AdminClient := mkAdminClient { base : ParsedURL }.

Section hydra.
Context `{Unicode, AddressParser, AddressText, JSONParser, net : HTTPClient}.

Definition NewAdminClient (baseURL : string) : outcome AdminClient :=
  match absolute_address true (TrimSpace baseURL) with
  | Some u => Ok (mkAdminClient (mkParsedURL (u_Scheme u) (u_Host u) (u_User u) (TrimRightSlash (u_Path u)) (u_RawQuery u) (u_Fragment u)))
  | None => Err ErrInvalidConfig
  end.

Section client.
Context (c : AdminClient).
(** The endpoint; a fragment is not sent. *)
Definition endpoint (path : string) (query : url_Values) : string :=
  url_String (mkURL (u_Scheme (base c)) (u_Host (base c)) (u_Path (base c) +:+ path))
  +:+ (let encoded := Encode query in if String.eqb encoded "" then "" else "?" +:+ encoded).
Definition admin_request (method path : string) (query : url_Values) (body : option json) : HTTPRequest :=
  mkHTTPRequest method (endpoint path query)
    (("Accept", "application/json") :: match body with Some _ => [("Content-Type", "application/json")] | None => [] end)
    None (match body with Some v => JSONBody v | None => NoBody end).
(** [call]: the body of a successful response. *)
Definition send (method path : string) (query : url_Values) (body : option json) : M string :=
  let request := admin_request method path query body in
  guard (is_nil (parse_url (http_URL request))) (Errorf "build request" ErrSSOUnavailable) ;;;
  let! response := http_Do request in
  match response with
  | None => throw (Errorf (method +:+ " " +:+ path +:+ " unreachable") ErrSSOUnavailable)
  | Some response =>
    guard ((http_Status response =? 404) || (http_Status response =? 410)) ErrSSOChallengeExpired ;;;
    guard (negb (success_status (http_Status response)))
      (Errorf (method +:+ " " +:+ path +:+ " returned status " +:+ FormatInt (http_Status response)) ErrSSOUnavailable) ;;;
    ret (http_Body response)
  end.
Definition call {A} (method path : string) (query : url_Values) (body : option json) (decode : json → option A) : M A :=
  let! text := send method path query body in
  match decode_limited maxResponseBytes decode text with
  | Some a => ret a
  | None => throw (Errorf ("decode " +:+ path +:+ " response") ErrSSOUnavailable)
  end.
Definition redirect (path : string) (query : url_Values) (body : option json) : M string :=
  let! target := call "PUT" path query body (decode_struct (λ fs, decode_field as_string "redirect_to" fs "")) in
  match absolute_address false target with
  | Some _ => ret (address_text target)
  | None => throw (Errorf "invalid redirect" ErrSSOUnavailable)
  end.
Definition accessDenied : json :=
  JObject [("error", JString "access_denied"); ("error_description", JString "The account cannot sign in to this application.")].
(** A JSON integer of a duration in whole seconds. *)
Definition seconds (d : Z) : json := JNumber (FormatInt (Z.quot d second)).
Definition strings (ss : list string) : json := JArray (JString <$> ss).

Definition LoginRequest (challenge : string) : M SSOLoginRequest :=
  call "GET" "/admin/oauth2/auth/requests/login" [("login_challenge", challenge)] None (decode_struct (λ fs,
    skip ← decode_field as_bool "skip" fs false; subject ← decode_field as_string "subject" fs "";
    sid ← decode_field as_string "session_id" fs "";
    name ← decode_field (λ name v, decode_struct (λ fs, decode_field as_string "client_name" fs name) v) "client" fs "";
    Some (mkLoginRequest skip subject sid name))).
Definition AcceptLogin (challenge subject : string) (rememberFor : Z) : M string :=
  redirect "/admin/oauth2/auth/requests/login/accept" [("login_challenge", challenge)]
    (Some (JObject [("remember", JBool true); ("remember_for", seconds rememberFor); ("subject", JString subject)])).
Definition RejectLogin (challenge : string) : M string :=
  redirect "/admin/oauth2/auth/requests/login/reject" [("login_challenge", challenge)] (Some accessDenied).
Definition decode_strings (current : list string) (v : json) : option (list string) := as_list (as_string "") current v.
Definition ConsentRequest (challenge : string) : M SSOConsentRequest :=
  call "GET" "/admin/oauth2/auth/requests/consent" [("consent_challenge", challenge)] None (decode_struct (λ fs,
    subject ← decode_field as_string "subject" fs ""; sid ← decode_field as_string "login_session_id" fs "";
    scope ← decode_field decode_strings "requested_scope" fs []; audience ← decode_field decode_strings "requested_access_token_audience" fs [];
    Some (mkConsentRequest subject sid scope audience))).
Definition claim_json (c : claim) : json := match c with ClaimString s => JString s | ClaimBool b => JBool b end.
Definition AcceptConsent (challenge : string) (grant : SSOConsentGrant) : M string :=
  redirect "/admin/oauth2/auth/requests/consent/accept" [("consent_challenge", challenge)]
    (Some (JObject [("grant_access_token_audience", strings (grant_Audience grant)); ("grant_scope", strings (grant_Scope grant));
      ("remember", JBool true); ("remember_for", seconds (grant_RememberFor grant));
      ("session", JObject [("id_token", JObject (prod_map id claim_json <$> map_to_list (IDTokenClaims grant)))])])).
Definition RejectConsent (challenge : string) : M string :=
  redirect "/admin/oauth2/auth/requests/consent/reject" [("consent_challenge", challenge)] (Some accessDenied).
Definition LogoutRequest (challenge : string) : M SSOLogoutRequest :=
  call "GET" "/admin/oauth2/auth/requests/logout" [("logout_challenge", challenge)] None (decode_struct (λ fs,
    subject ← decode_field as_string "subject" fs ""; sid ← decode_field as_string "sid" fs ""; Some (mkLogoutRequest subject sid))).
Definition AcceptLogout (challenge : string) : M string :=
  redirect "/admin/oauth2/auth/requests/logout/accept" [("logout_challenge", challenge)] None.
(** An unknown session counts as revoked. *)
Definition revoke (path : string) (query : url_Values) : M unit :=
  let! answer := attempt (send "DELETE" path query None) in
  match answer with
  | Ok _ => ret tt
  | Err e => if errors_Is e ErrSSOChallengeExpired then ret tt else throw e
  end.
Definition RevokeLoginSession (sid : string) : M unit := revoke "/admin/oauth2/auth/sessions/login" [("sid", sid)].
Definition RevokeConsentSessions (subject : string) : M unit :=
  revoke "/admin/oauth2/auth/sessions/consent" [("subject", subject); ("all", "true")].
(** [var _ service.SSOAdmin = ( *AdminClient)(nil)]. *)
Definition admin : SSOAdmin :=
  mkSSOAdmin LoginRequest AcceptLogin RejectLogin ConsentRequest AcceptConsent RejectConsent LogoutRequest AcceptLogout
    RevokeLoginSession RevokeConsentSessions.
End client.
End hydra.
End Hydra.

(** ** Google *)
Module Google.
Definition GoogleProviderName : string := "google".
Definition googleAuthorizationEndpoint : string := "https://accounts.google.com/o/oauth2/v2/auth".
Definition googleTokenEndpoint : string := "https://oauth2.googleapis.com/token".
Definition googleUserInfoEndpoint : string := "https://openidconnect.googleapis.com/v1/userinfo".
Definition googleScopes : string := "openid email profile".
Definition maxGoogleResponseBytes : Z := 1048576.
Definition ErrInvalidGoogleConfig : error := Opaque "oauth: invalid google configuration".
Definition errTokenExchange : error := Opaque "oauth: google token exchange failed".
Definition errUserInfo : error := Opaque "oauth: google user info failed".
Record GoogleClient := mkGoogleClient { clientID : string; clientSecret : string; redirectURL : string }.

Section google.
Context `{AddressParser, JSONParser, net : HTTPClient}.
Definition validRedirectURL (raw : string) : bool := negb (is_nil (absolute_address true raw)).
Definition NewGoogleClient (id secret redirect : string) : outcome GoogleClient :=
  let id := TrimSpace id in let secret := TrimSpace secret in let redirect := TrimSpace redirect in
  if String.eqb id "" || String.eqb secret "" || negb (validRedirectURL redirect) then Err ErrInvalidGoogleConfig
  else Ok (mkGoogleClient id secret redirect).

Section client.
Context (c : GoogleClient).
Definition AuthorizationURL (state codeChallenge : string) : M string :=
  guard (negb (validRedirectURL (redirectURL c)) || Config.blank state || Config.blank codeChallenge) ErrInvalidGoogleConfig ;;;
  ret (googleAuthorizationEndpoint +:+ "?" +:+ Encode
    [("client_id", clientID c); ("redirect_uri", redirectURL c); ("response_type", "code"); ("scope", googleScopes); ("state", state);
     ("code_challenge", codeChallenge); ("code_challenge_method", "S256"); ("prompt", "select_account"); ("include_granted_scopes", "true")]).
(** One request whose answer is JSON; every failure is the same error. *)
Definition ask {A} (failure : error) (decode : json → option A) (request : HTTPRequest) : M A :=
  let! response := http_Do request in
  match response with
  | None => throw failure
  | Some response =>
    guard (negb (success_status (http_Status response))) failure ;;;
    match decode_limited maxGoogleResponseBytes decode (http_Body response) with Some a => ret a | None => throw failure end
  end.
Definition token_request (code codeVerifier : string) : HTTPRequest :=
  mkHTTPRequest "POST" googleTokenEndpoint [("Content-Type", "application/x-www-form-urlencoded"); ("Accept", "application/json")] None
    (FormBody [("code", code); ("client_id", clientID c); ("client_secret", clientSecret c); ("redirect_uri", redirectURL c);
      ("grant_type", "authorization_code"); ("code_verifier", codeVerifier)]).
Definition exchangeCode (code codeVerifier : string) : M string :=
  guard (Config.blank code || Config.blank codeVerifier) ErrInvalidGoogleConfig ;;;
  let! token := ask errTokenExchange (decode_struct (λ fs, decode_field as_string "access_token" fs "")) (token_request code codeVerifier) in
  guard (Config.blank token) errTokenExchange ;;;
  ret token.
Definition profile_request (accessToken : string) : HTTPRequest :=
  mkHTTPRequest "GET" googleUserInfoEndpoint [("Authorization", "Bearer " +:+ accessToken); ("Accept", "application/json")] None NoBody.
Definition decode_profile : json → option OAuthProfile := decode_struct (λ fs,
  subject ← decode_field as_string "sub" fs ""; email ← decode_field as_string "email" fs "";
  verified ← decode_field as_bool "email_verified" fs false; name ← decode_field as_string "name" fs "";
  Some (mkProfile subject email verified name)).
Definition fetchProfile (accessToken : string) : M OAuthProfile :=
  let! profile := ask errUserInfo decode_profile (profile_request accessToken) in
  guard (Config.blank (Subject profile)) errUserInfo ;;;
  ret profile.
Definition Exchange (code codeVerifier : string) : M OAuthProfile :=
  let! accessToken := exchangeCode code codeVerifier in fetchProfile accessToken.
(** [Name] and the provider port. *)
Definition provider : OAuthProvider := mkProvider GoogleProviderName (Some (mkClient AuthorizationURL Exchange)).
(** [String], [GoString]. *)
Definition String_ : string := "oauth.GoogleClient{client_id_configured:" +:+ Config.bool_text (negb (String.eqb (clientID c) "")) +:+ "}".
End client.
End google.
End Google.

(** ** Mail *)
(** [mime.QEncoding.Encode("utf-8", s)], the quoted-printable text of a body and
    [Time.Format(time.RFC1123Z)]. *)
Class MailText := { QEncode : string → string; quoted_printable : string → string; RFC1123Z : Z → string }.
Class MailTextLaws `{MailText} : Prop := {
  QEncode_line s : ContainsAny s [ascii_of_nat 13; ascii_of_nat 10] = false → ContainsAny (QEncode s) [ascii_of_nat 13; ascii_of_nat 10] = false;
  RFC1123Z_line t : ContainsAny (RFC1123Z t) [ascii_of_nat 13; ascii_of_nat 10] = false;
}.

Module MailSenders.
Definition line_breaks : list ascii := [ascii_of_nat 13; ascii_of_nat 10].
Definition one_line (s : string) : bool := negb (ContainsAny s line_breaks).
Definition CRLF : string := String (ascii_of_nat 13) (String (ascii_of_nat 10) "").
Definition ErrInvalidMessage : error := Opaque "mail: invalid message".
Definition ErrInvalidRelay : error := Opaque "mail: invalid relay".
Definition ErrInvalidResendConfig : error := Opaque "mail: invalid resend configuration".
Definition maxDevelopmentMessages : nat := 100.
Definition resendEndpoint : string := "https://api.resend.com/emails".
Definition maxResendResponseBytes : Z := 65536.
Record SMTPSender := mkSMTPSender { smtp_address : string; smtp_host : string; smtp_implicit : bool; smtp_from : string }.
Record ResendSender := mkResendSender { resend_apiKey : string; resend_from : string; resend_endpoint : string }.

Section senders.
Context `{Unicode, AddressParser, MailAddressParser, JSONParser, MailText, net : HTTPClient}.

Definition normalizeMessage (message : Mail) : outcome Mail :=
  match NormalizeEmail (mail_To message) with
  | Ok recipient =>
    if String.eqb recipient "" then Err ErrInvalidMessage else
    let subject := TrimSpace (mail_Subject message) in
    if String.eqb subject "" || negb (one_line subject) || String.eqb (mail_TextBody message) "" then Err ErrInvalidMessage
    else Ok (mkMail recipient subject (mail_TextBody message))
  | Err _ => Err ErrInvalidMessage
  end.

(** [DevelopmentSender.Send] on the retained messages, oldest first. *)
Definition development_Send (message : Mail) : ST (list Mail) unit :=
  let! normalized := lift (normalizeMessage message) in
  modify (λ messages,
    (if (maxDevelopmentMessages <=? length messages)%nat
     then drop (length messages - (maxDevelopmentMessages - 1)) messages else messages) ++ [normalized]).

(** [net.JoinHostPort]. *)
Definition JoinHostPort (host port : string) : string :=
  (if contains_char ":" host then "[" +:+ host +:+ "]" else host) +:+ ":" +:+ port.
Definition NewSMTPSender (relay from : string) : outcome SMTPSender :=
  match parse_url (TrimSpace relay) with
  | None => Err ErrInvalidRelay
  | Some u =>
    if u_User u || String.eqb (Hostname u) "" then Err ErrInvalidRelay else
    let build (default : string) (implicit : bool) :=
      match mail_ParseAddress (TrimSpace from) with
      | Some (_, address) =>
        if negb (one_line address) then Err ErrInvalidRelay
        else Ok (mkSMTPSender (JoinHostPort (Hostname u) (if String.eqb (Port u) "" then default else Port u)) (Hostname u) implicit address)
      | None => Err ErrInvalidRelay
      end in
    if String.eqb (u_Scheme u) "smtp" then build "25" false
    else if String.eqb (u_Scheme u) "smtps" then build "465" true
    else Err ErrInvalidRelay
  end.
(** The header lines of [compose], then an empty line and the body. *)
Definition header_lines (s : SMTPSender) (message : Mail) (now : Z) : list string :=
  ["From: " +:+ smtp_from s; "To: " +:+ mail_To message; "Subject: " +:+ QEncode (mail_Subject message); "Date: " +:+ RFC1123Z now;
   "MIME-Version: 1.0"; "Content-Type: text/plain; charset=utf-8"; "Content-Transfer-Encoding: quoted-printable"].
Definition compose (s : SMTPSender) (message : Mail) (now : Z) : string :=
  String.concat "" ((λ line, line +:+ CRLF) <$> header_lines s message now) +:+ CRLF +:+ quoted_printable (mail_TextBody message).

(** The commands of a delivery, and what the relay answers each of them. *)
Inductive smtp_command :=
| Dial (address : string) (tls : bool) | Greeting | StartTLS (host : string) | MailFrom (from : string) | Rcpt (recipient : string)
| Data | Body (text : string) | CloseBody | Quit.
Record Relay := mkRelay {
  relay_Dial : option error; relay_Greeting : option error; relay_offers_TLS : bool; relay_StartTLS : option error; relay_Mail : option error;
  relay_Rcpt : option error; relay_Data : option error; relay_Write : option error; relay_Close : option error; relay_Quit : option error }.
(** Commands in order until one fails: what was sent, and the error. *)
Fixpoint converse (steps : list (smtp_command * option error * (error → error))) : list smtp_command * option error :=
  match steps with
  | [] => ([], None)
  | (command, None, _) :: steps => let (sent, e) := converse steps in (command :: sent, e)
  | (command, Some e, wrap) :: _ => ([command], Some (wrap e))
  end.
Definition delivery (s : SMTPSender) (relay : Relay) (message : Mail) (now : Z) : list (smtp_command * option error * (error → error)) :=
  [(Dial (smtp_address s) (smtp_implicit s), relay_Dial relay, Errorf "mail: connect relay"); (Greeting, relay_Greeting relay, Errorf "mail: relay greeting")]
  ++ (if negb (smtp_implicit s) && relay_offers_TLS relay then [(StartTLS (smtp_host s), relay_StartTLS relay, Errorf "mail: starttls")] else [])
  ++ [(MailFrom (smtp_from s), relay_Mail relay, Errorf "mail: relay rejected sender"); (Rcpt (mail_To message), relay_Rcpt relay, Errorf "mail: relay rejected recipient");
      (Data, relay_Data relay, Errorf "mail: relay data"); (Body (compose s message now), relay_Write relay, Errorf "mail: write message");
      (CloseBody, relay_Close relay, Errorf "mail: relay refused message"); (Quit, relay_Quit relay, id)].
Definition smtp_Send (s : SMTPSender) (relay : Relay) (message : Mail) (now : Z) : list smtp_command * option error :=
  match normalizeMessage message with
  | Ok message => converse (delivery s relay message now)
  | Err e => ([], Some e)
  end.

Definition NewResendSender (apiKey from : string) : outcome ResendSender :=
  let apiKey := TrimSpace apiKey in
  if String.eqb apiKey "" || (256 <? len apiKey) || existsb (λ r, IsSpace r || IsControl r) (runes apiKey) then Err ErrInvalidResendConfig else
  match mail_ParseAddress (TrimSpace from) with
  | Some (name, address) =>
    if negb (String.eqb name "") || negb (one_line address) then Err ErrInvalidResendConfig
    else Ok (mkResendSender apiKey address resendEndpoint)
  | None => Err ErrInvalidResendConfig
  end.
Definition resend_request (s : ResendSender) (message : Mail) : HTTPRequest :=
  mkHTTPRequest "POST" (resend_endpoint s)
    [("Authorization", "Bearer " +:+ resend_apiKey s); ("Content-Type", "application/json"); ("User-Agent", "goweb")] None
    (JSONBody (JObject [("from", JString (resend_from s)); ("to", JArray [JString (mail_To message)]);
      ("subject", JString (mail_Subject message)); ("text", JString (mail_TextBody message))])).
(** [resendErrorName]: a short code, or nothing. *)
Definition error_code_char (c : ascii) : bool := in_range 97 122 (byte_of c) || Ascii.eqb c "_".
Definition resendErrorName (body : string) : string :=
  match json_text body ≫= decode_struct (λ fs, decode_field as_string "name" fs "") with
  | Some name => if String.eqb name "" || (64 <? len name) || negb (all_chars error_code_char name) then "" else ", " +:+ name
  | None => ""
  end.
Definition resend_Send (s : ResendSender) (message : Mail) : M unit :=
  let! normalized := lift (normalizeMessage message) in
  let! response := http_Do (resend_request s normalized) in
  match response with
  | None => throw (Opaque "mail: resend request failed")
  | Some response =>
    if success_status (http_Status response) then ret tt
    else throw (Opaque ("mail: resend rejected message (status " +:+ FormatInt (http_Status response)
                        +:+ resendErrorName (substring 0 (Z.to_nat maxResendResponseBytes) (http_Body response)) +:+ ")"))
  end.
End senders.
End MailSenders.

(** ** Facts *)
(** [mail.ParseAddress]: an address holds no line break, and the fallback of the sender parses. *)
Class MailAddressLaws `{MailAddressParser} : Prop := {
  address_one_line s name a : mail_ParseAddress s = Some (name, a) → MailSenders.one_line a = true;
  localhost_parses : mail_ParseAddress "no-reply@localhost" = Some ("", "no-reply@localhost");
}.

Section hydra_facts.
Context `{Unicode, AddressParser, AddressText, JSONParser, net : HTTPClient} (c : Hydra.AdminClient).
(** The errors of a client whose network reports failures as no response. *)
Definition hydra_error (e : error) : Prop := e = Sentinel ErrSSOChallengeExpired ∨ errors_Is e ErrSSOUnavailable = true.
Definition answers : Prop := ∀ request w, is_ok (snd (http_Do request w)) = true.
Lemma send_errors method path query body w w' e :
  answers → Hydra.send c method path query body w = (w', Err e) → hydra_error e.
Proof.
  intros Hnet. unfold Hydra.send, bind. destruct (is_nil _); [intros [= <- <-]; by right|]. simpl.
  specialize (Hnet (Hydra.admin_request c method path query body) w). destruct (http_Do _ w) as [w1 [[response|]|e1]]; [|intros [= <- <-]; by right|done].
  destruct ((http_Status response =? 404) || _); [intros [= <- <-]; by left|]. simpl. destruct (negb _); [intros [= <- <-]; by right|done].
Qed.
Lemma call_errors {A} method path query body (decode : json → option A) w w' e :
  answers → Hydra.call c method path query body decode w = (w', Err e) → hydra_error e.
Proof.
  intros Hnet. unfold Hydra.call, bind. destruct (Hydra.send c method path query body w) as [w1 [text|e1]] eqn:E.
  - destruct (decode_limited _ decode text); [done|]. intros [= <- <-]. by right.
  - intros [= <- <-]. by eapply send_errors.
Qed.
(** An accepted redirect is an absolute web address; a session Hydra does not know is revoked. *)
Theorem hydra_redirects_are_absolute path query body w w' target :
  Hydra.redirect c path query body w = (w', Ok target) → ∃ raw u, target = address_text raw ∧ parse_url raw = Some u ∧ u_Host u ≠ "" ∧ Config.web_scheme u = true.
Proof.
  unfold Hydra.redirect. intros (w1 & raw & _ & Ht)%bind_ok. destruct (absolute_address false raw) as [u|] eqn:E; [|done]. injection Ht as _ <-.
  unfold absolute_address in E. destruct (parse_url raw) as [u'|] eqn:Hu; [|done]. simpl in E. destruct (_ || _) eqn:Eb; [done|]. injection E as ->. bool_props.
  by exists raw, u.
Qed.
Theorem hydra_revokes_what_is_gone path query w w' e :
  answers → Hydra.revoke c path query w = (w', Err e) → errors_Is e ErrSSOUnavailable = true.
Proof.
  intros Hnet. unfold Hydra.revoke, bind, attempt. destruct (Hydra.send c "DELETE" path query None w) as [w1 [text|e1]] eqn:E; [done|].
  destruct (send_errors _ _ _ _ _ _ _ Hnet E) as [->|He]; [done|]. destruct (errors_Is e1 ErrSSOChallengeExpired); [done|]. by intros [= <- <-].
Qed.
End hydra_facts.

Section mail_facts.
Context `{Unicode, AddressParser, MailAddressParser, !MailAddressLaws, MailTextLaws}.
Import MailSenders.
Lemma ContainsAny_app s t cs : ContainsAny (s +:+ t) cs = ContainsAny s cs || ContainsAny t cs.
Proof.
  assert (∀ c, contains_char c (s +:+ t) = contains_char c s || contains_char c t) as Hc.
  { intros c. induction s as [|a s IH]; [done|]. rewrite str_app_cons. cbn [contains_char]. by rewrite IH, orb_assoc. }
  induction cs as [|c cs IH]; [done|]. cbn [ContainsAny]. rewrite Hc, IH. by destruct (contains_char c s), (contains_char c t), (ContainsAny s cs).
Qed.
Lemma one_line_app s t : one_line (s +:+ t) = one_line s && one_line t.
Proof. unfold one_line. by rewrite ContainsAny_app, negb_orb. Qed.
(** No header of a sent message holds a line break of its sender, recipient or
    subject: they cannot inject headers. *)
Theorem mail_headers_are_lines relay from message sent s now :
  NewSMTPSender relay from = Ok s → normalizeMessage message = Ok sent → Forall (λ line, one_line line = true) (header_lines s sent now).
Proof.
  intros Hs Hm. assert (one_line (smtp_from s) = true) as Hfrom.
  { unfold NewSMTPSender in Hs. destruct (parse_url _) as [u|]; [|done]. destruct (_ || _); [done|]. cbv zeta in Hs.
    destruct (mail_ParseAddress (TrimSpace from)) as [[name a]|]; [|by repeat case_match]. destruct (one_line a) eqn:Ea; [|by repeat case_match].
    simpl in Hs. destruct (String.eqb (u_Scheme u) "smtp"); [by injection Hs as <-|]. destruct (String.eqb (u_Scheme u) "smtps"); [by injection Hs as <-|done]. }
  assert (one_line (mail_To sent) = true ∧ one_line (mail_Subject sent) = true) as [Hto Hsubject].
  { unfold normalizeMessage in Hm. destruct (NormalizeEmail (mail_To message)) as [to|] eqn:Et; [|done]. destruct (String.eqb to "") eqn:Ee; [done|].
    destruct (_ || _) eqn:Eb; [done|]. injection Hm as <-. bool_props. split; [|done].
    apply NormalizeEmail_form in Et as [->|(_ & _ & _ & Hp)]; [done|]. unfold ParseAddress, mail_addresses in Hp.
    destruct (mail_ParseAddress to) as [[name a]|] eqn:Ea; [|done]. injection Hp as ->. by eapply address_one_line. }
  assert (one_line (QEncode (mail_Subject sent)) = true) as Hq.
  { unfold one_line, line_breaks in *. apply negb_true_iff, QEncode_line. by apply negb_true_iff in Hsubject. }
  assert (one_line (RFC1123Z now) = true) as Hd by (unfold one_line, line_breaks; by rewrite RFC1123Z_line).
  unfold header_lines. repeat (apply Forall_cons; split; [rewrite ?one_line_app, ?Hfrom, ?Hto, ?Hq, ?Hd; reflexivity|]). by constructor.
Qed.
(** Where the relay offers TLS, nothing of a message is sent without it. *)
Theorem smtp_uses_the_TLS_it_is_offered s relay message now sent e :
  smtp_implicit s = false → relay_offers_TLS relay = true → smtp_Send s relay message now = (sent, e) →
  (∀ command, command ∈ sent → command = Dial (smtp_address s) false ∨ command = Greeting ∨ command = StartTLS (smtp_host s)) ∧ e ≠ None ∨
  relay_StartTLS relay = None ∧ ∃ rest, sent = Dial (smtp_address s) false :: Greeting :: StartTLS (smtp_host s) :: rest.
Proof.
  intros Hi Ho. unfold smtp_Send. destruct (normalizeMessage message) as [m|e1]; [|intros [= <- <-]; left; split; [intros c Hc; by apply elem_of_nil in Hc|done]].
  unfold delivery. rewrite Hi, Ho. match goal with |- context [_ ++ _ ++ ?steps] => generalize steps end. intros steps. cbn [negb andb app converse].
  destruct (relay_Dial relay); [|destruct (relay_Greeting relay); [|destruct (relay_StartTLS relay)]];
    [intros [= <- <-]; left; split; [intros c Hc; repeat (apply elem_of_cons in Hc as [->|Hc]; [auto|]); by apply elem_of_nil in Hc|done]..|].
  destruct (converse steps) as [rest e2]. intros [= <- <-]. right. split; [done|]. by eexists.
Qed.
(** The development sender keeps the last hundred messages. *)
Theorem development_sender_bounded message sent sent' r :
  development_Send message sent = (sent', r) → (length sent ≤ maxDevelopmentMessages)%nat → (length sent' ≤ maxDevelopmentMessages)%nat.
Proof.
  assert (1 ≤ maxDevelopmentMessages)%nat as Hk by (unfold maxDevelopmentMessages; lia). revert Hk. unfold development_Send.
  generalize maxDevelopmentMessages. intros k Hk. unfold bind, lift. destruct (normalizeMessage message) as [m|e]; [|by intros [= <- _]].
  unfold modify. intros [= <- _] Hl. destruct (Nat.leb_spec k (length sent)); rewrite length_app, ?length_drop; cbn [length]; lia.
Qed.
End mail_facts.
