(* ===== verification/Http.v ===== *)
(** * Requests, responses and handlers: the part of package [net/http] in use

    A handler runs in [Web]: it reads a request, changes the world and writes a
    response; an [Err] is a panic.  A request carries what the middlewares put
    into its context.  Multipart and form decoding, header canonicalization and
    the cleaning of redirect targets happen in [net/http]. *)
From S2P Require Export Locale World.

(** [middleware.Principal], [middleware.TraceContext]. *)
Record Principal := mkPrincipal { principal_ID : string; principal_IsAdmin : bool }.
Record TraceContext := mkTrace { TraceID : string; SpanID : string; ParentSpanID : string; Sampled : bool }.

Record Request := mkRequest {
  req_Method : string;
  req_Path : string;
  req_Host : string;
  req_TLS : bool;
  req_RemoteAddr : string;
  req_Headers : list (string * string);
  req_Cookies : list (string * string);
  req_RawQuery : string;
  req_Query : list (string * string);
  (** [ParseForm] succeeds on the body, of which it reads so many bytes;
      [PostForm]; [PathValue]. *)
  req_FormOK : bool;
  req_FormBytes : Z;
  req_PostForm : list (string * string);
  req_PathValues : list (string * string);
  (** The context. *)
  ctx_RequestID : option string;
  ctx_ClientIP : option string;
  ctx_CSRF : option string;
  ctx_Principal : option Principal;
  ctx_Trace : option TraceContext;
}.
Definition with_RequestID (v : option string) (r : Request) : Request :=
  mkRequest (req_Method r) (req_Path r) (req_Host r) (req_TLS r) (req_RemoteAddr r) (req_Headers r) (req_Cookies r)
    (req_RawQuery r) (req_Query r) (req_FormOK r) (req_FormBytes r) (req_PostForm r) (req_PathValues r) v (ctx_ClientIP r) (ctx_CSRF r) (ctx_Principal r) (ctx_Trace r).
Definition with_ClientIP (v : option string) (r : Request) : Request :=
  mkRequest (req_Method r) (req_Path r) (req_Host r) (req_TLS r) (req_RemoteAddr r) (req_Headers r) (req_Cookies r)
    (req_RawQuery r) (req_Query r) (req_FormOK r) (req_FormBytes r) (req_PostForm r) (req_PathValues r) (ctx_RequestID r) v (ctx_CSRF r) (ctx_Principal r) (ctx_Trace r).
Definition with_CSRF (v : option string) (r : Request) : Request :=
  mkRequest (req_Method r) (req_Path r) (req_Host r) (req_TLS r) (req_RemoteAddr r) (req_Headers r) (req_Cookies r)
    (req_RawQuery r) (req_Query r) (req_FormOK r) (req_FormBytes r) (req_PostForm r) (req_PathValues r) (ctx_RequestID r) (ctx_ClientIP r) v (ctx_Principal r) (ctx_Trace r).
Definition with_Principal (v : option Principal) (r : Request) : Request :=
  mkRequest (req_Method r) (req_Path r) (req_Host r) (req_TLS r) (req_RemoteAddr r) (req_Headers r) (req_Cookies r)
    (req_RawQuery r) (req_Query r) (req_FormOK r) (req_FormBytes r) (req_PostForm r) (req_PathValues r) (ctx_RequestID r) (ctx_ClientIP r) (ctx_CSRF r) v (ctx_Trace r).
Definition with_Trace (v : option TraceContext) (r : Request) : Request :=
  mkRequest (req_Method r) (req_Path r) (req_Host r) (req_TLS r) (req_RemoteAddr r) (req_Headers r) (req_Cookies r)
    (req_RawQuery r) (req_Query r) (req_FormOK r) (req_FormBytes r) (req_PostForm r) (req_PathValues r) (ctx_RequestID r) (ctx_ClientIP r) (ctx_CSRF r)
    (ctx_Principal r) v.
Definition with_FormOK (v : bool) (r : Request) : Request :=
  mkRequest (req_Method r) (req_Path r) (req_Host r) (req_TLS r) (req_RemoteAddr r) (req_Headers r) (req_Cookies r)
    (req_RawQuery r) (req_Query r) v (req_FormBytes r) (req_PostForm r) (req_PathValues r) (ctx_RequestID r) (ctx_ClientIP r) (ctx_CSRF r)
    (ctx_Principal r) (ctx_Trace r).
(** [loweredRequest]. *)
Definition with_Method (v : string) (r : Request) : Request :=
  mkRequest v (req_Path r) (req_Host r) (req_TLS r) (req_RemoteAddr r) (req_Headers r) (req_Cookies r)
    (req_RawQuery r) (req_Query r) (req_FormOK r) (req_FormBytes r) (req_PostForm r) (req_PathValues r) (ctx_RequestID r) (ctx_ClientIP r) (ctx_CSRF r) (ctx_Principal r) (ctx_Trace r).
Definition with_PathValues (v : list (string * string)) (r : Request) : Request :=
  mkRequest (req_Method r) (req_Path r) (req_Host r) (req_TLS r) (req_RemoteAddr r) (req_Headers r) (req_Cookies r)
    (req_RawQuery r) (req_Query r) (req_FormOK r) (req_FormBytes r) (req_PostForm r) v (ctx_RequestID r) (ctx_ClientIP r) (ctx_CSRF r) (ctx_Principal r) (ctx_Trace r).

(** The first value under a name, and all of them. *)
Definition first_value (name : string) (values : list (string * string)) : option string :=
  snd <$> List.find (λ kv, String.eqb kv.1 name) values.
Definition value_or_empty (name : string) (values : list (string * string)) : string :=
  match first_value name values with Some v => v | None => "" end.
Definition Header_Get (r : Request) (name : string) : string := value_or_empty name (req_Headers r).
Definition Header_Values (r : Request) (name : string) : list string :=
  snd <$> List.filter (λ kv, String.eqb kv.1 name) (req_Headers r).
Definition Cookie_ (r : Request) (name : string) : option string := first_value name (req_Cookies r).
Definition PostFormValue (r : Request) (name : string) : string := value_or_empty name (req_PostForm r).
Definition PathValue (r : Request) (name : string) : string := value_or_empty name (req_PathValues r).
Definition Query_Get (r : Request) (name : string) : string := value_or_empty name (req_Query r).

Definition MethodGet : string := "GET".
Definition MethodPost : string := "POST".
Definition StatusOK : Z := 200.
Definition StatusNoContent : Z := 204.
Definition StatusFound : Z := 302.
Definition StatusSeeOther : Z := 303.
Definition StatusBadRequest : Z := 400.
Definition StatusUnauthorized : Z := 401.
Definition StatusForbidden : Z := 403.
Definition StatusNotFound : Z := 404.
Definition StatusMethodNotAllowed : Z := 405.
Definition StatusConflict : Z := 409.
Definition StatusUnprocessableEntity : Z := 422.
Definition StatusTooManyRequests : Z := 429.
Definition StatusInternalServerError : Z := 500.
Definition StatusText (status : Z) : string :=
  match List.find (λ kv, kv.1 =? status)
    [(200, "OK"); (204, "No Content"); (302, "Found"); (303, "See Other"); (400, "Bad Request"); (401, "Unauthorized"); (403, "Forbidden"); (404, "Not Found");
     (405, "Method Not Allowed"); (409, "Conflict"); (422, "Unprocessable Entity"); (429, "Too Many Requests");
     (500, "Internal Server Error")] with
  | Some kv => kv.2
  | None => ""
  end.

Inductive SameSite := SameSiteUnset | SameSiteDefaultMode | SameSiteLaxMode | SameSiteStrictMode | SameSiteNoneMode.
#[export] Instance SameSite_eq_dec : EqDecision SameSite.
Proof. solve_decision. Defined.

(** [http.Cookie]; [Expires] in nanoseconds, [None] for the zero time. *)
Record Cookie := mkCookie {
  cookie_Name : string;
  cookie_Value : string;
  cookie_Path : string;
  cookie_Expires : option Z;
  cookie_MaxAge : Z;
  cookie_HttpOnly : bool;
  cookie_Secure : bool;
  cookie_SameSite : SameSite;
}.

(** The response so far: [resp_Status] is 0 before [WriteHeader]. *)
Record Response := mkResponse {
  resp_Status : Z;
  resp_Headers : list (string * string);
  resp_Cookies : list Cookie;
  resp_Body : list string;
}.
Definition no_response : Response := mkResponse 0 [] [] [].

Definition Web : Type → Type := ST (World * Response).
Definition handler : Type := Request → Web unit.
Definition Middleware : Type := handler → handler.

(** A call into a service: its error is a value for the handler. *)
Definition call {A} (m : M A) : Web (outcome A) := λ s, let (w, r) := m s.1 in ((w, s.2), Ok r).
Definition write (f : Response → Response) : Web unit := λ s, ((s.1, f s.2), Ok tt).
(** [time.Now()] in a handler. *)
Definition Now : Web Z := let! t := call time_Now in ret (match t with Ok t => t | Err _ => 0 end).
(** A call deferred to the end of [m], also when [m] panics. *)
Definition deferred (m finish : Web unit) : Web unit := λ s,
  let (s, r) := m s in
  match finish s with (s, Ok _) => (s, r) | (s, Err e) => (s, Err e) end.

(** [Header().Set], [Header().Add], [WriteHeader], [Write], [http.SetCookie]. *)
Definition set_header (name value : string) : Web unit :=
  write (λ r, mkResponse (resp_Status r)
    ((name, value) :: List.filter (λ kv, negb (String.eqb kv.1 name)) (resp_Headers r)) (resp_Cookies r) (resp_Body r)).
Definition add_header (name value : string) : Web unit :=
  write (λ r, mkResponse (resp_Status r) (resp_Headers r ++ [(name, value)]) (resp_Cookies r) (resp_Body r)).
Definition WriteHeader (status : Z) : Web unit :=
  write (λ r, mkResponse (if resp_Status r =? 0 then status else resp_Status r) (resp_Headers r) (resp_Cookies r) (resp_Body r)).
Definition Write (body : string) : Web unit :=
  WriteHeader StatusOK ;;;
  write (λ r, mkResponse (resp_Status r) (resp_Headers r) (resp_Cookies r) (resp_Body r ++ [body])).
Definition SetCookie (c : Cookie) : Web unit :=
  write (λ r, mkResponse (resp_Status r) (resp_Headers r) (resp_Cookies r ++ [c]) (resp_Body r)).

(** [http.Error]. *)
Definition http_Error (message : string) (status : Z) : Web unit :=
  set_header "Content-Type" "text/plain; charset=utf-8" ;;;
  set_header "X-Content-Type-Options" "nosniff" ;;;
  WriteHeader status ;;;
  Write (message +:+ String (ascii_of_nat 10) "").
(** [http.Redirect]. *)
Definition Redirect (url : string) (status : Z) : Web unit :=
  set_header "Location" url ;;; WriteHeader status.

(** [Cookie.Valid]: the name is a token and every byte may stand in a header. *)
Definition token_char (c : ascii) : bool :=
  let b := byte_of c in
  in_range 48 57 b || in_range 65 90 b || in_range 97 122 b
  || existsb (Ascii.eqb c) ["!"; "#"; "$"; "%"; "&"; "'"; "*"; "+"; "-"; "."; "^"; "_"; "`"; "|"; "~"]%char.
Definition is_token (s : string) : bool := negb (String.eqb s "") && all_chars token_char s.
Definition cookie_value_byte (c : ascii) : bool :=
  in_range 32 126 (byte_of c) && negb (existsb (Ascii.eqb c) [ascii_of_nat 34; ";"; ascii_of_nat 92]%char).
Definition cookie_path_byte (c : ascii) : bool := in_range 32 126 (byte_of c) && negb (Ascii.eqb c ";").
(** The start of the year 1601. *)
Definition year_1601 : Z := -11644473600 * second.
Definition cookie_Valid (c : Cookie) : bool :=
  is_token (cookie_Name c)
  && (match cookie_Expires c with Some t => year_1601 <=? t | None => true end)
  && all_chars cookie_value_byte (cookie_Value c) && all_chars cookie_path_byte (cookie_Path c).

(** ** Handlers that leave the database alone *)

Definition db_of (s : World * Response) : DB := db s.1.
(** Whatever [m] does to the database, [R] relates before and after. *)
Definition on_site (R : relation DB) : relation (World * Response) := λ s s', R (db_of s) (db_of s').
#[export] Instance on_site_preorder R : PreOrder R → PreOrder (on_site R).
Proof.
  intros HR. split.
  - intros s. unfold on_site. reflexivity.
  - intros a b c Hab Hbc. unfold on_site in *. by etransitivity.
Qed.

Section keeps.
Context (R : relation DB) `{!PreOrder R}.
Lemma preserves_write f : preserves (on_site R) (write f).
Proof. intros s. unfold on_site, db_of. simpl. reflexivity. Qed.
Lemma preserves_call {A} (m : M A) : preserves (on_db R) m → preserves (on_site R) (call m).
Proof. intros Hm s. specialize (Hm s.1). unfold on_site, on_db, db_of, call in *. by destruct (m s.1). Qed.
Lemma preserves_Now : preserves (on_site R) Now.
Proof. unfold Now. apply preserves_bind; [apply _|apply preserves_call; intros w; unfold on_db; reflexivity|intros ? s; unfold on_site; reflexivity]. Qed.
Lemma preserves_set_header n v : preserves (on_site R) (set_header n v).
Proof. apply preserves_write. Qed.
Lemma preserves_add_header n v : preserves (on_site R) (add_header n v).
Proof. apply preserves_write. Qed.
Lemma preserves_WriteHeader v : preserves (on_site R) (WriteHeader v).
Proof. apply preserves_write. Qed.
Lemma preserves_SetCookie c : preserves (on_site R) (SetCookie c).
Proof. apply preserves_write. Qed.
Lemma preserves_Write b : preserves (on_site R) (Write b).
Proof. unfold Write. apply preserves_bind; [apply _|apply preserves_write|intros _; apply preserves_write]. Qed.
Lemma preserves_http_Error m v : preserves (on_site R) (http_Error m v).
Proof. unfold http_Error. do 3 (apply preserves_bind; [apply _|apply preserves_write|intros _]). apply preserves_Write. Qed.
Lemma preserves_Redirect u v : preserves (on_site R) (Redirect u v).
Proof. unfold Redirect. apply preserves_bind; [apply _|apply preserves_write|intros _; apply preserves_write]. Qed.
End keeps.
#[export] Hint Resolve preserves_Now preserves_set_header preserves_add_header preserves_WriteHeader preserves_SetCookie preserves_Write
  preserves_http_Error preserves_Redirect : go_preserves.
