(* ===== verification/AdminState.v ===== *)
(** * The state of administrator lists in URLs: internal/adapter/http/admin_state.go

    A request carries its query decoded. *)
From S2P Require Export AdminStore Encoding Http.

(** [n, _ := strconv.Atoi(s)]: the limit on overflow, 0 when malformed. *)
Definition atoi_value (s : string) : Z :=
  let (sign, digits) := match s with
    | String "-" s => (-1, s) | String "+" s => (1, s) | _ => (1, s) end in
  if String.eqb digits "" then 0 else
  match decimal_value 0 digits with
  | Some v => Z.max min_int64 (Z.min max_int64 (sign * v))
  | None => 0
  end.
Lemma atoi_ParseInt s n : ParseInt s = Some n → atoi_value s = n.
Proof.
  unfold ParseInt, atoi_value. destruct (match s with EmptyString => _ | _ => _ end) as [sign digits].
  destruct (String.eqb digits ""); [done|]. destruct (decimal_value 0 digits) as [v|]; [|done].
  destruct (in_range _ _ _) eqn:E; [|done]. intros [= <-]. unfold in_range in E. apply andb_true_iff in E as [?%Z.leb_le ?%Z.leb_le]. lia.
Qed.

Module AdminState.
Definition adminParamSearch : string := "q".
Definition adminParamAdmin : string := "admin".
Definition adminParamGuest : string := "guest".
Definition adminParamConfirmed : string := "confirmed".
Definition adminParamSort : string := "sort".
Definition adminParamDirection : string := "dir".
Definition adminParamPage : string := "page".
Definition adminParamSize : string := "size".
Definition auditParamAction : string := "action".
Definition auditParamActor : string := "actor".
Definition auditParamTarget : string := "target".
Definition AdminFilterAll : string := "".
Definition AdminFilterYes : string := "yes".
Definition AdminFilterNo : string := "no".
Definition AdminSortCreatedAt : string := "created_at".
Definition AdminSortID : string := "id".
Definition AdminDirectionAsc : string := "asc".
Definition AdminDirectionDesc : string := "desc".

Section state.
Context `{Unicode}.

(** [adminListState] is its normalized query. *)
Definition parseAdminListState (r : Request) : AdminUserQuery :=
  Normalize (mkUserQuery (Query_Get r adminParamSearch) (Query_Get r adminParamAdmin) (Query_Get r adminParamGuest)
    (Query_Get r adminParamConfirmed) (Query_Get r adminParamSort) (Query_Get r adminParamDirection)
    (atoi_value (Query_Get r adminParamPage)) (atoi_value (Query_Get r adminParamSize))).
Definition defaultAdminDirection (sort : string) : string :=
  if String.eqb sort AdminSortCreatedAt || String.eqb sort AdminSortID then AdminDirectionDesc else AdminDirectionAsc.
(** [values.Set] of a value that differs from the default. *)
Definition set_unless (default name value : string) : url_Values := if String.eqb value default then [] else [(name, value)].
Definition Values (s : AdminUserQuery) : url_Values :=
  let q := Normalize s in
  set_unless "" adminParamSearch (query_Search q)
  ++ set_unless AdminFilterAll adminParamAdmin (query_Admin q) ++ set_unless AdminFilterAll adminParamGuest (query_Guest q)
  ++ set_unless AdminFilterAll adminParamConfirmed (query_Confirmed q)
  ++ set_unless AdminSortCreatedAt adminParamSort (query_Sort q)
  ++ set_unless (defaultAdminDirection (query_Sort q)) adminParamDirection (query_Direction q)
  ++ [(adminParamPage, FormatInt (query_Page q)); (adminParamSize, FormatInt (query_Size q))].
Definition with_query (base : string) (values : url_Values) : string :=
  let encoded := Encode values in if String.eqb encoded "" then base else base +:+ "?" +:+ encoded.
Definition URL (s : AdminUserQuery) (base : string) : string := with_query base (Values s).

Definition with_page (page : Z) (q : AdminUserQuery) : AdminUserQuery :=
  mkUserQuery (query_Search q) (query_Admin q) (query_Guest q) (query_Confirmed q) (query_Sort q) (query_Direction q) page (query_Size q).
Definition with_sort (sort direction : string) (q : AdminUserQuery) : AdminUserQuery :=
  mkUserQuery (query_Search q) (query_Admin q) (query_Guest q) (query_Confirmed q) sort direction (query_Page q) (query_Size q).
Definition WithPage (page : Z) (s : AdminUserQuery) : AdminUserQuery := Normalize (with_page page s).
Definition WithFilter (name value : string) (s : AdminUserQuery) : AdminUserQuery :=
  let set admin guest confirmed :=
    mkUserQuery (query_Search s) admin guest confirmed (query_Sort s) (query_Direction s) 1 (query_Size s) in
  Normalize (if String.eqb name adminParamAdmin then set value (query_Guest s) (query_Confirmed s)
             else if String.eqb name adminParamGuest then set (query_Admin s) value (query_Confirmed s)
             else if String.eqb name adminParamConfirmed then set (query_Admin s) (query_Guest s) value
             else set (query_Admin s) (query_Guest s) (query_Confirmed s)).
(** The active key flips the direction, another one takes its own. *)
Definition WithSort (key : string) (s : AdminUserQuery) : AdminUserQuery :=
  let current := Normalize s in
  let next := Normalize (mkUserQuery "" "" "" "" key "" 0 0) in
  let direction := if String.eqb (query_Sort current) (query_Sort next) then
                     if String.eqb (query_Direction current) AdminDirectionAsc then AdminDirectionDesc else AdminDirectionAsc
                   else "" in
  Normalize (with_page 1 (with_sort key direction s)).

(** [auditListState]. *)
Definition parseAuditListState (r : Request) : AuditQuery :=
  AuditNormalize (mkAuditQuery (Query_Get r auditParamAction) (Query_Get r auditParamActor) (Query_Get r auditParamTarget)
    (atoi_value (Query_Get r adminParamPage)) (atoi_value (Query_Get r adminParamSize))).
Definition AuditValues (s : AuditQuery) : url_Values :=
  let q := AuditNormalize s in
  set_unless "" auditParamAction (audit_query_Action q) ++ set_unless "" auditParamActor (audit_query_Actor q)
  ++ set_unless "" auditParamTarget (audit_query_Target q)
  ++ [(adminParamPage, FormatInt (audit_query_Page q)); (adminParamSize, FormatInt (audit_query_Size q))].
Definition AuditURL (s : AuditQuery) (base : string) : string := with_query base (AuditValues s).
Definition AuditWithPage (page : Z) (s : AuditQuery) : AuditQuery :=
  AuditNormalize (mkAuditQuery (audit_query_Action s) (audit_query_Actor s) (audit_query_Target s) page (audit_query_Size s)).
End state.
End AdminState.

(** ** Links *)
Section links.
Context `{Unicode}.
Import AdminState.

Lemma first_value_app name a b : first_value name (a ++ b) = match first_value name a with Some v => Some v | None => first_value name b end.
Proof. unfold first_value. induction a as [|kv a IH]; simpl; [done|]. by destruct (String.eqb kv.1 name). Qed.
Lemma value_set_unless default name value : first_value name (set_unless default name value) = if String.eqb value default then None else Some value.
Proof. unfold set_unless, first_value. destruct (String.eqb value default); [done|]. simpl. by rewrite String.eqb_refl. Qed.
Lemma value_set_other default other name value : String.eqb other name = false → first_value name (set_unless default other value) = None.
Proof. unfold set_unless, first_value. intros Hn. destruct (String.eqb value default); [done|]. simpl. by rewrite Hn. Qed.
Lemma atoi_FormatInt n : 0 < n ≤ max_int64 → atoi_value (FormatInt n) = n.
Proof. intros Hn. by apply atoi_ParseInt, ParseInt_FormatInt. Qed.
Lemma Normalize_page_size q : 0 < query_Page (Normalize q) ≤ MaxAdminPage ∧ 0 < query_Size (Normalize q) ≤ MaxAdminPageSize.
Proof.
  unfold MaxAdminPage, MaxAdminPageSize, DefaultAdminPageSize. simpl. unfold DefaultAdminPageSize, MaxAdminPage, MaxAdminPageSize.
  destruct (query_Size q <? 1) eqn:E; bool_props; (destruct (100 <? _) eqn:E2; bool_props; lia).
Qed.
Lemma or_default {A} (default v : string) (f : string → A) :
  (v = default → f default = f "") → f (match (if String.eqb v default then None else Some v) with Some v => v | None => "" end) = f v.
Proof. intros Hf. destruct (String.eqb_spec v default) as [->|]; [by rewrite Hf|done]. Qed.
Lemma or_empty v : match (if String.eqb v "" then None else Some v) with Some v => v | None => "" end = v.
Proof. by destruct (String.eqb_spec v ""). Qed.
(** A parameter looked up among the values of a list. *)
#[local] Ltac look := rewrite ?first_value_app, ?value_set_unless; rewrite ?value_set_other by reflexivity.
Lemma Values_lookup q : Normalize q = q →
  let param name := first_value name (Values q) in
  let unless default value := if String.eqb value default then None else Some value in
  param adminParamSearch = unless "" (query_Search q) ∧ param adminParamAdmin = unless AdminFilterAll (query_Admin q) ∧
  param adminParamGuest = unless AdminFilterAll (query_Guest q) ∧ param adminParamConfirmed = unless AdminFilterAll (query_Confirmed q) ∧
  param adminParamSort = unless AdminSortCreatedAt (query_Sort q) ∧
  param adminParamDirection = unless (defaultAdminDirection (query_Sort q)) (query_Direction q) ∧
  param adminParamPage = Some (FormatInt (query_Page q)) ∧ param adminParamSize = Some (FormatInt (query_Size q)).
Proof.
  intros Hq. cbv zeta. unfold Values. rewrite Hq. split_and!; look; try reflexivity;
    match goal with |- match ?x with _ => _ end = _ => destruct x; reflexivity end.
Qed.
Lemma Normalize_sort q : Normalize q = q →
  normalizeAdminSort (match (if String.eqb (query_Sort q) AdminSortCreatedAt then None else Some (query_Sort q)) with Some v => v | None => "" end) = query_Sort q.
Proof.
  intros Hq. assert (normalizeAdminSort (query_Sort q) = query_Sort q) as Hs by (rewrite <- Hq at 2; reflexivity).
  destruct (String.eqb_spec (query_Sort q) AdminSortCreatedAt) as [->|]; [reflexivity|done].
Qed.
Lemma Normalize_direction q : Normalize q = q →
  normalizeAdminDirection (match (if String.eqb (query_Direction q) (defaultAdminDirection (query_Sort q)) then None else Some (query_Direction q))
                           with Some v => v | None => "" end) (query_Sort q) = query_Direction q.
Proof.
  intros Hq. assert (normalizeAdminDirection (query_Direction q) (query_Sort q) = query_Direction q) as Hd.
  { rewrite <- Hq at 3. simpl. f_equal. rewrite <- Hq at 1. reflexivity. }
  destruct (String.eqb_spec (query_Direction q) (defaultAdminDirection (query_Sort q))) as [->|]; [reflexivity|done].
Qed.

(** A link of an administrator list leads to the list it was written for:
    parsing the parameters of a state whose query is normalized gives the state
    back, whatever its search, filters, order, page and size. *)
Theorem list_links_lead_to_their_list q r :
  Normalize q = q → req_Query r = Values q → parseAdminListState r = q.
Proof.
  intros Hq Hr. destruct (Values_lookup q Hq) as (Hs & Ha & Hg & Hc & Ho & Hd & Hp & Hz).
  pose proof (Normalize_page_size q) as [Hpage Hsize]. rewrite Hq in Hpage, Hsize.
  unfold parseAdminListState, Query_Get, value_or_empty. rewrite Hr, Hs, Ha, Hg, Hc, Ho, Hd, Hp, Hz, !or_empty, !atoi_FormatInt
    by (unfold MaxAdminPage, MaxAdminPageSize, max_int64 in *; lia).
  transitivity (Normalize q); [|done].
  assert (normalizeAdminSort (query_Sort q) = query_Sort q) as Hsort by (rewrite <- Hq at 2; reflexivity).
  assert (normalizeAdminDirection (query_Direction q) (query_Sort q) = query_Direction q) as Hdir.
  { rewrite <- Hq at 3. simpl. by rewrite Hsort. }
  unfold Normalize. cbn [query_Search query_Admin query_Guest query_Confirmed query_Sort query_Direction query_Page query_Size].
  by rewrite Normalize_sort, Normalize_direction, Hsort, Hdir.
Qed.
End links.

Definition third_page : AdminUserQuery := mkUserQuery "Ada" "yes" "" "no" "email" "desc" 3 50.
Definition third_page_request : Request :=
  mkRequest MethodGet "/en/admin/users" "" true "" [] [] "" (AdminState.Values (H := latin1) third_page) true 0 [] [] None None None None None.
Lemma list_links_lead_to_their_list_witness :
  AdminState.URL (H := latin1) third_page "/en/admin/users" = "/en/admin/users?admin=yes&confirmed=no&dir=desc&page=3&q=Ada&size=50&sort=email" ∧
  AdminState.parseAdminListState (H := latin1) third_page_request = third_page.
Proof.
  split; [vm_compute; reflexivity|]. apply (list_links_lead_to_their_list (H := latin1)); vm_compute; reflexivity.
Defined.
