(* ===== verification/Middleware.v ===== *)
(** * The middlewares around every route

    internal/adapter/http/middleware and their order in [newRouterWithServices]
    of internal/adapter/http/handler.go.  The loggers and the usage recorder
    are ports; the lines of internal/adapter/http/logger.go and the spans of
    tracer.go are built here. *)
From S2P Require Export Http ClientAddress OAuth OAuthStore.

(** ** Log lines: the part of package [log/slog] in use *)

(** The stream, the message and the rendered attributes. *)
Record LogLine := mkLine { line_security : bool; line_message : string; line_attributes : list (string * string) }.
(** [Time.Sub] saturates; [Duration.Milliseconds]. *)
Definition time_Sub (t u : Z) : Z := Z.max min_int64 (Z.min max_int64 (t - u)).
Definition Milliseconds (d : Z) : Z := Z.quot d millisecond.

Record RequestEvent := mkRequestEvent { ev_RequestID : string; ev_Method : string; ev_Status : Z; ev_Duration : Z }.
Record SecurityRequestEvent := mkSecurityEvent {
  sec_RequestID : string; sec_Method : string; sec_Route : string; sec_Status : Z }.
Module Logger.
Definition LogRequest (log : LogLine → Web unit) (event : RequestEvent) : Web unit :=
  log (mkLine false "http request"
    [("request_id", ev_RequestID event); ("method", ev_Method event); ("status", FormatInt (ev_Status event));
     ("duration_ms", FormatInt (Milliseconds (ev_Duration event)))]).
Definition LogSecurityRequest (log : LogLine → Web unit) (event : SecurityRequestEvent) : Web unit :=
  log (mkLine true "security event"
    [("stream", "security"); ("event", "http_denied"); ("request_id", sec_RequestID event); ("method", sec_Method event);
     ("route", sec_Route event); ("status", FormatInt (sec_Status event))]).
End Logger.

(** ** Trace contexts: internal/adapter/http/tracer.go *)
Module Spans.
Definition traceparentHeader : string := "Traceparent".
(** A tracer without a log emits no spans. *)
Record SpanTracer := mkSpanTracer { tracer_log : option (LogLine → Web unit); tracer_trusted : Addr → bool }.
Definition NewSpanTracer (trustedProxy : string) (log : option (LogLine → Web unit)) : SpanTracer :=
  mkSpanTracer log (ClientIP.parseTrustedProxy trustedProxy).
(** Unlike [resolveClientIP] it does not trim the spaces of the peer. *)
Definition isTrusted (t : SpanTracer) (remoteAddr : string) : bool :=
  let host := match split_host remoteAddr with Some host => host | None => remoteAddr end in
  match ParseIP (trim_right (trim_left host)) with Some ip => tracer_trusted t ip | None => false end.

Definition lower_hex_digit (c : ascii) : bool := let b := byte_of c in in_range 48 57 b || in_range 97 102 b.
Definition validHex (value : string) (length : Z) : bool := (len value =? length) && all_chars lower_hex_digit value.
Definition allZero (value : string) : bool := all_chars (λ c, Ascii.eqb c "0") value.
Definition byte_at (i : nat) (s : string) : string := substring i 1 s.
(** The value of a hexadecimal digit. *)
Definition hex_value (c : ascii) : Z := if in_range 48 57 (byte_of c) then byte_of c - 48 else byte_of c - 87.
(** [strconv.ParseUint(s, 16, 8)] on two hexadecimal digits. *)
Definition parse_flags (s : string) : Z := match s with String a (String b _) => 16 * hex_value a + hex_value b | _ => 0 end.
Definition parseTraceparent (header : string) : option (string * string * bool) :=
  if negb (len header =? 55) || negb (String.eqb (byte_at 2 header) "-") || negb (String.eqb (byte_at 35 header) "-")
     || negb (String.eqb (byte_at 52 header) "-") then None
  else if negb (String.eqb (substring 0 2 header) "00") then None else
  let traceID := substring 3 32 header in let spanID := substring 36 16 header in let flags := substring 53 2 header in
  if negb (validHex traceID 32) || negb (validHex spanID 16) || negb (validHex flags 2) then None
  else if allZero traceID || allZero spanID then None
  else Some (traceID, spanID, Z.land (parse_flags flags) 1 =? 1).

Definition randomHex (bytes : nat) : M string :=
  let! buffer := attempt (rand_Read bytes (Opaque "rand")) in
  ret (match buffer with Ok buffer => hex_encode buffer | Err _ => Repeat "0" (bytes * 2) end).
(** The caller's trace, when a trusted caller sent one. *)
Definition incoming (t : SpanTracer) (r : Request) : option (string * string * bool) :=
  if isTrusted t (req_RemoteAddr r) then parseTraceparent (TrimSpace (Header_Get r traceparentHeader)) else None.
Definition newTraceContext (t : SpanTracer) (r : Request) : M TraceContext :=
  match incoming t r with
  | Some (traceID, parentSpanID, sampled) => let! spanID := randomHex 8 in ret (mkTrace traceID spanID parentSpanID sampled)
  | None => let! traceID := randomHex 16 in let! spanID := randomHex 8 in ret (mkTrace traceID spanID "" true)
  end.
(** The finisher of [StartSpan]. *)
Definition finish (t : SpanTracer) (trace : TraceContext) (startedAt : Z) (method route : string) (status : Z) : Web unit :=
  match tracer_log t with
  | None => ret tt
  | Some log =>
    let! now := Now in
    log (mkLine false "server span"
      [("trace_id", TraceID trace); ("span_id", SpanID trace); ("parent_span_id", ParentSpanID trace); ("method", method); ("route", route);
       ("status", FormatInt status); ("duration_ms", FormatInt (Milliseconds (time_Sub now startedAt)))])
  end.
End Spans.

Module Middlewares.

(** [Chain] of constructed middlewares, in request order. *)
Definition Chain (h : handler) (ms : list Middleware) : handler := foldr (λ m h, m h) h ms.

(** ** Request identifiers *)
Definition requestIDBytes : nat := 16.
Definition maxRequestIDLen : Z := 128.
Definition NewRequestID : M string :=
  let! value := rand_Read requestIDBytes (Opaque "middleware: request id generation failed") in
  ret (hex_encode value).
Definition request_id_char (c : ascii) : bool :=
  let b := byte_of c in
  in_range 97 122 b || in_range 65 90 b || in_range 48 57 b || existsb (Ascii.eqb c) ["-"; "_"; "."]%char.
Definition validRequestID (value : string) : bool :=
  negb (String.eqb value "" || (maxRequestIDLen <? len value)) && all_chars request_id_char value.

Definition internal_error : Web unit := http_Error "internal server error" StatusInternalServerError.

Definition WithRequestID : Middleware := λ next r,
  let! requestID := call NewRequestID in
  match requestID with
  | Err _ => internal_error
  | Ok requestID =>
    if negb (validRequestID requestID) then internal_error else
    set_header "X-Request-ID" requestID ;;;
    next (with_RequestID (Some requestID) r)
  end.

(** ** Client address, headers, panics *)
Definition ClientIP_ (trustedProxy : string) : Middleware :=
  let trusted := ClientIP.parseTrustedProxy trustedProxy in λ next r,
  next (with_ClientIP (Some (ClientIP.resolveClientIP (req_RemoteAddr r) (Header_Values r "X-Forwarded-For") trusted)) r).
Definition ClientIPFromContext (r : Request) : option string :=
  match ctx_ClientIP r with Some ip => if String.eqb ip "" then None else Some ip | None => None end.

Definition contentSecurityPolicy : string :=
  "default-src 'self'; script-src 'self'; style-src 'self'; img-src 'self' data:; object-src 'none'; base-uri 'none'; frame-ancestors 'none'".
Definition SecurityHeaders : Middleware := λ next r,
  set_header "Content-Security-Policy" contentSecurityPolicy ;;;
  set_header "X-Content-Type-Options" "nosniff" ;;;
  set_header "X-Frame-Options" "DENY" ;;;
  set_header "Referrer-Policy" "same-origin" ;;;
  set_header "Cross-Origin-Opener-Policy" "same-origin" ;;;
  (if negb (String.prefix "/static/" (req_Path r)) then set_header "Cache-Control" "no-store" else ret tt) ;;;
  next r.

Definition Recover : Middleware := λ next r s,
  match next r s with
  | (s', Ok u) => (s', Ok u)
  | (s', Err _) => internal_error s'
  end.

(** ** What is reported after the response *)
Definition response_status : Web Z := gets (λ s, resp_Status s.2).
Definition status_or_ok (status : Z) : Z := if status =? 0 then StatusOK else status.
Definition requestID (r : Request) : string := match ctx_RequestID r with Some id => id | None => "" end.

Definition isSecurityStatus (status : Z) : bool :=
  (status =? StatusUnauthorized) || (status =? StatusForbidden) || (status =? StatusTooManyRequests).
Definition SecurityEvents (log : SecurityRequestEvent → Web unit) (normalize : Request → string) : Middleware := λ next r,
  next r ;;;
  let! status := response_status in
  if negb (isSecurityStatus status) then ret tt else
  log (mkSecurityEvent (requestID r) (req_Method r) (normalize r) status).

(** [Log]: nothing is logged when the handler panics. *)
Definition Log (logger : RequestEvent → Web unit) : Middleware := λ next r,
  let! startedAt := Now in
  next r ;;;
  let! status := response_status in
  let! now := Now in
  logger (mkRequestEvent (requestID r) (req_Method r) (status_or_ok status) (time_Sub now startedAt)).
(** [Span]: the span of a handler that panics without an answer has status 200. *)
Definition Span (tracer : Spans.SpanTracer) (normalize : Request → string) : Middleware := λ next r,
  let! trace := call (Spans.newTraceContext tracer r) in
  match trace with
  | Err _ => next r
  | Ok trace =>
    let! startedAt := Now in
    let r := with_Trace (Some trace) r in
    deferred (next r)
      (let! status := response_status in Spans.finish tracer trace startedAt (req_Method r) (normalize r) (status_or_ok status))
  end.
(** [LimitRequestBody]: reading a form beyond the limit fails. *)
Definition maxRequestBodyBytes : Z := 262144.
Definition limited (maxBytes : Z) (r : Request) : Request := if maxBytes <? req_FormBytes r then with_FormOK false r else r.
Definition LimitRequestBody (maxBytes : Z) : Middleware := λ next r, next (limited maxBytes r).

Definition requestOriginHost (remoteAddr : string) : string :=
  let trimmed := TrimSpace remoteAddr in
  if String.eqb trimmed "" then "" else
  match split_host trimmed with Some host => host | None => trimmed end.
(** [Usage] with the conversion of [usageRecorder.EnqueueUsage]: the account is
    that of the principal in the context of the request as it came here.  The
    error of the queue is ignored. *)
Definition PrincipalFromContext (r : Request) : option Principal := ctx_Principal r.
Definition event_user (r : Request) : option Z :=
  principal ← PrincipalFromContext r; id ← ParseInt (principal_ID principal); if 0 <? id then Some id else None.
Definition usage_event (normalize : Request → string) (status : Z) (r : Request) : UsageEvent :=
  let origin := requestOriginHost (req_RemoteAddr r) in
  mkUsageEvent 0 (req_Method r) (normalize r) (status_or_ok status) (requestID r)
    (match ctx_Trace r with Some trace => TraceID trace | None => "" end) (event_user r)
    (if String.eqb origin "" then None else Some origin).
Definition Usage (enqueue : UsageEvent → Web unit) (normalize : Request → string) : Middleware := λ next r,
  next r ;;;
  let! status := response_status in
  enqueue (usage_event normalize status r).
(** [NormalizeUsageRoute].  The request of the [Usage] middleware has no matched
    pattern: the routes see the copy that carries the token of [CSRF] (for an
    exempt path, where there is no copy, the pattern is the path with its
    method), so [DefaultRouteNormalizer] falls back to the path. *)
Definition NormalizeUsageRoute (r : Request) : string :=
  match Locale.ParsePath (req_Path r) with Some (_, rest) => "/{language}" +:+ rest | None => req_Path r end.

(** ** Cross-origin requests: [http.CrossOriginProtection] *)
Definition isSafeMethod (method : string) : bool :=
  String.eqb method "GET" || String.eqb method "HEAD" || String.eqb method "OPTIONS".
Section origin.
Context `{URLParser}.
Definition same_origin (r : Request) : bool :=
  let site := Header_Get r "Sec-Fetch-Site" in
  if String.eqb site "" then
    let origin := Header_Get r "Origin" in
    String.eqb origin "" || match url_Parse origin with Some (_, host, _) => String.eqb host (req_Host r) | None => false end
  else String.eqb site "same-origin" || String.eqb site "none".
Definition CrossOriginProtection : Middleware := λ next r,
  if isSafeMethod (req_Method r) || same_origin r then next r
  else http_Error "cross-origin request detected" StatusForbidden.
End origin.

(** ** Synchronizer tokens: csrf.go *)
Record csrfConfig := mkCSRFConfig { csrf_secure : bool; csrf_exempt : list string }.
Definition CSRFCookieName : string := "goweb_csrf".
Definition CSRFFieldName : string := "_csrf".
Definition CSRFHeaderName : string := "X-Csrf-Token".
Definition csrfTokenBytes : nat := 32.

Definition NewCSRFToken : M string :=
  let! value := rand_Read csrfTokenBytes (Opaque "csrf: token generation failed") in ret (hex_encode value).
Definition validCSRFToken (token : string) : bool := (len token =? Z.of_nat csrfTokenBytes * 2) && hex_decodes token.

Definition requestHasCSRFToken (r : Request) (expected : string) : bool :=
  let provided := TrimSpace (Header_Get r CSRFHeaderName) in
  match (if String.eqb provided "" then
           if req_FormOK r then Some (TrimSpace (PostFormValue r CSRFFieldName)) else None
         else Some provided) with
  | None => false
  | Some provided => validCSRFToken provided && String.eqb provided expected
  end.
Definition setCSRFCookie (token : string) (secure : bool) : Web unit :=
  SetCookie (mkCookie CSRFCookieName token "/" None 0 true secure SameSiteStrictMode).
Definition withCSRFToken (next : handler) (r : Request) (token : string) : Web unit := next (with_CSRF (Some token) r).

Definition CSRF (config : csrfConfig) : Middleware := λ next r,
  let token := Cookie_ r CSRFCookieName in
  let valid := match token with Some token => validCSRFToken token | None => false end in
  let token := match token with Some token => token | None => "" end in
  if isSafeMethod (req_Method r) then
    if valid then withCSRFToken next r token else
    let! generated := call NewCSRFToken in
    match generated with
    | Err _ => internal_error
    | Ok token =>
      if negb (validCSRFToken token) then internal_error else
      setCSRFCookie token (csrf_secure config || req_TLS r) ;;; withCSRFToken next r token
    end
  else if existsb (String.eqb (req_Path r)) (csrf_exempt config) then next r
  else if negb valid || negb (requestHasCSRFToken r token) then http_Error "csrf validation failed" StatusForbidden
  else withCSRFToken next r token.

(** ** The chain of [newRouterWithServices] *)
Record Edge := mkEdge {
  edge_TrustedProxy : string;
  edge_tracer : option Spans.SpanTracer;
  edge_security_log : option (SecurityRequestEvent → Web unit);
  edge_usage : option (UsageEvent → Web unit);
  edge_request_log : option (RequestEvent → Web unit);
  edge_csrf : csrfConfig;
}.
Definition optional {A} (port : option A) (m : A → Middleware) : list Middleware :=
  match port with Some p => [m p] | None => [] end.
Definition shared `{URLParser} (e : Edge) : list Middleware :=
  [WithRequestID; ClientIP_ (edge_TrustedProxy e); SecurityHeaders; Recover]
  ++ optional (edge_tracer e) (λ tracer, Span tracer NormalizeUsageRoute)
  ++ optional (edge_security_log e) (λ log, SecurityEvents log NormalizeUsageRoute)
  ++ optional (edge_usage e) (λ enqueue, Usage enqueue NormalizeUsageRoute)
  ++ [LimitRequestBody maxRequestBodyBytes; CrossOriginProtection; CSRF (edge_csrf e)]
  ++ optional (edge_request_log e) Log.
Definition newRouter `{URLParser} (e : Edge) (mux : handler) : handler := Chain mux (shared e).
End Middlewares.

(** ** What reaches the routes *)
Section gate.
Import Middlewares.
Context `{URLParser}.

(** The loggers neither change data nor touch the response. *)
Definition quiet_port {A} (port : A → Web unit) : Prop :=
  ∀ a s, db_of (fst (port a s)) = db_of s ∧ snd (fst (port a s)) = s.2 ∧ snd (port a s) = Ok tt.
Record quiet_edge (e : Edge) : Prop := {
  quiet_security : ∀ log, edge_security_log e = Some log → quiet_port log;
  quiet_usage : ∀ enqueue, edge_usage e = Some enqueue → quiet_port enqueue;
  quiet_spans : ∀ tracer log, edge_tracer e = Some tracer → Spans.tracer_log tracer = Some log → quiet_port log;
}.

(** The request carries its own token, from this site. *)
Definition carries_token (r : Request) (token : string) : Prop :=
  Cookie_ r CSRFCookieName = Some token ∧ validCSRFToken token = true ∧
    requestHasCSRFToken r token = true ∧ same_origin r = true.

Definition outer (e : Edge) : list Middleware :=
  [WithRequestID; ClientIP_ (edge_TrustedProxy e); SecurityHeaders; Recover]
  ++ optional (edge_tracer e) (λ tracer, Span tracer NormalizeUsageRoute)
  ++ optional (edge_security_log e) (λ log, SecurityEvents log NormalizeUsageRoute)
  ++ optional (edge_usage e) (λ enqueue, Usage enqueue NormalizeUsageRoute)
  ++ [LimitRequestBody maxRequestBodyBytes].
(** The routes, with the log of requests. *)
Definition logged (e : Edge) (mux : handler) : handler := Chain mux (optional (edge_request_log e) Log).

Lemma newRouter_outer e mux :
  newRouter e mux = Chain (CrossOriginProtection (CSRF (edge_csrf e) (logged e mux))) (outer e).
Proof. unfold newRouter, shared, outer, logged, Chain. rewrite !foldr_app. simpl. by destruct (edge_security_log e), (edge_usage e), (edge_tracer e). Qed.

(** The request as the inner middlewares see it. *)
Definition inner_request (r : Request) (id ip : option string) (trace : option TraceContext) : Request :=
  limited maxRequestBodyBytes (with_Trace trace (with_ClientIP ip (with_RequestID id r))).

(** What reaches the inner handler decides what the outer middlewares do. *)
Lemma outer_ext e h h' r s :
  (∀ id ip trace s', h (inner_request r id ip trace) s' = h' (inner_request r id ip trace) s') →
  Chain h (outer e) r s = Chain h' (outer e) r s.
Proof.
  intros Hh. assert (∀ id ip s', h (limited maxRequestBodyBytes (with_ClientIP ip (with_RequestID id r))) s' =
    h' (limited maxRequestBodyBytes (with_ClientIP ip (with_RequestID id r))) s') as Hplain by (intros id ip; exact (Hh id ip (ctx_Trace r))).
  unfold inner_request in Hh. unfold outer, Chain. simpl. unfold WithRequestID, bind at 1 3. destruct (call NewRequestID s) as [s1 [[id|er]|er]]; try done.
  destruct (negb _); [done|]. unfold bind. destruct (set_header _ _ s1) as [s2 [[]|er2]]; [|done].
  unfold ClientIP_, SecurityHeaders, bind, Recover.
  destruct (edge_tracer e) as [tracer|], (edge_security_log e), (edge_usage e); simpl; unfold Span, SecurityEvents, Usage, LimitRequestBody, deferred, bind;
    simpl; repeat (case_match; simplify_eq; rewrite ?Hplain, ?Hh in *); simplify_eq; try done; congruence.
Qed.

(** The world's database as before, and nothing answered yet. *)
Definition unanswered (d : DB) (s : World * Response) : Prop := db_of s = d ∧ resp_Status s.2 = 0.
Definition answered (d : DB) (status : Z) (s : World * Response) : Prop := db_of s = d ∧ resp_Status s.2 = status.

Lemma set_header_unanswered d n v s : unanswered d s → ∃ s', set_header n v s = (s', Ok tt) ∧ unanswered d s'.
Proof. intros Hs. by eexists. Qed.
Lemma http_Error_answered d message status s :
  status ≠ 0 → unanswered d s → ∃ s', http_Error message status s = (s', Ok tt) ∧ answered d status s'.
Proof.
  intros Hst [Hd Hz]. eexists. split; [reflexivity|]. unfold answered, db_of in *. simpl. rewrite Hz. simpl.
  split; [done|]. by rewrite (proj2 (Z.eqb_neq status 0) Hst).
Qed.
Lemma quiet_answered {A} (port : A → Web unit) d status a s :
  quiet_port port → answered d status s → ∃ s', port a s = (s', Ok tt) ∧ answered d status s'.
Proof.
  intros Hq [Hd Hz]. destruct (Hq a s) as (Hdb & Hr & Hok). destruct (port a s) as [s' o]. simpl in *. subst o.
  exists s'. split; [done|]. unfold answered. by rewrite Hdb, Hr.
Qed.

(** Each outer middleware keeps the answer of a handler that refuses. *)
Definition refuses (d : DB) (status : Z) (h : handler) : Prop :=
  ∀ r s, unanswered d s → ∃ s', h r s = (s', Ok tt) ∧ answered d status s'.
Lemma refuses_http_Error d message status : status ≠ 0 → refuses d status (λ _, http_Error message status).
Proof. intros Hst r s. by apply http_Error_answered. Qed.
Lemma refuses_SecurityEvents d status log normalize h :
  quiet_port log → refuses d status h → refuses d status (SecurityEvents log normalize h).
Proof.
  intros Hq Hh r s Hs. unfold SecurityEvents, bind. destruct (Hh r s Hs) as (s1 & -> & H1). simpl.
  case_match; [by exists s1|]. by apply quiet_answered.
Qed.
Lemma refuses_Usage d status enqueue normalize h :
  quiet_port enqueue → refuses d status h → refuses d status (Usage enqueue normalize h).
Proof. intros Hq Hh r s Hs. unfold Usage, bind. destruct (Hh r s Hs) as (s1 & -> & H1). simpl. by apply quiet_answered. Qed.
Lemma refuses_Recover d status h : refuses d status h → refuses d status (Recover h).
Proof. intros Hh r s Hs. unfold Recover. destruct (Hh r s Hs) as (s1 & E & H1). rewrite E. by exists s1. Qed.
Lemma refuses_SecurityHeaders d status h : refuses d status h → refuses d status (SecurityHeaders h).
Proof.
  intros Hh r s Hs. unfold SecurityHeaders, bind.
  do 5 (edestruct set_header_unanswered as (? & -> & ?); [eassumption|]).
  destruct (negb _); [edestruct set_header_unanswered as (? & -> & ?); [eassumption|]|]; by apply Hh.
Qed.
(** Reading clock and random source for a span. *)
Lemma newTraceContext_keeps tracer r : preserves (on_db (flip eq)) (Spans.newTraceContext tracer r).
Proof. unfold Spans.newTraceContext, Spans.randomHex. preserves_tac; apply preserves_attempt; preserves_tac. Qed.
Lemma Now_answered d status s : answered d status s → ∃ s' t, Now s = (s', Ok t) ∧ answered d status s'.
Proof. intros [Hd Hz]. eexists _, _. split; [reflexivity|]. by split. Qed.
Lemma refuses_Span d status tracer normalize h :
  (∀ log, Spans.tracer_log tracer = Some log → quiet_port log) → refuses d status h → refuses d status (Span tracer normalize h).
Proof.
  intros Hq Hh r s Hs. unfold Span, bind, call. pose proof (newTraceContext_keeps tracer r s.1) as Hk.
  destruct (Spans.newTraceContext tracer r s.1) as [w1 trace]. assert (unanswered d (w1, s.2)) as Hs1 by (destruct Hs as [Hd Hz]; split; [unfold on_db, flip, db_of in *; simpl in *; congruence|done]).
  destruct trace as [trace|e]; [|by apply Hh]. destruct (Now (w1, s.2)) as [s2 n] eqn:En. injection En as <- <-.
  cbn [bind]. unfold deferred. edestruct (Hh (with_Trace (Some trace) r)) as (s3 & -> & H3); [exact Hs1|]. unfold response_status, gets, Spans.finish.
  destruct (Spans.tracer_log tracer) as [log|] eqn:El; [|by exists s3]. destruct (Now_answered d status s3 H3) as (s4 & now & Hn & H4).
  cbv beta iota. unfold bind. rewrite Hn. edestruct (quiet_answered log d status) as (s5 & -> & H5); [by apply Hq|exact H4|]. by exists s5.
Qed.
Lemma refuses_LimitRequestBody d status n h : refuses d status h → refuses d status (LimitRequestBody n h).
Proof. intros Hh r s. apply Hh. Qed.
Lemma refuses_optional {A} d status (port : option A) (m : A → Middleware) h :
  (∀ p, port = Some p → refuses d status h → refuses d status (m p h)) →
  refuses d status h → refuses d status (Chain h (optional port m)).
Proof. intros Hm Hh. destruct port as [p|]; simpl; [by apply Hm|done]. Qed.
Lemma refused_outer e d status h :
  quiet_edge e → refuses d status h →
  ∀ r s, unanswered d s →
    ∃ s', Chain h (outer e) r s = (s', Ok tt) ∧ (answered d status s' ∨ answered d StatusInternalServerError s').
Proof.
  intros [Hsec Huse Hspan] Hh r s Hs. set (usage := λ p, Usage p NormalizeUsageRoute). set (events := λ p, SecurityEvents p NormalizeUsageRoute).
  set (spans := λ p, Span p NormalizeUsageRoute).
  set (inner := Chain (Chain (Chain (LimitRequestBody maxRequestBodyBytes h) (optional (edge_usage e) usage)) (optional (edge_security_log e) events))
    (optional (edge_tracer e) spans)).
  assert (refuses d status (SecurityHeaders (Recover inner))) as Hin.
  { apply refuses_SecurityHeaders, refuses_Recover. repeat apply refuses_optional.
    - intros p Hp Hp'. apply refuses_Span; [|done]. intros log. by apply Hspan.
    - intros p Hp Hp'. apply refuses_SecurityEvents; [by apply Hsec|done].
    - intros p Hp Hp'. apply refuses_Usage; [by apply Huse|done].
    - by apply refuses_LimitRequestBody. }
  assert (Chain h (outer e) = WithRequestID (ClientIP_ (edge_TrustedProxy e) (SecurityHeaders (Recover inner)))) as ->.
  { unfold outer, inner, Chain. by rewrite !foldr_app. }
  unfold WithRequestID, bind at 1.
  assert (∃ id s1, call NewRequestID s = (s1, Ok id) ∧ unanswered d s1) as (id & s1 & -> & H1).
  { unfold call. destruct (NewRequestID s.1) as [w' id] eqn:E. exists id, (w', s.2). split; [done|].
    destruct Hs as [Hd Hz]. split; [|done]. unfold db_of in *. simpl. rewrite <- Hd.
    assert (preserves (on_db (flip eq)) NewRequestID) as Hp by (unfold NewRequestID; preserves_tac).
    specialize (Hp s.1). by rewrite E in Hp. }
  assert (∃ s', internal_error s1 = (s', Ok tt) ∧ answered d StatusInternalServerError s') as (s2 & E2 & H2)
    by by apply http_Error_answered.
  destruct id as [id|er]; [|exists s2; auto]. destruct (negb _); [exists s2; auto|].
  unfold bind. destruct (set_header_unanswered d "X-Request-ID" id s1 H1) as (s3 & -> & H3).
  unfold ClientIP_. edestruct Hin as (s4 & -> & H4); [done|]. exists s4. auto.
Qed.

(** Bytes of hexadecimal digits are neither space nor part of a longer rune. *)
Lemma hex_not_space c : is_hex_digit c = true → (byte_of c <? 128) = true ∧ IsSpace (byte_of c) = false.
Proof.
  unfold is_hex_digit, in_range, IsSpace. intros Hc. simpl.
  rewrite !orb_true_iff, !andb_true_iff, !Z.leb_le in Hc. split; [lia|].
  repeat (apply orb_false_iff; split); try done; try (apply Z.eqb_neq; lia).
  unfold in_range. apply andb_false_iff. left. apply Z.leb_gt. lia.
Qed.
Lemma segments_hex s : all_chars is_hex_digit s = true → Forall (λ g, IsSpace g.1 = false) (segments s).
Proof.
  induction s as [|c s IH]; [intros; constructor|]. simpl. intros [Hc Hs]%andb_true_iff.
  apply hex_not_space in Hc as [Hb Hsp]. rewrite segments_next. cbn [next_segment]. rewrite Hb. constructor; auto.
Qed.
Lemma TrimSpace_hex s : all_chars is_hex_digit s = true → TrimSpace s = s.
Proof.
  intros Hs. apply segments_hex in Hs. rewrite Forall_forall in Hs. unfold TrimSpace.
  fold (trim_segments (segments s)). rewrite trim_segments_id; [apply join_segments_id| |]; intros g hs E; apply Hs; rewrite E;
    [left|apply elem_of_app; right; left].
Qed.
Lemma validCSRFToken_trimmed token : validCSRFToken token = true → TrimSpace token = token ∧ token ≠ "".
Proof.
  unfold validCSRFToken, hex_decodes. rewrite !andb_true_iff. intros [Hl [_ Hh]]. split; [by apply TrimSpace_hex|].
  intros ->. done.
Qed.

(** A request that changes state: no safe method and no exempt path. *)
Definition guarded (e : Edge) (r : Request) : Prop :=
  isSafeMethod (req_Method r) = false ∧ existsb (String.eqb (req_Path r)) (csrf_exempt (edge_csrf e)) = false.
(** What the last two guards do with it. *)
Definition refusal (r : Request) : string :=
  if same_origin r then "csrf validation failed" else "cross-origin request detected".
Lemma guarded_requests e mux r :
  guarded e r →
  (∃ token, carries_token r token ∧ CrossOriginProtection (CSRF (edge_csrf e) mux) r = mux (with_CSRF (Some token) r)) ∨
  ((∀ token, ¬ carries_token r token) ∧
   CrossOriginProtection (CSRF (edge_csrf e) mux) r = http_Error (refusal r) StatusForbidden).
Proof.
  intros [Hm Hp]. unfold CrossOriginProtection, CSRF, carries_token, refusal, withCSRFToken. rewrite Hm, Hp. cbn [orb].
  destruct (same_origin r); [|right; split; [by intros token (_ & _ & _ & Ht)|done]].
  destruct (Cookie_ r CSRFCookieName) as [token|]; [|right; split; [by intros token (Ht & _)|done]].
  destruct (validCSRFToken token) eqn:Hv, (requestHasCSRFToken r token) eqn:Hh; simpl;
    [left; by exists token|..]; right; split; try done; intros token' (Ht & Hv' & Hh' & _); injection Ht as <-; congruence.
Qed.

(** What the outer middlewares do to a request does not change what it carries. *)
Lemma inner_carries r id ip trace token :
  carries_token (inner_request r id ip trace) token ↔ carries_token (limited maxRequestBodyBytes r) token.
Proof. unfold inner_request, limited. simpl. by destruct (_ <? _). Qed.
Lemma inner_guarded e r id ip trace : guarded e r → guarded e (inner_request r id ip trace).
Proof. unfold inner_request, limited. simpl. by destruct (_ <? _). Qed.
Lemma inner_refusal r id ip trace : refusal (inner_request r id ip trace) = refusal r.
Proof. unfold inner_request, limited. simpl. by destruct (_ <? _). Qed.

(** C6. Behind the whole chain of middlewares a request that could change state
    reaches the routes exactly when it comes from this site and carries the
    token of its own cookie, in a form within the limit on bodies or a header.
    Otherwise the answer is 403 (or 500 when no request identifier could be
    drawn), the database is untouched and the routes have no part in the answer. *)
Theorem state_changes_carry_the_site_token e r w :
  quiet_edge e → guarded e r →
  (∃ token, carries_token (limited maxRequestBodyBytes r) token ∧
    ∀ mux s, newRouter e mux r s = Chain (λ r', logged e mux (with_CSRF (Some token) r')) (outer e) r s) ∨
  ((∀ token, ¬ carries_token (limited maxRequestBodyBytes r) token) ∧
   ∃ s', (∀ mux, newRouter e mux r (w, no_response) = (s', Ok tt)) ∧ db_of s' = db w ∧
         (resp_Status s'.2 = StatusForbidden ∨ resp_Status s'.2 = StatusInternalServerError)).
Proof.
  intros He Hg. destruct (guarded_requests e (λ _, ret tt) _ (inner_guarded e r None None None Hg)) as [(token & Ht%(inner_carries r None None None) & _)|[Hno _]];
    [left; exists token|right]; (split; [first [done | by intros token ?%(inner_carries r None None None)%Hno]|]).
  - intros mux s. rewrite newRouter_outer. apply outer_ext. intros id ip trace s'.
    destruct (guarded_requests e (logged e mux) _ (inner_guarded e r id ip trace Hg)) as [(token' & Ht' & ->)|[Hno _]]; [|destruct (Hno token); by apply (inner_carries r id ip trace)].
    apply (inner_carries r id ip trace) in Ht'. destruct Ht as (Hc & _), Ht' as (Hc' & _). assert (Some token = Some token') as [= ->] by exact (eq_trans (eq_sym Hc) Hc'). done.
  - destruct (refused_outer e (db w) StatusForbidden (λ _, http_Error (refusal r) StatusForbidden) He
      (refuses_http_Error (db w) (refusal r) StatusForbidden ltac:(done)) r (w, no_response)) as (s' & E & Hs'); [done|].
    exists s'. split; [|by destruct Hs' as [[]|[]]; auto].
    intros mux. rewrite newRouter_outer, <- E. apply outer_ext. intros id ip trace s1.
    destruct (guarded_requests e (logged e mux) _ (inner_guarded e r id ip trace Hg)) as [(token & Ht%(inner_carries r id ip trace) & _)|[_ ->]];
      [destruct (Hno token); by apply inner_carries|by rewrite inner_refusal].
Qed.

(** The cookie that carries a token. *)
Definition csrf_cookie (token : string) (secure : bool) : Cookie :=
  mkCookie CSRFCookieName token "/" None 0 true secure SameSiteStrictMode.
(** A request that sends [token] back: in the header, or in the form. *)
Definition sends_back (r : Request) (token : string) : Prop :=
  Header_Get r CSRFHeaderName = token ∨
  (TrimSpace (Header_Get r CSRFHeaderName) = "" ∧ req_FormOK r = true ∧ PostFormValue r CSRFFieldName = token).
Lemma sends_back_accepted r token :
  validCSRFToken token = true → sends_back r token → requestHasCSRFToken r token = true.
Proof.
  intros Hv Hs. destruct (validCSRFToken_trimmed token Hv) as [Ht Hne]. unfold requestHasCSRFToken. destruct Hs as [Hh|(Hh & Hf & Hp)].
  - rewrite Hh, Ht,  (proj2 (String.eqb_neq token "") Hne), Hv. by rewrite String.eqb_refl.
  - rewrite Hh, Hf, Hp, Ht. cbn [String.eqb]. cbv iota beta. rewrite Hv. by rewrite String.eqb_refl.
Qed.

Definition token_valid (r : Request) : bool :=
  match Cookie_ r CSRFCookieName with Some token => validCSRFToken token | None => false end.
(** A safe request without a usable token. *)
Lemma CSRF_fresh config next r s w' out :
  isSafeMethod (req_Method r) = true → token_valid r = false → NewCSRFToken s.1 = (w', out) →
  CSRF config next r s =
  match out with
  | Ok token => if negb (validCSRFToken token) then internal_error (w', s.2) else
                (setCSRFCookie token (csrf_secure config || req_TLS r) ;;; withCSRFToken next r token) (w', s.2)
  | Err _ => internal_error (w', s.2)
  end.
Proof.
  intros Hm Hv E. unfold CSRF. rewrite Hm. fold (token_valid r). rewrite Hv. unfold bind at 1, call. rewrite E.
  destruct out as [token|er]; [by destruct (validCSRFToken token)|done].
Qed.

(** C12. A page shown to a browser holds a token, the browser then has that token
    in its cookie (kept, or set by this response, hidden from scripts and from
    other sites), and every later form or request of this site that sends the
    two back passes the check and sees the same token.  Only a failing random
    source answers 500. *)
Theorem form_token_round_trip config next r s :
  isSafeMethod (req_Method r) = true →
  (∃ s', call NewCSRFToken s = (s', Ok (Err (Opaque "csrf: token generation failed"))) ∧ CSRF config next r s = internal_error s') ∨
  (∃ token s', CSRF config next r s = next (with_CSRF (Some token) r) s' ∧ db_of s' = db_of s ∧ validCSRFToken token = true ∧
    (Cookie_ r CSRFCookieName = Some token ∧ s' = s ∨
     resp_Cookies s'.2 = resp_Cookies s.2 ++ [csrf_cookie token (csrf_secure config || req_TLS r)]) ∧
    ∀ r' next', isSafeMethod (req_Method r') = false → existsb (String.eqb (req_Path r')) (csrf_exempt config) = false →
      Cookie_ r' CSRFCookieName = Some token → sends_back r' token →
      CSRF config next' r' = next' (with_CSRF (Some token) r')).
Proof.
  intros Hm. assert (∀ token, validCSRFToken token = true → ∀ r' next', isSafeMethod (req_Method r') = false →
      existsb (String.eqb (req_Path r')) (csrf_exempt config) = false →
      Cookie_ r' CSRFCookieName = Some token → sends_back r' token → CSRF config next' r' = next' (with_CSRF (Some token) r')) as Hback.
  { intros token Hv r' next' Hm' Hp Hc Hs. unfold CSRF. rewrite Hm', Hp, Hc, Hv. simpl. by rewrite (sends_back_accepted r' token). }
  destruct (token_valid r) eqn:Hv.
  - unfold token_valid in Hv. destruct (Cookie_ r CSRFCookieName) as [token|] eqn:Hc; [|done].
    right. exists token, s. split; [|by auto 6]. unfold CSRF. by rewrite Hm, Hc, Hv.
  - destruct (NewCSRFToken s.1) as [w' out] eqn:E. rewrite (CSRF_fresh config next r s w' out Hm Hv E). destruct out as [token|er].
    + right. apply bind_ok in E as (w1 & bytes & Hr & [= <- <-]). apply rand_Read_ok in Hr as (Hd & _ & Hl).
      assert (validCSRFToken (hex_encode bytes) = true) as Hvt.
      { unfold validCSRFToken, len. by rewrite hex_encode_decodes, hex_encode_length, Hl. }
      rewrite Hvt. eexists (hex_encode bytes), _. split; [reflexivity|]. split_and!; [done|done|by right|by apply Hback].
    + left. exists (w', s.2). split; [|done]. unfold call. rewrite E. do 3 f_equal. unfold NewCSRFToken, rand_Read, draw, bind, ret in E.
      destruct (entropy s.1) as [|[v|] ?]; congruence.
Qed.
End gate.

(** ** Traces *)
Section traces.
Import Spans Middlewares.

Lemma substring_skip a b m : substring (String.length a) m (a +:+ b) = substring 0 m b.
Proof. induction a as [|c a IH]; [done|]. rewrite str_app_cons. exact IH. Qed.
Lemma substring_mid a b c : substring (String.length a) (String.length b) (a +:+ b +:+ c) = b.
Proof. rewrite substring_skip. induction b as [|x b IH]; [by destruct c|]. rewrite str_app_cons. simpl. by rewrite IH. Qed.
Lemma lower_hex_encode s : all_chars lower_hex_digit (hex_encode s) = true.
Proof.
  assert (∀ n, 0 ≤ n < 16 → lower_hex_digit (hex_digit n) = true) as Hd.
  { intros n Hn. assert (n ∈ [0; 1; 2; 3; 4; 5; 6; 7; 8; 9; 10; 11; 12; 13; 14; 15]) as Hin by (rewrite !elem_of_cons; lia).
    repeat (apply elem_of_cons in Hin as [->|Hin]; [reflexivity|]). by apply not_elem_of_nil in Hin. }
  induction s as [|c s IH]; [done|]. simpl. pose proof (byte_of_range c) as Hb.
  rewrite !Hd, IH; [done|apply Z.mod_pos_bound; lia|split; [apply Z.div_pos|apply Z.div_lt_upper_bound]; lia].
Qed.
Lemma zeros_hex n : validHex (Repeat "0" n) (Z.of_nat n) = true.
Proof.
  unfold validHex, len. induction n as [|n IH]; [done|]. apply andb_true_iff in IH as [Hl Ha]. apply Z.eqb_eq in Hl.
  apply andb_true_iff. split; [apply Z.eqb_eq; change (Repeat "0" (S n)) with (String "0" (Repeat "0" n)); cbn [String.length]; lia|exact Ha].
Qed.
Lemma randomHex_ok n w : ∃ w' v, randomHex n w = (w', Ok v) ∧ validHex v (Z.of_nat (n * 2)) = true.
Proof.
  unfold randomHex, attempt, bind. destruct (rand_Read n (Opaque "rand") w) as [w' [v|e]] eqn:E; eexists _, _; (split; [reflexivity|]); [|apply zeros_hex].
  apply rand_Read_ok in E as (_ & _ & Hl). unfold validHex, len. rewrite hex_encode_length, lower_hex_encode, Hl. apply andb_true_iff. split; [apply Z.eqb_eq; lia|done].
Qed.
Lemma parseTraceparent_ok header traceID spanID sampled :
  parseTraceparent header = Some (traceID, spanID, sampled) → validHex traceID 32 = true ∧ validHex spanID 16 = true.
Proof.
  unfold parseTraceparent. repeat (case_match; [done|]). intros [= <- <- _]. by bool_props.
Qed.

(** Every request gets a trace whose identifiers are lower-case hexadecimal of
    32 and 16 digits, as the column of usage events holds them.  Only a caller
    at a trusted address can choose the trace, and its own span is then the
    parent; for all other callers the trace has nothing of the request. *)
Theorem traces_are_not_forged tracer r w :
  ∃ w' trace, newTraceContext tracer r w = (w', Ok trace) ∧ validHex (TraceID trace) 32 = true ∧ validHex (SpanID trace) 16 = true ∧
    (ParentSpanID trace ≠ "" → isTrusted tracer (req_RemoteAddr r) = true ∧ validHex (ParentSpanID trace) 16 = true) ∧
    (isTrusted tracer (req_RemoteAddr r) = false → Sampled trace = true ∧
       ∀ r', isTrusted tracer (req_RemoteAddr r') = false → newTraceContext tracer r' w = (w', Ok trace)).
Proof.
  unfold newTraceContext, incoming. destruct (isTrusted tracer (req_RemoteAddr r)) eqn:Ht; [destruct (parseTraceparent _) as [[[traceID parent] sampled]|] eqn:Ep|].
  - apply parseTraceparent_ok in Ep as [Hp1 Hp2]. destruct (randomHex_ok 8 w) as (w1 & span & Hs & Hv). unfold bind. rewrite Hs.
    eexists _, _. split; [reflexivity|]. by split_and!.
  - destruct (randomHex_ok 16 w) as (w1 & t & Hs & Hv). destruct (randomHex_ok 8 w1) as (w2 & span & Hs' & Hv'). unfold bind. rewrite Hs. rewrite Hs'.
    eexists _, _. split; [reflexivity|]. by split_and!.
  - destruct (randomHex_ok 16 w) as (w1 & t & Hs & Hv). destruct (randomHex_ok 8 w1) as (w2 & span & Hs' & Hv'). unfold bind. rewrite Hs. rewrite Hs'.
    eexists _, _. split; [reflexivity|]. split_and!; try done. intros _. split; [done|]. intros r' ->. by rewrite Hs, Hs'.
Qed.
Example traceparents :
  parseTraceparent <$> ["00-4bf92f3577b34da6a3ce929d0e0e4736-00f067aa0ba902b7-01"; "00-nothex-nothex-01";
    "00-00000000000000000000000000000000-0000000000000000-01"; "00-4bf92f3577b34da6a3ce929d0e0e4736-00f067aa0ba902b7"]
  = [Some ("4bf92f3577b34da6a3ce929d0e0e4736", "00f067aa0ba902b7", true); None; None; None].
Proof. vm_compute. reflexivity. Qed.
(** A header written as W3C prescribes is read back. *)
Theorem traceparent_round_trip traceID spanID flags :
  validHex traceID 32 = true → validHex spanID 16 = true → validHex flags 2 = true → allZero traceID = false → allZero spanID = false →
  parseTraceparent ("00-" +:+ traceID +:+ "-" +:+ spanID +:+ "-" +:+ flags) = Some (traceID, spanID, Z.land (parse_flags flags) 1 =? 1).
Proof.
  intros Ht Hs Hf Hz Hz'. pose proof Ht as Ht'. pose proof Hs as Hs'. pose proof Hf as Hf'. unfold validHex, len in Ht', Hs', Hf'. bool_props.
  assert (String.length traceID = 32%nat ∧ String.length spanID = 16%nat ∧ String.length flags = 2%nat) as (Hl1 & Hl2 & Hl3) by lia.
  unfold parseTraceparent. set (header := "00-" +:+ _).
  assert (∀ a b c n m, header = a +:+ b +:+ c → n = String.length a → m = String.length b → substring n m header = b) as Hmid
    by (intros a b c n m -> -> ->; apply substring_mid).
  assert ((len header =? 55) = true) as -> by (apply Z.eqb_eq; unfold len, header; rewrite !str_length_app; simpl; lia).
  unfold byte_at. rewrite (Hmid "00" "-" (traceID +:+ "-" +:+ spanID +:+ "-" +:+ flags) 2%nat 1%nat) by done.
  rewrite (Hmid ("00-" +:+ traceID) "-" (spanID +:+ "-" +:+ flags)) by (rewrite ?str_length_app, ?Hl1, ?Hl2; first [done | unfold header; by rewrite !str_app_assoc]).
  rewrite (Hmid ("00-" +:+ traceID +:+ "-" +:+ spanID) "-" flags) by (rewrite ?str_length_app, ?Hl1, ?Hl2; first [done | unfold header; by rewrite !str_app_assoc]).
  rewrite (Hmid "" "00" ("-" +:+ traceID +:+ "-" +:+ spanID +:+ "-" +:+ flags)) by done.
  rewrite (Hmid "00-" traceID ("-" +:+ spanID +:+ "-" +:+ flags)) by done.
  rewrite (Hmid ("00-" +:+ traceID +:+ "-") spanID ("-" +:+ flags)) by (rewrite ?str_length_app, ?Hl1, ?Hl2; first [done | unfold header; by rewrite !str_app_assoc]).
  rewrite (Hmid ("00-" +:+ traceID +:+ "-" +:+ spanID +:+ "-") flags "") by (rewrite ?str_length_app, ?Hl1, ?Hl2; first [done | unfold header; by rewrite !str_app_assoc, str_app_nil_r]).
  cbv zeta. by rewrite Ht, Hs, Hf, Hz, Hz'.
Qed.
End traces.
