(* ===== verification/WebSession.v ===== *)
(** * Browser sessions

    The session cookie (internal/adapter/http/middleware/session_cookie.go),
    the authenticator of internal/adapter/http/dependencies.go, and the
    middlewares that ask it (middleware.go). *)
From S2P Require Export Middleware Session UserStore.
Import UserRepository Sessions.

Record SessionCookieConfig := mkCookieConfig {
  config_Name : string; config_Path : string; config_Secure : bool; config_Lifetime : Z; config_SameSite : SameSite }.
Record SessionCookie := mkSessionCookie {
  sc_name : string; sc_path : string; sc_secure : bool; sc_lifetime : Z; sc_sameSite : SameSite }.

Module WebSession.
Definition DefaultSessionCookieName : string := "goweb_session".
Definition DefaultSessionCookiePath : string := "/".

Definition validCookieName (name : string) : bool :=
  negb (String.eqb name "") && cookie_Valid (mkCookie name "" "" None 0 false false SameSiteUnset).
Definition validCookiePath (path : string) : bool :=
  String.prefix "/" path && negb (ContainsAny path [";"%char; ascii_of_nat 13; ascii_of_nat 10]).
Definition session_value_byte (c : ascii) : bool :=
  let b := byte_of c in
  (33 <=? b) && (b <? 127) && negb (existsb (Ascii.eqb c) [";"%char; ascii_of_nat 92; ascii_of_nat 34]).
Definition validSessionCookieValue (value : string) : bool :=
  negb (String.eqb value "" || (64 <? len value)) && all_chars session_value_byte value.
Definition validSameSite (s : SameSite) : bool :=
  match s with SameSiteLaxMode | SameSiteStrictMode | SameSiteNoneMode => true | _ => false end.

Definition or_default (value default : string) : string := if String.eqb value "" then default else value.
Definition NewSessionCookie (config : SessionCookieConfig) : outcome SessionCookie :=
  let name := or_default (config_Name config) DefaultSessionCookieName in
  let path := or_default (config_Path config) DefaultSessionCookiePath in
  let sameSite := match config_SameSite config with
                  | SameSiteUnset | SameSiteDefaultMode => SameSiteLaxMode
                  | sameSite => sameSite
                  end in
  if (config_Lifetime config <? second) || negb (validCookieName name) || negb (validCookiePath path) || negb (validSameSite sameSite)
  then Err ErrInvalidSessionCookieConfig
  else Ok (mkSessionCookie name path (config_Secure config) (config_Lifetime config) sameSite).

Section cookie.
Context (c : SessionCookie).
(** The method [cookie]. *)
Definition session_cookie (value : string) (expires : Z) : Cookie :=
  mkCookie (sc_name c) value (sc_path c) (Some expires) (Z.quot (sc_lifetime c) second) true (sc_secure c) (sc_sameSite c).

(** [Set], true when the cookie was written. *)
Definition Set_ (sessionID : string) (now : Z) : Web bool :=
  if negb (validSessionCookieValue sessionID) then ret false else
  let cookie := session_cookie sessionID (now + sc_lifetime c) in
  if negb (cookie_Valid cookie) then ret false else
  SetCookie cookie ;;; ret true.
Definition Read (r : Request) : option string :=
  match Cookie_ r (sc_name c) with
  | Some value => if validSessionCookieValue value then Some value else None
  | None => None
  end.
Definition cleared : Cookie :=
  let cookie := session_cookie "" second in
  mkCookie (cookie_Name cookie) (cookie_Value cookie) (cookie_Path cookie) (cookie_Expires cookie) (-1)
    (cookie_HttpOnly cookie) (cookie_Secure cookie) (cookie_SameSite cookie).
Definition Clear : Web unit := SetCookie cleared.
End cookie.

(** ** [SessionAuthenticator], wired to the session service and the accounts *)
Section authenticator.
Context `{Crypto} (cookie : SessionCookie).
Definition Authenticate (r : Request) : M Principal :=
  match Read cookie r with
  | None => throw ErrUnauthenticated
  | Some sessionID =>
    let! session := attempt (Lookup sessionID) in
    match session with
    | Err _ => throw ErrUnauthenticated
    | Ok session =>
      let! user := attempt (FindUserByID (session_UserID session)) in
      match user with
      | Err _ => throw ErrSessionAuthentication
      | Ok user =>
        guard (negb (user_ID user =? session_UserID session)) ErrSessionAuthentication ;;;
        ret (mkPrincipal (FormatInt (user_ID user)) (user_IsAdmin user))
      end
    end
  end.
End authenticator.

(** ** Middlewares that ask an authenticator *)
Section guards.
Context `{ReferenceParser} (authenticate : Request → M Principal).

Definition validRedirectPath (path : string) : bool :=
  if String.eqb path "" || ContainsAny path [ascii_of_nat 13; ascii_of_nat 10] then false else
  match parse_reference path with
  | None => false
  | Some parsed =>
    if negb (String.eqb (ref_Scheme parsed) "") || negb (String.eqb (ref_Host parsed) "") || negb (String.prefix "/" (ref_Path parsed))
    then false else negb (String.prefix "//" path)
  end.
Definition redirect (path : string) : Web unit :=
  if negb (validRedirectPath path) then Middlewares.internal_error else Redirect path StatusFound.
Definition withPrincipal (next : handler) (r : Request) (principal : Principal) : Web unit :=
  next (with_Principal (Some principal) r).

Definition RequireAuth : Middleware := λ next r,
  let! principal := call (authenticate r) in
  match principal with
  | Err e => if errors_Is e ErrUnauthenticated then http_Error "authentication required" StatusUnauthorized
             else Middlewares.internal_error
  | Ok principal => withPrincipal next r principal
  end.
Definition RequireAnonymous (redirectPath : string) : Middleware := λ next r,
  let! principal := call (authenticate r) in
  match principal with
  | Err e => if errors_Is e ErrUnauthenticated then next r else Middlewares.internal_error
  | Ok _ => redirect redirectPath
  end.
Definition RequireAuthenticated (redirectPath : string) : Middleware := λ next r,
  let! principal := call (authenticate r) in
  match principal with
  | Err e => if errors_Is e ErrUnauthenticated then redirect redirectPath else Middlewares.internal_error
  | Ok principal => withPrincipal next r principal
  end.
Definition RequireAdmin (redirectPath : string) : Middleware := λ next r,
  let! principal := call (authenticate r) in
  match principal with
  | Err e => if errors_Is e ErrUnauthenticated then redirect redirectPath else Middlewares.internal_error
  | Ok principal => if negb (principal_IsAdmin principal) then http_Error "access denied" StatusForbidden
                    else withPrincipal next r principal
  end.
End guards.
End WebSession.

(** ** Facts *)
Section facts.
Import WebSession.
Context `{Crypto}.

Lemma preserves_Lookup R `{!PreOrder R} id : preserves (on_db R) (Lookup id).
Proof. unfold Lookup, SessionRepository.FindSession. preserves_tac. Qed.
Lemma preserves_FindUserByID R `{!PreOrder R} id : preserves (on_db R) (FindUserByID id).
Proof. unfold FindUserByID, find. preserves_tac. Qed.
#[local] Hint Resolve preserves_Lookup preserves_FindUserByID : go_preserves.
Lemma preserves_Authenticate R `{!PreOrder R} cookie r : preserves (on_db R) (Authenticate cookie r).
Proof. unfold Authenticate. preserves_tac; auto with go_preserves. Qed.

Lemma later_Lookup id : preserves later (Lookup id).
Proof. unfold Lookup, SessionRepository.FindSession. preserves_tac. Qed.

(** Whom the cookie stands for: the account of its live session. *)
Lemma Authenticate_ok cookie r w w' p :
  Authenticate cookie r w = (w', Ok p) →
  ∃ id session user, Read cookie r = Some id ∧ sessions (db w) !! sessionDigest id = Some session ∧
    session_RevokedAt session = None ∧ Unix (clock w) < session_ExpiresAt session ∧
    users (db w) !! session_UserID session = Some user ∧ user_ID user = session_UserID session ∧
    principal_ID p = FormatInt (user_ID user) ∧ principal_IsAdmin p = user_IsAdmin user ∧ db w' = db w.
Proof.
  unfold Authenticate. intros Ha. destruct (Read cookie r) as [id|] eqn:Er; [|done].
  apply bind_ok in Ha as (w1 & [x|] & Hl & Ha); [|done]. apply attempt_ok in Hl.
  pose proof (later_Lookup id w) as Hlate. rewrite Hl in Hlate. unfold later in Hlate. simpl in Hlate. apply Lookup_ok in Hl as (row & Hrow & _ & Hu & Hn & Hx & Ht & Hd).
  apply bind_ok in Ha as (w2 & [user|] & Hf & Ha); [|done]. apply attempt_ok, FindUserByID_ok in Hf as (Hd2 & Huser & _).
  inv_ok. bool_props. exists id, row, user. rewrite Hd in *. split_and!; try done; try congruence.
  unfold Unix, second in *. pose proof (Z.div_le_mono (clock w) (clock w1) 1000000000). lia.
Qed.

(** Fresh identifiers are hexadecimal, so a cookie can carry them. *)
Lemma all_chars_impl (P Q : ascii → bool) s : (∀ c, P c = true → Q c = true) → all_chars P s = true → all_chars Q s = true.
Proof. intros HPQ. induction s as [|c s IH]; [done|]. simpl. rewrite !andb_true_iff. intros [? ?]. auto. Qed.
Lemma hex_digit_sendable c : is_hex_digit c = true → session_value_byte c = true ∧ cookie_value_byte c = true.
Proof. by destruct c as [[] [] [] [] [] [] [] []]; vm_compute. Qed.
Lemma create_hex s userID sid idToken w w' x :
  Sessions.create s userID sid idToken w = (w', Ok x) → all_chars is_hex_digit (session_ID x) = true.
Proof.
  unfold Sessions.create, newSessionID. intros Hc. apply bind_ok in Hc as (w1 & ? & _ & Hc). apply bind_ok in Hc as (w2 & id & Hid & Hc).
  apply bind_ok in Hid as (? & bytes & _ & Hid). inv_ok. pose proof (hex_encode_decodes bytes) as Hh. unfold hex_decodes in Hh.
  by apply andb_true_iff in Hh as [_ Hh].
Qed.
Lemma created_sendable s userID sid idToken w w' x :
  Sessions.create s userID sid idToken w = (w', Ok x) →
  validSessionCookieValue (session_ID x) = true ∧ all_chars cookie_value_byte (session_ID x) = true.
Proof.
  intros Hc. pose proof (create_hex _ _ _ _ _ _ _ Hc) as Hh. apply create_ok in Hc as (_ & _ & _ & Hl & Htrim & _).
  unfold validSessionCookieValue, len. rewrite Hl. split.
  - rewrite (all_chars_impl _ _ _ (λ c Hd, proj1 (hex_digit_sendable c Hd)) Hh). destruct (session_ID x); done.
  - exact (all_chars_impl _ _ _ (λ c Hd, proj2 (hex_digit_sendable c Hd)) Hh).
Qed.
Lemma NewSessionCookie_ok config c :
  NewSessionCookie config = Ok c → second ≤ sc_lifetime c ∧ is_token (sc_name c) = true ∧ sc_path c = or_default (config_Path config) "/" ∧
    sc_secure c = config_Secure config ∧ validSameSite (sc_sameSite c) = true.
Proof.
  unfold NewSessionCookie. destruct (_ || _) eqn:E; [done|]. intros [= <-]. simpl. rewrite !orb_false_iff, !negb_false_iff in E.
  destruct E as [[[Hl Hn] Hp] Hs]. apply Z.ltb_ge in Hl. unfold validCookieName, cookie_Valid in Hn. rewrite !andb_true_iff in Hn. simpl in Hn. tauto.
Qed.

(** The cookie of a new session reaches the browser and comes back: [Set]
    always succeeds, the cookie is hidden from scripts, lives as long as a
    session, is marked secure as configured and never sent without a SameSite
    rule; and every request that returns it is read as that session. *)
Theorem session_cookie_round_trip config c sessions userID sid idToken w w' x now s :
  NewSessionCookie config = Ok c → config_Path config = "" → 0 ≤ now →
  Sessions.create sessions userID sid idToken w = (w', Ok x) →
  ∃ cookie resp, Set_ c (session_ID x) now s = ((s.1, resp), Ok true) ∧ resp_Cookies resp = resp_Cookies s.2 ++ [cookie] ∧
    cookie_Name cookie = sc_name c ∧ cookie_Value cookie = session_ID x ∧ cookie_HttpOnly cookie = true ∧ cookie_Secure cookie = config_Secure config ∧
    validSameSite (cookie_SameSite cookie) = true ∧ 0 < cookie_MaxAge cookie ∧
    cookie_Expires cookie = Some (now + sc_lifetime c) ∧
    ∀ r, Cookie_ r (sc_name c) = Some (cookie_Value cookie) → Read c r = Some (session_ID x).
Proof.
  intros Hc Hpath Hnow Hx. apply NewSessionCookie_ok in Hc as (Hl & Hn & Hp & Hsec & Hss). apply created_sendable in Hx as [Hv Hb].
  rewrite Hpath in Hp. unfold Set_. rewrite Hv. cbn [negb].
  assert (cookie_Valid (session_cookie c (session_ID x) (now + sc_lifetime c)) = true) as ->.
  { unfold cookie_Valid. simpl. rewrite Hn, Hb, Hp. simpl. unfold second in *. destruct (year_1601 <=? now + sc_lifetime c) eqn:E; [done|].
    apply Z.leb_gt in E. unfold year_1601, second in E. lia. }
  eexists _, _. split; [reflexivity|]. simpl. split_and!; try done.
  - unfold second in *. apply (Z.lt_le_trans _ (Z.quot 1000000000 1000000000)); [done|]. apply Z.quot_le_mono; unfold second in *; lia.
  - intros r Hr. simpl in Hr. unfold Read. by rewrite Hr, Hv.
Qed.
End facts.
