(* ===== verification/WebPage.v ===== *)
(** * Pages: internal/adapter/http/page.go and the helpers its handlers share

    The data of a page, translation, rendering of full pages, fragments and
    localized state pages, the language of a request.  The HTML templates are a
    parameter: the bytes a template gives for a page, or nothing when it is not
    embedded or fails. *)
From S2P Require Export WebSession Catalog GroupStore.
Import Settings Locale Negotiate.

(** [r <| proj := v |>]: the record with one field replaced. *)
Class Eta (R : Type) := eta : R → R.
Definition update {R T : Type} (F : (R → T) → R → R) (v : T) (r : R) : R := F (λ _, v) r.
Arguments update : simpl never.
Notation "r <| proj := v |>" :=
  (ltac:(let R := type of r in
         let inst := constr:(_ : Eta R) in
         let f := eval hnf in inst in
         let t := eval pattern proj in f in
         match t with ?F _ => exact (update F v r) end))
  (at level 1, left associativity, only parsing) : go_scope.

Record NavigationItem := mkNavigationItem { nav_Label : string; nav_URL : string }.
Record AccountMenu := mkAccountMenu {
  menu_Label : string; menu_SettingsURL : string; menu_SignOutURL : string; menu_Theme : string;
  menu_ThemeURL : string; menu_IsAdmin : bool; menu_AdminURL : string }.
Record Alert := mkAlert { alert_Level : string; alert_Message : string }.
Record OAuthProviderView := mkProviderView { provider_Name : string; provider_Label : string; provider_URL : string }.
Record FieldError := mkFieldError { error_Field : string; error_Message : string }.
Record FormData := mkForm { form_Submitted : bool; form_Values : gmap string string; form_Errors : list FieldError }.
Record LanguageOption := mkLanguageOption {
  option_Code : string; option_Label : string; option_URL : string; option_Current : bool }.
Record IdentityView := mkIdentityView {
  identity_view_ID : Z; identity_view_Provider : string; identity_view_ProviderLabel : string; identity_view_Label : string;
  identity_view_Removable : bool; identity_view_RemoveURL : string }.
Record SettingsView := mkSettingsView {
  set_SSOManaged : bool; set_AccountURL : string; set_Email : string; set_Username : string; set_DisplayName : string;
  set_HasPassword : bool; set_Locale : string; set_Theme : string; set_Languages : list LanguageOption;
  set_Identities : list IdentityView; set_Providers : list OAuthProviderView; set_FormActionBase : string;
  set_ProfileAction : string; set_PasswordAction : string; set_LocaleAction : string; set_IdentityAction : string;
  set_LinkAction : string; set_ThemeURL : string; set_UnlinkLabel : string; set_LinkLabel : string }.
Record GroupSummaryView := mkSummaryView {
  summary_view_Group : Group; summary_view_MemberCount : Z; summary_view_RoleLabel : string }.
Record GroupsView := mkGroupsView {
  groups_ListURL : string; groups_CreateURL : string; groups_JoinURL : string; groups_Creating : bool;
  groups_Summaries : list GroupSummaryView; groups_CreateLabel : string; groups_JoinLabel : string; groups_MineLabel : string }.
Record GroupMemberView := mkMemberView {
  member_view_UserID : Z; member_view_Role : string; member_view_Version : Z; member_view_Label : string;
  member_view_IsAdmin : bool; member_view_IsSelf : bool; member_view_RoleAction : string; member_view_RoleLabel : string;
  member_view_PromoteURL : string; member_view_RemoveURL : string }.
Record GroupDetailView := mkDetailView {
  detail_view_GroupID : Z; detail_view_Name : string; detail_view_Version : Z; detail_view_MemberCount : Z;
  detail_view_IsAdmin : bool; detail_view_IsMember : bool; detail_view_InviteCode : string; detail_view_ListURL : string;
  detail_view_RenameURL : string; detail_view_InviteURL : string; detail_view_LeaveURL : string;
  detail_view_MembersURL : string; detail_view_Members : list GroupMemberView }.

(** Administrator views. *)
Record AdminSectionView := mkAdminSectionView { section_ID : string; section_Label : string; section_URL : string; section_Current : bool }.
Record AdminUserRowView := mkAdminUserRowView { row_ID : Z; row_Label : string; row_Email : string; row_IsAdmin : bool; row_IsGuest : bool;
  row_Confirmed : bool; row_CreatedAt : string; row_DetailURL : string; row_EditURL : string }.
Record AdminAccountFormView := mkAdminAccountFormView { aform_Heading : string; aform_ActionURL : string; aform_CancelURL : string;
  aform_Email : string; aform_IsAdmin : bool; aform_Version : Z; aform_SubmitLabel : string; aform_DeleteURL : string; aform_IsSelf : bool
  }.
Record AdminListView := mkAdminListView { lview_BaseURL : string; lview_SearchURL : string; lview_SearchValue : string; lview_AdminFilter :
  string; lview_GuestFilter : string; lview_ConfirmedFilter : string; lview_Sort : string; lview_Direction : string; lview_Page : Z;
  lview_Size : Z; lview_Total : Z; lview_Pages : Z; lview_HasPrevious : bool; lview_HasNext : bool; lview_PreviousURL : string;
  lview_NextURL : string; lview_Rows : list AdminUserRowView; lview_SortURLs : gmap string string; lview_FilterURLs : gmap string string;
  lview_Mode : string; lview_CreateURL : string; lview_CreateLabel : string; lview_Form : option AdminAccountFormView }.
Record AdminSessionView := mkAdminSessionView { sessview_CreatedAt : string; sessview_ExpiresAt : string }.
Record AdminLoginAttemptView := mkAdminLoginAttemptView { attview_CreatedAt : string; attview_Outcome : string; attview_OutcomeLabel :
  string; attview_Origin : string }.
Record AdminLockoutOriginView := mkAdminLockoutOriginView { originview_Key : string; originview_Count : Z; originview_Limit : Z;
  originview_Retry : string }.
Record AdminLockoutView := mkAdminLockoutView { lockview_Locked : bool; lockview_IdentifierKey : string; lockview_IdentifierCount : Z;
  lockview_IdentifierLimit : Z; lockview_IdentifierRetry : string; lockview_Origins : list AdminLockoutOriginView; lockview_ClearURL :
  string }.
Record AdminDetailView := mkAdminDetailView { dview_UserID : Z; dview_Label : string; dview_Email : string; dview_Username : string;
  dview_DisplayName : string; dview_IsAdmin : bool; dview_IsGuest : bool; dview_Confirmed : bool; dview_ConfirmationLinkActive : bool;
  dview_ConfirmationLinkExpiry : string; dview_ConfirmURL : string; dview_SendConfirmationURL : string; dview_Locale : string; dview_Theme :
  string; dview_CreatedAt : string; dview_Version : Z; dview_EditURL : string; dview_ListURL : string; dview_SessionsRevokeURL : string;
  dview_SessionCount : Z; dview_Sessions : list AdminSessionView; dview_LoginAttempts : list AdminLoginAttemptView; dview_Identities : list
  IdentityView; dview_Lockout : option AdminLockoutView }.
Record AdminAuditEntryView := mkAdminAuditEntryView { entry_Time : string; entry_Actor : string; entry_Action : string; entry_Target :
  string; entry_Detail : string; entry_Origin : string }.
Record AdminAuditView := mkAdminAuditView { auview_BaseURL : string; auview_ActionFilter : string; auview_ActorFilter : string;
  auview_TargetFilter : string; auview_Page : Z; auview_Size : Z; auview_Total : Z; auview_Pages : Z; auview_HasPrevious : bool;
  auview_HasNext : bool; auview_PreviousURL : string; auview_NextURL : string; auview_Entries : list AdminAuditEntryView }.
Record AdminMaintenanceJobView := mkAdminMaintenanceJobView { jobview_Job : string; jobview_Label : string; jobview_Runs : Z;
  jobview_Failures : Z; jobview_LastRun : string; jobview_LastDuration : string; jobview_LastDeleted : Z; jobview_LastError : string;
  jobview_Failed : bool }.
Record AdminSystemConfigView := mkAdminSystemConfigView { cfgview_Environment : string; cfgview_PublicAddress : string; cfgview_PublicURL :
  string; cfgview_EmailConfirmationRequired : bool; cfgview_SecureSessionCookies : bool; cfgview_Providers : string; cfgview_MailConfigured
  : bool; cfgview_MailRelay : string; cfgview_SessionLifetime : string; cfgview_GuestRetention : string; cfgview_LoginAttemptRetention :
  string; cfgview_UsageRetention : string; cfgview_MaintenanceInterval : string; cfgview_AuthRateLimit : string; cfgview_TrustedProxy :
  string; cfgview_AuthMode : string; cfgview_SSOIssuer : string; cfgview_HydraAdmin : string }.
Record AdminSystemRuntimeView := mkAdminSystemRuntimeView { rtview_Version : string; rtview_StartedAt : string; rtview_Uptime : string;
  rtview_GoVersion : string; rtview_Platform : string; rtview_CPUs : Z; rtview_GOMAXPROCS : Z; rtview_Goroutines : Z; rtview_HeapAlloc :
  string; rtview_SysMemory : string; rtview_GC : Z }.
Record AdminMigrationView := mkAdminMigrationView { migview_Rank : Z; migview_Version : Z; migview_Description : string; migview_Installed :
  bool; migview_InstalledAt : string }.
Record AdminDatastoreCountsView := mkAdminDatastoreCountsView { cview_TotalAccounts : Z; cview_GuestAccounts : Z;
  cview_AdministratorAccounts : Z; cview_UnconfirmedAccounts : Z; cview_AccountsWithoutPassword : Z; cview_ActiveSessions : Z;
  cview_ExpiredSessions : Z; cview_ExpiredEmailTokens : Z; cview_ExpiredPasswordResetTokens : Z; cview_ExpiredOAuthStates : Z;
  cview_RecentFailedSignIns : Z; cview_CurrentLockouts : Z }.
Record AdminSystemView := mkAdminSystemView { sysview_RunURL : string; sysview_Jobs : list AdminMaintenanceJobView; sysview_RunConfirm :
  string; sysview_Configuration : option AdminSystemConfigView; sysview_Runtime : option AdminSystemRuntimeView; sysview_Migrations : list
  AdminMigrationView; sysview_Counts : option AdminDatastoreCountsView }.
Record AdminRateLimitBucketView := mkAdminRateLimitBucketView { lbucket_KeyHint : string; lbucket_Count : Z; lbucket_Limit : Z;
  lbucket_Retry : string }.
Record AdminRateLimitActionView := mkAdminRateLimitActionView { laction_Action : string; laction_Limit : Z; laction_Window : string;
  laction_Buckets : Z; laction_Locked : Z; laction_ClearURL : string; laction_Entries : list AdminRateLimitBucketView }.
Record AdminRateLimitView := mkAdminRateLimitView { limits_ClearURL : string; limits_ClearAllURL : string; limits_ClearConfirm : string;
  limits_Actions : list AdminRateLimitActionView }.
Record AdminUsageWindowView := mkAdminUsageWindowView { window_Key : string; window_Label : string; window_URL : string; window_Current :
  bool }.
Record AdminUsageRouteView := mkAdminUsageRouteView { uroute_Route : string; uroute_Requests : Z }.
Record AdminUsageQueueView := mkAdminUsageQueueView { uqueue_Capacity : Z; uqueue_Pending : Z; uqueue_Recorded : Z; uqueue_Failed : Z;
  uqueue_Dropped : Z }.
Record AdminUsageView := mkAdminUsageView { uview_BaseURL : string; uview_WindowKey : string; uview_Ascending : bool; uview_Windows : list
  AdminUsageWindowView; uview_MostURL : string; uview_LeastURL : string; uview_Routes : list AdminUsageRouteView; uview_Queue :
  AdminUsageQueueView }.
Record AdminSuspiciousAccountView := mkAdminSuspiciousAccountView { saccount_UserID : Z; saccount_DetailURL : string; saccount_Requests : Z;
  saccount_DistinctOrigins : Z; saccount_ActionFlag : bool; saccount_OriginFlag : bool }.
Record AdminSuspiciousView := mkAdminSuspiciousView { sview_BaseURL : string; sview_WindowKey : string; sview_Windows : list
  AdminUsageWindowView; sview_ActionThreshold : Z; sview_OriginThreshold : Z; sview_Accounts : list AdminSuspiciousAccountView }.
Record AdminView := mkAdminView { admin_view_IsAdmin : bool; admin_view_Page : string; admin_view_Sections : list AdminSectionView;
  admin_view_List : option AdminListView; admin_view_Detail : option AdminDetailView; admin_view_Audit : option AdminAuditView;
  admin_view_System : option AdminSystemView; admin_view_Limits : option AdminRateLimitView; admin_view_Usage : option AdminUsageView;
  admin_view_Suspicious : option AdminSuspiciousView }.

Record PageData := mkPage {
  page_Language : string; page_Title : string; page_Heading : string; page_Kind : string; page_Message : string; page_Description : string;
  page_SSOClientName : string; page_CSRFToken : string; page_Form : FormData; page_FormAction : string; page_FormMethod : string;
  page_SubmitLabel : string; page_Template : string; page_FragmentTemplate : string; page_Navigation : list NavigationItem;
  page_Languages : option (list LanguageOption); page_Account : option AccountMenu; page_SignInURL : string; page_SignUpURL : string;
  page_SSOSignInURL : string; page_OAuthProviders : list OAuthProviderView; page_GuestBanner : bool; page_GuestOwned : bool;
  page_GuestTransferCode : string; page_Labels : gmap string string; page_Alerts : list Alert; page_Settings : option SettingsView;
  page_Groups : option GroupsView; page_Group : option GroupDetailView;
  page_Admin : option AdminView }.
#[export] Instance PageData_eta : Eta PageData := λ p, mkPage (page_Language p) (page_Title p) (page_Heading p) (page_Kind p) (page_Message p)
  (page_Description p) (page_SSOClientName p) (page_CSRFToken p) (page_Form p) (page_FormAction p) (page_FormMethod p) (page_SubmitLabel p) (page_Template p)
  (page_FragmentTemplate p) (page_Navigation p) (page_Languages p) (page_Account p) (page_SignInURL p) (page_SignUpURL p) (page_SSOSignInURL p)
  (page_OAuthProviders p) (page_GuestBanner p) (page_GuestOwned p) (page_GuestTransferCode p) (page_Labels p) (page_Alerts p) (page_Settings p) (page_Groups p) (page_Group p) (page_Admin p).
Definition FormData_zero : FormData := mkForm false ∅ [].
(** [PageData{}]. *)
Definition zero_page : PageData := mkPage "" "" "" "" "" "" "" "" FormData_zero "" "" "" "" "" [] None None "" "" "" [] false
  false "" ∅ [] None None None None.

(** [html/template] over the embedded templates. *)
Class Templates := { ExecuteTemplate : string → PageData → option string }.

Inductive PageState := PageStateNotFound | PageStateAccessDenied | PageStateValidation | PageStateConflict | PageStateSessionExpired.
Record pageStateMessageIDs := mkStateMessages { state_title : string; state_heading : string; state_message : string }.

(** [IsHTMX]: [strings.EqualFold] with a word whose letters fold only in ASCII. *)
Definition lower_ascii (c : ascii) : ascii := if in_range 65 90 (byte_of c) then char_of (byte_of c + 32) else c.
Fixpoint map_string (f : ascii → ascii) (s : string) : string :=
  match s with EmptyString => "" | String c s => String (f c) (map_string f s) end.
Definition IsHTMX (r : Request) : bool :=
  String.eqb (map_string lower_ascii (TrimSpace (Header_Get r "Hx-Request"))) "true".
Definition formFailureStatus (r : Request) (status : Z) : Z := if IsHTMX r then StatusUnprocessableEntity else status.

Definition csrfToken (r : Request) : string := match ctx_CSRF r with Some token => token | None => "" end.
Definition requestOrigin (r : Request) : string :=
  let origin := match Middlewares.ClientIPFromContext r with Some ip => ip | None => ClientIP.PeerIP (req_RemoteAddr r) end in
  if String.eqb origin "" then "unknown" else origin.

(** The first given name that is not blank. *)
Fixpoint first_visible (names : list (option string)) (fallback : string) : string :=
  match names with
  | [] => fallback
  | Some name :: names => if String.eqb (TrimSpace name) "" then first_visible names fallback else name
  | None :: names => first_visible names fallback
  end.
Definition accountLabel (user : User) : string :=
  first_visible [user_DisplayName user; user_Username user] (match user_Email user with Some email => email | None => "Account" end).

Definition languageLabel (code : string) : string :=
  if String.eqb code Hungarian then "Magyar" else if String.eqb code English then "English" else code.
Definition languageOptions (current : string) : list LanguageOption :=
  (λ code, mkLanguageOption code (languageLabel code) "" (String.eqb code current)) <$> Codes.

Definition requestLanguage (r : Request) : option string := fst <$> ParsePath (req_Path r).
Definition localeCookieName : string := "goweb_locale".

Definition stateStatus (state : PageState) : Z :=
  match state with
  | PageStateNotFound => StatusNotFound
  | PageStateAccessDenied => StatusForbidden
  | PageStateConflict => StatusConflict
  | PageStateSessionExpired => StatusUnauthorized
  | PageStateValidation => StatusUnprocessableEntity
  end.
Definition pageStateMessages (state : PageState) : pageStateMessageIDs :=
  match state with
  | PageStateNotFound => mkStateMessages "errors.not_found.title" "errors.not_found.heading" "errors.not_found.message"
  | PageStateAccessDenied => mkStateMessages "errors.access_denied.title" "errors.access_denied.heading" "errors.access_denied.message"
  | PageStateValidation => mkStateMessages "errors.validation.title" "errors.validation.heading" "errors.validation.message"
  | PageStateConflict => mkStateMessages "errors.conflict.title" "errors.conflict.heading" "errors.conflict.message"
  | PageStateSessionExpired => mkStateMessages "errors.session_expired.title" "errors.session_expired.heading" "errors.session_expired.message"
  end.

(** [http.Error(writer, http.StatusText(status), status)]. *)
Definition renderError (status : Z) : Web unit := http_Error (StatusText status) status.
Definition method_not_allowed (allow : string) : Web unit :=
  set_header "Allow" allow ;;; WriteHeader StatusMethodNotAllowed.

Section pages.
Context `{Unicode, FloatParser, ReferenceParser, Templates} (catalogs : Catalog.Catalogs).

Definition Translate (language id : string) : outcome string := Catalog.Translate catalogs language id ∅.
(** [translate], [t], [settingsTranslate]: a missing message shows its identifier. *)
Definition translate (language id : string) : string :=
  match Translate language id with Ok value => value | Err _ => id end.
(** [mustLocalePath], [path], [localizedPath]. *)
Definition mustLocalePath (language route : string) : string :=
  match Path language route with Ok path => path | Err _ => "" end.

Definition resolveRequestLanguage (r : Request) (accountLanguage : string) : string :=
  let browserLanguage := match Cookie_ r localeCookieName with Some value => value | None => "" end in
  let urlLanguage := match requestLanguage r with Some language => language | None => "" end in
  fst (Resolve (mkPreferences urlLanguage accountLanguage browserLanguage (Header_Get r "Accept-Language"))).
Definition recoveryLanguage (r : Request) : string :=
  match requestLanguage r with Some language => language | None => resolveRequestLanguage r "" end.

Definition navigation_item (language : string) (def : string * string) : option NavigationItem :=
  match Translate language def.1 with
  | Ok label => Some (mkNavigationItem label (mustLocalePath language def.2))
  | Err _ => None
  end.
Definition primaryNavigation (language : string) (authenticated : bool) : list NavigationItem :=
  omap (navigation_item language)
    ([("nav.home", "/"); ("nav.about", "/about")] ++ if authenticated then [("groups.nav", "/groups")] else []).
Definition navbarLanguageOptions (current : string) (r : Request) : list LanguageOption :=
  let route := match ParsePath (req_Path r) with Some (_, route) => route | None => "/" end in
  omap (λ code, match Path code route with
                | Ok path => Some (mkLanguageOption code (languageLabel code) path (String.eqb code current))
                | Err _ => None
                end) Codes.
Definition settingsAccountMenu (language : string) (user : User) : AccountMenu :=
  mkAccountMenu (accountLabel user) (mustLocalePath language "/account/settings") (mustLocalePath language "/sign-out")
    (user_Theme user) (mustLocalePath language "/account/theme") (user_IsAdmin user) (mustLocalePath language "/admin").
Definition oauthProviderLabel (name : string) : string :=
  if String.eqb (ToLower (TrimSpace name)) "google" then "Google" else name.
Definition form_labels : list (string * string) :=
   [("email", "form.email"); ("username", "form.username"); ("optional", "form.optional");
    ("identifier", "form.identifier"); ("password", "form.password"); ("new_password", "form.new_password");
    ("email_help", "form.email_help"); ("back_sign_in", "form.back_sign_in");
    ("external_providers", "form.external_providers"); ("or", "form.or"); ("transfer_code", "form.transfer_code");
    ("save", "form.save"); ("request_transfer", "form.request_transfer"); ("redeem", "form.redeem");
    ("upgrade", "form.upgrade"); ("sign_in", "form.sign_in"); ("create_account", "form.create_account");
    ("already_account", "form.already_account"); ("need_account", "form.need_account");
    ("continue", "form.continue"); ("sso_signing_in_to", "auth.sso.signing_in_to");
    ("display_name", "form.display_name"); ("current_password", "form.current_password");
    ("settings_profile", "settings.profile.heading"); ("settings_profile_help", "settings.profile.help");
    ("settings_username_help", "settings.profile.username_help");
    ("settings_label_help", "settings.profile.label_help"); ("settings_password", "settings.password.heading");
    ("settings_password_change_help", "settings.password.change_help");
    ("settings_password_set_help", "settings.password.set_help");
    ("settings_password_submit", "settings.password.submit");
    ("settings_preferences", "settings.preferences.heading"); ("settings_language", "settings.preferences.language");
    ("settings_theme", "settings.preferences.theme"); ("settings_theme_toggle", "settings.preferences.theme_toggle");
    ("settings_identities", "settings.identities.heading"); ("settings_identities_help", "settings.identities.help");
    ("settings_identities_empty", "settings.identities.empty");
    ("settings_identities_add", "settings.identities.add");
    ("settings_identity_provider", "settings.identities.provider");
    ("settings_identity_account", "settings.identities.account"); ("settings_sso_heading", "settings.sso.heading");
    ("settings_sso_help", "settings.sso.help"); ("settings_sso_manage", "settings.sso.manage");
    ("guest_upgrade_sso_help", "guest.upgrade.sso_help"); ("guest_upgrade_sso_submit", "guest.upgrade.sso_submit");
    ("groups_title", "groups.title"); ("groups_heading", "groups.heading"); ("groups_sections", "groups.sections");
    ("groups_nav", "groups.nav"); ("groups_mine", "groups.mine"); ("groups_join", "groups.join");
    ("groups_create", "groups.create"); ("groups_name", "groups.name"); ("groups_members", "groups.members");
    ("groups_role", "groups.role"); ("groups_view", "groups.view"); ("groups_empty", "groups.empty");
    ("groups_back", "groups.back"); ("groups_role_admin", "groups.role.admin");
    ("groups_role_member", "groups.role.member"); ("groups_rename", "groups.rename");
    ("groups_invite", "groups.invite"); ("groups_invite_code", "groups.invite.code");
    ("groups_rotate", "groups.invite.rotate"); ("groups_leave", "groups.leave");
    ("groups_leave_confirm", "groups.leave.confirm"); ("groups_roster", "groups.roster");
    ("groups_member", "groups.roster.member"); ("groups_you", "groups.roster.you");
    ("groups_remove", "groups.roster.remove"); ("groups_remove_confirm", "groups.roster.remove_confirm");
    ("groups_promote", "groups.roster.promote"); ("groups_demote", "groups.roster.demote")].
Definition formLabels (language : string) : gmap string string := translate language <$> (list_to_map form_labels : gmap string string).

(** [renderStatus], [RenderRequestStatus]: false when an error is returned. *)
Definition renderStatus (name : string) (page : PageData) (status : Z) : Web bool :=
  match ExecuteTemplate name page with
  | None => ret false
  | Some output =>
    set_header "Content-Type" "text/html; charset=utf-8" ;;; WriteHeader status ;;; Write output ;;; ret true
  end.
Definition RenderRequestStatus (r : Request) (page : PageData) (status : Z) : Web bool :=
  if String.eqb (page_Language page) "" || String.eqb (page_Title page) "" || String.eqb (page_Heading page) "" then ret false else
  let page := match page_Languages page with
              | None => page <| page_Languages := Some (navbarLanguageOptions (page_Language page) r) |>
              | Some _ => page
              end in
  let name := if IsHTMX r then page_FragmentTemplate page else page_Template page in
  if String.eqb name "" then ret false else
  add_header "Vary" "HX-Request" ;;; renderStatus name page status.
(** [renderPageWithStatus] and the like: an error of the renderer answers 500. *)
Definition renderPage (r : Request) (page : PageData) (status : Z) : Web unit :=
  let! rendered := RenderRequestStatus r page status in
  if rendered : bool then ret tt else renderError StatusInternalServerError.

Definition RenderState (r : Request) (language : string) (state : PageState) : Web bool :=
  if negb (Supported language) then ret false else
  let ids := pageStateMessages state in
  match Translate language (state_title ids), Translate language (state_heading ids), Translate language (state_message ids) with
  | Ok title, Ok heading, Ok message =>
    RenderRequestStatus r (zero_page <| page_Language := language |> <| page_Title := title |> <| page_Heading := heading |>
      <| page_Kind := "state" |> <| page_Message := message |> <| page_Template := "state" |>
      <| page_FragmentTemplate := "state-fragment" |>) (stateStatus state)
  | _, _, _ => ret false
  end.
Definition renderNotFound (r : Request) : Web unit :=
  match ParsePath (req_Path r) with
  | None => http_Error "404 page not found" StatusNotFound
  | Some (language, _) =>
    let! rendered := RenderState r language PageStateNotFound in
    if rendered : bool then ret tt else Middlewares.internal_error
  end.

Definition redirectLocalized (language route : string) : Web unit :=
  match Path language route with
  | Err _ => renderError StatusInternalServerError
  | Ok path => Redirect path StatusSeeOther
  end.
(** The full navigation an HTMX request is told to make. *)
Definition hx_redirect (target : string) : Web unit := set_header "Hx-Redirect" target ;;; WriteHeader StatusOK.
Definition redirectWithStatus (r : Request) (destination : string) (status : Z) : Web unit :=
  if IsHTMX r then hx_redirect destination else Redirect destination status.
End pages.
