(* ===== verification/Steps.v ===== *)
(** * What reaches the database

    [db_step] has one constructor per write the repositories issue, with the
    checks their transactions make on the rows they read.  Every repository
    method, and so every use case built from them, moves the database along
    [steps]; facts about all of them are proved by cases on the step.  The
    parameter [del] tells whether accounts may be deleted on request. *)
From S2P Require Export UserStore TokenStore GroupStore GuestStore OAuthStore SSOStore RateLimitDB.

(** Some other account administers the site, or [id] does not. *)
Definition admin_guard (id : Z) (d : DB) : Prop :=
  ∀ u, users d !! id = Some u → UserRepository.is_administrator u = true →
  UserRepository.count_other_admins id d ≠ 0.

(** Some other member administers the group, or [userID] does not. *)
Definition member_guard (groupID userID : Z) (d : DB) : Prop :=
  ∀ m, group_members d !! (groupID, userID) = Some m → member_Role m = GroupRoleAdmin →
  GroupRepository.count_other_admins groupID userID d ≠ 0.

(** The account keeps a password or another identity. *)
Definition method_guard (userID : Z) (d : DB) : Prop :=
  ∀ u, users d !! userID = Some u → user_PasswordHash u ≠ None ∨
       1 < OAuthIdentityRepository.count_identities userID d.

Section steps.
Context `{Unicode, Postgres, Crypto}.
Import UserRepository SessionRepository TokenRepository GroupRepository
  GuestClaimCodeRepository OAuthStateRepository OAuthIdentityRepository LoginAttemptRepository
  AuditLogRepository SSOLoginSessionRepository SSOGuestUpgradeRepository UsageEventRepository.

Inductive db_step (del : bool) : relation DB :=
(* users.go *)
| step_insert_user u d d' row : insert_user u d = Ok (d', row) → db_step del d d'
| step_update_user u v d d' row :
    update_user u v d = Ok (d', row) →
    (is_administrator u = false → admin_guard (user_ID u) d) → db_step del d d'
| step_delete_user id v d d' :
    del = true → delete_user id v d = Ok (d', 1) → admin_guard id d → db_step del d d'
(* guest.go *)
| step_sweep_guest id u cutoff d :
    users d !! id = Some u → abandoned cutoff u = true → has_membership id d = false →
    db_step del d (cascade_user id d)
| step_insert_claim c d d' r : insert_claim c d = Ok (d', r) → db_step del d d'
| step_update_used code t d d' n : update_used code t d = Ok (d', n) → db_step del d d'
| step_revoke_active id t d d' u : revoke_active id t d = Ok (d', u) → db_step del d d'
(* sessions.go *)
| step_insert_session row d d' u : insert_session row d = Ok (d', u) → db_step del d d'
| step_revoke_session digest t d d' n : revoke_session digest t d = Ok (d', n) → db_step del d d'
| step_revoke_user_sessions id t d d' u : revoke_user_sessions id t d = Ok (d', u) → db_step del d d'
| step_revoke_sso_sessions sid t d d' n : revoke_sso_sessions sid t d = Ok (d', n) → db_step del d d'
(* tokens.go *)
| step_insert_email_token row t seq d :
    insert_token row (email_tokens d) (tokens_seq d) d = Ok (t, seq) →
    db_step del d (set_email_tokens t seq d)
| step_insert_reset_token row t seq d :
    insert_token row (reset_tokens d) (tokens_seq d) d = Ok (t, seq) →
    db_step del d (set_reset_tokens t seq d)
| step_consume_email digest t d d' row : consume_email digest t d = Ok (d', row) → db_step del d d'
| step_consume_reset digest t d d' row : consume_reset digest t d = Ok (d', row) → db_step del d d'
(* groups.go *)
| step_create_group g userID d d1 d' row m :
    insert_group g d = Ok (d1, row) →
    insert_member (group_ID row) userID GroupRoleAdmin (group_CreatedAt row) 0 d1 = Ok (d', m) →
    db_step del d d'
| step_update_group g v d d' row : update_group g v d = Ok (d', row) → db_step del d d'
| step_insert_member gid uid role t v d d' m : insert_member gid uid role t v d = Ok (d', m) → db_step del d d'
| step_update_role role gid uid v d d' m :
    update_role role gid uid v d = Ok (d', m) →
    (role ≠ GroupRoleAdmin → member_guard gid uid d) → db_step del d d'
| step_delete_member gid uid v d d' :
    delete_member gid uid v d = Ok (d', 1) → member_guard gid uid d → db_step del d d'
(* oauth.go *)
| step_insert_state row d d' u : insert_state row d = Ok (d', u) → db_step del d d'
| step_consume_state digest t d d' row : consume_state digest t d = Ok (d', row) → db_step del d d'
| step_insert_identity i d d' u : insert_identity i d = Ok (d', u) → db_step del d d'
| step_delete_identity i uid d d' :
    delete_identity i uid d = Ok (d', 1) → method_guard uid d → db_step del d d'
(* rate_limit.go, login_attempts.go, audit.go *)
| step_upsert_bucket scope action hash hint now window d d' r :
    RateLimitBuckets.upsert_bucket scope action hash hint now window d = Ok (d', r) → db_step del d d'
| step_clear_bucket key d : db_step del d (set_rate_buckets (delete key (rate_buckets d)) d)
| step_delete_buckets P d d' n : RateLimitBuckets.delete_buckets P d = Ok (d', n) → db_step del d d'
| step_insert_attempt a d d' u : insert_attempt a d = Ok (d', u) → db_step del d d'
| step_insert_audit a d d' u : insert_audit a d = Ok (d', u) → db_step del d d'
(* sso.go, usage.go *)
| step_record_login s d d' u : upsert_login_session s d = Ok (d', u) → db_step del d d'
| step_delete_login sid d d' u : delete_login_session sid d = Ok (d', u) → db_step del d d'
| step_insert_usage e d d' u : insert_usage e d = Ok (d', u) → db_step del d d'.

Context (del : bool).
Definition steps : relation DB := rtc (db_step del).
#[export] Instance steps_preorder : PreOrder steps.
Proof. unfold steps. apply _. Qed.

Lemma steps_once d d' : db_step del d d' → steps d d'.
Proof. apply rtc_once. Qed.

(** ** Transactions that read before they write *)

(** A transaction whose successful body is related to its start. *)
Lemma preserves_tx {A} (R : relation DB) `{!PreOrder R} f (body : M A) :
  (∀ w w' a, body w = (w', Ok a) → R (db w) (db w')) → preserves (on_db R) (transaction f body).
Proof.
  intros Hb w. unfold on_db.
  destruct (transaction_effect f body w) as [->|(w1 & w2 & a & <- & Hr & ->)]; [reflexivity|].
  by eapply Hb.
Qed.

Lemma keepAnotherAdministrator_ok id w w' :
  keepAnotherAdministrator id w = (w', Ok tt) → db w' = db w ∧ admin_guard id (db w).
Proof.
  intros Hk. split.
  { pose proof (keepAnotherAdministrator_db id w) as Hd. by rewrite Hk in Hd. }
  unfold keepAnotherAdministrator in Hk. apply bind_ok in Hk as (w1 & r & Ha & Hk).
  assert (Hdb : db w1 = db w).
  { pose proof (query_db (select_is_admin id) w) as Hq. apply attempt_ok in Ha. by rewrite Ha in Hq. }
  intros u Hu Hadm. apply attempt_ok in Ha.
  assert (Hs : select_is_admin id (db w) = Ok true) by (unfold select_is_admin; by rewrite Hu, Hadm).
  destruct r as [b|e].
  - apply query_ok in Ha as [Ha _]. rewrite Hs in Ha. simplify_eq.
    apply bind_ok in Hk as (w2 & [] & Hl & Hk). apply map_err_ok, query_ok in Hl as [_ Hl].
    apply bind_ok in Hk as (w3 & n & Hc & Hk). apply map_err_ok, query_ok in Hc as [Hc Hc'].
    injection Hc as <-. apply bind_ok in Hk as (w4 & r & Ha2 & Hk). apply attempt_ok in Ha2.
    rewrite Hl, Hdb in Hk. intros Hz. rewrite Hz in Hk. simpl in Hk.
    destruct r as [b|e].
    + apply query_ok in Ha2 as [Ha2 _]. rewrite Hc', Hl, Hdb, Hs in Ha2. by simplify_eq.
    + case_match; discriminate.
  - case_match eqn:E; [|discriminate]. apply query_NoRows in Ha; [|done]. congruence.
Qed.

Lemma ensureAnotherAdmin_ok gid uid w w' :
  ensureAnotherAdmin gid uid w = (w', Ok tt) →
  db w' = db w ∧ GroupRepository.count_other_admins gid uid (db w) ≠ 0.
Proof. unfold ensureAnotherAdmin. intros Hk. inv_db. by bool_props. Qed.

Lemma UpdateUser_steps u v : preserves (on_db steps) (UpdateUser u v).
Proof.
  unfold UpdateUser, UserRepository.classifyMissingWrite, update_user_tx. preserves_tac.
  apply preserves_tx; [apply _|]. intros w w' row Hr. inv_db.
  match goal with H : (if ?b then _ else _) ?w = (?w1, Ok ?x) |- _ => destruct x;
    assert (Hg : db w1 = db w ∧ (b = true → admin_guard (user_ID u) (db w)))
    by (destruct b; [apply keepAnotherAdministrator_ok in H as [? ?]; by split | by inv_ok]) end.
  destruct Hg as [Hd Hg]. unfold lift in *. simplify_eq. rewrite Hd in *.
  match goal with H : scanUser _ = Ok _ |- _ => apply scanUser_ok in H as [-> _] end.
  eapply steps_once, step_update_user; [done|]. intros Hn. apply Hg.
  unfold is_administrator in Hn. by destruct (user_IsAdmin u), (user_IsGuest u).
Qed.

Lemma DeleteUser_steps id v : del = true → preserves (on_db steps) (DeleteUser id v).
Proof.
  intros Hdel.
  unfold DeleteUser, UserRepository.classifyMissingWrite, delete_user_tx. preserves_tac.
  apply preserves_tx; [apply _|]. intros w w' [] Hr. inv_db. bool_props. subst.
  match goal with H : keepAnotherAdministrator _ _ = (_, Ok ?x) |- _ => destruct x;
    apply keepAnotherAdministrator_ok in H as [Hd Hg] end.
  rewrite Hd in *. by eapply steps_once, step_delete_user.
Qed.

Lemma CreateUser_steps u : preserves (on_db steps) (CreateUser u).
Proof.
  unfold CreateUser. preserves_tac. apply preserves_statement; [apply _|].
  intros. by eapply steps_once, step_insert_user.
Qed.

Lemma CreateGroupWithAdmin_steps g uid : preserves (on_db steps) (CreateGroupWithAdmin g uid GroupRoleAdmin).
Proof.
  unfold CreateGroupWithAdmin, createGroup, findGroup. apply preserves_tx; [apply _|].
  intros w w' [] Hr. inv_db. unfold lift in *. simplify_eq.
  match goal with H : scanGroup _ = Ok _ |- _ => unfold scanGroup in H; case_match; simplify_eq end.
  by eapply steps_once, step_create_group.
Qed.

Lemma UpdateMembershipRole_steps m v : preserves (on_db steps) (UpdateMembershipRole m v).
Proof.
  unfold UpdateMembershipRole, lockGroupMembers. apply preserves_tx; [apply _|].
  intros w w' row Hr. inv_db. unfold lift in *. simplify_eq.
  match goal with H : (if ?b then _ else _) ?w = (?w1, Ok ?x) |- _ => destruct x;
    assert (Hg : db w1 = db w ∧ (b = true → GroupRepository.count_other_admins (member_GroupID m) (member_UserID m) (db w) ≠ 0))
    by (destruct b; [apply ensureAnotherAdmin_ok in H as [? ?]; by split | by inv_ok]) end.
  destruct Hg as [Hd Hg].
  match goal with H : select_member _ _ _ = Ok ?c |- _ => rename H into Hsel; rename c into cur end.
  db_eqs. eapply steps_once, step_update_role; [done|]. intros Hn m' Hm' Hadm. apply Hg.
  unfold select_member in Hsel. rewrite Hm' in Hsel. simplify_eq.
  rewrite Hadm, String.eqb_refl. simpl. by apply negb_true_iff, String.eqb_neq.
Qed.

Lemma DeleteMembership_steps gid uid v : preserves (on_db steps) (DeleteMembership gid uid v).
Proof.
  unfold DeleteMembership, lockGroupMembers. apply preserves_tx; [apply _|].
  intros w w' [] Hr. inv_db.
  match goal with H : (if ?b then _ else _) ?w = (?w1, Ok ?x) |- _ => destruct x;
    assert (Hg : db w1 = db w ∧ (b = true → GroupRepository.count_other_admins gid uid (db w) ≠ 0))
    by (destruct b; [apply ensureAnotherAdmin_ok in H as [? ?]; by split | by inv_ok]) end.
  destruct Hg as [Hd Hg].
  match goal with H : select_member _ _ _ = Ok ?c |- _ => rename H into Hsel; rename c into cur end.
  bool_props. db_eqs.
  match goal with H : delete_member _ _ _ _ = Ok (_, ?n) |- _ => assert (n = 1) as -> by
    (unfold delete_member in H; repeat case_match; by simplify_eq) end.
  eapply steps_once, step_delete_member; [done|]. intros m' Hm' Hadm. apply Hg.
  unfold select_member in Hsel. rewrite Hm' in Hsel. simplify_eq. by rewrite Hadm.
Qed.

Lemma delete_candidates_steps cutoff ids : ∀ n w w' r,
  delete_candidates ids n w = (w', Ok r) →
  (∀ id u, id ∈ ids → users (db w) !! id = Some u → abandoned cutoff u = true) →
  steps (db w) (db w').
Proof.
  induction ids as [|id ids IH]; simpl; intros n w w' r Hr Hab; [inv_ok; reflexivity|].
  inv_db. case_match; inv_db.
  - match goal with H : db ?x = db w, H2 : delete_candidates _ _ ?x = _ |- _ => rewrite <- H; eapply IH; [exact H2|]; rewrite H end.
    intros ? ? ?. apply Hab. by right.
  - match goal with H : db ?x = db w, H1 : delete_by_id _ (db ?x) = Ok (_, _) |- _ => rewrite H in H1; rename H1 into Hdel end.
    unfold delete_by_id in Hdel. destruct (users (db w) !! id) as [u|] eqn:Hu; simplify_eq.
    + etransitivity; [eapply steps_once, (step_sweep_guest del id u cutoff); [done| |done]|].
      { eapply Hab; [left|done]. }
      match goal with H : cascade_user _ _ = db ?x, H2 : delete_candidates _ _ ?x = _ |- _ => rewrite H; eapply IH; [exact H2|]; rewrite <- H end.
      simpl. intros id' u' Hin [_ Hu']%lookup_delete_Some. eapply Hab; [by right|done].
    + match goal with H : db w = db ?x, H2 : delete_candidates _ _ ?x = _ |- _ => rewrite H; eapply IH; [exact H2|]; rewrite <- H end.
      intros ? ? ?. apply Hab. by right.
Qed.

Lemma DeleteEmptyAbandonedGuests_steps cutoff : preserves (on_db steps) (DeleteEmptyAbandonedGuests cutoff).
Proof.
  unfold DeleteEmptyAbandonedGuests. apply preserves_tx; [apply _|]. intros w w' n Hr. inv_db.
  match goal with H : db ?x = db w, H2 : delete_candidates _ _ ?x = _ |- _ =>
    rewrite <- H; eapply delete_candidates_steps; [exact H2|]; rewrite H end.
  intros id u Hin Hu. unfold candidates in Hin.
  apply list_elem_of_fmap in Hin as ([id' u'] & -> & Hin).
  apply list_elem_of_filter in Hin as [Hab Hin]. apply elem_of_map_to_list in Hin. simpl in *. simplify_eq. exact Hab.
Qed.

Lemma DeleteOAuthIdentity_steps uid i : preserves (on_db steps) (DeleteOAuthIdentity uid i).
Proof.
  unfold DeleteOAuthIdentity. case_match; [preserves_tac|]. apply preserves_tx; [apply _|].
  intros w w' [] Hr. inv_db. bool_props.
  repeat match goal with H : negb _ && _ = false |- _ => apply andb_false_iff in H end.
  match goal with H : match users ?d !! uid with _ => _ end = Ok ?b |- _ =>
    destruct (users d !! uid) as [u|] eqn:Hu; [|done]; injection H as <- end.
  db_eqs.
  match goal with H : delete_identity _ _ _ = Ok (_, ?n) |- _ => assert (n = 1) as -> by
    (unfold delete_identity in H; repeat case_match; by simplify_eq) end.
  eapply steps_once, step_delete_identity; [done|]. intros u' Hu'. simplify_eq.
  match goal with H : _ ∨ _ |- _ => destruct H; bool_props end.
  - left. intros Hn. by rewrite Hn in *.
  - right. lia.
Qed.

(** ** Methods of one write *)

Lemma steps_statement {A} (sql : DB → outcome (DB * A)) :
  (∀ d d' a, sql d = Ok (d', a) → db_step del d d') → preserves (on_db steps) (statement sql).
Proof. intros Hs. apply preserves_statement; [apply _|]. intros. eapply steps_once, Hs. done. Qed.

Ltac one_write ctor := preserves_tac; apply steps_statement; intros; by eapply ctor.

Lemma CreateSession_steps s : preserves (on_db steps) (CreateSession s).
Proof.
  unfold CreateSession, lockUserSessions. case_match; [preserves_tac|].
  apply preserves_transaction; [apply _|]. one_write step_insert_session.
Qed.
Lemma FindSession_steps id : preserves (on_db steps) (FindSession id).
Proof. unfold FindSession. preserves_tac. Qed.
Lemma RevokeSession_steps id t : preserves (on_db steps) (RevokeSession id t).
Proof. unfold RevokeSession. one_write step_revoke_session. Qed.
Lemma RevokeUserSessions_steps id : preserves (on_db steps) (RevokeUserSessions id).
Proof.
  unfold RevokeUserSessions, lockUserSessions. case_match; [preserves_tac|].
  apply preserves_transaction; [apply _|]. one_write step_revoke_user_sessions.
Qed.
Lemma CountActiveSessions_steps id : preserves (on_db steps) (CountActiveSessions id).
Proof. unfold CountActiveSessions. preserves_tac. Qed.
Lemma RevokeSSOSessions_steps sid t : preserves (on_db steps) (RevokeSSOSessions sid t).
Proof. unfold RevokeSSOSessions. one_write step_revoke_sso_sessions. Qed.
Lemma FindSSOIDToken_steps id : preserves (on_db steps) (FindSSOIDToken id).
Proof. unfold FindSSOIDToken. preserves_tac. Qed.

Lemma CreateEmailConfirmationToken_steps tk : preserves (on_db steps) (CreateEmailConfirmationToken tk).
Proof.
  unfold CreateEmailConfirmationToken. preserves_tac. apply steps_statement. intros d d' a Hi.
  destruct (insert_token _ _ _ _) as [[]|] eqn:E; simplify_eq. by eapply step_insert_email_token.
Qed.
Lemma CreatePasswordResetToken_steps tk : preserves (on_db steps) (CreatePasswordResetToken tk).
Proof.
  unfold CreatePasswordResetToken. preserves_tac. apply steps_statement. intros d d' a Hi.
  destruct (insert_token _ _ _ _) as [[]|] eqn:E; simplify_eq. by eapply step_insert_reset_token.
Qed.
Lemma ConsumeEmailConfirmationToken_steps tk t : preserves (on_db steps) (ConsumeEmailConfirmationToken tk t).
Proof. unfold ConsumeEmailConfirmationToken. one_write step_consume_email. Qed.
Lemma ConsumePasswordResetToken_steps tk t : preserves (on_db steps) (ConsumePasswordResetToken tk t).
Proof. unfold ConsumePasswordResetToken. one_write step_consume_reset. Qed.
Lemma FindActiveEmailConfirmationToken_steps id t : preserves (on_db steps) (FindActiveEmailConfirmationToken id t).
Proof. unfold FindActiveEmailConfirmationToken. preserves_tac. Qed.

Lemma FindUserByID_steps id : preserves (on_db steps) (FindUserByID id).
Proof. unfold FindUserByID, UserRepository.find. preserves_tac. Qed.

Lemma CreateGuestClaimCode_steps c : preserves (on_db steps) (CreateGuestClaimCode c).
Proof. unfold CreateGuestClaimCode. one_write step_insert_claim. Qed.
Lemma FindActiveGuestClaimCode_steps id : preserves (on_db steps) (FindActiveGuestClaimCode id).
Proof. unfold FindActiveGuestClaimCode. preserves_tac. Qed.
Lemma FindGuestClaimCodeByCode_steps c : preserves (on_db steps) (FindGuestClaimCodeByCode c).
Proof. unfold FindGuestClaimCodeByCode. preserves_tac. Qed.
Lemma MarkGuestClaimCodeUsed_steps c t : preserves (on_db steps) (MarkGuestClaimCodeUsed c t).
Proof. unfold MarkGuestClaimCodeUsed. one_write step_update_used. Qed.
Lemma RevokeGuestClaimCode_steps id t : preserves (on_db steps) (RevokeGuestClaimCode id t).
Proof. unfold RevokeGuestClaimCode. one_write step_revoke_active. Qed.

Lemma findGroup_steps m : preserves (on_db steps) m → preserves (on_db steps) (findGroup m).
Proof. intros. unfold findGroup. preserves_tac. Qed.
Lemma FindGroupByID_steps id : preserves (on_db steps) (FindGroupByID id).
Proof. unfold FindGroupByID. case_match; [preserves_tac|]. apply findGroup_steps. preserves_tac. Qed.
Lemma FindGroupByInviteCode_steps c : preserves (on_db steps) (FindGroupByInviteCode c).
Proof. unfold FindGroupByInviteCode. case_match; [preserves_tac|]. apply findGroup_steps. preserves_tac. Qed.
Lemma ListGroupsForUser_steps id : preserves (on_db steps) (ListGroupsForUser id).
Proof. unfold ListGroupsForUser. preserves_tac. Qed.
Lemma ListAllGroupsForUser_steps id : preserves (on_db steps) (ListAllGroupsForUser id).
Proof. unfold ListAllGroupsForUser. preserves_tac. Qed.
Lemma UpdateGroup_steps g v : preserves (on_db steps) (UpdateGroup g v).
Proof.
  assert (Hf : preserves (on_db steps) (findGroup (statement (update_group g v)))).
  { apply findGroup_steps, steps_statement. intros. by eapply step_update_group. }
  unfold UpdateGroup, GroupRepository.classifyMissingWrite. preserves_tac.
Qed.
Lemma CreateMembership_steps m : preserves (on_db steps) (CreateMembership m).
Proof. unfold CreateMembership. one_write step_insert_member. Qed.
Lemma FindMembership_steps g u : preserves (on_db steps) (FindMembership g u).
Proof. unfold FindMembership. preserves_tac. Qed.
Lemma ListMembers_steps g : preserves (on_db steps) (ListMembers g).
Proof. unfold ListMembers. preserves_tac. Qed.
Lemma CountMembers_steps g : preserves (on_db steps) (CountMembers g).
Proof. unfold CountMembers. preserves_tac. Qed.

Lemma CreateOAuthState_steps s : preserves (on_db steps) (CreateOAuthState s).
Proof. unfold CreateOAuthState. one_write step_insert_state. Qed.
Lemma ConsumeOAuthState_steps s t : preserves (on_db steps) (ConsumeOAuthState s t).
Proof. unfold ConsumeOAuthState. one_write step_consume_state. Qed.
Lemma FindOAuthIdentity_steps p s : preserves (on_db steps) (FindOAuthIdentity p s).
Proof. unfold FindOAuthIdentity. preserves_tac. Qed.
Lemma CreateOAuthIdentity_steps i : preserves (on_db steps) (CreateOAuthIdentity i).
Proof. unfold CreateOAuthIdentity. one_write step_insert_identity. Qed.
Lemma ListOAuthIdentities_steps id : preserves (on_db steps) (ListOAuthIdentities id).
Proof. unfold ListOAuthIdentities. preserves_tac. Qed.

Lemma RecordLoginAttempt_steps a : preserves (on_db steps) (RecordLoginAttempt a).
Proof. unfold RecordLoginAttempt. one_write step_insert_attempt. Qed.
Lemma CreateAuditEntry_steps a : preserves (on_db steps) (CreateAuditEntry a).
Proof. unfold CreateAuditEntry. one_write step_insert_audit. Qed.

Lemma Hit_steps scope a k h wn n : preserves (on_db steps) (RateLimitBuckets.Hit scope a k h wn n).
Proof.
  unfold RateLimitBuckets.Hit. one_write step_upsert_bucket.
Qed.
Lemma Get_steps scope a k n : preserves (on_db steps) (RateLimitBuckets.Get scope a k n).
Proof. unfold RateLimitBuckets.Get. preserves_tac. Qed.
Lemma BucketClear_steps scope a k : preserves (on_db steps) (RateLimitBuckets.Clear scope a k).
Proof.
  unfold RateLimitBuckets.Clear. preserves_tac. apply steps_statement. intros. simplify_eq. apply step_clear_bucket.
Qed.
Lemma BucketList_steps scope n : preserves (on_db steps) (RateLimitBuckets.List scope n).
Proof. unfold RateLimitBuckets.List. preserves_tac. Qed.
Lemma delete_where_steps o P : preserves (on_db steps) (RateLimitBuckets.delete_where o P).
Proof.
  unfold RateLimitBuckets.delete_where. one_write step_delete_buckets.
Qed.
End steps.

Section lookups.
Context `{Unicode, MailParser, Postgres, Crypto} (del : bool).

Lemma FindUserByEmail_steps e : preserves (on_db (steps del)) (UserRepository.FindUserByEmail e).
Proof. unfold UserRepository.FindUserByEmail, UserRepository.find. preserves_tac. Qed.
Lemma FindUserByUsername_steps n : preserves (on_db (steps del)) (UserRepository.FindUserByUsername n).
Proof. unfold UserRepository.FindUserByUsername, UserRepository.find. preserves_tac. Qed.
End lookups.

#[export] Hint Resolve UpdateUser_steps DeleteUser_steps CreateUser_steps CreateGroupWithAdmin_steps UpdateMembershipRole_steps DeleteMembership_steps DeleteEmptyAbandonedGuests_steps DeleteOAuthIdentity_steps CreateSession_steps FindSession_steps RevokeSession_steps RevokeUserSessions_steps CountActiveSessions_steps RevokeSSOSessions_steps FindSSOIDToken_steps CreateEmailConfirmationToken_steps CreatePasswordResetToken_steps ConsumeEmailConfirmationToken_steps ConsumePasswordResetToken_steps FindActiveEmailConfirmationToken_steps FindUserByID_steps CreateGuestClaimCode_steps FindActiveGuestClaimCode_steps FindGuestClaimCodeByCode_steps MarkGuestClaimCodeUsed_steps RevokeGuestClaimCode_steps FindGroupByID_steps FindGroupByInviteCode_steps ListGroupsForUser_steps ListAllGroupsForUser_steps UpdateGroup_steps CreateMembership_steps FindMembership_steps ListMembers_steps CountMembers_steps CreateOAuthState_steps ConsumeOAuthState_steps FindOAuthIdentity_steps CreateOAuthIdentity_steps ListOAuthIdentities_steps RecordLoginAttempt_steps CreateAuditEntry_steps Hit_steps Get_steps BucketClear_steps BucketList_steps delete_where_steps FindUserByEmail_steps FindUserByUsername_steps : go_preserves.
