(* ===== verification/Changes.v ===== *)
(** * What one write changes

    [change] restates each [db_step] as the new value of one table, with what
    the constraints let through; [step_change] derives it.  Facts about
    all writes are proved by cases on it. *)
From S2P Require Export Steps.

Section shapes.
Context `{Unicode, Postgres}.

(** Rows of [sessions] only ever gain a revocation time. *)
Definition revoked_in (t t' : gmap string Session) : Prop :=
  ∀ k, t' !! k = t !! k ∨
    ∃ s now, t !! k = Some s ∧ session_RevokedAt s = None ∧ t' !! k = Some (with_RevokedAt (Some now) s).

(** Rows of a token table only ever gain a consumption time. *)
Definition consumed_in (t t' : gmap string (Z * Token)) : Prop :=
  ∃ k i s now, t !! k = Some (i, s) ∧ token_ConsumedAt s = None ∧ now < token_ExpiresAt s ∧
    t' = <[k := (i, with_ConsumedAt (Some now) s)]> t.

(** Transfer codes keep their account and, once revoked, stay revoked. *)
Definition claims_in (t t' : gmap string (Z * GuestClaimCode)) : Prop :=
  ∀ k, t' !! k = t !! k ∨
    ∃ i c c', t !! k = Some (i, c) ∧ t' !! k = Some (i, c') ∧ claim_UserID c' = claim_UserID c ∧
      claim_Code c' = claim_Code c ∧ claim_CreatedAt c' = claim_CreatedAt c ∧
      claim_RevokedAt c = None.

Inductive change (del : bool) (d : DB) : DB → Prop :=
| chg_insert_user row :
    user_ID row = users_seq d + 1 → users_constraints row = Ok tt → users_unique row (users d) = Ok tt →
    change del d (set_users (<[users_seq d + 1 := row]> (users d)) (users_seq d + 1) d)
| chg_update_user k old row :
    users d !! k = Some old → user_ID row = user_ID old → user_CreatedAt row = user_CreatedAt old →
    user_Version row = user_Version old + 1 →
    users_constraints row = Ok tt → users_unique row (users d) = Ok tt →
    (UserRepository.is_administrator row = false → admin_guard k d) →
    change del d (set_users (<[k := row]> (users d)) (users_seq d) d)
| chg_delete_user id u :
    del = true → users d !! id = Some u → admin_guard id d →
    change del d (UserRepository.cascade_user id d)
| chg_sweep_guest id u :
    users d !! id = Some u → user_IsGuest u = true → GuestClaimCodeRepository.has_membership id d = false →
    change del d (UserRepository.cascade_user id d)
| chg_insert_session row :
    sessions d !! session_ID row = None → user_exists d (session_UserID row) = true →
    sessions_constraints row = Ok tt →
    change del d (set_sessions (<[session_ID row := row]> (sessions d)) d)
| chg_revoke_sessions t : revoked_in (sessions d) t → change del d (set_sessions t d)
| chg_insert_email row :
    email_tokens d !! token_Token row = None → user_exists d (token_UserID row) = true →
    tokens_constraints row = Ok tt →
    change del d (set_email_tokens (<[token_Token row := (tokens_seq d + 1, row)]> (email_tokens d)) (tokens_seq d + 1) d)
| chg_consume_email t : consumed_in (email_tokens d) t → change del d (set_email_tokens t (tokens_seq d) d)
| chg_insert_reset row :
    reset_tokens d !! token_Token row = None → user_exists d (token_UserID row) = true →
    tokens_constraints row = Ok tt →
    change del d (set_reset_tokens (<[token_Token row := (tokens_seq d + 1, row)]> (reset_tokens d)) (tokens_seq d + 1) d)
| chg_consume_reset t : consumed_in (reset_tokens d) t → change del d (set_reset_tokens t (tokens_seq d) d)
| chg_insert_claim c :
    claim_codes d !! claim_Code c = None → user_exists d (claim_UserID c) = true →
    claims_constraints c = Ok tt →
    (claim_RevokedAt c = None →
     find_row (GuestClaimCodeRepository.active_for (claim_UserID c)) (claim_codes d) = None) →
    change del d (set_claim_codes (<[claim_Code c := (claims_seq d + 1, c)]> (claim_codes d)) (claims_seq d + 1) d)
| chg_claims t : claims_in (claim_codes d) t → change del d (set_claim_codes t (claims_seq d) d)
| chg_create_group g m :
    group_ID g = groups_seq d + 1 → groups_constraints g = Ok tt →
    GroupRepository.groups_unique g (groups d) = Ok tt →
    (∀ u, group_CreatedBy g = Some u → user_exists d u = true) →
    member_GroupID m = groups_seq d + 1 → member_Role m = GroupRoleAdmin →
    group_members d !! (groups_seq d + 1, member_UserID m) = None →
    user_exists d (member_UserID m) = true →
    members_constraints m = Ok tt → member_ID m = members_seq d + 1 →
    change del d
      (set_group_members (<[(groups_seq d + 1, member_UserID m) := m]> (group_members d)) (members_seq d + 1)
         (set_groups (<[groups_seq d + 1 := g]> (groups d)) (groups_seq d + 1) d))
| chg_update_group k old g :
    groups d !! k = Some old → group_ID g = group_ID old → group_CreatedBy g = group_CreatedBy old →
    group_Version g = group_Version old + 1 → groups_constraints g = Ok tt →
    GroupRepository.groups_unique g (groups d) = Ok tt →
    change del d (set_groups (<[k := g]> (groups d)) (groups_seq d) d)
| chg_insert_member m :
    members_constraints m = Ok tt → group_members d !! (member_GroupID m, member_UserID m) = None →
    group_exists d (member_GroupID m) = true → user_exists d (member_UserID m) = true →
    member_ID m = members_seq d + 1 →
    change del d (set_group_members (<[(member_GroupID m, member_UserID m) := m]> (group_members d))
                    (members_seq d + 1) d)
| chg_member_role gid uid old m :
    group_members d !! (gid, uid) = Some old → members_constraints m = Ok tt →
    member_GroupID m = member_GroupID old → member_UserID m = member_UserID old →
    (member_Role m ≠ GroupRoleAdmin → member_guard gid uid d) → member_ID m = member_ID old →
    change del d (set_group_members (<[(gid, uid) := m]> (group_members d)) (members_seq d) d)
| chg_delete_member gid uid m :
    group_members d !! (gid, uid) = Some m → member_guard gid uid d →
    change del d (set_group_members (delete (gid, uid) (group_members d)) (members_seq d) d)
| chg_insert_state row :
    oauth_states d !! state_State row = None → (0 < state_UserID row → user_exists d (state_UserID row) = true) →
    oauth_states_constraints row = Ok tt →
    change del d (set_oauth_states (<[state_State row := (row, None)]> (oauth_states d)) d)
| chg_consume_state k row now :
    oauth_states d !! k = Some (row, None) → now < state_ExpiresAt row →
    change del d (set_oauth_states (<[k := (row, Some now)]> (oauth_states d)) d)
| chg_insert_identity i :
    identity_ID i = identities_seq d + 1 →
    find_row (OAuthIdentityRepository.is_subject (identity_Provider i) (identity_Subject i)) (oauth_identities d) = None →
    user_exists d (identity_UserID i) = true → identities_constraints i = Ok tt →
    change del d (set_oauth_identities (<[identities_seq d + 1 := i]> (oauth_identities d)) (identities_seq d + 1) d)
| chg_delete_identity k i :
    oauth_identities d !! k = Some i → method_guard (identity_UserID i) d →
    change del d (set_oauth_identities (delete k (oauth_identities d)) (identities_seq d) d)
| chg_put_bucket scope action hash row :
    RateLimitBuckets.bucket_constraints scope action row = Ok tt →
    change del d (set_rate_buckets (<[(scope, action, hash) := row]> (rate_buckets d)) d)
| chg_drop_buckets t : t ⊆ rate_buckets d → change del d (set_rate_buckets t d)
| chg_attempt a :
    attempts_constraints a = Ok tt → (∀ u, attempt_UserID a = Some u → user_exists d u = true) →
    change del d (set_login_attempts (a :: login_attempts d) d)
| chg_audit a :
    audit_constraints a = Ok tt → (∀ u, audit_ActorUserID a = Some u → user_exists d u = true) →
    change del d (set_audit_log (a :: audit_log d) d)
| chg_record_login k row :
    (sso_login_sessions d !! k = None ∧ login_SessionID row = k ∧ user_exists d (login_UserID row) = true ∧
     login_sessions_constraints row = Ok tt) ∨
    (∃ old, sso_login_sessions d !! k = Some old ∧ login_SessionID row = login_SessionID old ∧
       login_UserID row = login_UserID old ∧ login_CreatedAt row = login_CreatedAt old ∧
       login_ExpiresAt old ≤ login_ExpiresAt row) →
    change del d (set_sso_login_sessions (<[k := row]> (sso_login_sessions d)) d)
| chg_delete_login sid : change del d (set_sso_login_sessions (delete sid (sso_login_sessions d)) d)
| chg_usage e :
    usage_constraints e = Ok tt → (∀ u, usage_UserID e = Some u → user_exists d u = true) →
    change del d (set_usage_events (e :: usage_events d) d)
| chg_none : change del d d.
End shapes.

Section step_change.
Context `{Unicode, Postgres, Crypto}.
Import UserRepository SessionRepository TokenRepository GroupRepository
  GuestClaimCodeRepository OAuthStateRepository OAuthIdentityRepository
  SSOLoginSessionRepository UsageEventRepository.

Lemma admit_user_ok row d : admit_user row d = Ok tt → users_constraints row = Ok tt ∧ users_unique row (users d) = Ok tt.
Proof. unfold admit_user. by destruct (users_constraints row) as [[]|]. Qed.

Lemma coalesce_in (t : gmap string Session) (P : Session → bool) now :
  revoked_in t ((λ s, if P s then coalesce_revoked now s else s) <$> t).
Proof.
  intros k. rewrite lookup_fmap. destruct (t !! k) as [s|] eqn:E; [|by left]. simpl.
  destruct (P s); [|by left]. unfold coalesce_revoked. destruct (session_RevokedAt s) eqn:Er.
  - left. f_equal. destruct s. simpl in *. by subst.
  - right. by exists s, now.
Qed.

Lemma insert_token_ok row t seq d t' seq' :
  insert_token row t seq d = Ok (t', seq') →
  t !! token_Token row = None ∧ user_exists d (token_UserID row) = true ∧
  tokens_constraints row = Ok tt ∧ seq' = seq + 1 ∧ t' = <[token_Token row := (seq + 1, row)]> t.
Proof.
  unfold insert_token, foreign_key. intros Hi.
  destruct (tokens_constraints row) as [[]|] eqn:Ec; [|done].
  destruct (t !! token_Token row); [done|]. destruct (user_exists _ _) eqn:Eu; simplify_eq.
  split_and!; done.
Qed.

Lemma consume_token_in digest now t t' row : consume_token digest now t = Ok (t', row) → consumed_in t t'.
Proof.
  intros (i & old & Hl & Hu & -> & ->)%consume_token_ok. unfold usable in Hu. bool_props.
  exists digest, i, old, now. split_and!; try done. by destruct (token_ConsumedAt old).
Qed.

(** The conditions a successful statement passed, one by one. *)
Ltac passed H :=
  let E := fresh "E" in
  match type of H with
  | context [first_violation ?l] => destruct (first_violation l) as [[]|] eqn:E; [|discriminate H];
    apply first_violation_ok in E; rewrite !Forall_cons in E; destruct_and! E
  end.

Lemma foreign_key_ok b c : foreign_key b c = Ok tt → b = true.
Proof. unfold foreign_key. by destruct b. Qed.
(** A nullable reference. *)
Lemma foreign_key_opt d o c :
  foreign_key (match o with Some u => user_exists d u | None => true end) c = Ok tt →
  ∀ u, o = Some u → user_exists d u = true.
Proof. intros Hk%foreign_key_ok u ->. exact Hk. Qed.

Lemma insert_group_ok g d d' row :
  insert_group g d = Ok (d', row) →
  d' = set_groups (<[groups_seq d + 1 := row]> (groups d)) (groups_seq d + 1) d ∧
  group_ID row = groups_seq d + 1 ∧ groups_constraints row = Ok tt ∧ groups_unique row (groups d) = Ok tt ∧
  ∀ u, group_CreatedBy row = Some u → user_exists d u = true.
Proof.
  unfold insert_group. intros Hi. passed Hi. simplify_eq. split_and!; try done.
  intros u Hu. simpl in Hu. rewrite Hu in *. by eapply foreign_key_ok.
Qed.

Lemma insert_member_ok gid uid role t v d d' m :
  insert_member gid uid role t v d = Ok (d', m) →
  d' = set_group_members (<[(gid, uid) := m]> (group_members d)) (members_seq d + 1) d ∧
  member_GroupID m = gid ∧ member_UserID m = uid ∧ member_Role m = role ∧ members_constraints m = Ok tt ∧
  group_members d !! (gid, uid) = None ∧ group_exists d gid = true ∧ user_exists d uid = true ∧
  member_ID m = members_seq d + 1.
Proof.
  unfold insert_member. intros Hi. passed Hi. simplify_eq.
  split_and!; try done; try by eapply foreign_key_ok. by destruct (group_members d !! _).
Qed.

Lemma update_group_ok g v d d' row :
  update_group g v d = Ok (d', row) →
  ∃ old, groups d !! group_ID g = Some old ∧ group_Version old = v ∧
    d' = set_groups (<[group_ID g := row]> (groups d)) (groups_seq d) d ∧
    groups_constraints row = Ok tt ∧ groups_unique row (groups d) = Ok tt ∧
    row = mkGroup (group_ID old) (group_Name g) (group_NameNorm g) (group_InviteCode g)
        (group_CreatedBy old) (group_CreatedAt old) (v + 1).
Proof.
  unfold update_group. intros Hu. destruct (groups d !! group_ID g) as [old|] eqn:E; [|done].
  destruct (group_Version old =? v) eqn:Ev; [|done]. destruct (max_int64 <? _); [done|].
  passed Hu. bool_props. subst. simplify_eq. eauto 10.
Qed.

Lemma update_role_ok role gid uid v d d' m :
  update_role role gid uid v d = Ok (d', m) →
  ∃ old, group_members d !! (gid, uid) = Some old ∧ member_Version old = v ∧ members_constraints m = Ok tt ∧
    m = mkMembership (member_ID old) (member_GroupID old) (member_UserID old) role (member_CreatedAt old) (v + 1) ∧
    d' = set_group_members (<[(gid, uid) := m]> (group_members d)) (members_seq d) d.
Proof.
  unfold update_role. intros Hu. destruct (group_members d !! _) as [old|] eqn:E; [|done].
  destruct (member_Version old =? v) eqn:Ev; [|done]. destruct (max_int64 <? _); [done|].
  destruct (members_constraints _) as [[]|] eqn:Ec; [|done]. bool_props. subst. simplify_eq. eauto 10.
Qed.

Lemma claims_in_used code t d d' n : update_used code t d = Ok (d', n) →
  ∃ t', claims_in (claim_codes d) t' ∧ (d' = d ∨ d' = set_claim_codes t' (claims_seq d) d).
Proof.
  unfold update_used. intros Hu. destruct (claim_codes d !! code) as [[i c]|] eqn:E; simpl in *.
  - destruct (is_nil (claim_RevokedAt c)) eqn:En; injection Hu as <- <-; [|exists (claim_codes d); split; [by left|by left]].
    eexists. split; [|by right]. intros k. destruct (decide (k = code)) as [->|]; [|left; by rewrite lookup_insert_ne].
    right. rewrite lookup_insert_eq. exists i, c. eexists. split_and!; try done.
    by destruct (claim_RevokedAt c).
  - injection Hu as <- <-. exists (claim_codes d). split; [by left|by left].
Qed.

Lemma claims_in_revoke id t d d' u : revoke_active id t d = Ok (d', u) →
  ∃ t', claims_in (claim_codes d) t' ∧ d' = set_claim_codes t' (claims_seq d) d.
Proof.
  unfold revoke_active. intros. simplify_eq. eexists. split; [|done]. intros k. rewrite lookup_fmap.
  destruct (claim_codes d !! k) as [[i c]|]; [|by left]. simpl. destruct (active_for id (i, c)) eqn:Ea; [|by left].
  right. exists i, c. eexists. split_and!; try done. unfold active_for in Ea. bool_props. simpl in *.
  by destruct (claim_RevokedAt c).
Qed.

Lemma step_change del d d' : db_step del d d' → change del d d'.
Proof.
  destruct 1 as
    [u d d' row Hs|u v d d' row Hs Hg|id v d d' Hdel Hs Hg|id u cutoff d Hu Ha Hm|c d d' r Hs|code t d d' n Hs
    |id t d d' u Hs|row d d' u Hs|digest t d d' n Hs|id t d d' u Hs|sid t d d' n Hs
    |row t seq d Hs|row t seq d Hs|digest t d d' row Hs|digest t d d' row Hs
    |g uid d d1 d' row m Hs Hm|g v d d' row Hs|gid uid role t v d d' m Hs|role gid uid v d d' m Hs Hg
    |gid uid v d d' Hs Hg|row d d' u Hs|digest t d d' row Hs|i d d' u Hs|i uid d d' Hs Hg
    |scope act hash hint now wn d d' r Hs|key d|P d d' n Hs|a d d' u Hs|a d d' u Hs|s d d' u Hs|sid d d' u Hs|e d d' u Hs].
  - apply insert_user_ok in Hs as (-> & [? ?]%admit_user_ok & ? & _). by apply chg_insert_user.
  - apply update_user_ok in Hs as (old & ? & ? & _ & -> & [? ?]%admit_user_ok & ->).
    eapply chg_update_user; try done. simpl. lia.
  - apply delete_user_ok in Hs as [[? _]|(_ & -> & u & ? & _)]; [done|]. by eapply chg_delete_user.
  - unfold abandoned in Ha. bool_props. by eapply chg_sweep_guest.
  - unfold insert_claim in Hs. passed Hs. simplify_eq. apply chg_insert_claim.
    + by destruct (claim_codes d !! _).
    + by eapply foreign_key_ok.
    + done.
    + intros Hn. rewrite Hn in *. simpl in *. by destruct (find_row _ _).
  - apply claims_in_used in Hs as (t' & Hc & [->| ->]); [apply chg_none | by apply chg_claims].
  - apply claims_in_revoke in Hs as (t' & Hc & ->). by apply chg_claims.
  - apply insert_session_ok in Hs as (? & ? & ? & ->). by apply chg_insert_session.
  - unfold revoke_session in Hs. destruct (sessions d !! digest) as [s|] eqn:E; simplify_eq; [|apply chg_none].
    apply chg_revoke_sessions. intros k. destruct (decide (k = digest)) as [->|]; [|left; by rewrite lookup_insert_ne].
    rewrite lookup_insert_eq. unfold coalesce_revoked. destruct (session_RevokedAt s) eqn:Er.
    + left. rewrite E. f_equal. destruct s. simpl in *. by subst.
    + right. by exists s, t.
  - unfold revoke_user_sessions in Hs. simplify_eq. apply chg_revoke_sessions.
    apply (coalesce_in (sessions d) (λ s, session_UserID s =? id)).
  - unfold revoke_sso_sessions in Hs. destruct (text_param sid); [|done]. simplify_eq. apply chg_revoke_sessions. intros k.
    rewrite lookup_fmap. destruct (sessions d !! k) as [s|]; [|by left]. simpl.
    destruct (bound_to sid s) eqn:Eb; [|by left]. right. exists s, t. split_and!; try done.
    unfold bound_to in Eb. bool_props. by destruct (session_RevokedAt s).
  - apply insert_token_ok in Hs as (? & ? & ? & -> & ->). by apply chg_insert_email.
  - apply insert_token_ok in Hs as (? & ? & ? & -> & ->). by apply chg_insert_reset.
  - unfold consume_email in Hs. destruct (consume_token _ _ _) as [[t' r]|] eqn:E; simplify_eq.
    apply chg_consume_email. by eapply consume_token_in.
  - unfold consume_reset in Hs. destruct (consume_token _ _ _) as [[t' r]|] eqn:E; simplify_eq.
    apply chg_consume_reset. by eapply consume_token_in.
  - apply insert_group_ok in Hs as (-> & Hid & Hc & Hu & Hby).
    apply insert_member_ok in Hm as (-> & Hg & <- & Hr & Hmc & Hn & _ & Hx & Hmid). rewrite Hid in *.
    exact (chg_create_group del d row m Hid Hc Hu Hby Hg Hr Hn Hx Hmc Hmid).
  - apply update_group_ok in Hs as (old & ? & ? & -> & ? & ? & ->).
    eapply chg_update_group; try done. simpl. lia.
  - apply insert_member_ok in Hs as (-> & <- & <- & ? & ? & ? & ? & ? & ?). by apply chg_insert_member.
  - apply update_role_ok in Hs as (old & ? & ? & ? & -> & ->). eapply chg_member_role; try done.
  - unfold delete_member in Hs. destruct (group_members d !! _) as [m|] eqn:E; [|done].
    destruct (_ =? _); simplify_eq. by eapply chg_delete_member.
  - unfold insert_state in Hs. passed Hs. simplify_eq. apply chg_insert_state.
    + by destruct (oauth_states d !! _).
    + intros Hp. destruct (0 <? state_UserID row) eqn:E; [by eapply foreign_key_ok | bool_props; lia].
    + done.
  - apply consume_state_ok in Hs as (? & ? & ->). by apply chg_consume_state.
  - unfold insert_identity in Hs. passed Hs. simplify_eq. apply chg_insert_identity; [done| | |done].
    + by destruct (find_row _ _).
    + by eapply foreign_key_ok.
  - unfold delete_identity in Hs. destruct (oauth_identities d !! i) as [r|] eqn:E; [|done].
    destruct (identity_UserID r =? uid) eqn:Eu; simplify_eq. bool_props. subst. by eapply chg_delete_identity.
  - apply RateLimitBuckets.upsert_bucket_ok in Hs as (row & -> & _ & ? & _). by apply chg_put_bucket.
  - apply chg_drop_buckets, delete_subseteq.
  - unfold RateLimitBuckets.delete_buckets in Hs. simplify_eq. apply chg_drop_buckets, map_filter_subseteq.
  - unfold LoginAttemptRepository.insert_attempt in Hs. passed Hs. simplify_eq.
    apply chg_attempt; [done|by eapply foreign_key_opt].
  - unfold AuditLogRepository.insert_audit in Hs. passed Hs. simplify_eq.
    apply chg_audit; [done|by eapply foreign_key_opt].
  - apply upsert_login_session_ok in Hs as (row & -> & Hc & [(Hn & Hu & ->)|(old & Ho & ->)]);
      apply chg_record_login; [by left|right]. exists old. split; [done|]. apply merge_login_session_keeps.
  - apply delete_login_session_ok in Hs as ->. apply chg_delete_login.
  - unfold insert_usage in Hs. passed Hs. simplify_eq. apply chg_usage; [done|by eapply foreign_key_opt].
Qed.
End step_change.
