(* ===== verification/Invariants.v ===== *)
(** * The invariant of the database

    [db_wf]: in every table, every row sits under its key, satisfies all the
    constraints of its table and refers to rows that exist, the unique columns
    are unique, and no identity column is ahead of its sequence.  Every write
    keeps it, and so does every sequence of use cases. *)
From S2P Require Export Changes.

Section tables.
Context `{Countable K} {A : Type}.
Implicit Types (t : gmap K A) (us : gmap Z User).

(** Rows satisfying [ok] whose owner, if any, is an account. *)
Definition rows_ok (owner : A → option Z) (ok : K → A → Prop) us t : Prop :=
  ∀ k a, t !! k = Some a → ok k a ∧ ∀ id, owner a = Some id → is_Some (us !! id).

(** No two rows share a value of a unique column. *)
Definition unique_by {C} (col : A → option C) t : Prop :=
  ∀ k k' a a' c, t !! k = Some a → t !! k' = Some a' → col a = Some c → col a' = Some c → k = k'.

Context (owner : A → option Z) (ok : K → A → Prop).

Lemma rows_ok_users us us' t :
  (∀ id, is_Some (us !! id) → is_Some (us' !! id)) → rows_ok owner ok us t → rows_ok owner ok us' t.
Proof. intros Hm Ht k a Hk. destruct (Ht k a Hk) as [? Ho]. split; [done|]. eauto. Qed.

Lemma rows_ok_insert us t k a :
  ok k a → (∀ id, owner a = Some id → is_Some (us !! id)) →
  rows_ok owner ok us t → rows_ok owner ok us (<[k := a]> t).
Proof. intros Hk Ho Ht k' a' [[<- <-]|[_ ?]]%lookup_insert_Some; [done | by apply Ht]. Qed.

Lemma rows_ok_delete us t k : rows_ok owner ok us t → rows_ok owner ok us (delete k t).
Proof. intros Ht k' a' [_ ?]%lookup_delete_Some. by apply Ht. Qed.

(** ON DELETE CASCADE. *)
Lemma rows_ok_cascade us t id (P : K * A → Prop) `{∀ x, Decision (P x)} :
  (∀ k a, P (k, a) → owner a ≠ Some id) →
  rows_ok owner ok us t → rows_ok owner ok (delete id us) (filter P t).
Proof.
  intros HP Ht k a [Hk Hp]%map_lookup_filter_Some. destruct (Ht k a Hk) as [? Ho]. split; [done|].
  intros id' Ho'. rewrite lookup_delete_ne; [by apply Ho|]. intros ->. by eapply HP.
Qed.

Lemma rows_ok_weaken (ok' : K → A → Prop) us t :
  (∀ k a, ok k a → ok' k a) → rows_ok owner ok us t → rows_ok owner ok' us t.
Proof. intros Hw Ht k a Hk. destruct (Ht k a Hk). auto. Qed.

Lemma rows_ok_subset us t t' : t' ⊆ t → rows_ok owner ok us t → rows_ok owner ok us t'.
Proof. intros Hs Ht k a Hk. apply Ht. by eapply lookup_weaken. Qed.

(** Rows replaced by rows with the same owner. *)
Lemma rows_ok_replace us t t' :
  (∀ k a', t' !! k = Some a' → ∃ a, t !! k = Some a ∧ (ok k a → ok k a') ∧ owner a' = owner a) →
  rows_ok owner ok us t → rows_ok owner ok us t'.
Proof.
  intros Hr Ht k a' Hk. destruct (Hr k a' Hk) as (a & Ha & Hok & ->). destruct (Ht k a Ha). eauto.
Qed.

Context {C : Type} (col : A → option C).

Lemma unique_by_insert t k a :
  (∀ k' a' c, t !! k' = Some a' → col a = Some c → col a' = Some c → k' = k) →
  unique_by col t → unique_by col (<[k := a]> t).
Proof.
  intros Hn Ht k1 k2 a1 a2 c [[<- <-]|[Hne1 H1]]%lookup_insert_Some [[<- <-]|[Hne2 H2]]%lookup_insert_Some Hc1 Hc2.
  - done.
  - symmetry. by eapply Hn.
  - by eapply Hn.
  - by eapply Ht.
Qed.

Lemma unique_by_sub t t' :
  (∀ k a', t' !! k = Some a' → ∃ a, t !! k = Some a ∧ ∀ c, col a' = Some c → col a = Some c) →
  unique_by col t → unique_by col t'.
Proof.
  intros Hs Ht k1 k2 a1 a2 c H1 H2 Hc1 Hc2.
  destruct (Hs _ _ H1) as (b1 & Hb1 & Hi1), (Hs _ _ H2) as (b2 & Hb2 & Hi2). eauto.
Qed.

Lemma unique_by_filter t (P : K * A → Prop) `{∀ x, Decision (P x)} :
  unique_by col t → unique_by col (filter P t).
Proof. apply unique_by_sub. intros k a' [? _]%map_lookup_filter_Some. eauto. Qed.
Lemma unique_by_delete t k : unique_by col t → unique_by col (delete k t).
Proof. apply unique_by_sub. intros k' a' [_ ?]%lookup_delete_Some. eauto. Qed.
Lemma unique_by_subset t t' : t' ⊆ t → unique_by col t → unique_by col t'.
Proof. intros Hs. apply unique_by_sub. intros k a Hk. exists a. split; [by eapply lookup_weaken|done]. Qed.
End tables.

(** A row whose identity column takes the next number of the sequence. *)
Lemma unique_by_next `{Countable K} {A} (col : A → Z) (seq : Z) (t : gmap K A) k a :
  (∀ k' a', t !! k' = Some a' → col a' ≤ seq) → col a = seq + 1 →
  unique_by (λ a, Some (col a)) t → unique_by (λ a, Some (col a)) (<[k := a]> t).
Proof. intros Hle Ha. apply unique_by_insert. intros k' a' c Hk' [= <-] [= He]. specialize (Hle _ _ Hk'). lia. Qed.

Section logs.
Context {A : Type} (owner : A → option Z) (ok : A → Prop).
Implicit Types (us : gmap Z User) (l : list A).

(** Entries satisfying [ok] whose owner, if any, is an account. *)
Definition log_ok us l : Prop := Forall (λ a, ok a ∧ ∀ id, owner a = Some id → is_Some (us !! id)) l.

Lemma log_ok_users us us' l :
  (∀ id, is_Some (us !! id) → is_Some (us' !! id)) → log_ok us l → log_ok us' l.
Proof. intros Hm Hl. eapply Forall_impl; [exact Hl|]. intros a [? Ho]. split; [done|]. eauto. Qed.

Lemma log_ok_cons us a l :
  ok a → (∀ id, owner a = Some id → is_Some (us !! id)) → log_ok us l → log_ok us (a :: l).
Proof. intros. by constructor. Qed.

Lemma log_ok_sublist us l l' : l' `sublist_of` l → log_ok us l → log_ok us l'.
Proof.
  unfold log_ok. rewrite !Forall_forall. intros Hs Hl a Ha. apply Hl. by eapply sublist_subseteq.
Qed.

(** ON DELETE SET NULL. *)
Lemma log_ok_null us l id (f : A → A) :
  (∀ a, owner (f a) = UserRepository.null_user id (owner a)) → (∀ a, ok a → ok (f a)) →
  log_ok us l → log_ok (delete id us) (f <$> l).
Proof.
  intros Hf Hk Hl. apply Forall_fmap. eapply Forall_impl; [exact Hl|]. intros a [Ha Ho]. split; [by apply Hk|].
  intros u. simpl. rewrite Hf. unfold UserRepository.null_user. case_bool_decide; [done|].
  intros Hu. rewrite lookup_delete_ne by congruence. by apply Ho.
Qed.
End logs.

Section wf.
Context `{Unicode, Postgres}.

Definition user_row (seq : Z) (k : Z) (u : User) : Prop :=
  user_ID u = k ∧ 0 < k ≤ seq ∧ users_constraints u = Ok tt.
Definition group_row (seq : Z) (k : Z) (g : Group) : Prop :=
  group_ID g = k ∧ 0 < k ≤ seq ∧ groups_constraints g = Ok tt.
Definition session_row (k : string) (s : Session) : Prop :=
  session_ID s = k ∧ sessions_constraints s = Ok tt.
Definition token_row (seq : Z) (k : string) (r : Z * Token) : Prop :=
  token_Token r.2 = k ∧ 0 < r.1 ≤ seq ∧ tokens_constraints r.2 = Ok tt.
Definition claim_row (seq : Z) (k : string) (r : Z * GuestClaimCode) : Prop :=
  claim_Code r.2 = k ∧ 0 < r.1 ≤ seq ∧ claims_constraints r.2 = Ok tt.
Definition member_row (gs : gmap Z Group) (seq : Z) (k : Z * Z) (m : GroupMembership) : Prop :=
  member_GroupID m = k.1 ∧ member_UserID m = k.2 ∧ is_Some (gs !! k.1) ∧
  0 < member_ID m ≤ seq ∧ members_constraints m = Ok tt.
Definition identity_row (seq : Z) (k : Z) (i : OAuthIdentity) : Prop :=
  identity_ID i = k ∧ 0 < k ≤ seq ∧ identities_constraints i = Ok tt.
Definition state_row (k : string) (r : OAuthState * option Z) : Prop :=
  state_State r.1 = k ∧ oauth_states_constraints r.1 = Ok tt.
Definition login_row (k : string) (s : SSOLoginSession) : Prop :=
  login_SessionID s = k ∧ login_sessions_constraints s = Ok tt.
Definition bucket_row (k : string * string * string) (b : RateBucket) : Prop :=
  RateLimitBuckets.bucket_constraints k.1.1 k.1.2 b = Ok tt.

Definition active_claim (r : Z * GuestClaimCode) : option Z :=
  if is_nil (claim_RevokedAt r.2) then Some (claim_UserID r.2) else None.
Definition identity_subject (i : OAuthIdentity) : option (string * string) :=
  Some (identity_Provider i, identity_Subject i).
Definition state_owner (r : OAuthState * option Z) : option Z :=
  if 0 <? state_UserID r.1 then Some (state_UserID r.1) else None.

Record db_wf (d : DB) : Prop := {
  wf_seq : 0 ≤ users_seq d ∧ 0 ≤ groups_seq d ∧ 0 ≤ tokens_seq d ∧ 0 ≤ claims_seq d ∧ 0 ≤ members_seq d ∧
    0 ≤ identities_seq d;
  wf_users : rows_ok (λ _, None) (user_row (users_seq d)) (users d) (users d);
  wf_emails : unique_by user_Email (users d);
  wf_usernames : unique_by user_Username (users d);
  wf_sessions : rows_ok (λ s, Some (session_UserID s)) session_row (users d) (sessions d);
  wf_email_tokens : rows_ok (λ r, Some (token_UserID r.2)) (token_row (tokens_seq d)) (users d) (email_tokens d);
  wf_email_ids : unique_by (λ r, Some r.1) (email_tokens d);
  wf_reset_tokens : rows_ok (λ r, Some (token_UserID r.2)) (token_row (tokens_seq d)) (users d) (reset_tokens d);
  wf_reset_ids : unique_by (λ r, Some r.1) (reset_tokens d);
  wf_claims : rows_ok (λ r, Some (claim_UserID r.2)) (claim_row (claims_seq d)) (users d) (claim_codes d);
  wf_claim_ids : unique_by (λ r, Some r.1) (claim_codes d);
  wf_active_claims : unique_by active_claim (claim_codes d);
  wf_groups : rows_ok group_CreatedBy (group_row (groups_seq d)) (users d) (groups d);
  wf_invites : unique_by (λ g, Some (group_InviteCode g)) (groups d);
  wf_members : rows_ok (λ m, Some (member_UserID m)) (member_row (groups d) (members_seq d)) (users d) (group_members d);
  wf_member_ids : unique_by (λ m, Some (member_ID m)) (group_members d);
  wf_identities : rows_ok (λ i, Some (identity_UserID i)) (identity_row (identities_seq d)) (users d) (oauth_identities d);
  wf_subjects : unique_by identity_subject (oauth_identities d);
  wf_states : rows_ok state_owner state_row (users d) (oauth_states d);
  wf_logins : rows_ok (λ s, Some (login_UserID s)) login_row (users d) (sso_login_sessions d);
  wf_buckets : rows_ok (λ _, None) bucket_row (users d) (rate_buckets d);
  wf_attempts : log_ok attempt_UserID (λ a, attempts_constraints a = Ok tt) (users d) (login_attempts d);
  wf_audit : log_ok audit_ActorUserID (λ a, audit_constraints a = Ok tt) (users d) (audit_log d);
  wf_usage : log_ok usage_UserID (λ e, usage_constraints e = Ok tt) (users d) (usage_events d);
}.

Lemma empty_wf : db_wf empty_db.
Proof.
  split; [by vm_compute | ..]; first
    [ by apply Forall_nil
    | by intros k a Hk; unfold empty_db in Hk; cbn in Hk; rewrite ?lookup_empty in Hk
    | by intros k k' a a' c Hk; unfold empty_db in Hk; cbn in Hk; rewrite ?lookup_empty in Hk ].
Qed.

Lemma user_exists_Some d id : user_exists d id = true ↔ is_Some (users d !! id).
Proof. unfold user_exists. destruct (users d !! id); split; naive_solver. Qed.
Lemma group_exists_Some d id : group_exists d id = true ↔ is_Some (groups d !! id).
Proof. unfold group_exists. destruct (groups d !! id); split; naive_solver. Qed.

Lemma users_unique_ok row t :
  users_unique row t = Ok tt →
  (∀ k a e, t !! k = Some a → user_Email row = Some e → user_Email a = Some e → user_ID a = user_ID row) ∧
  (∀ k a n, t !! k = Some a → user_Username row = Some n → user_Username a = Some n → user_ID a = user_ID row).
Proof.
  unfold users_unique. intros Hu.
  destruct (taken_by_other (user_ID row) user_Email user_ID (user_Email row) t) eqn:E1; [done|].
  destruct (taken_by_other (user_ID row) user_Username user_ID (user_Username row) t) eqn:E2; [done|].
  split; intros k a v Hk Hr Ha; [rewrite Hr in E1|rewrite Hr in E2].
  - rewrite taken_by_other_false in E1. eauto.
  - rewrite taken_by_other_false in E2. eauto.
Qed.

Lemma groups_unique_ok g t :
  GroupRepository.groups_unique g t = Ok tt →
  ∀ k a, t !! k = Some a → group_InviteCode a = group_InviteCode g → group_ID a = group_ID g.
Proof.
  unfold GroupRepository.groups_unique. destruct (taken_by_other _ _ _ _ _) eqn:E; [done|].
  intros _ k a Hk Ha. rewrite taken_by_other_false in E. eapply E; [done|]. by rewrite Ha.
Qed.

(** A stored row: adding or replacing an account keeps every other table. *)
Lemma wf_put_user d k row seq :
  db_wf d → users_seq d ≤ seq → user_row seq k row → users_unique row (users d) = Ok tt →
  db_wf (set_users (<[k := row]> (users d)) seq d).
Proof.
  intros Hwf Hseq Hrow [He Hn]%users_unique_ok.
  assert (Hgrow : ∀ id, is_Some (users d !! id) → is_Some (<[k := row]> (users d) !! id)).
  { intros id Hid. destruct (decide (id = k)) as [->|]; [rewrite lookup_insert_eq; eauto|by rewrite lookup_insert_ne]. }
  assert (Hkey : ∀ k' a', users d !! k' = Some a' → user_ID a' = user_ID row → k' = k).
  { intros k' a' Hk' Hid. destruct Hrow as [<- _]. rewrite <- Hid. symmetry. by apply (wf_users d Hwf). }
  destruct Hwf. split; simpl; try done; first [by eapply rows_ok_users | by eapply log_ok_users | idtac].
  - lia.
  - apply rows_ok_insert; [done|done|]. eapply rows_ok_users; [eauto|].
    intros k' a' Hk'. destruct (wf_users0 k' a' Hk') as [(? & ? & ?) ?]. split; [|done]. split_and!; [done|lia|lia|done].
  - apply unique_by_insert; [|done]. eauto.
  - apply unique_by_insert; [|done]. eauto.
Qed.

Lemma wf_cascade d id : db_wf d → db_wf (UserRepository.cascade_user id d).
Proof.
  intros []. split; simpl; try done;
    try (eapply rows_ok_cascade; [|done]; intros k a Hp; simpl in *; congruence).
  - by apply rows_ok_delete with (k := id) in wf_users0; intros k a Hk; destruct (wf_users0 k a Hk).
  - by apply unique_by_delete.
  - by apply unique_by_delete.
  - by apply unique_by_filter.
  - by apply unique_by_filter.
  - by apply unique_by_filter.
  - by apply unique_by_filter.
  - intros k a Hk. rewrite lookup_fmap in Hk. destruct (groups d !! k) as [g|] eqn:Eg; [|done].
    simplify_eq/=. destruct (wf_groups0 k g Eg) as [Hr Ho]. split; [exact Hr|].
    intros u Hu. unfold UserRepository.null_user in Hu. case_bool_decide; [done|].
    rewrite lookup_delete_ne by congruence. by apply Ho.
  - eapply unique_by_sub; [|exact wf_invites0]. intros k a Hk. rewrite lookup_fmap in Hk.
    destruct (groups d !! k) as [g|]; simplify_eq/=. eauto.
  - intros k m [Hk Hp]%map_lookup_filter_Some. simpl in Hp. destruct (wf_members0 k m Hk) as [(H1 & H2 & H3 & H4 & H5) Ho].
    split; [split; [|split; [|split; [rewrite lookup_fmap; by apply fmap_is_Some|split]]]; done|].
    intros u [= <-]. rewrite lookup_delete_ne by congruence. by apply Ho.
  - by apply unique_by_filter.
  - by apply unique_by_filter.
  - eapply rows_ok_cascade; [|done]. intros k a Hp. simpl in *. unfold state_owner. by case_match; [congruence|].
  - intros k a Hk. by destruct (wf_buckets0 k a Hk).
  - by apply log_ok_null.
  - by apply log_ok_null.
  - by apply log_ok_null.
Qed.

Lemma wf_put_group d k g seq :
  db_wf d → groups_seq d ≤ seq → group_row seq k g → GroupRepository.groups_unique g (groups d) = Ok tt →
  (∀ u, group_CreatedBy g = Some u → user_exists d u = true) →
  db_wf (set_groups (<[k := g]> (groups d)) seq d).
Proof.
  intros Hwf Hseq Hrow Hu Hby. pose proof (groups_unique_ok _ _ Hu) as Hinv.
  destruct Hwf. split; simpl; try done.
  - lia.
  - apply rows_ok_insert; [done|by intros u ?%Hby%user_exists_Some|].
    intros k' a' Hk'. destruct (wf_groups0 k' a' Hk') as [(? & ? & ?) ?]. split; [|done]. split_and!; [done|lia|lia|done].
  - apply unique_by_insert; [|done]. intros k' a' c Hk' [= <-] [= Ha]. destruct Hrow as [<- _].
    rewrite <- (Hinv _ _ Hk' Ha). symmetry. by apply wf_groups0.
  - intros k' m Hk'. destruct (wf_members0 k' m Hk') as [(? & ? & ? & ? & ?) ?]. split; [|done]. split_and!; try done; try lia.
    destruct (decide (k'.1 = k)) as [->|]; [rewrite lookup_insert_eq; eauto|by rewrite lookup_insert_ne].
Qed.

Lemma wf_put_member d k m seq :
  db_wf d → members_seq d ≤ seq → member_row (groups d) seq k m → user_exists d (member_UserID m) = true →
  (∀ k' m', group_members d !! k' = Some m' → member_ID m' = member_ID m → k' = k) →
  db_wf (set_group_members (<[k := m]> (group_members d)) seq d).
Proof.
  intros Hwf Hseq Hrow Hu Hid. destruct Hwf. split; simpl; try done; [lia| |].
  - apply rows_ok_insert; [done|by intros u [= <-]; apply user_exists_Some|].
    eapply rows_ok_weaken; [|done]. intros k' m' (? & ? & ? & ? & ?). split_and!; [done|done|done|lia|lia|done].
  - apply unique_by_insert; [|done]. intros k' m' c Hk' [= <-] [= Hm']. by eapply Hid.
Qed.

Lemma sessions_row_ok row : sessions_constraints row = Ok tt → session_row (session_ID row) row.
Proof. by split. Qed.

Lemma revoked_in_replace us t t' :
  revoked_in t t' → rows_ok (λ s, Some (session_UserID s)) session_row us t →
  rows_ok (λ s, Some (session_UserID s)) session_row us t'.
Proof.
  intros Hr. apply rows_ok_replace. intros k a' Hk. destruct (Hr k) as [He|(s & now & Hs & _ & He)].
  - exists a'. by rewrite <- He.
  - rewrite He in Hk. simplify_eq. by exists s.
Qed.

Lemma consumed_in_wf seq us t t' :
  consumed_in t t' → rows_ok (λ r, Some (token_UserID r.2)) (token_row seq) us t → unique_by (λ r, Some r.1) t →
  rows_ok (λ r, Some (token_UserID r.2)) (token_row seq) us t' ∧ unique_by (λ r, Some r.1) t'.
Proof.
  intros (k & i & s & now & Hk & _ & _ & ->) Ht Hu. split; [revert Ht; apply rows_ok_replace|revert Hu; apply unique_by_sub];
    intros k' a' [[<- <-]|[_ Hk']]%lookup_insert_Some; [by exists (i, s) | by exists a' | by exists (i, s) | by exists a'].
Qed.

Lemma insert_token_wf us (t : gmap string (Z * Token)) seq row :
  is_Some (us !! token_UserID row) → tokens_constraints row = Ok tt → 0 ≤ seq →
  rows_ok (λ r, Some (token_UserID r.2)) (token_row seq) us t → unique_by (λ r, Some r.1) t →
  rows_ok (λ r, Some (token_UserID r.2)) (token_row (seq + 1)) us (<[token_Token row := (seq + 1, row)]> t) ∧
  unique_by (λ r, Some r.1) (<[token_Token row := (seq + 1, row)]> t).
Proof.
  intros Hu Hc Hseq Ht Hi. split.
  - apply rows_ok_insert; [split_and!; simpl; [done|lia|lia|done]|by intros u [= <-]|].
    eapply rows_ok_weaken; [|done]. intros k r (? & ? & ?). split_and!; [done|lia|lia|done].
  - apply (unique_by_next fst seq); [|done|done]. intros k r Hk. destruct (Ht _ _ Hk) as [(_ & ? & _) _]. lia.
Qed.

Lemma claims_in_wf seq us t t' :
  claims_in t t' → rows_ok (λ r, Some (claim_UserID r.2)) (claim_row seq) us t → unique_by (λ r, Some r.1) t →
  unique_by active_claim t →
  rows_ok (λ r, Some (claim_UserID r.2)) (claim_row seq) us t' ∧ unique_by (λ r, Some r.1) t' ∧ unique_by active_claim t'.
Proof.
  intros Hr Ht Hi Hu. split_and!.
  - revert Ht. apply rows_ok_replace. intros k a' Hk. destruct (Hr k) as [He|(i & c & c' & Hc & Hc' & H1 & H2 & _)].
    + exists a'. by rewrite <- He.
    + rewrite Hc' in Hk. simplify_eq. exists (i, c). unfold claim_row, claims_constraints. simpl. rewrite H1, H2. done.
  - revert Hi. apply unique_by_sub. intros k a' Hk. destruct (Hr k) as [He|(i & c & c' & Hc & Hc' & _)].
    + exists a'. by rewrite <- He.
    + rewrite Hc' in Hk. simplify_eq. by exists (i, c).
  - revert Hu. apply unique_by_sub. intros k a' Hk. destruct (Hr k) as [He|(i & c & c' & Hc & Hc' & H1 & _ & _ & H2)].
    + exists a'. by rewrite <- He.
    + rewrite Hc' in Hk. simplify_eq. exists (i, c). split; [done|]. unfold active_claim. simpl.
      rewrite H1, H2. simpl. by case_match.
Qed.

Lemma token_rows_mono us seq (t : gmap string (Z * Token)) :
  rows_ok (λ r, Some (token_UserID r.2)) (token_row seq) us t →
  rows_ok (λ r, Some (token_UserID r.2)) (token_row (seq + 1)) us t.
Proof. apply rows_ok_weaken. intros k r (? & ? & ?). split_and!; [done|lia|lia|done]. Qed.

Lemma wf_put_claim d c :
  db_wf d → user_exists d (claim_UserID c) = true → claims_constraints c = Ok tt →
  (claim_RevokedAt c = None →
   find_row (GuestClaimCodeRepository.active_for (claim_UserID c)) (claim_codes d) = None) →
  db_wf (set_claim_codes (<[claim_Code c := (claims_seq d + 1, c)]> (claim_codes d)) (claims_seq d + 1) d).
Proof.
  intros Hwf Hx Hcs Hact. destruct Hwf. split; simpl; try done; [lia| | |].
  - apply rows_ok_insert; [split_and!; simpl; [done|lia|lia|done]|by intros ? [= <-]; apply user_exists_Some|].
    eapply rows_ok_weaken; [|done]. intros k r (? & ? & ?). split_and!; [done|lia|lia|done].
  - apply (unique_by_next fst (claims_seq d)); [|done|done].
    intros k r Hk. destruct (wf_claims0 _ _ Hk) as [(_ & ? & _) _]. lia.
  - apply unique_by_insert; [|done]. intros k' a' o Hk' Hc1 Hc2. unfold active_claim in *. simpl in *.
    destruct (claim_RevokedAt c); [done|]. simplify_eq/=. specialize (Hact eq_refl).
    rewrite find_row_None in Hact. specialize (Hact _ _ Hk'). unfold GuestClaimCodeRepository.active_for in Hact.
    destruct (is_nil (claim_RevokedAt a'.2)); [|done]. simplify_eq. by rewrite Hc2, Z.eqb_refl in Hact.
Qed.

Lemma wf_put_identity d i :
  db_wf d → identity_ID i = identities_seq d + 1 →
  find_row (OAuthIdentityRepository.is_subject (identity_Provider i) (identity_Subject i)) (oauth_identities d) = None →
  user_exists d (identity_UserID i) = true → identities_constraints i = Ok tt →
  db_wf (set_oauth_identities (<[identities_seq d + 1 := i]> (oauth_identities d)) (identities_seq d + 1) d).
Proof.
  intros Hwf Hid Hn Hx Hcs. destruct Hwf. split; simpl; try done; [lia| |].
  - apply rows_ok_insert; [split_and!; [done|lia|lia|done]|by intros ? [= <-]; apply user_exists_Some|].
    eapply rows_ok_weaken; [|done]. intros k r (? & ? & ?). split_and!; [done|lia|lia|done].
  - apply unique_by_insert; [|done]. unfold identity_subject. intros k' a' c Hk' [= <-] [= Hp Hs].
    rewrite find_row_None in Hn. specialize (Hn _ _ Hk'). unfold OAuthIdentityRepository.is_subject in Hn.
    by rewrite Hp, Hs, !String.eqb_refl in Hn.
Qed.

(** The next membership number is unused. *)
Lemma fresh_member d k m m' :
  db_wf d → member_ID m = members_seq d + 1 → group_members d !! k = Some m' → member_ID m' = member_ID m → False.
Proof. intros Hwf Hm Hk He. destruct (wf_members _ Hwf _ _ Hk) as [(_ & _ & _ & ? & _) _]. lia. Qed.

(** A longer single sign-on login keeps its constraints. *)
Lemma login_constraints_extend old row :
  login_SessionID row = login_SessionID old → login_CreatedAt row = login_CreatedAt old →
  login_ExpiresAt old ≤ login_ExpiresAt row →
  login_sessions_constraints old = Ok tt → login_sessions_constraints row = Ok tt.
Proof.
  unfold login_sessions_constraints. rewrite !first_violation_ok, !Forall_cons. intros -> -> He (H1 & H2 & H3%check_ok & _).
  split_and!; [done|done| |done]. apply check_ok. bool_props. apply Z.ltb_lt. lia.
Qed.

Lemma change_wf del d d' : change del d d' → db_wf d → db_wf d'.
Proof.
  intros Hc Hwf. pose proof Hwf as W. destruct W as [(Q1 & Q2 & Q3 & Q4 & Q5 & Q6)]. destruct Hc as
    [row Hid Hcs Hu|k old row Hold Hid _ _ Hcs Hu _|id u _ _ _|id u _ _ _|row Hn Hx Hcs|t Ht|row Hn Hx Hcs
    |t Ht|row Hn Hx Hcs|t Ht|c Hn Hx Hcs Hact|t Ht|g m Hid Hcs Hu Hby Hmg Hrole Hn Hx Hmc Hmid
    |k old g Hold Hid Hby _ Hcs Hu|m Hcs Hn Hg Hx Hmid|gid uid old m Hold Hcs Hg1 Hg2 _ Hmid|gid uid m _ _
    |row Hn Hx Hcs|k row now Hk _|i Hid Hn Hx Hcs|k i Hk _|scope act h row Hcs|t Hsub|a Hcs Hx|a Hcs Hx|k row Hk|sid|e Hcs Hx|].
  - apply wf_put_user; [done|lia| |done]. split_and!; [done|lia|lia|done].
  - destruct (wf_users0 _ _ Hold) as [(Ho1 & Ho2 & _) _]. apply wf_put_user; [done|lia| |done].
    split_and!; [congruence|lia|lia|done].
  - by apply wf_cascade.
  - by apply wf_cascade.
  - split; simpl; try done. apply rows_ok_insert; [by apply sessions_row_ok| |done].
    by intros ? [= <-]; apply user_exists_Some.
  - split; simpl; try done. by eapply revoked_in_replace.
  - destruct (insert_token_wf (users d) (email_tokens d) (tokens_seq d) row) as [? ?]; try done; [by apply user_exists_Some|].
    split; simpl; try done; [split_and!; lia|by apply token_rows_mono].
  - destruct (consumed_in_wf _ _ _ _ Ht wf_email_tokens0 wf_email_ids0). by split.
  - destruct (insert_token_wf (users d) (reset_tokens d) (tokens_seq d) row) as [? ?]; try done; [by apply user_exists_Some|].
    split; simpl; try done; [split_and!; lia|by apply token_rows_mono].
  - destruct (consumed_in_wf _ _ _ _ Ht wf_reset_tokens0 wf_reset_ids0). by split.
  - by apply wf_put_claim.
  - destruct (claims_in_wf _ _ _ _ Ht wf_claims0 wf_claim_ids0 wf_active_claims0) as (? & ? & ?). by split.
  - assert (Hwf' : db_wf (set_groups (<[groups_seq d + 1 := g]> (groups d)) (groups_seq d + 1) d)).
    { apply wf_put_group; [done|lia|split_and!; [done|lia|lia|done]|done|done]. }
    apply (wf_put_member _ _ m (members_seq d + 1) Hwf'); [simpl; lia| |done|].
    + split_and!; [done|done| |lia|lia|done]. simpl. rewrite lookup_insert_eq. eauto.
    + intros k' m' Hk' He. by destruct (fresh_member d k' m m').
  - destruct (wf_groups0 _ _ Hold) as [(Ho1 & Ho2 & _) Ho3]. apply wf_put_group; [done|lia| |done|].
    + split_and!; [congruence|lia|lia|done].
    + rewrite Hby. intros u ?%Ho3. by apply user_exists_Some.
  - apply wf_put_member; [done|lia| |done|].
    + split_and!; [done|done|by apply group_exists_Some|lia|lia|done].
    + intros k' m' Hk' He. by destruct (fresh_member d k' m m').
  - destruct (wf_members0 _ _ Hold) as [(Ho1 & Ho2 & Ho3 & Ho5 & _) Ho4]. simpl in *. apply wf_put_member; [done|lia| | |].
    + split_and!; simpl; [congruence|congruence|done|lia|lia|done].
    + rewrite Hg2. apply user_exists_Some. by apply Ho4.
    + intros k' m' Hk' He. eapply wf_member_ids0; [exact Hk'|exact Hold|done|congruence].
  - split; simpl; try done; [by apply rows_ok_delete|by apply unique_by_delete].
  - split; simpl; try done. apply rows_ok_insert; [done| |done].
    unfold state_owner. simpl. intros id Ho. case_match; [|done]. simplify_eq. bool_props. by apply user_exists_Some, Hx.
  - split; simpl; try done. destruct (wf_states0 _ _ Hk). by apply rows_ok_insert.
  - by apply wf_put_identity.
  - split; simpl; try done; [by apply rows_ok_delete|by apply unique_by_delete].
  - split; simpl; try done. by apply rows_ok_insert.
  - split; simpl; try done. by eapply rows_ok_subset.
  - split; simpl; try done. apply log_ok_cons; [done| |done]. intros u ?%Hx. by apply user_exists_Some.
  - split; simpl; try done. apply log_ok_cons; [done| |done]. intros u ?%Hx. by apply user_exists_Some.
  - split; simpl; try done. destruct Hk as [(_ & Hi & Hu & Hcs)|(old & Ho & Hi & Hu & Hc & He)].
    + apply rows_ok_insert; [done| |done]. by intros ? [= <-]; apply user_exists_Some.
    + destruct (wf_logins0 _ _ Ho) as [[Hr1 Hr2] Hr3]. apply rows_ok_insert; [|by rewrite Hu|done].
      split; [congruence|]. by apply (login_constraints_extend old).
  - split; simpl; try done. by apply rows_ok_delete.
  - split; simpl; try done. apply log_ok_cons; [done| |done]. intros u ?%Hx. by apply user_exists_Some.
  - done.
Qed.

Lemma steps_wf `{Crypto} del d d' : steps del d d' → db_wf d → db_wf d'.
Proof. induction 1 as [|d d1 d' Hs%step_change _ IH]; [done|]. intros Hwf. apply IH. by eapply change_wf. Qed.
End wf.
