(* ===== verification/History.v ===== *)
(** * What no use case can undo

    Consequences of [change] over whole histories: the site and its groups keep
    an administrator, account numbers are never reused, revisions identify
    contents, revocations and consumptions are final. *)
From S2P Require Export Invariants.

Section administrators.
Context `{Unicode, Postgres, Crypto}.
Import UserRepository GroupRepository.

Definition has_site_admin (d : DB) : Prop :=
  ∃ id u, users d !! id = Some u ∧ is_administrator u = true.
Definition has_group_admin (g : Z) (d : DB) : Prop :=
  ∃ uid m, group_members d !! (g, uid) = Some m ∧ member_Role m = GroupRoleAdmin.
Definition groups_administered (d : DB) : Prop :=
  ∀ g, is_Some (groups d !! g) → has_group_admin g d.

Lemma admin_guard_other d k u :
  users d !! k = Some u → is_administrator u = true → admin_guard k d →
  ∃ id v, id ≠ k ∧ users d !! id = Some v ∧ is_administrator v = true.
Proof.
  intros Hk Ha Hg. specialize (Hg u Hk Ha).
  assert (Hp : 0 < UserRepository.count_other_admins k d).
  { pose proof (count_rows_nonneg (λ kv, is_administrator kv.2 && negb (kv.1 =? k)) (users d)).
    unfold UserRepository.count_other_admins in *. lia. }
  apply count_rows_pos in Hp as (id & v & Hv & Hb). simpl in Hb. bool_props. eauto.
Qed.

Lemma member_guard_other d g k m :
  group_members d !! (g, k) = Some m → member_Role m = GroupRoleAdmin → member_guard g k d →
  ∃ uid m', uid ≠ k ∧ group_members d !! (g, uid) = Some m' ∧ member_Role m' = GroupRoleAdmin.
Proof.
  intros Hk Ha Hg. specialize (Hg m Hk Ha).
  assert (Hp : 0 < GroupRepository.count_other_admins g k d).
  { pose proof (count_rows_nonneg (is_other_admin g k) (group_members d)).
    unfold GroupRepository.count_other_admins in *. lia. }
  apply count_rows_pos in Hp as ([g' uid] & m' & Hm & Hb). unfold is_other_admin in Hb. simpl in Hb.
  bool_props. subst. eauto 10.
Qed.

(** Removing one account keeps a site administrator when it passed the guard. *)
Lemma cascade_site_admin d k u :
  users d !! k = Some u → (is_administrator u = true → admin_guard k d) →
  has_site_admin d → has_site_admin (cascade_user k d).
Proof.
  intros Hk Hg (id & v & Hv & Ha). destruct (decide (id = k)) as [->|Hne].
  - simplify_eq. destruct (admin_guard_other _ _ _ Hk Ha (Hg Ha)) as (id & v & Hne & Hv & Hb).
    exists id, v. simpl. by rewrite lookup_delete_ne.
  - exists id, v. simpl. by rewrite lookup_delete_ne.
Qed.

Lemma fresh_user d : db_wf d → users d !! (users_seq d + 1) = None.
Proof.
  intros Hwf. destruct (users d !! (users_seq d + 1)) as [u|] eqn:E; [|done].
  destruct (wf_users d Hwf _ _ E) as [(_ & ? & _) _]. lia.
Qed.
Lemma fresh_group d : db_wf d → groups d !! (groups_seq d + 1) = None.
Proof.
  intros Hwf. destruct (groups d !! (groups_seq d + 1)) as [g|] eqn:E; [|done].
  destruct (wf_groups d Hwf _ _ E) as [(_ & ? & _) _]. lia.
Qed.

Lemma change_site_admin del d d' : change del d d' → db_wf d → has_site_admin d → has_site_admin d'.
Proof.
  intros Hc Hwf Hs. pose proof Hs as (id & v & Hv & Ha).
  destruct Hc as [row|k old row Hold _ _ _ _ _ Hg|k u _ Hu Hg|k u Hu Hgu _| | | | | | | | | | | | | | | | | | | | | | | | |];
    try by (exists id, v).
  - exists id, v. split; [|done]. simpl. rewrite lookup_insert_ne; [done|].
    intros <-. by rewrite (fresh_user d Hwf) in Hv.
  - destruct (is_administrator row) eqn:Er; [exists k, row; simpl; by rewrite lookup_insert_eq|].
    destruct (decide (id = k)) as [->|]; [|exists id, v; simpl; by rewrite lookup_insert_ne].
    destruct (admin_guard_other _ _ _ Hv Ha (Hg eq_refl)) as (id & w & Hne & Hw & Hb).
    exists id, w. simpl. by rewrite lookup_insert_ne.
  - by eapply cascade_site_admin.
  - eapply cascade_site_admin; [done| |done]. unfold is_administrator. rewrite Hgu.
    by destruct (user_IsAdmin u).
Qed.

Lemma change_groups_administered d d' :
  change false d d' → db_wf d → groups_administered d → groups_administered d'.
Proof.
  intros Hc Hwf Hs g Hg.
  assert (Hkeep : group_members d' = group_members d → groups d' = groups d → has_group_admin g d').
  { intros E1 E2. rewrite E2 in Hg. destruct (Hs g Hg) as (uid & m & Hm & Hr). exists uid, m. by rewrite E1. }
  destruct Hc as [row|k old row|k u Hdel|k u Hu Hgu Hm| | | | | | | | |gr m Hid _ _ _ _ Hr _ _ _ _|k old gr Hold
    |m _ Hn _ _ _|gid uid old m Hold _ _ _ Hgd _|gid uid m Hm Hgd| | | | | | | | | | | |]; try by apply Hkeep.
  - simpl in Hg. rewrite lookup_fmap, fmap_is_Some in Hg. destruct (Hs g Hg) as (uid & m & Hmem & Hr).
    exists uid, m. split; [|done]. simpl. apply map_lookup_filter_Some. split; [done|]. simpl. intros ->.
    unfold GuestClaimCodeRepository.has_membership in Hm. apply Z.ltb_ge in Hm.
    assert (0 < count_rows (λ kv : Z * Z * GroupMembership, kv.1.2 =? k) (group_members d)); [|lia].
    apply count_rows_pos. exists (g, k), m. split; [done|]. simpl. by apply Z.eqb_refl.
  - simpl in Hg. destruct (decide (g = groups_seq d + 1)) as [->|Hne].
    + exists (member_UserID m), m. simpl. by rewrite lookup_insert_eq.
    + rewrite lookup_insert_ne in Hg by done. destruct (Hs g Hg) as (uid & m' & Hm' & Hr').
      exists uid, m'. simpl. rewrite lookup_insert_ne; [done|]. by intros [= <- _].
  - simpl in Hg. assert (Hg' : is_Some (groups d !! g)).
    { destruct (decide (g = k)) as [->|]; [by eauto | by rewrite lookup_insert_ne in Hg]. }
    destruct (Hs g Hg') as (uid & m & ? & ?). by exists uid, m.
  - destruct (Hs g Hg) as (uid & m' & Hm' & Hr'). exists uid, m'. simpl. rewrite lookup_insert_ne; [done|]. congruence.
  - destruct (Hs g Hg) as (uid' & m' & Hm' & Hr').
    destruct (decide (member_Role m = GroupRoleAdmin)) as [|Hna].
    + destruct (decide ((gid, uid) = (g, uid'))) as [Heq|]; [|exists uid', m'; simpl; by rewrite lookup_insert_ne].
      exists uid', m. simpl. rewrite Heq. by rewrite lookup_insert_eq.
    + destruct (decide ((gid, uid) = (g, uid'))) as [[= -> ->]|]; [|exists uid', m'; simpl; by rewrite lookup_insert_ne].
      destruct (member_guard_other _ _ _ _ Hm' Hr' (Hgd Hna)) as (x & mx & Hne & Hx & Hrx).
      exists x, mx. simpl. rewrite lookup_insert_ne; [done|]. congruence.
  - destruct (Hs g Hg) as (uid' & m' & Hm' & Hr').
    destruct (decide ((gid, uid) = (g, uid'))) as [[= -> ->]|]; [|exists uid', m'; simpl; by rewrite lookup_delete_ne].
    destruct (member_guard_other _ _ _ _ Hm' Hr' Hgd) as (x & mx & Hne & Hx & Hrx).
    exists x, mx. simpl. rewrite lookup_delete_ne; [done|]. congruence.
Qed.

(** Facts kept by every write from a well-formed database hold after any run. *)
Lemma steps_keep del (P : DB → Prop) d d' :
  (∀ d d', change del d d' → db_wf d → P d → P d') →
  steps del d d' → db_wf d → P d → P d'.
Proof.
  intros HP. induction 1 as [|d d1 d' Hs%step_change _ IH]; [done|]. intros Hwf Hd.
  apply IH; [by eapply change_wf | by eapply HP].
Qed.
End administrators.

(** ** How rows evolve *)
Section evolution.
Context `{Countable K} {A : Type} (owner : A → option Z) (R : A → A → Prop).
Implicit Types (t : gmap K A) (us : gmap Z User).

(** Every row of [t] is still in [t'], related by [R], unless its account is
    gone. *)
Definition evolves_in t t' us' : Prop :=
  ∀ k a, t !! k = Some a →
    (∃ id, owner a = Some id ∧ us' !! id = None) ∨ ∃ a', t' !! k = Some a' ∧ R a a'.

Context `{!Reflexive R} `{!Transitive R} (Howner : ∀ a a', R a a' → owner a' = owner a).

Lemma evolves_same t us' : evolves_in t t us'.
Proof. intros k a Hk. right. by exists a. Qed.

Lemma evolves_fresh t k a us' : t !! k = None → evolves_in t (<[k := a]> t) us'.
Proof. intros Hn k' a' Hk. right. exists a'. rewrite lookup_insert_ne; [done|congruence]. Qed.

Lemma evolves_cascade t us id (P : K * A → Prop) `{∀ x, Decision (P x)} :
  (∀ k a, ¬ P (k, a) → owner a = Some id) → evolves_in t (filter P t) (delete id us).
Proof.
  intros HP k a Hk. destruct (decide (P (k, a))) as [Hp|Hn].
  - right. exists a. split; [|done]. by apply map_lookup_filter_Some.
  - left. exists id. split; [by eapply HP|]. apply lookup_delete_eq.
Qed.

Lemma evolves_trans t t1 t2 us1 us2 :
  (∀ k a id, t !! k = Some a → owner a = Some id → us1 !! id = None → us2 !! id = None) →
  evolves_in t t1 us1 → evolves_in t1 t2 us2 → evolves_in t t2 us2.
Proof.
  intros Hgone H1 H2 k a Hk. destruct (H1 k a Hk) as [(id & Ho & Hn)|(a1 & Hk1 & Hr1)]; [by left; eauto|].
  destruct (H2 k a1 Hk1) as [(id & Ho & Hn)|(a2 & Hk2 & Hr2)]; [left; exists id; by rewrite <- (Howner _ _ Hr1)|].
  right. exists a2. split; [done|]. by etransitivity.
Qed.
End evolution.

Definition session_later (s s' : Session) : Prop :=
  s' = s ∨ (session_RevokedAt s = None ∧ ∃ t, s' = with_RevokedAt (Some t) s).
Definition token_later (r r' : Z * Token) : Prop :=
  r' = r ∨ (token_ConsumedAt r.2 = None ∧ ∃ t, r' = (r.1, with_ConsumedAt (Some t) r.2)).
Definition state_later (r r' : OAuthState * option Z) : Prop :=
  r' = r ∨ (r.2 = None ∧ ∃ t, r' = (r.1, Some t)).
Definition claim_later (r r' : Z * GuestClaimCode) : Prop :=
  r' = r ∨ (claim_RevokedAt r.2 = None ∧ claim_UserID r'.2 = claim_UserID r.2 ∧ claim_Code r'.2 = claim_Code r.2 ∧
            claim_CreatedAt r'.2 = claim_CreatedAt r.2).
(** The same revision is the same row. *)
Definition user_later (u u' : User) : Prop :=
  user_ID u' = user_ID u ∧ user_CreatedAt u' = user_CreatedAt u ∧
  (u' = u ∨ user_Version u < user_Version u').

#[export] Instance session_later_refl : Reflexive session_later. Proof. by left. Qed.
#[export] Instance token_later_refl : Reflexive token_later. Proof. by left. Qed.
#[export] Instance state_later_refl : Reflexive state_later. Proof. by left. Qed.
#[export] Instance claim_later_refl : Reflexive claim_later. Proof. by left. Qed.
#[export] Instance user_later_refl : Reflexive user_later. Proof. intros u. split_and!; auto. Qed.
#[export] Instance session_later_trans : Transitive session_later.
Proof. intros a b c [->|(Hn & t & ->)] [->|(Hn' & t' & ->)]; first [done | by left | right; by eauto]. Qed.
#[export] Instance token_later_trans : Transitive token_later.
Proof. intros a b c [->|(Hn & t & ->)] [->|(Hn' & t' & ->)]; first [done | by left | right; by eauto]. Qed.
#[export] Instance state_later_trans : Transitive state_later.
Proof. intros a b c [->|(Hn & t & ->)] [->|(Hn' & t' & ->)]; first [done | by left | right; by eauto]. Qed.
#[export] Instance claim_later_trans : Transitive claim_later.
Proof.
  intros a b c [->|(Hn & H1 & H2 & H3)] [->|(Hn' & H1' & H2' & H3')]; [by left|by right|by right|].
  right. split_and!; congruence.
Qed.
#[export] Instance user_later_trans : Transitive user_later.
Proof.
  intros a b c (H1 & H2 & H3) (H1' & H2' & H3'). split_and!; [congruence|congruence|].
  destruct H3 as [->|], H3' as [->|]; auto. right. lia.
Qed.

Section evolve.
Context `{Unicode, Postgres, Crypto}.

Record evolves (d d' : DB) : Prop := {
  ev_seq : users_seq d ≤ users_seq d' ∧ identities_seq d ≤ identities_seq d';
  ev_gone : ∀ id, id ≤ users_seq d → users d !! id = None → users d' !! id = None;
  ev_users : ∀ id u u', users d !! id = Some u → users d' !! id = Some u' → user_later u u';
  ev_sessions : evolves_in (λ s, Some (session_UserID s)) session_later (sessions d) (sessions d') (users d');
  ev_email : evolves_in (λ r, Some (token_UserID r.2)) token_later (email_tokens d) (email_tokens d') (users d');
  ev_reset : evolves_in (λ r, Some (token_UserID r.2)) token_later (reset_tokens d) (reset_tokens d') (users d');
  ev_claims : evolves_in (λ r, Some (claim_UserID r.2)) claim_later (claim_codes d) (claim_codes d') (users d');
  ev_states : evolves_in state_owner state_later (oauth_states d) (oauth_states d') (users d');
  ev_identities : ∀ k i i', oauth_identities d !! k = Some i → oauth_identities d' !! k = Some i' → i' = i;
  ev_unlinked : ∀ k, k ≤ identities_seq d → oauth_identities d !! k = None → oauth_identities d' !! k = None;
}.

Lemma evolves_frame d d' :
  users d' = users d → users_seq d' = users_seq d → identities_seq d' = identities_seq d →
  oauth_identities d' = oauth_identities d →
  evolves_in (λ s, Some (session_UserID s)) session_later (sessions d) (sessions d') (users d') →
  evolves_in (λ r, Some (token_UserID r.2)) token_later (email_tokens d) (email_tokens d') (users d') →
  evolves_in (λ r, Some (token_UserID r.2)) token_later (reset_tokens d) (reset_tokens d') (users d') →
  evolves_in (λ r, Some (claim_UserID r.2)) claim_later (claim_codes d) (claim_codes d') (users d') →
  evolves_in state_owner state_later (oauth_states d) (oauth_states d') (users d') →
  evolves d d'.
Proof.
  intros E1 E2 E3 E4 ?????. split; try assumption; rewrite ?E1, ?E2, ?E3, ?E4; try done.
  - intros id u u' Hu Hu'. simplify_eq. reflexivity.
  - intros k i i' Hi Hi'. by simplify_eq.
Qed.

Lemma evolves_refl d : evolves d d.
Proof. apply evolves_frame; try done; apply evolves_same, _. Qed.

Lemma evolves_cascade_user d id : 0 < id → evolves d (UserRepository.cascade_user id d).
Proof.
  intros Hid. split; simpl; try done;
    try (apply evolves_cascade; [apply _|]; intros k a Hp; simpl in Hp; apply dec_stable in Hp;
         first [by rewrite Hp | unfold state_owner; rewrite Hp; by apply Z.ltb_lt in Hid as ->]).
  - intros k _ Hk. destruct (decide (k = id)) as [->|]; [apply lookup_delete_eq|by rewrite lookup_delete_ne].
  - intros k u u' Hu [_ Hu']%lookup_delete_Some. simplify_eq. reflexivity.
  - intros k i i' Hi [Hi' _]%map_lookup_filter_Some. by simplify_eq.
  - intros k _ Hk. apply map_lookup_filter_None. by left.
Qed.

Lemma evolves_put_user d k row seq :
  users_seq d ≤ seq → (users_seq d < k ∨ is_Some (users d !! k)) →
  (∀ u, users d !! k = Some u → user_later u row) →
  evolves d (set_users (<[k := row]> (users d)) seq d).
Proof.
  intros Hseq Hk Hrow. split; simpl; try done; try (apply evolves_same; apply _).
  - intros id Hid Hn. rewrite lookup_insert_ne; [done|]. intros ->. destruct Hk as [|[? ?]]; [lia|congruence].
  - intros id u u' Hu Hu'. apply lookup_insert_Some in Hu' as [[<- <-]|[_ Hu']]; [by apply Hrow|].
    simplify_eq. reflexivity.
  - intros ? i i' Hi Hi'. by simplify_eq.
Qed.

Lemma consumed_evolves (t t' : gmap string (Z * Token)) us :
  consumed_in t t' → evolves_in (λ r, Some (token_UserID r.2)) token_later t t' us.
Proof.
  intros (k & i & s & now & Hk & Hn & _ & ->) k' a Hk'. right.
  destruct (decide (k' = k)) as [->|]; [|exists a; rewrite lookup_insert_ne by done; split; [done|reflexivity]].
  simplify_eq. eexists. rewrite lookup_insert_eq. split; [done|]. right. simpl. eauto.
Qed.
Lemma revoked_evolves t t' us :
  revoked_in t t' → evolves_in (λ s, Some (session_UserID s)) session_later t t' us.
Proof.
  intros Hr k a Hk. right. destruct (Hr k) as [He|(s & now & Hs & Hn & He)].
  - exists a. rewrite He. split; [done|reflexivity].
  - simplify_eq. eexists. split; [done|]. right. eauto.
Qed.
Lemma claims_evolves t t' us :
  claims_in t t' → evolves_in (λ r, Some (claim_UserID r.2)) claim_later t t' us.
Proof.
  intros Hr k a Hk. right. destruct (Hr k) as [He|(i & c & c' & Hc & Hc' & Q1 & Q2 & Q3 & Q4)].
  - exists a. rewrite He. split; [done|reflexivity].
  - simplify_eq. eexists. split; [done|]. by right.
Qed.

Lemma change_evolves del d d' : change del d d' → db_wf d → evolves d d'.
Proof.
  intros Hc Hwf. destruct Hc as
    [row|k old row Hold Hid Hcr Hv _ _ _|id u _ Hu _|id u Hu _ _|row Hn _ _|t Ht|row Hn _ _
    |t Ht|row Hn _ _|t Ht|c Hn _ _ _|t Ht|g m|k old g|m|gid uid old m|gid uid m
    |row Hn _ _|k row now Hk _|i Hid Hn Hx _|k i Hk _|scope act h row|t|a|a|k row Hk|sid|e|];
    try (apply evolves_frame; simpl; try done; first
           [ apply evolves_same; apply _ | apply evolves_fresh; [apply _|done] | by apply revoked_evolves
           | by apply consumed_evolves | by apply claims_evolves ]).
  - apply evolves_put_user; [lia|left; lia|]. intros u Hu. by rewrite fresh_user in Hu.
  - apply evolves_put_user; [lia|right; eauto|]. intros u Hu. simplify_eq. split_and!; [done|done|right; lia].
  - destruct (wf_users d Hwf _ _ Hu) as [(_ & ? & _) _]. apply evolves_cascade_user. lia.
  - destruct (wf_users d Hwf _ _ Hu) as [(_ & ? & _) _]. apply evolves_cascade_user. lia.
  - apply evolves_frame; simpl; try done; try (apply evolves_same; apply _).
    intros k' a Hk'. right. destruct (decide (k' = k)) as [->|]; [|exists a; rewrite lookup_insert_ne by done; split; [done|reflexivity]].
    simplify_eq. eexists. rewrite lookup_insert_eq. split; [done|]. right. simpl. eauto.
  - assert (Hf : oauth_identities d !! (identities_seq d + 1) = None).
    { destruct (oauth_identities d !! _) as [j|] eqn:E; [|done].
      destruct (wf_identities d Hwf _ _ E) as [[_ ?] _]. lia. }
    split; simpl; try done; try (apply evolves_same; apply _).
    + lia.
    + intros id u u' Hu Hu'. simplify_eq. reflexivity.
    + intros k j j' Hj Hj'. rewrite lookup_insert_ne in Hj'; [by simplify_eq|congruence].
    + intros k Hk Hj. rewrite lookup_insert_ne; [done|lia].
  - split; simpl; try done; try (apply evolves_same; apply _).
    + intros id u u' Hu Hu'. simplify_eq. reflexivity.
    + intros k' j j' Hj [_ Hj']%lookup_delete_Some. by simplify_eq.
    + intros k' _ Hj. apply lookup_delete_None. by right.
Qed.

Lemma evolves_then d d1 d2 : db_wf d → evolves d d1 → evolves d1 d2 → evolves d d2.
Proof.
  intros Hwf [S1 G1 U1 A1 B1 C1 D1 E1 I1 L1] [S2 G2 U2 A2 B2 C2 D2 E2 I2 L2].
  assert (Hgone : ∀ id, is_Some (users d !! id) → users d1 !! id = None → users d2 !! id = None).
  { intros id [u Hu] Hn. apply G2; [|done]. destruct (wf_users d Hwf _ _ Hu) as [(_ & ? & _) _]. lia. }
  split.
  - lia.
  - intros id Hid Hn. apply G2; [lia|]. by apply G1.
  - intros id u u' Hu Hu'. destruct (users d1 !! id) as [u1|] eqn:E; [etransitivity; eauto|].
    by rewrite Hgone in Hu' by eauto.
  - eapply evolves_trans; [apply _|by intros a a' [->|(_ & t & ->)]| |done|done].
    intros k a id Hk [= <-]. apply Hgone. by apply (wf_sessions d Hwf k a Hk).
  - eapply evolves_trans; [apply _|by intros a a' [->|(_ & t & ->)]| |done|done].
    intros k a id Hk [= <-]. apply Hgone. by apply (wf_email_tokens d Hwf k a Hk).
  - eapply evolves_trans; [apply _|by intros a a' [->|(_ & t & ->)]| |done|done].
    intros k a id Hk [= <-]. apply Hgone. by apply (wf_reset_tokens d Hwf k a Hk).
  - eapply evolves_trans; [apply _|by intros a a' [->|(_ & Hu & _)]; [|rewrite Hu]| |done|done].
    intros k a id Hk [= <-]. apply Hgone. by apply (wf_claims d Hwf k a Hk).
  - eapply evolves_trans; [apply _|by intros a a' [->|(_ & t & ->)]| |done|done].
    intros k a id Hk Ho. apply Hgone. by eapply (wf_states d Hwf k a Hk).
  - intros k i i' Hi Hi'. destruct (oauth_identities d1 !! k) as [j|] eqn:E.
    + rewrite (I2 _ _ _ E Hi'). by eapply I1.
    + destruct (wf_identities d Hwf _ _ Hi) as [[_ ?] _]. rewrite L2 in Hi' by (lia || done). done.
  - intros k Hk Hn. apply L2; [lia|]. by apply L1.
Qed.

Lemma steps_evolve del d d' : steps del d d' → db_wf d → evolves d d'.
Proof.
  induction 1 as [|d d1 d' Hs%step_change _ IH]; intros Hwf; [apply evolves_refl|].
  eapply evolves_then; [done|by eapply change_evolves|]. apply IH. by eapply change_wf.
Qed.
End evolve.
