(* ===== verification/App.v ===== *)
(** * The wired application: internal/app/app.go

    [Graph] holds what [New] takes from the configuration; the definitions
    below it are the services as [New] wires them: single sign-on as a provider
    when [hydra] is set, as a client when [issuer] is.  A [use_case] is one call into them, and [serve]
    runs it.  Every use case moves the database along [steps]. *)
From S2P Require Export Steps OAuth Settings Admin SSOClient.
Import UserRepository Sessions.

(** The fields of [config.Config] the modelled services take; the limiter
    configurations other than sign-in's are constants of [New].  [hydra] is the
    admin client of provider mode, [issuer] the OpenID Connect client of client
    mode. *)
Record Config := mkConfig {
  SessionLifetime : Z;
  EmailConfirmationRequired : bool;
  PublicURL : URL;
  AuthRateLimit : Z;
  GuestRetention : Z;
  providers : gmap string OAuthProvider;
  hydra : option SSOAdmin;
  issuer : option SSORelyingParty;
}.

Inductive use_case :=
(* sessions, sign-in and sign-up *)
| DoSignIn (input : SignInInput) (origin : string)
| DoSignUp (input : SignUpInput)
| DoLookup (id : string)
| DoSignOut (id : string)
(* links *)
| DoConfirm (token : string)
| DoResend (email : string)
| DoRequestReset (email : string)
| DoRedeemReset (token password : string)
(* guests *)
| DoCreateGuest (origin theme : string)
| DoRedeemGuest (origin code : string)
| DoUpgradeGuest (userID : Z) (input : GuestUpgradeInput)
| DoIssueClaim (userID : Z)
| DoCleanupGuests
(* account settings *)
| DoUpdatePassword (userID : Z) (input : PasswordSettingsInput)
| DoUpdateProfile (userID : Z) (input : ProfileSettingsInput)
| DoUpdateLocale (userID : Z) (locale : string)
| DoUpdateTheme (userID : Z) (theme : string)
(* groups *)
| DoCreateGroup (userID : Z) (name : string)
| DoListGroups (userID : Z)
| DoGroupDetail (userID groupID : Z)
| DoRenameGroup (userID groupID version : Z) (name : string)
| DoRotateInvite (userID groupID : Z)
| DoJoinGroup (userID : Z) (code : string)
| DoChangeRole (actorID groupID targetID version : Z) (role : string)
| DoRemoveMember (actorID groupID targetID version : Z)
| DoLeaveGroup (userID groupID : Z)
(* external providers *)
| DoStartOAuth (provider : string)
| DoStartLink (userID : Z) (provider : string)
| DoCompleteCallback (actorID : Z) (provider code state : string)
| DoUnlink (userID identityID : Z)
(* single sign-on, as provider and as client *)
| DoSSOBeginLogin (challenge : string) (currentUserID : Z)
| DoSSOClientName (challenge : string)
| DoSSOCompleteLogin (challenge : string) (userID : Z)
| DoSSOConsent (challenge : string)
| DoSSOLogout (challenge : string)
| DoSSOStart
| DoSSOStartUpgrade (guestID : Z)
| DoSSOCallback (actorID : Z) (code state : string)
| DoSSOBackChannelLogout (token : string)
| DoSSOSignOutURL (sessionID : string)
(* usage *)
| DoRecordUsage (event : UsageEvent)
(* administration *)
| DoAdminCreate (actor : AdminActionContext) (input : AdminAccountInput)
| DoAdminUpdate (actor : AdminActionContext) (targetID : Z) (input : AdminAccountUpdateInput)
| DoAdminDelete (actor : AdminActionContext) (targetID version : Z)
| DoAdminRevokeSessions (actor : AdminActionContext) (targetID : Z)
| DoAdminList (query : AdminUserQuery)
| DoAdminConfirmEmail (actor : AdminActionContext) (targetID : Z)
| DoAdminSendConfirmation (actor : AdminActionContext) (targetID : Z)
| DoAdminRemoveIdentity (actor : AdminActionContext) (targetID identityID : Z)
| DoLockoutStatus (target : User)
| DoClearLockout (actor : AdminActionContext) (target : User)
| DoAuditList (query : AuditQuery)
| DoRateLimitOverview
| DoRateLimitClearAction (actor : AdminActionContext) (action : string)
| DoRateLimitClearAll (actor : AdminActionContext).

Module App.
Section app.
Context `{Unicode, MailParser, Postgres, Crypto, PasswordHashing, URLParser} (cfg : Config).

Definition minute : Z := 60 * second.
Definition hour : Z := 60 * minute.
Definition DefaultEmailConfirmationLifetime : Z := 24 * hour.
Definition DefaultPasswordResetLifetime : Z := hour.
Definition DefaultOAuthStateLifetime : Z := 10 * minute.
Definition DefaultAuthenticationRateLimitConfig : RateLimitConfig := mkRateLimitConfig 10 minute 10000.

Definition authenticationRateLimitConfig : RateLimitConfig :=
  if 0 <? AuthRateLimit cfg then mkRateLimitConfig (AuthRateLimit cfg) (Window DefaultAuthenticationRateLimitConfig) (MaxKeys DefaultAuthenticationRateLimitConfig)
  else DefaultAuthenticationRateLimitConfig.

Definition signInLimiter : RateLimiter World :=
  RateLimitBuckets.newSharedRateLimiter "signin" authenticationRateLimitConfig.
Definition confirmationLimiter : RateLimiter World :=
  RateLimitBuckets.newSharedRateLimiter "confirmation" (mkRateLimitConfig 10 minute 0).
Definition passwordResetLimiter : RateLimiter World :=
  RateLimitBuckets.newSharedRateLimiter "password-reset" (mkRateLimitConfig 10 minute 0).
Definition guestLimiter : RateLimiter World :=
  RateLimitBuckets.newSharedRateLimiter "guest" (mkRateLimitConfig 10 minute 0).
Definition groupJoinLimiter : RateLimiter World :=
  RateLimitBuckets.newSharedRateLimiter "group-join" (mkRateLimitConfig 20 minute 0).

Definition ssoProvider : option SSOProviderService :=
  (λ admin, mkSSOProvider admin (SessionLifetime cfg) (EmailConfirmationRequired cfg)) <$> hydra cfg.
(** [sessionService.SetSSORevoker(ssoProvider)]. *)
Definition ssoRevoker : option (Z → M unit) := SSOProvider.RevokeUser <$> ssoProvider.
Definition sessionService : SessionService := mkSessionService (SessionLifetime cfg) ssoRevoker.
(** [strings.TrimRight(PublicURL.String(), "/") + "/en/sign-in"]. *)
Definition postLogout : string := TrimRightSlash (url_String (PublicURL cfg)) +:+ "/en/sign-in".
Definition ssoClient : option SSOClientService :=
  (λ rp, mkSSOClient rp sessionService DefaultOAuthStateLifetime postLogout) <$> issuer cfg.
(** [noopFailedAttemptState]. *)
Definition noop_Clear (_ : string) : M unit := ret tt.
Definition signInBase : SignInService :=
  mkSignInService sessionService noop_Clear (EmailConfirmationRequired cfg).
Definition confirmation : EmailConfirmationService :=
  mkConfirmationService (PublicURL cfg) DefaultEmailConfirmationLifetime.
Definition passwordResetter : PasswordResetService :=
  mkResetService passwordResetLimiter (PublicURL cfg) DefaultPasswordResetLifetime.
Definition oauth : OAuthSignInService :=
  mkOAuthService (providers cfg) sessionService DefaultOAuthStateLifetime.
Definition auditService : AuditRecorder := Some Record.
Definition revoker : option (Z → M unit) := Some (RevokeUser sessionService).
Definition limiters : list (RateLimiter World) :=
  [signInLimiter; confirmationLimiter; passwordResetLimiter; guestLimiter; groupJoinLimiter].

(** The answer of a use case is for its caller; here only its effect counts. *)
Definition done_ {A} (m : M A) : M unit := m ;;; ret tt.

(** A route is there when its service is wired. *)
Definition wired {S A} (service : option S) (m : S → M A) : M unit :=
  match service with Some s => done_ (m s) | None => ret tt end.

Definition serve (u : use_case) : M unit :=
  match u with
  | DoSignIn input origin => done_ (SignIn.RateLimitedSignIn signInBase signInLimiter true input origin)
  | DoSignUp input =>
    done_ (SignUp.RateLimitedSignUp sessionService (EmailConfirmationRequired cfg) signInLimiter input)
  | DoLookup id => done_ (Lookup id)
  | DoSignOut id => SignOut id
  | DoConfirm token => Confirmation.Confirm token
  | DoResend email => Confirmation.Resend confirmation confirmationLimiter email
  | DoRequestReset email => PasswordReset.Request passwordResetter email
  | DoRedeemReset token password => PasswordReset.Redeem sessionService token password
  | DoCreateGuest origin theme => done_ (Guests.RateLimitedCreate sessionService guestLimiter origin theme)
  | DoRedeemGuest origin code => done_ (Guests.RateLimitedRedeem sessionService guestLimiter origin code)
  | DoUpgradeGuest userID input => done_ (Guests.Upgrade sessionService userID input)
  | DoIssueClaim userID => done_ (Guests.Issue userID)
  | DoCleanupGuests => done_ (Guests.Cleanup (GuestRetention cfg))
  | DoUpdatePassword userID input => done_ (PasswordReset.Update sessionService userID input)
  | DoUpdateProfile userID input => done_ (Settings.UpdateProfile userID input)
  | DoUpdateLocale userID locale => done_ (Settings.UpdateLocale userID locale)
  | DoUpdateTheme userID theme => Settings.UpdateTheme userID theme
  | DoCreateGroup userID name => done_ (Groups.Create userID name)
  | DoListGroups userID => done_ (Groups.List userID)
  | DoGroupDetail userID groupID => done_ (Groups.Detail userID groupID)
  | DoRenameGroup userID groupID version name =>
    done_ (Groups.Rename auditService userID groupID version name)
  | DoRotateInvite userID groupID => done_ (Groups.RotateInvite auditService userID groupID)
  | DoJoinGroup userID code => done_ (Groups.RateLimitedJoin groupJoinLimiter userID code)
  | DoChangeRole actorID groupID targetID version role =>
    done_ (Groups.ChangeRole auditService actorID groupID targetID version role)
  | DoRemoveMember actorID groupID targetID version =>
    Groups.RemoveMember auditService actorID groupID targetID version
  | DoLeaveGroup userID groupID => Groups.Leave userID groupID
  | DoStartOAuth provider => done_ (OAuth.Start oauth provider)
  | DoStartLink userID provider => done_ (OAuth.StartLink oauth userID provider)
  | DoCompleteCallback actorID provider code state =>
    done_ (OAuth.CompleteCallback oauth actorID provider code state)
  | DoUnlink userID identityID => OAuth.Unlink userID identityID
  | DoSSOBeginLogin challenge currentUserID =>
    wired ssoProvider (λ s, SSOProvider.BeginLogin s challenge currentUserID)
  | DoSSOClientName challenge => wired ssoProvider (λ s, SSOProvider.LoginClientName s challenge)
  | DoSSOCompleteLogin challenge userID => wired ssoProvider (λ s, SSOProvider.CompleteLogin s challenge userID)
  | DoSSOConsent challenge => wired ssoProvider (λ s, SSOProvider.Consent s challenge)
  | DoSSOLogout challenge => wired ssoProvider (λ s, SSOProvider.Logout s challenge)
  | DoSSOStart => wired ssoClient SSOClient.Start
  | DoSSOStartUpgrade guestID => wired ssoClient (λ s, SSOClient.StartUpgrade s guestID)
  | DoSSOCallback actorID code state => wired ssoClient (λ s, SSOClient.Callback s actorID code state)
  | DoSSOBackChannelLogout token => wired ssoClient (λ s, SSOClient.BackChannelLogout s token)
  | DoSSOSignOutURL sessionID => wired ssoClient (λ s, SSOClient.SignOutURL s sessionID)
  | DoRecordUsage event => UsageEventRepository.RecordUsageEvent event
  | DoAdminCreate actor input => done_ (Admin.Create auditService actor input)
  | DoAdminUpdate actor targetID input => done_ (Admin.Update auditService revoker actor targetID input)
  | DoAdminDelete actor targetID version => Admin.Delete auditService revoker actor targetID version
  | DoAdminRevokeSessions actor targetID => Admin.RevokeSessions auditService revoker actor targetID
  | DoAdminList query => done_ (Admin.List query)
  | DoAdminConfirmEmail actor targetID => Admin.ConfirmEmail auditService actor targetID
  | DoAdminSendConfirmation actor targetID => Admin.SendConfirmation auditService confirmation actor targetID
  | DoAdminRemoveIdentity actor targetID identityID =>
    Admin.RemoveIdentity auditService OAuth.Unlink actor targetID identityID
  | DoLockoutStatus target => done_ (Lockout.Status signInLimiter target)
  | DoClearLockout actor target => Lockout.ClearLockout signInLimiter auditService actor target
  | DoAuditList query => done_ (AdminHistory.AuditList query)
  | DoRateLimitOverview => done_ (RateLimitAdmin.Overview limiters)
  | DoRateLimitClearAction actor action =>
    done_ (RateLimitAdmin.AdminClearAction limiters auditService actor action)
  | DoRateLimitClearAll actor => done_ (RateLimitAdmin.AdminClearAll limiters auditService actor)
  end.

(** Use cases one after another; an error of one does not stop the next. *)
Fixpoint serve_all (us : list use_case) : M unit :=
  match us with
  | [] => ret tt
  | u :: us => ignore (serve u) ;;; serve_all us
  end.
End app.
End App.
