(* ===== verification/WebAuth.v ===== *)
(** * Signing in and out in the browser: internal/adapter/http/auth.go, sso.go

    Handlers call the services [New] wires.  [Site] is what
    cmd/web puts into [Dependencies] besides them.  Ports that
    [Dependencies] always receives are not optional here. *)
From S2P Require Export WebPage App AdminReports.
Import UserRepository Sessions Settings Locale WebSession.

(** [strings.TrimRight(SSOIssuerURL, "/") + "/oauth2/sessions/logout"] in
    provider mode, empty otherwise; [SSOAccountURL] in client mode. *)
Record Site := mkSite {
  site_config : Config;
  site_cookie : SessionCookie;
  site_catalogs : Catalog.Catalogs;
  site_SSOLogoutURL : string;
  site_SSOAccountURL : string;
  site_admin : AdminPorts;
}.

(** [User{}]. *)
Definition zero_User : User := mkUser 0 None None None None false false "" "" 0 None 0.
Definition ignore_call {A} (m : M A) : Web unit := call m ;;; ret tt.
Definition get_or_post : string := "GET, POST".
Definition error_alert (message : string) : Alert := mkAlert "error" message.

Module WebAuth.
Section auth.
Context `{Unicode, MailParser, Postgres, Crypto, PasswordHashing, URLParser, FloatParser, ReferenceParser, Templates}.
Context (site : Site).
#[local] Abbreviation cfg := (site_config site).
#[local] Abbreviation cookie := (site_cookie site).
#[local] Abbreviation translate := (translate (site_catalogs site)).
#[local] Abbreviation formLabels := (formLabels (site_catalogs site)).
#[local] Abbreviation primaryNavigation := (primaryNavigation (site_catalogs site)).

Definition authenticate (r : Request) : Web (outcome Principal) := call (Authenticate cookie r).
(** The browser's session passes the authenticator. *)
Definition signed_in (r : Request) : Web bool := let! p := authenticate r in ret (is_ok p).
Definition currentUser (r : Request) : Web (User * bool) :=
  let! principal := authenticate r in
  match principal with
  | Err _ => ret (zero_User, false)
  | Ok principal =>
    match ParseInt (principal_ID principal) with
    | None => ret (zero_User, false)
    | Some userID =>
      let! user := call (FindUserByID userID) in
      match user with
      | Err _ => ret (zero_User, false)
      | Ok user => ret (user, user_ID user =? userID)
      end
    end
  end.

(** ** Single sign-on in provider mode: the pending login challenge *)
Definition loginChallengeCookieName : string := "goweb_login_challenge".
Definition loginChallengeLifetime : Z := 1800.
Definition maxLoginChallengeBytes : Z := 4096.
Definition login_challenge_byte (c : ascii) : bool :=
  let b := byte_of c in
  in_range 97 122 b || in_range 65 90 b || in_range 48 57 b || existsb (Ascii.eqb c) ["-"; "_"; "."; "~"; "="]%char.
Definition validLoginChallenge (value : string) : bool :=
  negb (String.eqb value "" || (maxLoginChallengeBytes <? len value)) && all_chars login_challenge_byte value.
Definition loginChallengeCookie (value : string) (maxAge : Z) : Cookie :=
  mkCookie loginChallengeCookieName value "/" None maxAge true (sc_secure cookie) SameSiteLaxMode.

Definition completeSSOLogin (r : Request) (sessionID : string) : Web bool :=
  match App.ssoProvider cfg, Cookie_ r loginChallengeCookieName with
  | Some provider, Some challenge =>
    SetCookie (loginChallengeCookie "" (-1)) ;;;
    if negb (validLoginChallenge challenge) then ret false else
    let! session := call (Lookup sessionID) in
    match session with
    | Err _ => ret false
    | Ok session =>
      let! target := call (SSOProvider.CompleteLogin provider challenge (session_UserID session)) in
      match target with
      | Err _ => ret false
      | Ok target => if String.eqb target "" then ret false else
                     redirectWithStatus r target StatusSeeOther ;;; ret true
      end
    end
  | _, _ => ret false
  end.

(** ** A new session in this browser *)
Definition replaceSession (r : Request) (sessionID : string) : Web bool :=
  match Read cookie r with
  | Some previous => if String.eqb previous sessionID then ret tt else ignore_call (SignOut previous)
  | None => ret tt
  end ;;;
  let! now := Now in Set_ cookie sessionID now.
Definition finishSignIn (r : Request) (language sessionID destination : string) : Web unit :=
  let! written := replaceSession r sessionID in
  if negb written then renderError StatusInternalServerError else
  let! redirected := completeSSOLogin r sessionID in
  if redirected : bool then ret tt
  else if IsHTMX r then hx_redirect (mustLocalePath language destination) else redirectLocalized language destination.

(** ** The password pages *)
Definition oauthProviders (language : string) : list OAuthProviderView :=
  (λ name, mkProviderView name (oauthProviderLabel name) (mustLocalePath language ("/oauth/" +:+ name)))
  <$> Providers.Names (providers cfg).
Definition dashes (c : ascii) : ascii := if Ascii.eqb c "-" then "_"%char else c.
(** The name of the app the visitor is signing in to. *)
Definition sso_client_name (r : Request) : Web string :=
  match App.ssoProvider cfg, Cookie_ r loginChallengeCookieName with
  | Some provider, Some challenge =>
    if negb (validLoginChallenge challenge) then ret "" else
    let! name := call (SSOProvider.LoginClientName provider challenge) in
    ret (match name with Ok name => name | Err _ => "" end)
  | _, _ => ret ""
  end.
Definition renderPasswordPage (r : Request) (language kind : string) (form : FormData) (status : Z) (alerts : list Alert) : Web unit :=
  let prefix := "auth." +:+ map_string dashes kind in
  let page := zero_page <| page_Language := language |> <| page_Title := translate language (prefix +:+ ".title") |>
    <| page_Heading := translate language (prefix +:+ ".heading") |>
    <| page_Description := translate language (prefix +:+ ".description") |>
    <| page_Kind := kind |> <| page_CSRFToken := csrfToken r |> <| page_Form := form |>
    <| page_FormAction := mustLocalePath language ("/" +:+ kind) |> <| page_FormMethod := MethodPost |>
    <| page_SubmitLabel := translate language (prefix +:+ ".submit") |>
    <| page_SignInURL := mustLocalePath language "/sign-in" |> <| page_SignUpURL := mustLocalePath language "/sign-up" |>
    <| page_Navigation := primaryNavigation language false |> <| page_Template := "auth" |>
    <| page_FragmentTemplate := "auth-fragment" |> <| page_Labels := formLabels language |>
    <| page_OAuthProviders := oauthProviders language |> in
  let! name := sso_client_name r in
  let query_alert key value id :=
    if String.eqb kind "sign-in" && String.eqb (Query_Get r key) value then [error_alert (translate language id)] else [] in
  renderPage r (page <| page_SSOClientName := name |>
    <| page_Alerts := alerts ++ query_alert "oauth" "error" "oauth.error.generic" ++ query_alert "sso" "expired" "sso.error.expired" |>) status.

Definition passwordForm (r : Request) (kind : string) : FormData :=
  mkForm true (if String.eqb kind "sign-up"
               then <["email" := PostFormValue r "email"]> {["username" := PostFormValue r "username"]}
               else {["identifier" := PostFormValue r "identifier"]}) [].
Definition password_refused (e : error) : bool :=
  errors_Is e ErrPasswordTooShort || errors_Is e ErrPasswordTooLong || errors_Is e ErrInvalidPassword.
Definition signUpError (language : string) (e : error) : Alert * list FieldError :=
  let duplicateUsername := errors_Is e ErrDuplicateUsername in
  let duplicateEmail := errors_Is e ErrDuplicateEmail in
  let messageID := if errors_Is e ErrRateLimited then "auth.error.rate_limited"
                   else if duplicateUsername then "auth.error.duplicate_username"
                   else if duplicateEmail then "auth.error.duplicate_email" else "auth.error.invalid" in
  let field := if password_refused e then "password"
               else if errors_Is e ErrInvalidEmail then "email"
               else if duplicateUsername then "username"
               else if duplicateEmail then "email" else "" in
  (error_alert (translate language messageID),
   if String.eqb field "" then [] else [mkFieldError field (translate language messageID)]).

Definition postSignUp (r : Request) (language kind : string) (form : FormData) : Web unit :=
  let! result := call (SignUp.RateLimitedSignUp (App.sessionService cfg) (EmailConfirmationRequired cfg) (App.signInLimiter cfg)
    (mkSignUpInput (PostFormValue r "email") (PostFormValue r "password") (PostFormValue r "username")
                   (PostFormValue r "display_name") (requestOrigin r))) in
  match result with
  | Err e =>
    let (handle, fieldErrors) := signUpError language e in
    renderPasswordPage r language kind (mkForm true (form_Values form) fieldErrors) StatusUnprocessableEntity [handle]
  | Ok result =>
    if signup_ConfirmationRequired result then
      ignore_call (Confirmation.Issue (App.confirmation cfg) (user_ID (signup_User result))) ;;;
      if IsHTMX r then hx_redirect (mustLocalePath language "/check-inbox") else redirectLocalized language "/check-inbox"
    else finishSignIn r language (match signup_Session result with Some x => session_ID x | None => "" end) "/home"
  end.
Definition postSignIn (r : Request) (language kind : string) (form : FormData) : Web unit :=
  let! result := call (SignIn.RateLimitedSignIn (App.signInBase cfg) (App.signInLimiter cfg) true
    (mkSignInInput (PostFormValue r "identifier") (PostFormValue r "password")) (requestOrigin r)) in
  match result with
  | Err e =>
    let messageID := if errors_Is e ErrEmailUnconfirmed then "auth.error.unconfirmed" else "auth.error.invalid_credentials" in
    renderPasswordPage r language kind form (formFailureStatus r StatusUnauthorized) [error_alert (translate language messageID)]
  | Ok result => finishSignIn r language (session_ID (result_Session result)) "/home"
  end.
Definition handlePasswordPage (kind : string) : handler := λ r,
  match requestLanguage r with
  | None => renderError StatusNotFound
  | Some language =>
    if String.eqb (req_Method r) MethodGet then
      let! authenticated := signed_in r in
      if authenticated : bool then redirectLocalized language "/home"
      else renderPasswordPage r language kind FormData_zero StatusOK []
    else if negb (String.eqb (req_Method r) MethodPost) then method_not_allowed get_or_post
    else if negb (req_FormOK r) then
      renderPasswordPage r language kind (mkForm true ∅ []) StatusUnprocessableEntity
        [error_alert (translate language "auth.error.invalid")]
    else if String.eqb kind "sign-up" then postSignUp r language kind (passwordForm r kind)
    else postSignIn r language kind (passwordForm r kind)
  end.
Definition signUp : handler := handlePasswordPage "sign-up".
Definition signIn : handler := handlePasswordPage "sign-in".

(** ** Home *)
Definition home : handler := λ r,
  match requestLanguage r with
  | None => renderError StatusUnauthorized
  | Some language =>
    let! current := currentUser r in
    let '(user, ok) := current in
    if negb ok then redirectLocalized language "/sign-in" else
    renderPage r (zero_page <| page_Language := language |> <| page_Title := "GoWeb" |> <| page_Heading := "Your home" |>
      <| page_Kind := "home" |> <| page_Template := "home" |> <| page_FragmentTemplate := "home-fragment" |>
      <| page_CSRFToken := csrfToken r |> <| page_Labels := formLabels language |>
      <| page_Account := Some (settingsAccountMenu language user) |> <| page_Navigation := primaryNavigation language true |>) StatusOK
  end.

(** ** Signing out *)
Definition issuer_logout (sessionID : string) : Web string :=
  match App.ssoClient cfg with
  | None => ret ""
  | Some client => let! url := call (SSOClient.SignOutURL client sessionID) in ret (match url with Ok url => url | Err _ => "" end)
  end.
(** The issuer's logout URL, or nothing when the session could not be ended. *)
Definition end_session (r : Request) : Web (option string) :=
  match Read cookie r with
  | None => ret (Some "")
  | Some sessionID =>
    let! issuerLogout := issuer_logout sessionID in
    let! ended := call (SignOut sessionID) in
    ret (match ended with Ok _ => Some issuerLogout | Err _ => None end)
  end.
Definition signOut : handler := λ r,
  if negb (String.eqb (req_Method r) MethodPost) then method_not_allowed MethodPost else
  let! ended := end_session r in
  match ended with
  | None => renderError StatusInternalServerError
  | Some issuerLogout =>
    Now ;;; Clear cookie ;;;
    if negb (String.eqb issuerLogout "") then Redirect issuerLogout StatusSeeOther
    else if negb (String.eqb (site_SSOLogoutURL site) "") then Redirect (site_SSOLogoutURL site) StatusSeeOther
    else redirectLocalized (match requestLanguage r with Some language => language | None => Default end) "/sign-in"
  end.

(** ** Hydra's challenges: sso.go *)
Definition ssoFailureRedirect (r : Request) : Web unit :=
  match Path (resolveRequestLanguage r "") "/sign-in" with
  | Err _ => renderError StatusInternalServerError
  | Ok path => Redirect (path +:+ "?sso=expired") StatusSeeOther
  end.
(** The account of the browser's session, or 0. *)
Definition current_user_id (r : Request) : Web Z :=
  let! principal := authenticate r in
  ret (match principal with
       | Ok principal => match ParseInt (principal_ID principal) with Some id => id | None => 0 end
       | Err _ => 0
       end).
Section provider.
Context (provider : SSOProviderService).
Definition ssoLogin : handler := λ r,
  let challenge := Query_Get r "login_challenge" in
  if negb (validLoginChallenge challenge) then renderError StatusBadRequest else
  let! currentUserID := current_user_id r in
  let! target := call (SSOProvider.BeginLogin provider challenge currentUserID) in
  match target with
  | Err _ => ssoFailureRedirect r
  | Ok target =>
    if negb (String.eqb target "") then Redirect target StatusFound else
    SetCookie (loginChallengeCookie challenge loginChallengeLifetime) ;;;
    redirectLocalized (resolveRequestLanguage r "") "/sign-in"
  end.
Definition ssoConsent : handler := λ r,
  let challenge := Query_Get r "consent_challenge" in
  if negb (validLoginChallenge challenge) then renderError StatusBadRequest else
  let! target := call (SSOProvider.Consent provider challenge) in
  match target with Err _ => ssoFailureRedirect r | Ok target => Redirect target StatusFound end.
Definition ssoLogout : handler := λ r,
  let challenge := Query_Get r "logout_challenge" in
  if negb (validLoginChallenge challenge) then renderError StatusBadRequest else
  let! target := call (SSOProvider.Logout provider challenge) in
  match Read cookie r with Some sessionID => ignore_call (SignOut sessionID) | None => ret tt end ;;;
  Now ;;; Clear cookie ;;;
  match target with
  | Err _ => redirectLocalized (resolveRequestLanguage r "") "/sign-in"
  | Ok target => Redirect target StatusFound
  end.
End provider.
Definition ssoErrorMessages : list (string * string) :=
  [("invalid_client", "sso.error_page.invalid_client"); ("unauthorized_client", "sso.error_page.invalid_client");
   ("invalid_request", "sso.error_page.invalid_request"); ("invalid_scope", "sso.error_page.invalid_request");
   ("unsupported_response_type", "sso.error_page.invalid_request"); ("access_denied", "sso.error_page.access_denied");
   ("login_required", "sso.error_page.access_denied"); ("request_forbidden", "sso.error_page.access_denied")].
Definition ssoError : handler := λ r,
  let language := resolveRequestLanguage r "" in
  let messageID := match first_value (Query_Get r "error") ssoErrorMessages with Some id => id | None => "sso.error_page.generic" end in
  renderPage r (zero_page <| page_Language := language |> <| page_Title := translate language "sso.error_page.title" |>
    <| page_Heading := translate language "sso.error_page.heading" |> <| page_Kind := "state" |>
    <| page_Message := translate language messageID |> <| page_Template := "state" |>
    <| page_FragmentTemplate := "state-fragment" |> <| page_SignInURL := mustLocalePath language "/sign-in" |>
    <| page_Navigation := primaryNavigation language false |> <| page_Labels := formLabels language |>) StatusBadRequest.
End auth.
End WebAuth.
