(* ===== verification/WebFlows.v ===== *)
(** * External sign-in, recovery and guests in the browser

    internal/adapter/http/oauth.go, recovery.go, guest.go, sso_client.go. *)
From S2P Require Export WebAuth.
Import UserRepository Sessions Settings Locale WebSession WebAuth.

Module WebFlows.
Section flows.
Context `{Unicode, MailParser, Postgres, Crypto, PasswordHashing, URLParser, FloatParser, ReferenceParser, Templates}.
Context (site : Site).
#[local] Abbreviation cfg := (site_config site).
#[local] Abbreviation cookie := (site_cookie site).
#[local] Abbreviation translate := (translate (site_catalogs site)).
#[local] Abbreviation formLabels := (formLabels (site_catalogs site)).
#[local] Abbreviation currentUser := (currentUser site).
#[local] Abbreviation finishSignIn := (finishSignIn site).
#[local] Abbreviation replaceSession := (replaceSession site).

(** ** External providers: oauth.go *)
Definition oauthStateCookieName : string := "goweb_oauth_state".
Definition setOAuthStateCookie (state : string) : Web unit :=
  SetCookie (mkCookie oauthStateCookieName state "/" None (Z.quot App.DefaultOAuthStateLifetime second) true (sc_secure cookie) SameSiteLaxMode).
Definition clearOAuthStateCookie : Web unit :=
  SetCookie (mkCookie oauthStateCookieName "" "/" None (-1) true (sc_secure cookie) SameSiteLaxMode).
Definition oauthStateBound (r : Request) (state : string) : bool :=
  match Cookie_ r oauthStateCookieName with
  | Some value => negb (String.eqb state "") && String.eqb value state
  | None => false
  end.
Definition oauthFailureRedirect (r : Request) : Web unit :=
  match Path (recoveryLanguage r) "/sign-in" with
  | Err _ => renderError StatusInternalServerError
  | Ok path => redirectWithStatus r (path +:+ "?oauth=error") StatusSeeOther
  end.

Definition oauthStart (provider : string) : handler := λ r,
  if negb (String.eqb (req_Method r) MethodGet) then set_header "Allow" MethodGet ;;; renderError StatusNotFound else
  let! started := call (OAuth.Start (App.oauth cfg) provider) in
  match started with
  | Err _ => oauthFailureRedirect r
  | Ok (url, state) => setOAuthStateCookie state ;;; Redirect url StatusFound
  end.
Definition oauthCallback (provider : string) : handler := λ r,
  if negb (String.eqb (req_Method r) MethodGet) then oauthFailureRedirect r else
  let state := Query_Get r "state" in
  clearOAuthStateCookie ;;;
  if negb (oauthStateBound r state) then oauthFailureRedirect r else
  let! actorUserID := current_user_id site r in
  let! result := call (OAuth.CompleteCallback (App.oauth cfg) actorUserID provider (Query_Get r "code") state) in
  match result with
  | Err _ => oauthFailureRedirect r
  | Ok (Linked _) => redirectLocalized (recoveryLanguage r) "/account/settings?identity=linked"
  | Ok (SignedIn result) => finishSignIn r (recoveryLanguage r) (session_ID (oauth_Session result)) "/home"
  end.

(** ** E-mail links: recovery.go *)
Definition renderRecovery (r : Request) (kind : string) (form : FormData) (status : Z) (alerts : list Alert) : Web unit :=
  let language := recoveryLanguage r in
  match first_value kind [("resend-confirmation", "recovery.resend"); ("forgot-password", "recovery.forgot");
                          ("confirm-email", "recovery.confirm"); ("reset-password", "recovery.reset")] with
  | None => renderError StatusNotFound
  | Some prefix =>
    let formAction := if String.eqb kind "resend-confirmation" then mustLocalePath language "/resend-confirmation"
                      else if String.eqb kind "forgot-password" then mustLocalePath language "/forgot-password" else "" in
    renderPage r (zero_page <| page_Language := language |> <| page_Title := translate language (prefix +:+ ".title") |>
      <| page_Heading := translate language (prefix +:+ ".heading") |>
      <| page_Description := translate language (prefix +:+ ".description") |> <| page_Kind := kind |>
      <| page_CSRFToken := csrfToken r |> <| page_Form := form |> <| page_FormAction := formAction |>
      <| page_FormMethod := MethodPost |> <| page_SubmitLabel := translate language (prefix +:+ ".submit") |>
      <| page_SignInURL := mustLocalePath language "/sign-in" |> <| page_Template := "recovery" |>
      <| page_FragmentTemplate := "recovery-fragment" |> <| page_Alerts := alerts |> <| page_Labels := formLabels language |>) status
  end.
Definition email_form (r : Request) : FormData := mkForm true {["email" := PostFormValue r "email"]} [].
(** [resendConfirmation] and [forgotPassword]: the answer tells nothing about
    the address. *)
Definition requestLink (kind : string) (send : string → M unit) : handler := λ r,
  if String.eqb (req_Method r) MethodGet then renderRecovery r kind FormData_zero StatusOK []
  else if negb (String.eqb (req_Method r) MethodPost) then method_not_allowed get_or_post else
  let language := recoveryLanguage r in
  let! sent := call (send (PostFormValue r "email")) in
  match sent with
  | Err e =>
    renderRecovery r kind (email_form r)
      (if errors_Is e ErrRateLimited then formFailureStatus r StatusTooManyRequests else StatusUnprocessableEntity)
      [error_alert (translate language "auth.error.invalid")]
  | Ok _ => renderRecovery r kind (email_form r) StatusOK [mkAlert "info" (translate language "recovery.request.accepted")]
  end.
Definition resendConfirmation : handler :=
  requestLink "resend-confirmation" (Confirmation.Resend (App.confirmation cfg) (App.confirmationLimiter)).
Definition forgotPassword : handler := requestLink "forgot-password" (PasswordReset.Request (App.passwordResetter cfg)).
Definition confirmEmail : handler := λ r,
  let language := recoveryLanguage r in
  let! confirmed := (if String.eqb (req_Method r) MethodGet
                     then let! c := call (Confirmation.Confirm (Query_Get r "token")) in ret (is_ok c) else ret false) in
  renderRecovery r "confirm-email" FormData_zero StatusOK
    [if confirmed : bool then mkAlert "success" (translate language "recovery.confirm.success")
     else error_alert (translate language "recovery.confirm.failure")].
Definition resetPasswordLink : handler := λ r,
  let target := mustLocalePath (resolveRequestLanguage r "") "/reset-password" in
  Redirect (if String.eqb (req_RawQuery r) "" then target else target +:+ "?" +:+ req_RawQuery r) StatusFound.
Definition resetPassword : handler := λ r,
  let language := recoveryLanguage r in
  if String.eqb (req_Method r) MethodGet then renderRecovery r "reset-password" FormData_zero StatusOK []
  else if negb (String.eqb (req_Method r) MethodPost) then method_not_allowed get_or_post else
  let! redeemed := call (PasswordReset.Redeem (App.sessionService cfg) (Query_Get r "token") (PostFormValue r "password")) in
  match redeemed with
  | Err e =>
    let refused := password_refused e in
    renderRecovery r "reset-password"
      (mkForm true ∅ (if refused then [mkFieldError "password" (translate language "auth.error.invalid")] else [])) StatusUnprocessableEntity
      [error_alert (translate language (if refused then "auth.error.invalid" else "recovery.reset.failure"))]
  | Ok _ =>
    Now ;;; Clear cookie ;;;
    renderRecovery r "reset-password" FormData_zero StatusOK [mkAlert "success" (translate language "recovery.reset.success")]
  end.

(** ** Guests: guest.go *)
(** [strings.TrimPrefix(kind, "guest-")], [strings.ReplaceAll(kind, "guest-", "guest/")]. *)
Definition guest_name (kind : string) : string := if String.prefix "guest-" kind then from 6 kind else kind.
Definition renderGuest (r : Request) (kind : string) (user : User) (guest owned : bool) (code : string) (form : FormData)
    (status : Z) (alerts : list Alert) : Web unit :=
  let language := recoveryLanguage r in
  let formAction := mustLocalePath language ("/guest/" +:+ guest_name kind) in
  renderPage r (zero_page <| page_Language := language |>
    <| page_Title := translate language ("guest." +:+ guest_name kind +:+ ".title") |>
    <| page_Heading := translate language ("guest." +:+ guest_name kind +:+ ".heading") |> <| page_Kind := kind |>
    <| page_CSRFToken := csrfToken r |> <| page_Form := form |> <| page_FormAction := formAction |>
    <| page_FormMethod := MethodPost |> <| page_Template := "guest" |> <| page_FragmentTemplate := "guest-fragment" |>
    <| page_GuestBanner := guest |> <| page_GuestOwned := owned |> <| page_GuestTransferCode := code |>
    <| page_SignInURL := mustLocalePath language "/sign-in" |> <| page_Alerts := alerts |>
    <| page_Labels := formLabels language |>
    <| page_SSOSignInURL := match App.ssoClient cfg with Some _ => formAction | None => "" end |>
    <| page_Account := if 0 <? user_ID user
                       then Some (mkAccountMenu (accountLabel user) (mustLocalePath language "/account/settings")
                                    (mustLocalePath language "/sign-out") (user_Theme user)
                                    (mustLocalePath language "/account/theme") false "")
                       else None |>) status.
Definition renderGuestAlert (r : Request) (kind language : string) (status : Z) (form : FormData) (messageID : string) : Web unit :=
  renderGuest r kind zero_User false false "" form status [error_alert (translate language messageID)].

Definition guestWrite : handler := λ r,
  let language := recoveryLanguage r in
  let! current := currentUser r in
  let '(user, authenticated) := current in
  if String.eqb (req_Method r) MethodGet then
    renderGuest r "guest-write" user (authenticated && user_IsGuest user) false "" FormData_zero StatusOK []
  else if negb (String.eqb (req_Method r) MethodPost) then method_not_allowed get_or_post
  else if authenticated then renderGuest r "guest-write" user (user_IsGuest user) true "" FormData_zero StatusOK []
  else
  let theme := TrimSpace (PostFormValue r "theme") in
  let theme := if String.eqb theme "" then "light" else theme in
  let! result := call (Guests.RateLimitedCreate (App.sessionService cfg) App.guestLimiter (requestOrigin r) theme) in
  match result with
  | Err _ => renderGuestAlert r "guest-write" language StatusUnprocessableEntity FormData_zero "guest.error.create"
  | Ok result =>
    let! written := replaceSession r (session_ID (guest_Session result)) in
    if negb written then renderError StatusInternalServerError
    else renderGuest r "guest-write" (guest_User result) true true "" FormData_zero StatusOK []
  end.

Definition guestTransfer : handler := λ r,
  let language := recoveryLanguage r in
  let! current := currentUser r in
  let '(user, authenticated) := current in
  let isGuest := authenticated && user_IsGuest user in
  if String.eqb (req_Method r) MethodGet then renderGuest r "guest-transfer" user isGuest false "" FormData_zero StatusOK []
  else if negb (String.eqb (req_Method r) MethodPost) then method_not_allowed get_or_post else
  let invalid := renderGuestAlert r "guest-transfer" language StatusUnprocessableEntity FormData_zero "guest.error.invalid" in
  let action := PostFormValue r "action" in
  if String.eqb action "request" then
    if negb isGuest then invalid else
    let! claim := call (Guests.Issue (user_ID user)) in
    match claim with
    | Err _ => invalid
    | Ok claim => renderGuest r "guest-transfer" user true false (claim_Code claim) FormData_zero StatusOK []
    end
  else if String.eqb action "redeem" then
    let! result := call (Guests.RateLimitedRedeem (App.sessionService cfg) App.guestLimiter (requestOrigin r) (PostFormValue r "code")) in
    match result with
    | Err _ =>
      let message := translate language "guest.error.invalid_code" in
      renderGuest r "guest-transfer" user false false "" (mkForm true ∅ [mkFieldError "code" message])
        StatusUnprocessableEntity [error_alert message]
    | Ok result =>
      let! written := replaceSession r (session_ID (guest_Session result)) in
      if negb written then renderError StatusInternalServerError
      else renderGuest r "guest-transfer" (guest_User result) true true "" FormData_zero StatusOK []
    end
  else invalid.

Definition guestUpgrade : handler := λ r,
  let language := recoveryLanguage r in
  let! current := currentUser r in
  let '(user, authenticated) := current in
  if String.eqb (req_Method r) MethodGet then
    renderGuest r "guest-upgrade" user (authenticated && user_IsGuest user) false "" FormData_zero StatusOK []
  else if negb (String.eqb (req_Method r) MethodPost) then method_not_allowed get_or_post
  else if negb authenticated || negb (user_IsGuest user) then
    renderGuestAlert r "guest-upgrade" language (formFailureStatus r StatusUnauthorized) (email_form r) "guest.error.invalid"
  else
  let! result := call (Guests.Upgrade (App.sessionService cfg) (user_ID user)
                         (mkUpgradeInput (PostFormValue r "email") (PostFormValue r "password"))) in
  match result with
  | Err e =>
    let errors := if errors_Is e ErrDuplicateEmail then [mkFieldError "email" (translate language "guest.error.duplicate_email")]
                  else if password_refused e then [mkFieldError "password" (translate language "auth.error.invalid")] else [] in
    renderGuest r "guest-upgrade" user true false "" (mkForm true (form_Values (email_form r)) errors)
      StatusUnprocessableEntity [error_alert (translate language "guest.error.invalid")]
  | Ok result =>
    let! now := Now in
    let! written := Set_ cookie (session_ID (upgraded_Session result)) now in
    if negb written then renderError StatusInternalServerError
    else renderGuest r "guest-upgrade" (upgraded_User result) false true "" FormData_zero StatusOK []
  end.

(** ** Single sign-on in client mode: sso_client.go *)
Definition ssoBackChannelLogoutPath : string := "/oauth/sso/backchannel-logout".
Definition ssoClientFailure (r : Request) : Web unit :=
  match Path (recoveryLanguage r) "/sign-in" with
  | Err _ => renderError StatusInternalServerError
  | Ok path => Redirect (path +:+ "?sso=error") StatusSeeOther
  end.
Definition ssoCallbackFailure (r : Request) (guest : bool) (e : option error) : Web unit :=
  if negb guest then ssoClientFailure r else
  let holds target := match e with Some e => errors_Is e target | None => false end in
  redirectLocalized (recoveryLanguage r)
    ("/guest/upgrade?sso=" +:+ if holds ErrSSOGuestIdentityTaken then "taken" else if holds ErrOAuthEmailConflict then "conflict" else "error").
Definition sso_alerts (r : Request) (language : string) (ids : list (string * string)) : list Alert :=
  match first_value (Query_Get r "sso") ids with Some id => [error_alert (translate language id)] | None => [] end.

Section client.
Context (client : SSOClientService).
Definition ssoSignIn : handler := λ r,
  match requestLanguage r with
  | None => renderError StatusNotFound
  | Some language =>
    let! authenticated := signed_in site r in
    if authenticated : bool then redirectLocalized language "/home" else
    renderPage r (zero_page <| page_Language := language |> <| page_Title := translate language "auth.sign_in.title" |>
      <| page_Heading := translate language "auth.sign_in.heading" |>
      <| page_Description := translate language "auth.sso.description" |> <| page_Kind := "sign-in" |>
      <| page_CSRFToken := csrfToken r |> <| page_SubmitLabel := translate language "auth.sso.submit" |>
      <| page_SignInURL := mustLocalePath language "/sign-in" |> <| page_SSOSignInURL := mustLocalePath language "/oauth/sso" |>
      <| page_Navigation := primaryNavigation (site_catalogs site) language false |> <| page_Template := "auth" |>
      <| page_FragmentTemplate := "auth-fragment" |> <| page_Labels := formLabels language |>
      <| page_Alerts := sso_alerts r language [("error", "sso.error.generic"); ("expired", "sso.error.expired")] |>) StatusOK
  end.
Definition ssoStart : handler := λ r,
  let! started := call (SSOClient.Start client) in
  match started with
  | Err _ => ssoClientFailure r
  | Ok (target, state) => setOAuthStateCookie state ;;; Redirect target StatusFound
  end.
Definition ssoCallback : handler := λ r,
  let state := Query_Get r "state" in
  clearOAuthStateCookie ;;;
  let! current := currentUser r in
  let '(actor, signedIn) := current in
  let guest := signedIn && user_IsGuest actor in
  if negb (oauthStateBound r state) || negb (String.eqb (Query_Get r "error") "") then ssoCallbackFailure r guest None else
  let! result := call (SSOClient.Callback client (user_ID actor) (Query_Get r "code") state) in
  match result with
  | Err e => ssoCallbackFailure r guest (Some e)
  | Ok result => finishSignIn r (recoveryLanguage r) (session_ID (sso_Session result)) "/home"
  end.
Definition ssoGuestUpgrade : handler := λ r,
  let language := recoveryLanguage r in
  let! current := currentUser r in
  let '(user, authenticated) := current in
  let isGuest := authenticated && user_IsGuest user in
  if String.eqb (req_Method r) MethodGet then
    renderGuest r "guest-upgrade" user isGuest false "" FormData_zero StatusOK
      (sso_alerts r language [("taken", "guest.error.sso_taken"); ("conflict", "guest.error.duplicate_email"); ("error", "sso.error.generic")])
  else if negb (String.eqb (req_Method r) MethodPost) then method_not_allowed get_or_post
  else if negb isGuest then
    renderGuestAlert r "guest-upgrade" language (formFailureStatus r StatusUnauthorized) FormData_zero "guest.error.invalid"
  else
  let! started := call (SSOClient.StartUpgrade client (user_ID user)) in
  match started with
  | Err _ => redirectLocalized language "/guest/upgrade?sso=error"
  | Ok (target, state) => setOAuthStateCookie state ;;; Redirect target StatusSeeOther
  end.
Definition ssoBackChannelLogout : handler := λ r,
  set_header "Cache-Control" "no-store" ;;;
  if negb (req_FormOK r) then WriteHeader StatusBadRequest else
  let! ended := call (SSOClient.BackChannelLogout client (PostFormValue r "logout_token")) in
  WriteHeader (match ended with Ok _ => StatusOK | Err _ => StatusBadRequest end).
End client.
End flows.
End WebFlows.
