(* ===== verification/WebSettings.v ===== *)
(** * Account settings in the browser: internal/adapter/http/settings.go *)
From S2P Require Export WebFlows.
Import UserRepository Sessions Settings Locale WebSession WebAuth.

Module WebSettings.
Section settings.
Context `{Unicode, MailParser, Postgres, Crypto, PasswordHashing, URLParser, FloatParser, ReferenceParser, Templates}.
Context (site : Site).
#[local] Abbreviation cfg := (site_config site).
#[local] Abbreviation cookie := (site_cookie site).
#[local] Abbreviation translate := (translate (site_catalogs site)).

(** [authenticatePageUser]: the account of the session, or an answer. *)
Definition withPageUser (r : Request) (next : User → string → Web unit) : Web unit :=
  let language := recoveryLanguage r in
  let! principal := authenticate site r in
  match principal with
  | Err e =>
    if errors_Is e ErrUnauthenticated then
      if IsHTMX r then hx_redirect (mustLocalePath language "/sign-in") else redirectLocalized language "/sign-in"
    else renderError StatusInternalServerError
  | Ok principal =>
    match ParseInt (principal_ID principal) with
    | None => renderError StatusInternalServerError
    | Some userID =>
      let! user := call (FindUserByID userID) in
      match user with
      | Err _ => renderError StatusInternalServerError
      | Ok user => if negb (user_ID user =? userID) then renderError StatusInternalServerError else next user language
      end
    end
  end.

Definition identityLabel (identity : OAuthIdentity) : string :=
  if String.eqb (TrimSpace (identity_Email identity)) "" then identity_Provider identity else identity_Email identity.
Definition identityViews (r : Request) (userID : Z) : Web (outcome (list IdentityView * list OAuthProviderView)) :=
  let! linked := call (OAuthIdentityRepository.ListOAuthIdentities userID) in
  ret (match linked with
       | Err e => Err e
       | Ok linked =>
         Ok ((λ i, mkIdentityView (identity_ID i) (identity_Provider i) (oauthProviderLabel (identity_Provider i)) (identityLabel i) true "") <$> linked,
             (λ name, mkProviderView name (oauthProviderLabel name) (mustLocalePath (recoveryLanguage r) ("/oauth/" +:+ name)))
               <$> Providers.Names (providers cfg))
       end).
Definition optionalValueString (value : option string) : string := match value with Some v => v | None => "" end.
(** An error of the renderer is dropped: the answer stays empty. *)
Definition renderSettings (r : Request) (language : string) (user : User) (form : FormData) (alerts : list Alert) (status : Z) : Web unit :=
  let! views := identityViews r (user_ID user) in
  let '(identities, providers, failed) := match views with
    | Ok (identities, providers) => (identities, providers, [])
    | Err _ => ([], [], [error_alert (translate language "settings.error.generic")])
    end in
  let path := mustLocalePath language in
  RenderRequestStatus r (zero_page <| page_Language := language |> <| page_Title := translate language "settings.title" |>
    <| page_Heading := translate language "settings.heading" |> <| page_Kind := "settings" |>
    <| page_CSRFToken := csrfToken r |> <| page_Form := form |> <| page_Template := "settings" |>
    <| page_FragmentTemplate := "settings-fragment" |> <| page_Alerts := alerts ++ failed |>
    <| page_Labels := formLabels (site_catalogs site) language |> <| page_Account := Some (settingsAccountMenu language user) |>
    <| page_Navigation := primaryNavigation (site_catalogs site) language true |>
    <| page_Settings := Some (mkSettingsView (negb (is_nil (App.ssoClient cfg))) (site_SSOAccountURL site)
         (optionalValueString (user_Email user)) (optionalValueString (user_Username user)) (optionalValueString (user_DisplayName user))
         (negb (is_nil (user_PasswordHash user))) (user_Locale user) (user_Theme user) (languageOptions language) identities providers
         (path "/account/settings") (path "/account/settings/profile") (path "/account/settings/password")
         (path "/account/settings/locale") (path "/account/settings/identity") (path "/account/settings/identity/link")
         (path "/account/theme") (translate language "settings.identity.remove") (translate language "settings.identity.add")) |>) status ;;;
  ret tt.
Definition success_alert (language id : string) : Alert := mkAlert "success" (translate language id).

Definition page : handler := λ r,
  if negb (String.eqb (req_Method r) MethodGet) then method_not_allowed MethodGet else
  withPageUser r (λ user language,
    renderSettings r language user FormData_zero
      (if String.eqb (Query_Get r "identity") "linked" then [success_alert language "settings.success.identity_linked"] else []) StatusOK).

(** A form of the signed-in account. *)
Definition posted (r : Request) (next : User → string → Web unit) : Web unit :=
  withPageUser r (λ user language,
    if negb (String.eqb (req_Method r) MethodPost) then method_not_allowed MethodPost else next user language).
(** The first case whose error is in the chain. *)
Fixpoint error_case {A} (e : error) (cases : list (sentinel * A)) (otherwise : A) : A :=
  match cases with
  | [] => otherwise
  | (target, a) :: cases => if errors_Is e target then a else error_case e cases otherwise
  end.

Definition profileFieldErrors (language : string) (e : error) : list FieldError :=
  error_case e
    [(ErrUsernameUnavailable, [mkFieldError "username" (translate language "settings.error.username_unavailable")]);
     (ErrInvalidUsername, [mkFieldError "username" (translate language "settings.error.invalid_username")]);
     (ErrInvalidDisplayName, [mkFieldError "display_name" (translate language "settings.error.invalid_display_name")])] [].
Definition updateProfile : handler := λ r, posted r (λ user language,
  let username := PostFormValue r "username" in
  let displayName := PostFormValue r "display_name" in
  let! updated := call (Settings.UpdateProfile (user_ID user) (mkProfileInput username displayName)) in
  match updated with
  | Err e =>
    let '(message, status) := error_case e
      [(ErrUsernameUnavailable, ("settings.error.username_unavailable", StatusUnprocessableEntity));
       (ErrInvalidUsername, ("settings.error.invalid_username", StatusUnprocessableEntity));
       (ErrInvalidDisplayName, ("settings.error.invalid_display_name", StatusUnprocessableEntity));
       (ErrOptimisticLockConflict, ("settings.error.conflict", StatusUnprocessableEntity));
       (ErrRecordNotFound, ("settings.error.not_found", StatusNotFound))] ("settings.error.generic", StatusUnprocessableEntity) in
    renderSettings r language user
      (mkForm true (<["username" := username]> {["display_name" := displayName]}) (profileFieldErrors language e))
      [error_alert (translate language message)] status
  | Ok updated => renderSettings r language updated FormData_zero [success_alert language "settings.success.profile"] StatusOK
  end).

(** What a refused password change says: field, message, status. *)
Definition password_error (e : error) : string * string * Z :=
  error_case e
    [(ErrCurrentPasswordRequired, ("current_password", "settings.error.current_required", StatusUnprocessableEntity));
     (ErrCurrentPasswordMismatch, ("current_password", "settings.error.current_mismatch", StatusUnprocessableEntity));
     (ErrRecentSignInRequired, ("", "settings.error.recent_sign_in", StatusUnprocessableEntity));
     (ErrPasswordTooShort, ("new_password", "settings.error.weak_password", StatusUnprocessableEntity));
     (ErrPasswordTooLong, ("new_password", "settings.error.weak_password", StatusUnprocessableEntity));
     (ErrInvalidPassword, ("new_password", "settings.error.weak_password", StatusUnprocessableEntity));
     (ErrOptimisticLockConflict, ("", "settings.error.conflict", StatusUnprocessableEntity));
     (ErrRecordNotFound, ("", "settings.error.not_found", StatusNotFound))]
    ("", "settings.error.generic", StatusUnprocessableEntity).
Definition updatePassword : handler := λ r, posted r (λ user language,
  let sessionID := match Read cookie r with Some id => id | None => "" end in
  let! result := call (PasswordReset.Update (App.sessionService cfg) (user_ID user)
    (mkPasswordInput (PostFormValue r "current_password") (PostFormValue r "new_password") sessionID)) in
  match result with
  | Err e =>
    let '(field, message, status) := password_error e in
    renderSettings r language user
      (mkForm true ∅ (if String.eqb field "" then [] else [mkFieldError field (translate language message)]))
      [error_alert (translate language message)] status
  | Ok result =>
    let! written := match changed_Session result with
                    | None => ret true
                    | Some session => if String.eqb (session_ID session) "" then ret true
                                      else let! now := Now in Set_ cookie (session_ID session) now
                    end in
    if negb written then renderError StatusInternalServerError else
    let! fresh := call (FindUserByID (user_ID user)) in
    renderSettings r language (match fresh with Ok fresh => fresh | Err _ => user end) FormData_zero
      [success_alert language "settings.success.password"] StatusOK
  end).

Definition updateLocale : handler := λ r, posted r (λ user language,
  let selected := TrimSpace (PostFormValue r "locale") in
  let! updated := call (Settings.UpdateLocale (user_ID user) selected) in
  match updated with
  | Err e =>
    let '(field, message, status) := error_case e
      [(ErrInvalidLocale, ("locale", "settings.error.invalid_locale", StatusUnprocessableEntity));
       (ErrOptimisticLockConflict, ("", "settings.error.conflict", StatusUnprocessableEntity));
       (ErrRecordNotFound, ("", "settings.error.not_found", StatusNotFound))] ("", "settings.error.generic", StatusUnprocessableEntity) in
    renderSettings r language user
      (mkForm true ∅ (if String.eqb field "" then [] else [mkFieldError field (translate language message)]))
      [error_alert (translate language message)] status
  | Ok _ =>
    match Path selected "/account/settings" with
    | Err _ => renderSettings r language user FormData_zero [error_alert (translate language "settings.error.generic")] StatusInternalServerError
    | Ok destination => redirectWithStatus r destination StatusSeeOther
    end
  end).

Definition unlinkIdentity : handler := λ r, posted r (λ user language,
  let refuse message status := renderSettings r language user FormData_zero [error_alert (translate language message)] status in
  match ParseInt (TrimSpace (PostFormValue r "identity_id")) with
  | Some identityID =>
    if identityID <=? 0 then refuse "settings.error.identity_not_found" StatusNotFound else
    let! removed := call (OAuth.Unlink (user_ID user) identityID) in
    match removed with
    | Ok _ => renderSettings r language user FormData_zero [success_alert language "settings.success.identity_removed"] StatusOK
    | Err e => if errors_Is e ErrOAuthIdentityNotFound then refuse "settings.error.identity_not_found" StatusNotFound
               else if errors_Is e ErrOAuthLastSignInMethod then refuse "settings.error.last_identity" StatusUnprocessableEntity
               else refuse "settings.error.generic" StatusUnprocessableEntity
    end
  | None => refuse "settings.error.identity_not_found" StatusNotFound
  end).

Definition linkIdentity : handler := λ r, posted r (λ user language,
  let refuse message := renderSettings r language user FormData_zero [error_alert (translate language message)] StatusUnprocessableEntity in
  let provider := ToLower (TrimSpace (PostFormValue r "provider")) in
  if String.eqb provider "" then refuse "settings.error.generic" else
  let! started := call (OAuth.StartLink (App.oauth cfg) (user_ID user) provider) in
  match started with
  | Err _ => refuse "settings.error.identity_link"
  | Ok (url, state) => WebFlows.setOAuthStateCookie site state ;;; redirectWithStatus r url StatusFound
  end).

Definition updateTheme : handler := λ r,
  if negb (String.eqb (req_Method r) MethodPost) then method_not_allowed MethodPost else
  withPageUser r (λ user _,
    let! updated := call (Settings.UpdateTheme (user_ID user) (PostFormValue r "theme")) in
    match updated with
    | Err e => renderError (if errors_Is e ErrInvalidTheme then StatusUnprocessableEntity else StatusInternalServerError)
    | Ok _ => set_header "Hx-Trigger" "theme-updated" ;;; WriteHeader StatusNoContent
    end).
End settings.
End WebSettings.
