(* ===== verification/WebGroups.v ===== *)
(** * Groups in the browser: internal/adapter/http/group.go *)
From S2P Require Export WebSettings.
Import UserRepository Settings Locale WebAuth WebSettings.

Module WebGroups.
Section groups.
Context `{Unicode, MailParser, Postgres, Crypto, PasswordHashing, URLParser, FloatParser, ReferenceParser, Templates}.
Context (site : Site).
#[local] Abbreviation cfg := (site_config site).
#[local] Abbreviation t := (translate (site_catalogs site)).
#[local] Abbreviation posted := (posted site).

(** [pathID], [pathMemberID], [parseVersion]. *)
Definition parse_id (raw : string) : option Z :=
  match ParseInt (TrimSpace raw) with Some id => if id <=? 0 then None else Some id | None => None end.
Definition pathID (r : Request) : option Z := parse_id (PathValue r "id").
Definition pathMemberID (r : Request) : option Z := parse_id (PathValue r "memberID").
Definition parseVersion (raw : string) : option Z :=
  match ParseInt (TrimSpace raw) with Some v => if v <? 0 then None else Some v | None => None end.
Definition loweredRequest (r : Request) : Request := with_Method MethodGet r.

Definition groupMemberLabel (m : GroupMember) : string :=
  first_visible [roster_DisplayName m; roster_Username m; roster_Email m] "Account".
Definition role_label (language role : string) : string :=
  if String.eqb role GroupRoleAdmin then t language "groups.role.admin"
  else if String.eqb role GroupRoleMember then t language "groups.role.member" else t language "groups.role.none".
Definition groupSummaryViews (language : string) (summaries : list GroupSummary) : list GroupSummaryView :=
  (λ s, mkSummaryView (summary_Group s) (summary_MemberCount s) (role_label language (summary_Role s))) <$> summaries.
Definition groupListLabel (language : string) (user : User) : string :=
  t language (if user_IsAdmin user then "groups.all" else "groups.mine").
Definition member_view (language base : string) (viewer : Z) (isAdmin : bool) (m : GroupMember) : GroupMemberView :=
  let admin := String.eqb (roster_Role m) GroupRoleAdmin in
  let url := base +:+ "/members/" +:+ FormatInt (roster_UserID m) in
  mkMemberView (roster_UserID m) (roster_Role m) (roster_Version m) (groupMemberLabel m) admin (roster_UserID m =? viewer)
    (if isAdmin then if admin then "demote" else "promote" else "")
    (if isAdmin then t language (if admin then "groups.roster.demote" else "groups.roster.promote") else "")
    (url +:+ "/role") (url +:+ "/remove").
Definition groupDetailView (language : string) (user : User) (d : GroupDetail) : GroupDetailView :=
  let g := detail_Group d in
  let base := mustLocalePath language ("/groups/" +:+ FormatInt (group_ID g)) in
  mkDetailView (group_ID g) (group_Name g) (group_Version g) (detail_MemberCount d) (detail_IsAdmin d) (detail_IsMember d)
    (detail_InviteCode d) (mustLocalePath language "/groups") (base +:+ "/rename") (base +:+ "/invite") (base +:+ "/leave")
    (base +:+ "/members") (member_view language base (user_ID user) (detail_IsAdmin d) <$> detail_Members d).

Definition group_page (r : Request) (language : string) (user : User) (form : FormData) (alerts : list Alert) : PageData :=
  zero_page <| page_Language := language |> <| page_CSRFToken := csrfToken r |> <| page_Form := form |>
    <| page_Template := "groups" |> <| page_FragmentTemplate := "groups-fragment" |> <| page_Alerts := alerts |>
    <| page_Labels := formLabels (site_catalogs site) language |> <| page_Account := Some (settingsAccountMenu language user) |>
    <| page_Navigation := primaryNavigation (site_catalogs site) language true |>.
Definition renderGroups (r : Request) (language : string) (user : User) (summaries : list GroupSummary) (form : FormData)
    (alerts : list Alert) (status : Z) (creating : bool) : Web unit :=
  let page := group_page r language user form alerts in
  renderPage r (page <| page_Title := t language "groups.title" |> <| page_Heading := t language "groups.heading" |>
    <| page_Kind := "groups" |>
    <| page_Groups := Some (mkGroupsView (mustLocalePath language "/groups") (mustLocalePath language "/groups")
         (mustLocalePath language "/groups/join") creating (groupSummaryViews language summaries) (t language "groups.create")
         (t language "groups.join") (groupListLabel language user)) |>) status.
Definition renderGroupDetail (r : Request) (language : string) (user : User) (d : GroupDetail) (form : FormData)
    (alerts : list Alert) (status : Z) : Web unit :=
  let r := loweredRequest r in
  let page := group_page r language user form alerts in
  renderPage r (page <| page_Title := group_Name (detail_Group d) +:+ " | " +:+ t language "groups.title" |>
    <| page_Heading := group_Name (detail_Group d) |> <| page_Kind := "group-detail" |>
    <| page_Group := Some (groupDetailView language user d) |>) status.
Definition renderGroupNotFound (r : Request) (language : string) : Web unit :=
  let! rendered := RenderState (site_catalogs site) r language PageStateNotFound in
  if rendered : bool then ret tt else renderError StatusInternalServerError.
Definition renderGroupError (r : Request) (language : string) (e : error) : Web unit :=
  if errors_Is e ErrGroupNotFound then renderGroupNotFound r language else renderError StatusInternalServerError.

(** [renderDetail], [renderGroupDetailError]: the group as the account sees it. *)
Definition renderDetail (r : Request) (language : string) (user : User) (groupID : Z) (form : FormData)
    (alerts : list Alert) (status : Z) : Web unit :=
  let! detail := call (Groups.Detail (user_ID user) groupID) in
  match detail with
  | Err e => renderGroupError r language e
  | Ok d => renderGroupDetail r language user d form alerts status
  end.
Definition renderGroupDetailError (r : Request) (language : string) (user : User) (groupID : Z) (form : FormData)
    (message : string) (status : Z) : Web unit :=
  renderDetail r language user groupID form [error_alert (t language message)] status.
Definition renderGroupWriteError (r : Request) (language : string) (user : User) (groupID : Z) (e : error) (form : FormData) : Web unit :=
  let detail message status := renderGroupDetailError r language user groupID form message status in
  if errors_Is e ErrOptimisticLockConflict then detail "groups.error.conflict" StatusConflict
  else if errors_Is e ErrGroupNotFound || errors_Is e ErrMembershipNotFound then renderGroupNotFound r language
  else if errors_Is e ErrNotGroupAdmin then detail "groups.error.not_admin" StatusForbidden
  else if errors_Is e ErrLastGroupAdmin then detail "groups.error.last_admin" StatusUnprocessableEntity
  else if errors_Is e ErrInvalidGroupName then detail "groups.error.invalid_name" StatusUnprocessableEntity
  else renderError StatusInternalServerError.
(** [redirectLocalized] of the group handler. *)
Definition group_redirect (r : Request) (language route : string) : Web unit :=
  match Path language route with
  | Err _ => renderError StatusInternalServerError
  | Ok path => redirectWithStatus r path StatusSeeOther
  end.
Definition group_url (groupID : Z) : string := "/groups/" +:+ FormatInt groupID.

(** A page of the signed-in account. *)
Definition viewed (r : Request) (next : User → string → Web unit) : Web unit :=
  withPageUser site r (λ user language,
    if negb (String.eqb (req_Method r) MethodGet) then method_not_allowed MethodGet else next user language).
Definition list_ : handler := λ r, viewed r (λ user language,
  let! summaries := call (Groups.List (user_ID user)) in
  match summaries with
  | Err _ => renderGroups r language user [] FormData_zero [error_alert (t language "groups.error.generic")] StatusInternalServerError false
  | Ok summaries => renderGroups r language user summaries FormData_zero [] StatusOK false
  end).
Definition create : handler := λ r, posted r (λ user language,
  let name := PostFormValue r "name" in
  let! summary := call (Groups.Create (user_ID user) name) in
  match summary with
  | Err e =>
    let '(errors, message) := if errors_Is e ErrInvalidGroupName
      then ([mkFieldError "name" (t language "groups.error.invalid_name")], "groups.error.invalid_name")
      else ([], "groups.error.generic") in
    renderGroups r language user [] (mkForm true {["name" := name]} errors) [error_alert (t language message)] StatusUnprocessableEntity true
  | Ok summary => group_redirect r language (group_url (group_ID (summary_Group summary)))
  end).
Definition detail : handler := λ r, viewed r (λ user language,
  match pathID r with
  | None => renderGroupNotFound r language
  | Some groupID => renderDetail r language user groupID FormData_zero [] StatusOK
  end).
Definition join : handler := λ r, withPageUser site r (λ user language,
  if String.eqb (req_Method r) MethodGet then renderGroups r language user [] FormData_zero [] StatusOK false
  else if negb (String.eqb (req_Method r) MethodPost) then method_not_allowed get_or_post else
  let code := PostFormValue r "code" in
  let! membership := call (Groups.RateLimitedJoin App.groupJoinLimiter (user_ID user) code) in
  match membership with
  | Err e =>
    let '(errors, message, status) := error_case e
      [(ErrGroupInviteNotFound, ([mkFieldError "code" (t language "groups.error.invalid_code")], "groups.error.invalid_code", StatusUnprocessableEntity));
       (ErrMembershipExists, ([], "groups.error.already_member", StatusUnprocessableEntity));
       (ErrRateLimited, ([], "groups.error.rate_limited", StatusTooManyRequests))]
      ([], "groups.error.generic", StatusUnprocessableEntity) in
    renderGroups r language user [] (mkForm true {["code" := code]} errors) [error_alert (t language message)] status false
  | Ok membership => group_redirect r language (group_url (member_GroupID membership))
  end).

(** A form about one group. *)
Definition group_form (r : Request) (next : User → string → Z → Web unit) : Web unit :=
  posted r (λ user language,
    match pathID r with
    | None => renderGroupError r language ErrGroupNotFound
    | Some groupID => next user language groupID
    end).
(** The page of the group after a change, or why there was none. *)
Definition group_changed {A} (r : Request) (user : User) (language : string) (groupID : Z) (form : FormData) (alerts : list Alert)
    (change : M A) : Web unit :=
  let! changed := call change in
  match changed with
  | Err e => renderGroupWriteError r language user groupID e form
  | Ok _ => renderDetail r language user groupID FormData_zero alerts StatusOK
  end.
Definition group_success (language id : string) : list Alert := [mkAlert "success" (t language id)].
Definition rename : handler := λ r, group_form r (λ user language groupID,
  match parseVersion (PostFormValue r "version") with
  | None => renderGroupDetailError r language user groupID (mkForm true ∅ [mkFieldError "name" (t language "groups.error.invalid_name")])
              "groups.error.invalid_name" StatusUnprocessableEntity
  | Some version =>
    let name := PostFormValue r "name" in
    group_changed r user language groupID (mkForm true {["name" := name]} []) []
      (Groups.Rename App.auditService (user_ID user) groupID version name)
  end).
Definition rotateInvite : handler := λ r, group_form r (λ user language groupID,
  group_changed r user language groupID FormData_zero (group_success language "groups.invite.rotated")
    (Groups.RotateInvite App.auditService (user_ID user) groupID)).
(** A form about one member: the account and the revision it was shown with. *)
Definition member_form (r : Request) (next : User → string → Z → Z → Z → Web unit) : Web unit :=
  group_form r (λ user language groupID,
    match pathMemberID r with
    | None => renderGroupError r language ErrGroupNotFound
    | Some targetUserID =>
      match parseVersion (PostFormValue r "version") with
      | None => renderGroupDetailError r language user groupID FormData_zero "groups.error.conflict" StatusUnprocessableEntity
      | Some version => next user language groupID targetUserID version
      end
    end).
Definition changeRole : handler := λ r, member_form r (λ user language groupID targetUserID version,
  group_changed r user language groupID FormData_zero (group_success language "groups.roster.updated")
    (Groups.ChangeRole App.auditService (user_ID user) groupID targetUserID version (PostFormValue r "role"))).
Definition removeMember : handler := λ r, member_form r (λ user language groupID targetUserID version,
  group_changed r user language groupID FormData_zero (group_success language "groups.roster.removed")
    (Groups.RemoveMember App.auditService (user_ID user) groupID targetUserID version)).
Definition leave : handler := λ r, group_form r (λ user language groupID,
  let! result := call (Groups.Leave (user_ID user) groupID) in
  match result with
  | Err e => renderGroupWriteError r language user groupID e FormData_zero
  | Ok _ => group_redirect r language "/groups"
  end).
End groups.
End WebGroups.
