(* ===== verification/WebAdminViews.v ===== *)
(** * What administrator pages show: the views of internal/adapter/http/admin.go *)
From S2P Require Export WebGroups AdminState.
Import Locale WebAuth AdminState Maintenance.

Module AdminViews.
Definition admin_labels : list (string * string) :=
   [("admin_title", "admin.title"); ("admin_heading", "admin.heading"); ("admin_description", "admin.description");
    ("admin_sections", "admin.sections"); ("admin_nav_accounts", "admin.nav.accounts"); ("admin_search", "admin.accounts.search");
    ("admin_search_placeholder", "admin.accounts.search_placeholder"); ("admin_filter_admin", "admin.accounts.filter_admin");
    ("admin_filter_guest", "admin.accounts.filter_guest"); ("admin_filter_confirmed", "admin.accounts.filter_confirmed");
    ("admin_filter_all", "admin.accounts.filter.all"); ("admin_filter_yes", "admin.accounts.filter.yes");
    ("admin_filter_no", "admin.accounts.filter.no"); ("admin_column_account", "admin.accounts.column.account");
    ("admin_column_email", "admin.accounts.column.email"); ("admin_column_role", "admin.accounts.column.role");
    ("admin_column_status", "admin.accounts.column.status"); ("admin_column_created", "admin.accounts.column.created");
    ("admin_role_admin", "admin.accounts.role.admin"); ("admin_role_user", "admin.accounts.role.user");
    ("admin_status_confirmed", "admin.accounts.status.confirmed"); ("admin_status_unconfirmed", "admin.accounts.status.unconfirmed");
    ("admin_status_guest", "admin.accounts.status.guest"); ("admin_prev", "admin.accounts.previous"); ("admin_next", "admin.accounts.next");
    ("admin_empty", "admin.accounts.empty"); ("admin_view", "admin.accounts.view"); ("admin_edit", "admin.accounts.edit");
    ("admin_create", "admin.accounts.create"); ("admin_create_heading", "admin.account.create_heading");
    ("admin_account_email", "admin.account.email"); ("admin_account_password", "admin.account.password");
    ("admin_account_password_help", "admin.account.password_help"); ("admin_account_is_admin", "admin.account.is_admin");
    ("admin_account_submit", "admin.account.submit"); ("admin_account_cancel", "admin.account.cancel");
    ("admin_account_delete", "admin.account.delete"); ("admin_account_delete_confirm", "admin.account.delete_confirm");
    ("admin_account_confirm_delete", "admin.account.confirm_delete"); ("admin_detail_confirmation", "admin.detail.confirmation");
    ("admin_detail_sessions", "admin.detail.sessions"); ("admin_detail_attempts", "admin.detail.attempts");
    ("admin_detail_providers", "admin.detail.providers"); ("admin_detail_username", "admin.detail.username");
    ("admin_detail_display_name", "admin.detail.display_name"); ("admin_detail_role", "admin.detail.role");
    ("admin_detail_locale", "admin.detail.locale"); ("admin_detail_theme", "admin.detail.theme");
    ("admin_detail_created", "admin.detail.created"); ("admin_detail_version", "admin.detail.version");
    ("admin_detail_confirmed", "admin.detail.confirmed"); ("admin_detail_unconfirmed", "admin.detail.unconfirmed");
    ("admin_detail_edit", "admin.detail.edit"); ("admin_detail_back", "admin.detail.back");
    ("admin_sessions_created", "admin.sessions.created"); ("admin_sessions_expires", "admin.sessions.expires");
    ("admin_sessions_empty", "admin.sessions.empty"); ("admin_sessions_revoke", "admin.sessions.revoke");
    ("admin_sessions_revoke_confirm", "admin.sessions.revoke_confirm"); ("admin_confirmation_confirm", "admin.confirmation.confirm");
    ("admin_confirmation_send", "admin.confirmation.send"); ("admin_confirmation_confirm_confirm", "admin.confirmation.confirm_confirm");
    ("admin_detail_link_active", "admin.detail.link_active"); ("admin_detail_link_none", "admin.detail.link_none");
    ("admin_identity_remove", "admin.identity.remove"); ("admin_lockout_heading", "admin.lockout.heading");
    ("admin_lockout_locked", "admin.lockout.locked"); ("admin_lockout_clear_state", "admin.lockout.clear_state");
    ("admin_lockout_attempts", "admin.lockout.attempts"); ("admin_lockout_limit", "admin.lockout.limit");
    ("admin_lockout_retry", "admin.lockout.retry"); ("admin_lockout_origins", "admin.lockout.origins");
    ("admin_lockout_origin", "admin.lockout.origin"); ("admin_lockout_origin_attempts", "admin.lockout.origin_attempts");
    ("admin_lockout_clear", "admin.lockout.clear"); ("admin_lockout_clear_confirm", "admin.lockout.clear_confirm");
    ("admin_lockout_none", "admin.lockout.none"); ("admin_audit_action", "admin.audit.filter_action");
    ("admin_audit_actor", "admin.audit.filter_actor"); ("admin_audit_target", "admin.audit.filter_target");
    ("admin_audit_apply", "admin.audit.apply"); ("admin_audit_clear", "admin.audit.clear"); ("admin_audit_time", "admin.audit.column.time");
    ("admin_audit_actor_column", "admin.audit.column.actor"); ("admin_audit_action_column", "admin.audit.column.action");
    ("admin_audit_target_column", "admin.audit.column.target"); ("admin_audit_detail_column", "admin.audit.column.detail");
    ("admin_audit_origin_column", "admin.audit.column.origin"); ("admin_audit_empty", "admin.audit.empty");
    ("admin_audit_heading", "admin.audit.heading"); ("admin_attempt_time", "admin.attempt.time");
    ("admin_attempt_outcome", "admin.attempt.outcome"); ("admin_attempt_origin", "admin.attempt.origin");
    ("admin_attempts_empty", "admin.attempts.empty"); ("admin_providers_provider", "admin.providers.provider");
    ("admin_providers_account", "admin.providers.account"); ("admin_providers_empty", "admin.providers.empty");
    ("admin_system_jobs_heading", "admin.system.jobs.heading"); ("admin_system_job", "admin.system.jobs.job");
    ("admin_system_job_runs", "admin.system.jobs.runs"); ("admin_system_job_failures", "admin.system.jobs.failures");
    ("admin_system_job_last_run", "admin.system.jobs.last_run"); ("admin_system_job_duration", "admin.system.jobs.duration");
    ("admin_system_job_removed", "admin.system.jobs.removed"); ("admin_system_job_error", "admin.system.jobs.error");
    ("admin_system_job_empty", "admin.system.jobs.empty"); ("admin_system_run", "admin.system.maintenance.run");
    ("admin_system_run_confirm", "admin.system.maintenance.run_confirm"); ("admin_system_config_heading", "admin.system.config.heading");
    ("admin_system_config_environment", "admin.system.config.environment");
    ("admin_system_config_public_address", "admin.system.config.public_address");
    ("admin_system_config_public_url", "admin.system.config.public_url");
    ("admin_system_config_email", "admin.system.config.email_confirmation");
    ("admin_system_config_secure_cookies", "admin.system.config.secure_cookies");
    ("admin_system_config_providers", "admin.system.config.providers"); ("admin_system_config_mail", "admin.system.config.mail");
    ("admin_system_config_mail_relay", "admin.system.config.mail_relay");
    ("admin_system_config_session", "admin.system.config.session_lifetime");
    ("admin_system_config_guest", "admin.system.config.guest_retention");
    ("admin_system_config_login", "admin.system.config.login_retention");
    ("admin_system_config_usage", "admin.system.config.usage_retention");
    ("admin_system_config_interval", "admin.system.config.maintenance_interval");
    ("admin_system_config_rate_limit", "admin.system.config.rate_limit");
    ("admin_system_config_trusted_proxy", "admin.system.config.trusted_proxy");
    ("admin_system_config_auth_mode", "admin.system.config.auth_mode"); ("admin_system_config_sso_issuer", "admin.system.config.sso_issuer");
    ("admin_system_config_hydra_admin", "admin.system.config.hydra_admin");
    ("admin_system_config_not_configured", "admin.system.config.not_configured"); ("admin_system_yes", "admin.system.yes");
    ("admin_system_no", "admin.system.no"); ("admin_system_runtime_heading", "admin.system.runtime.heading");
    ("admin_system_runtime_version", "admin.system.runtime.version"); ("admin_system_runtime_started", "admin.system.runtime.started");
    ("admin_system_runtime_uptime", "admin.system.runtime.uptime"); ("admin_system_runtime_go", "admin.system.runtime.go");
    ("admin_system_runtime_platform", "admin.system.runtime.platform"); ("admin_system_runtime_cpus", "admin.system.runtime.cpus");
    ("admin_system_runtime_gomaxprocs", "admin.system.runtime.gomaxprocs");
    ("admin_system_runtime_goroutines", "admin.system.runtime.goroutines"); ("admin_system_runtime_heap", "admin.system.runtime.heap");
    ("admin_system_runtime_sys", "admin.system.runtime.sys"); ("admin_system_runtime_gc", "admin.system.runtime.gc");
    ("admin_system_migrations_heading", "admin.system.migrations.heading"); ("admin_system_migrations_rank", "admin.system.migrations.rank");
    ("admin_system_migrations_version", "admin.system.migrations.version");
    ("admin_system_migrations_description", "admin.system.migrations.description");
    ("admin_system_migrations_status", "admin.system.migrations.status");
    ("admin_system_migrations_installed", "admin.system.migrations.installed");
    ("admin_system_migrations_pending", "admin.system.migrations.pending");
    ("admin_system_migrations_applied", "admin.system.migrations.applied");
    ("admin_system_migrations_empty", "admin.system.migrations.empty"); ("admin_system_migrations_error", "admin.system.migrations.error");
    ("admin_system_counts_heading", "admin.system.counts.heading");
    ("admin_system_counts_total_accounts", "admin.system.counts.total_accounts");
    ("admin_system_counts_guests", "admin.system.counts.guests"); ("admin_system_counts_admins", "admin.system.counts.admins");
    ("admin_system_counts_unconfirmed", "admin.system.counts.unconfirmed");
    ("admin_system_counts_no_password", "admin.system.counts.without_password");
    ("admin_system_counts_active_sessions", "admin.system.counts.active_sessions");
    ("admin_system_counts_expired_sessions", "admin.system.counts.expired_sessions");
    ("admin_system_counts_expired_email", "admin.system.counts.expired_email_tokens");
    ("admin_system_counts_expired_reset", "admin.system.counts.expired_reset_tokens");
    ("admin_system_counts_expired_states", "admin.system.counts.expired_oauth_states");
    ("admin_system_counts_failed_signins", "admin.system.counts.failed_signins");
    ("admin_system_counts_lockouts", "admin.system.counts.lockouts"); ("admin_system_counts_error", "admin.system.counts.error");
    ("admin_ratelimits_action", "admin.ratelimits.action"); ("admin_ratelimits_limit", "admin.ratelimits.limit");
    ("admin_ratelimits_window", "admin.ratelimits.window"); ("admin_ratelimits_buckets", "admin.ratelimits.buckets");
    ("admin_ratelimits_locked", "admin.ratelimits.locked"); ("admin_ratelimits_key", "admin.ratelimits.key");
    ("admin_ratelimits_count", "admin.ratelimits.count"); ("admin_ratelimits_retry", "admin.ratelimits.retry");
    ("admin_ratelimits_clear", "admin.ratelimits.clear"); ("admin_ratelimits_clear_all", "admin.ratelimits.clear_all");
    ("admin_ratelimits_empty", "admin.ratelimits.empty"); ("admin_usage_window", "admin.usage.window");
    ("admin_usage_heading", "admin.usage.heading"); ("admin_usage_order", "admin.usage.order"); ("admin_usage_most", "admin.usage.most");
    ("admin_usage_least", "admin.usage.least"); ("admin_usage_route", "admin.usage.route"); ("admin_usage_requests", "admin.usage.requests");
    ("admin_usage_empty", "admin.usage.empty"); ("admin_usage_queue_heading", "admin.usage.queue.heading");
    ("admin_usage_queue_capacity", "admin.usage.queue.capacity"); ("admin_usage_queue_pending", "admin.usage.queue.pending");
    ("admin_usage_queue_recorded", "admin.usage.queue.recorded"); ("admin_usage_queue_failed", "admin.usage.queue.failed");
    ("admin_usage_queue_dropped", "admin.usage.queue.dropped"); ("admin_suspicious_heading", "admin.suspicious.heading");
    ("admin_suspicious_disclaimer", "admin.suspicious.disclaimer"); ("admin_suspicious_account", "admin.suspicious.account");
    ("admin_suspicious_requests", "admin.suspicious.requests"); ("admin_suspicious_origins", "admin.suspicious.origins");
    ("admin_suspicious_flags", "admin.suspicious.flags"); ("admin_suspicious_flag_actions", "admin.suspicious.flag_actions");
    ("admin_suspicious_flag_origins", "admin.suspicious.flag_origins"); ("admin_suspicious_thresholds", "admin.suspicious.thresholds");
    ("admin_suspicious_empty", "admin.suspicious.empty"); ("admin_suspicious_view", "admin.suspicious.view")].

Definition formatAdminTime (unix : Z) : string := if unix <=? 0 then "" else format_minute unix.
Definition formatAdminDuration (value : Z) : string := if value <=? 0 then "" else duration_String (round_second value).
Definition formatAdminBytes (bytes : Z) : string := format_mib bytes +:+ " MiB".
Definition or_blank (value : option string) : string := match value with Some v => v | None => "" end.
Definition boolValue (value : bool) : string := if value then "true" else "".
Definition adminSectionDefs : list (string * string * string) :=
  [("accounts", "admin.nav.accounts", "/admin/users"); ("audit", "admin.nav.audit", "/admin/audit");
   ("system", "admin.nav.system", "/admin/system"); ("ratelimits", "admin.nav.ratelimits", "/admin/ratelimits");
   ("usage", "admin.nav.usage", "/admin/usage"); ("suspicious", "admin.nav.suspicious", "/admin/suspicious")].
Definition adminAccountLabel (account : User) : string :=
  let fix first (names : list (option string)) : string :=
    match names with
    | [] => "Account #" +:+ FormatInt (user_ID account)
    | Some name :: names => if String.eqb name "" then first names else name
    | None :: names => first names
    end in
  first [user_DisplayName account; user_Username account; user_Email account].
Definition user_url (id : Z) (suffix : string) : string := "/admin/users/" +:+ FormatInt id +:+ suffix.

Section views.
Context `{Unicode, MailParser, Postgres, Crypto, PasswordHashing, URLParser, FloatParser, ReferenceParser, Templates}.
Context (site : Site).
#[local] Abbreviation cfg := (site_config site).
#[local] Abbreviation t := (translate (site_catalogs site)).
#[local] Abbreviation path := mustLocalePath.

Definition isChecked (value : string) : bool := existsb (String.eqb (ToLower (TrimSpace value))) ["on"; "true"; "1"; "yes"].
Definition labels (language : string) : gmap string string := t language <$> (list_to_map admin_labels : gmap string string).
Definition adminSections (language current : string) : list AdminSectionView :=
  (λ def, let '(id, label, route) := def in mkAdminSectionView id (t language label) (path language route) (String.eqb id current)) <$> adminSectionDefs.
(** The page every administrator page starts from. *)
Definition admin_page (r : Request) (language : string) (user : User) (message : string) (alerts : list Alert) (view : AdminView) : PageData :=
  zero_page <| page_Language := language |> <| page_Title := t language (message +:+ "title") |>
    <| page_Heading := t language (message +:+ "heading") |> <| page_Description := t language (message +:+ "description") |>
    <| page_Kind := "admin" |> <| page_CSRFToken := csrfToken r |> <| page_Template := "admin" |> <| page_FragmentTemplate := "admin-fragment" |>
    <| page_Alerts := alerts |> <| page_Labels := labels language |> <| page_Account := Some (settingsAccountMenu language user) |>
    <| page_Navigation := primaryNavigation (site_catalogs site) language true |> <| page_Admin := Some view |>.
Definition admin_view (language page section : string) : AdminView :=
  mkAdminView true page (adminSections language section) None None None None None None None.

(** ** Accounts *)
Definition adminUserRowView (language : string) (account : User) : AdminUserRowView :=
  mkAdminUserRowView (user_ID account) (adminAccountLabel account) (or_blank (user_Email account)) (user_IsAdmin account) (user_IsGuest account)
    (negb (is_nil (user_EmailVerifiedAt account))) (formatAdminTime (user_CreatedAt account))
    (path language (user_url (user_ID account) "")) (path language (user_url (user_ID account) "/edit")).
Definition createAccountURL (language : string) : string :=
  match App.ssoClient cfg with Some _ => "" | None => path language "/admin/users/new" end.
Definition list_view (language : string) (state : AdminUserQuery) (page : AdminUserPage) (mode : string) (form : option AdminAccountFormView) : AdminListView :=
  let base := path language "/admin/users" in
  let sort key := (key, URL (WithSort key state) base) in
  let filter name param value := (name, URL (WithFilter param value state) base) in
  let previous := 1 <? query_Page state in
  let next := (0 <? page_Pages page) && (query_Page state <? page_Pages page) in
  mkAdminListView base base (query_Search state) (query_Admin state) (query_Guest state) (query_Confirmed state) (query_Sort state)
    (query_Direction state) (query_Page state) (query_Size state) (page_Total page) (page_Pages page) previous next
    (if previous then URL (WithPage (query_Page state - 1) state) base else "")
    (if next then URL (WithPage (query_Page state + 1) state) base else "")
    (adminUserRowView language <$> page_Users page)
    (list_to_map [sort "created_at"; sort "id"; sort "email"; sort "username"; sort "display_name"])
    (list_to_map [filter "admin_all" adminParamAdmin AdminFilterAll; filter "admin_yes" adminParamAdmin AdminFilterYes; filter "admin_no" adminParamAdmin AdminFilterNo;
      filter "guest_all" adminParamGuest AdminFilterAll; filter "guest_yes" adminParamGuest AdminFilterYes; filter "guest_no" adminParamGuest AdminFilterNo;
      filter "confirmed_all" adminParamConfirmed AdminFilterAll; filter "confirmed_yes" adminParamConfirmed AdminFilterYes;
      filter "confirmed_no" adminParamConfirmed AdminFilterNo])
    mode (createAccountURL language) (t language "admin.accounts.create") form.

(** ** The audit trail *)
Definition adminAuditEntryView (entry : AuditEntry) : AdminAuditEntryView :=
  mkAdminAuditEntryView (formatAdminTime (audit_OccurredAt entry)) (or_blank (audit_ActorEmail entry)) (audit_Action entry)
    (match audit_TargetType entry, audit_TargetID entry with
     | Some kind, Some id => kind +:+ " " +:+ id
     | None, Some id => id
     | _, None => ""
     end) (or_blank (audit_Detail entry)) (or_blank (audit_IP entry)).
Definition audit_view (language : string) (state : AuditQuery) (page : AuditPage) : AdminAuditView :=
  let base := path language "/admin/audit" in
  let number := audit_query_Page state in
  let previous := 1 <? number in
  let next := (0 <? audit_page_Pages page) && (number <? audit_page_Pages page) in
  mkAdminAuditView base (audit_query_Action state) (audit_query_Actor state) (audit_query_Target state) number (audit_query_Size state)
    (audit_page_Total page) (audit_page_Pages page) previous next
    (if previous then AuditURL (AuditWithPage (number - 1) state) base else "")
    (if next then AuditURL (AuditWithPage (number + 1) state) base else "")
    (adminAuditEntryView <$> audit_page_Entries page).

(** ** One account *)
Definition identityLabelFor (identity : OAuthIdentity) : string :=
  if String.eqb (TrimSpace (identity_Email identity)) "" then identity_Provider identity else identity_Email identity.
Definition lockout_view (language : string) (id : Z) (lockout : LockoutStatus) : AdminLockoutView :=
  mkAdminLockoutView (Locked lockout) (IdentifierKey lockout) (IdentifierCount lockout) (IdentifierLimit lockout)
    (formatAdminDuration (IdentifierRetryAfter lockout))
    ((λ o, mkAdminLockoutOriginView (origin_Key o) (origin_Count o) (origin_Limit o) (formatAdminDuration (origin_RetryAfter o))) <$> Origins lockout)
    (path language (user_url id "/lockout/clear")).
Definition detailView (language : string) (detail : AdminUserDetail) (lockout : option LockoutStatus) : AdminDetailView :=
  let account := admin_User detail in
  let id := user_ID account in
  let clientMode := negb (is_nil (App.ssoClient cfg)) in
  let sessions := (λ s, mkAdminSessionView (formatAdminTime (session_CreatedAt s)) (formatAdminTime (session_ExpiresAt s))) <$> admin_Sessions detail in
  mkAdminDetailView id (adminAccountLabel account) (or_blank (user_Email account)) (or_blank (user_Username account))
    (or_blank (user_DisplayName account)) (user_IsAdmin account) (user_IsGuest account) (admin_Confirmed detail)
    (admin_ConfirmationLinkActive detail) (formatAdminTime (admin_ConfirmationLinkExpiry detail))
    (if clientMode then "" else path language (user_url id "/confirm-email"))
    (if clientMode then "" else path language (user_url id "/send-confirmation"))
    (user_Locale account) (user_Theme account) (formatAdminTime (user_CreatedAt account)) (user_Version account)
    (path language (user_url id "/edit")) (path language "/admin/users") (path language (user_url id "/sessions/revoke"))
    (Z.of_nat (length sessions)) sessions
    ((λ a, mkAdminLoginAttemptView (formatAdminTime (attempt_CreatedAt a)) (attempt_Outcome a)
             (t language ("admin.attempt.outcome." +:+ attempt_Outcome a)) (or_blank (attempt_IP a))) <$> admin_LoginAttempts detail)
    ((λ i, mkIdentityView (identity_ID i) (identity_Provider i) "" (identityLabelFor i) (negb clientMode)
             (path language (user_url id ("/identities/" +:+ FormatInt (identity_ID i) +:+ "/remove")))) <$> admin_Identities detail)
    (lockout_view language id <$> lockout).

(** ** Usage *)
Definition window_views (language base query current : string) : list AdminUsageWindowView :=
  (λ w, mkAdminUsageWindowView w.1 (t language ("admin.usage.window." +:+ w.1)) (base +:+ "?window=" +:+ w.1 +:+ query)
          (String.eqb w.1 current)) <$> UsageReports.UsageWindows.
Definition suspicious_view (language : string) (report : SuspiciousReport) : AdminSuspiciousView :=
  let base := path language "/admin/suspicious" in
  mkAdminSuspiciousView base (suspicious_WindowKey report) (window_views language base "" (suspicious_WindowKey report))
    (suspicious_ActionThreshold report) (suspicious_OriginThreshold report)
    ((λ a, mkAdminSuspiciousAccountView (suspicious_UserID a) (path language (user_url (suspicious_UserID a) "")) (suspicious_Requests a)
             (suspicious_DistinctOrigins a) (suspicious_ActionFlag a) (suspicious_OriginFlag a)) <$> suspicious_Accounts report).
Definition usage_view (language : string) (report : UsageReport) : AdminUsageView :=
  let base := path language "/admin/usage" in
  let key := report_WindowKey report in
  let order := if report_Ascending report then "least" else "most" in
  let queue := report_Queue report in
  mkAdminUsageView base key (report_Ascending report) (window_views language base ("&order=" +:+ order) key)
    (base +:+ "?window=" +:+ key +:+ "&order=most") (base +:+ "?window=" +:+ key +:+ "&order=least")
    ((λ u, mkAdminUsageRouteView (route_Route u) (route_Requests u)) <$> report_Routes report)
    (mkAdminUsageQueueView (stats_Capacity queue) (stats_Pending queue) (stats_Recorded queue) (stats_Failed queue) (stats_Dropped queue)).

(** ** The system *)
Definition jobLabel (language job : string) : string :=
  if String.eqb job MaintenanceJobGuestCleanup then t language "admin.system.job.guest_cleanup"
  else if String.eqb job MaintenanceJobTokenRetention then t language "admin.system.job.token_retention"
  else if String.eqb job MaintenanceJobLoginAttemptRetention then t language "admin.system.job.login_attempt_retention"
  else if String.eqb job MaintenanceJobUsageRetention then t language "admin.system.job.usage_retention"
  else job.
Definition adminMaintenanceJobView (language : string) (s : MaintenanceStatus) : AdminMaintenanceJobView :=
  mkAdminMaintenanceJobView (status_Job s) (jobLabel language (status_Job s)) (status_Runs s) (status_Failures s)
    (formatAdminTime (LastFinishedAt s)) (duration_String (LastDuration s)) (LastDeleted s) (LastError s) (negb (String.eqb (LastError s) "")).
Definition adminSystemConfigView (c : SystemConfiguration) : AdminSystemConfigView :=
  let s := conf_settings c in
  mkAdminSystemConfigView (sys_Environment s) (sys_PublicAddress s) (sys_PublicURL s) (sys_EmailConfirmationRequired s)
    (sys_SecureSessionCookies s) (String.concat ", " (sys_Providers s)) (sys_MailConfigured s) (sys_MailRelay s)
    (duration_String (sys_SessionLifetime s)) (duration_String (sys_GuestRetention s)) (duration_String (sys_LoginAttemptRetention s))
    (duration_String (sys_UsageRetention s)) (duration_String (sys_MaintenanceInterval s))
    (FormatInt (conf_AuthRateLimit c) +:+ " / " +:+ duration_String (conf_AuthRateLimitWindow c))
    (sys_TrustedProxy s) (sys_AuthMode s) (sys_SSOIssuer s) (sys_HydraAdmin s).
Definition adminSystemRuntimeView (i : RuntimeInfo) : AdminSystemRuntimeView :=
  mkAdminSystemRuntimeView (rt_Version i) (formatAdminTime (rt_StartedAt i)) (formatAdminDuration (rt_Uptime i)) (rt_GoVersion i)
    (rt_GOOS i +:+ "/" +:+ rt_GOARCH i) (rt_NumCPU i) (rt_GOMAXPROCS i) (rt_Goroutines i) (formatAdminBytes (rt_HeapAllocBytes i))
    (formatAdminBytes (rt_SysBytes i)) (rt_NumGC i).
Definition adminMigrationView (m : MigrationInfo) : AdminMigrationView :=
  mkAdminMigrationView (mig_Rank m) (mig_Version m) (mig_Description m) (mig_Installed m)
    (match mig_InstalledAt m with Some at_ => format_minute at_ | None => "" end).
Definition adminDatastoreCountsView (c : DatastoreCounts) : AdminDatastoreCountsView :=
  mkAdminDatastoreCountsView (counts_TotalAccounts c) (counts_GuestAccounts c) (counts_AdministratorAccounts c) (counts_UnconfirmedAccounts c)
    (counts_AccountsWithoutPassword c) (counts_ActiveSessions c) (counts_ExpiredSessions c) (counts_ExpiredEmailTokens c)
    (counts_ExpiredPasswordResetTokens c) (counts_ExpiredOAuthStates c) (counts_RecentFailedSignIns c) (counts_CurrentLockouts c).
Definition maintenanceAuditDetail (runs : list MaintenanceRun) : string :=
  "jobs=" +:+ FormatInt (Z.of_nat (length runs)) +:+ " removed=" +:+ FormatInt (fold_left (λ n run, wrap64 (n + run_Deleted run)) runs 0)
  +:+ " failures=" +:+ FormatInt (Z.of_nat (length (List.filter Failed runs))).
Definition maintenanceFailed (runs : list MaintenanceRun) : bool := existsb Failed runs.
End views.
End AdminViews.
