(* ===== verification/WebAdmin.v ===== *)
(** * Administrator pages: internal/adapter/http/admin.go

    Every handler starts with [authorize], which repeats the check of the
    administrator for each request. *)
From S2P Require Export WebAdminViews.
Import UserRepository Locale WebAuth WebSettings AdminViews AdminState.

Definition AuditActionMaintenanceRun : string := "admin.maintenance.run".

Module WebAdmin.
Section admin.
Context `{Unicode, MailParser, Postgres, Crypto, PasswordHashing, URLParser, FloatParser, ReferenceParser, Templates}.
Context (site : Site).
#[local] Abbreviation cfg := (site_config site).
#[local] Abbreviation ports := (site_admin site).
#[local] Abbreviation t := (translate (site_catalogs site)).
#[local] Abbreviation path := mustLocalePath.

Definition renderState (r : Request) (language : string) (state : PageState) : Web unit :=
  let! rendered := RenderState (site_catalogs site) r language state in
  if rendered : bool then ret tt else renderError StatusInternalServerError.
(** [authorize]: the administrator of the session, or an answer. *)
Definition authorize (r : Request) (next : User → string → Web unit) : Web unit :=
  let language := recoveryLanguage r in
  let! principal := authenticate site r in
  match principal with
  | Err e =>
    if errors_Is e ErrUnauthenticated then
      if IsHTMX r then hx_redirect (path language "/sign-in") else redirectLocalized language "/sign-in"
    else renderError StatusInternalServerError
  | Ok principal =>
    match ParseInt (principal_ID principal) with
    | None => renderError StatusInternalServerError
    | Some userID =>
      if userID <=? 0 then renderError StatusInternalServerError else
      let! user := call (FindUserByID userID) in
      match user with
      | Err _ => renderError StatusInternalServerError
      | Ok user =>
        if negb (user_ID user =? userID) then renderError StatusInternalServerError
        else if negb (user_IsAdmin user) then renderState r language PageStateAccessDenied
        else next user language
      end
    end
  end.
(** A page, or an action, of an administrator. *)
Definition viewed (r : Request) (next : User → string → Web unit) : Web unit :=
  authorize r (λ user language,
    if negb (String.eqb (req_Method r) MethodGet) then method_not_allowed MethodGet else next user language).
Definition posted (r : Request) (next : User → string → Web unit) : Web unit :=
  authorize r (λ user language,
    if negb (String.eqb (req_Method r) MethodPost) then method_not_allowed MethodPost else next user language).
(** The account in the path. *)
Definition of_account (r : Request) (language : string) (next : Z → Web unit) : Web unit :=
  match WebGroups.pathID r with Some accountID => next accountID | None => renderState r language PageStateNotFound end.
Definition pathIdentityID (r : Request) : option Z := WebGroups.parse_id (PathValue r "identityID").
Definition adminActionContext (user : User) (r : Request) : AdminActionContext := mkActor (user_ID user) (requestOrigin r).
Definition admin_redirect (r : Request) (language route : string) : Web unit :=
  if IsHTMX r then hx_redirect (path language route) else redirectLocalized language route.
Definition success (language id : string) : list Alert := [mkAlert "success" (t language id)].
Definition failure (language id : string) : list Alert := [error_alert (t language id)].

(** ** Overview, accounts and the audit trail *)
Definition renderAdmin (r : Request) (language : string) (user : User) (alerts : list Alert) (status : Z) : Web unit :=
  renderPage r (admin_page site r language user "admin." alerts (admin_view site language "overview" "")) status.
Definition index : handler := λ r, viewed r (λ user language, renderAdmin r language user [] StatusOK).

(** [renderUsers] with its [adminUsersRequest]. *)
Definition renderUsers (r : Request) (language : string) (user : User) (page : AdminUserPage) (form : FormData) (mode : string)
    (accountForm : option AdminAccountFormView) (alerts : list Alert) (status : Z) : Web unit :=
  renderPage r ((admin_page site r language user "admin.accounts." alerts
    (mkAdminView true "users" (adminSections site language "accounts")
       (Some (list_view site language (parseAdminListState r) page mode accountForm)) None None None None None None)) <| page_Form := form |>) status.
Definition no_users : AdminUserPage := mkUserPage [] 0 0 0 0.
Definition list_ : handler := λ r, viewed r (λ user language,
  let! page := call (Admin.List (parseAdminListState r)) in
  match page with
  | Err _ => renderUsers r language user no_users FormData_zero "list" None (failure language "admin.error.generic") StatusInternalServerError
  | Ok page => renderUsers r language user page FormData_zero "list" None [] StatusOK
  end).
Definition renderAudit (r : Request) (language : string) (user : User) (state : AuditQuery) (page : AuditPage) (alerts : list Alert) (status : Z) : Web unit :=
  renderPage r (admin_page site r language user "admin.audit." alerts
    (mkAdminView true "audit" (adminSections site language "audit") None None (Some (audit_view language state page)) None None None None)) status.
Definition audit : handler := λ r, viewed r (λ user language,
  let state := parseAuditListState r in
  let! page := call (AdminHistory.AuditList state) in
  match page with
  | Err _ => renderAudit r language user state (mkAuditPage [] 0 0 0 0) (failure language "admin.error.generic") StatusInternalServerError
  | Ok page => renderAudit r language user state page [] StatusOK
  end).

(** ** One account *)
Definition renderDetail (r : Request) (language : string) (user : User) (accountID : Z) (alerts : list Alert) (status : Z) : Web unit :=
  let! detail := call (AdminDiagnostics.Detail accountID) in
  match detail with
  | Err e => if errors_Is e ErrRecordNotFound then renderState r language PageStateNotFound else renderError StatusInternalServerError
  | Ok detail =>
    let! lockout := call (Lockout.Status (App.signInLimiter cfg) (admin_User detail)) in
    let lockout := match lockout with Ok lockout => Some lockout | Err _ => None end in
    renderPage r ((admin_page site r language user "admin.account.detail_" alerts
      (mkAdminView true "detail" (adminSections site language "accounts") None (Some (detailView site language detail lockout)) None None None None None))
      <| page_Heading := adminAccountLabel (admin_User detail) |>) status
  end.
Definition detail : handler := λ r, viewed r (λ user language, of_account r language (λ accountID,
  renderDetail r language user accountID [] StatusOK)).
(** An action on the account of the path: its page again, or what the error says:
    an alert with its status, or the page for a missing record. *)
Definition account_action (r : Request) (user : User) (language : string) (accountID : Z) (message : string)
    (refusals : list (sentinel * (string * Z))) (action : M unit) : Web unit :=
  let! done := call action in
  match done with
  | Ok _ => renderDetail r language user accountID (success language message) StatusOK
  | Err e =>
    if errors_Is e ErrRecordNotFound then renderState r language PageStateNotFound else
    match error_case e ((λ c, (c.1, Some c.2)) <$> refusals) None with
    | Some (id, status) => renderDetail r language user accountID (failure language id) status
    | None => renderError StatusInternalServerError
    end
  end.
Definition revokeSessions : handler := λ r, posted r (λ user language, of_account r language (λ accountID,
  account_action r user language accountID "admin.sessions.revoked" []
    (Admin.RevokeSessions App.auditService (App.revoker cfg) (adminActionContext user r) accountID))).
Definition adminConfirmationAction (r : Request) (message : string) (action : AdminActionContext → Z → M unit) : Web unit :=
  posted r (λ user language, of_account r language (λ accountID,
    account_action r user language accountID message [(ErrInvalidConfirmationAccount, ("admin.account.error.no_email", StatusUnprocessableEntity))]
      (action (adminActionContext user r) accountID))).
Definition confirmEmailAccount : handler := λ r, adminConfirmationAction r "admin.confirmation.confirmed" (Admin.ConfirmEmail App.auditService).
Definition sendConfirmation : handler := λ r, adminConfirmationAction r "admin.confirmation.sent"
  (Admin.SendConfirmation App.auditService (App.confirmation cfg)).
Definition removeIdentity : handler := λ r, posted r (λ user language, of_account r language (λ accountID,
  match pathIdentityID r with
  | None => renderState r language PageStateNotFound
  | Some identityID =>
    account_action r user language accountID "admin.identity.removed"
      [(ErrOAuthLastSignInMethod, ("admin.error.last_identity", StatusUnprocessableEntity));
       (ErrOAuthIdentityNotFound, ("admin.error.identity_not_found", StatusNotFound))]
      (Admin.RemoveIdentity App.auditService OAuth.Unlink (adminActionContext user r) accountID identityID)
  end)).
Definition clearLockout : handler := λ r, posted r (λ user language, of_account r language (λ accountID,
  let! account := call (Admin.Find accountID) in
  match account with
  | Err e => if errors_Is e ErrRecordNotFound then renderState r language PageStateNotFound else renderError StatusInternalServerError
  | Ok account =>
    let! cleared := call (Lockout.ClearLockout (App.signInLimiter cfg) App.auditService (adminActionContext user r) account) in
    match cleared with
    | Err _ => renderError StatusInternalServerError
    | Ok _ => renderDetail r language user accountID (success language "admin.lockout.cleared") StatusOK
    end
  end)).

(** ** Creating, editing and deleting accounts *)
Definition accountFormData (r : Request) (errors : list FieldError) : FormData :=
  mkForm true (<["email" := PostFormValue r "email"]> {["is_admin" := PostFormValue r "is_admin"]}) errors.
Definition adminAccountErrorMessage (e : error) : string :=
  error_case e
    [(ErrInvalidEmail, "admin.account.error.invalid_email"); (ErrDuplicateEmail, "admin.account.error.duplicate_email");
     (ErrPasswordTooShort, "admin.account.error.weak_password"); (ErrPasswordTooLong, "admin.account.error.weak_password");
     (ErrInvalidPassword, "admin.account.error.weak_password"); (ErrOptimisticLockConflict, "admin.account.error.conflict");
     (ErrRecordNotFound, "admin.account.error.not_found"); (ErrAdminSelfAction, "admin.account.error.self_action");
     (ErrLastAdministrator, "admin.account.error.last_admin")] "admin.account.error.generic".
Definition adminAccountFieldErrors (language : string) (e : error) : list FieldError :=
  let weak := [mkFieldError "password" (t language "admin.account.error.weak_password")] in
  error_case e
    [(ErrInvalidEmail, [mkFieldError "email" (t language "admin.account.error.invalid_email")]);
     (ErrDuplicateEmail, [mkFieldError "email" (t language "admin.account.error.duplicate_email")]);
     (ErrPasswordTooShort, weak); (ErrPasswordTooLong, weak); (ErrInvalidPassword, weak)] [].
Definition create_form (language email : string) (isAdmin : bool) : AdminAccountFormView :=
  mkAdminAccountFormView (t language "admin.account.create_heading") (path language "/admin/users/new") (path language "/admin/users")
    email isAdmin 0 (t language "admin.account.submit") "" false.
Definition submitCreateAccount (r : Request) (language : string) (user : User) : Web unit :=
  let isAdmin := isChecked (PostFormValue r "is_admin") in
  let! created := call (Admin.Create App.auditService (adminActionContext user r)
    (mkAccountInput (PostFormValue r "email") (PostFormValue r "password") isAdmin)) in
  match created with
  | Err e =>
    renderUsers r language user no_users (accountFormData r (adminAccountFieldErrors language e)) "create"
      (Some (create_form language (PostFormValue r "email") isAdmin)) (failure language (adminAccountErrorMessage e)) StatusUnprocessableEntity
  | Ok _ => admin_redirect r language "/admin/users"
  end.
Definition createAccount : handler := λ r, authorize r (λ user language,
  if String.eqb (req_Method r) MethodGet then
    renderUsers r language user no_users (mkForm true ∅ []) "create" (Some (create_form language "" false)) [] StatusOK
  else if String.eqb (req_Method r) MethodPost then submitCreateAccount r language user
  else method_not_allowed get_or_post).

Definition edit_form (language : string) (accountID : Z) (email : string) (isAdmin : bool) (version : Z) (deleteURL : string) (isSelf : bool)
    : AdminAccountFormView :=
  mkAdminAccountFormView (t language "admin.account.edit_heading") (path language (user_url accountID "/edit")) (path language "/admin/users")
    email isAdmin version (t language "admin.account.save") deleteURL isSelf.
Definition renderEditAccount (r : Request) (language : string) (user : User) (accountID : Z) : Web unit :=
  let! account := call (Admin.Find accountID) in
  match account with
  | Err e => if errors_Is e ErrRecordNotFound then renderState r language PageStateNotFound else renderError StatusInternalServerError
  | Ok account =>
    let email := or_blank (user_Email account) in
    renderUsers r language user no_users (mkForm true (<["email" := email]> {["is_admin" := boolValue (user_IsAdmin account)]}) []) "edit"
      (Some (edit_form language accountID email (user_IsAdmin account) (user_Version account) (path language (user_url accountID "/delete"))
               (accountID =? user_ID user))) [] StatusOK
  end.
(** A version that does not parse shows what [strconv.ParseInt] gives beside
    its error. *)
Definition submitEditAccount (r : Request) (language : string) (user : User) (accountID : Z) : Web unit :=
  let raw := TrimSpace (PostFormValue r "version") in
  let email := PostFormValue r "email" in
  let isAdmin := isChecked (PostFormValue r "is_admin") in
  let form version := Some (edit_form language accountID email isAdmin version "" false) in
  match WebGroups.parseVersion raw with
  | None =>
    renderUsers r language user no_users (accountFormData r (adminAccountFieldErrors language ErrInvalidEmail)) "edit" (form (atoi_value raw))
      (failure language "admin.account.error.generic") StatusUnprocessableEntity
  | Some version =>
    let! updated := call (Admin.Update App.auditService (App.revoker cfg) (adminActionContext user r) accountID
      (mkAccountUpdate email (PostFormValue r "password") isAdmin version)) in
    match updated with
    | Err e =>
      if errors_Is e ErrRecordNotFound then renderState r language PageStateNotFound else
      renderUsers r language user no_users (accountFormData r (adminAccountFieldErrors language e)) "edit" (form version)
        (failure language (adminAccountErrorMessage e))
        (if errors_Is e ErrOptimisticLockConflict || errors_Is e ErrDuplicateEmail then StatusConflict else StatusUnprocessableEntity)
    | Ok _ => admin_redirect r language (user_url accountID "")
    end
  end.
Definition editAccount : handler := λ r, authorize r (λ user language, of_account r language (λ accountID,
  if String.eqb (req_Method r) MethodGet then renderEditAccount r language user accountID
  else if String.eqb (req_Method r) MethodPost then submitEditAccount r language user accountID
  else method_not_allowed get_or_post)).

Definition deleteAccount : handler := λ r, posted r (λ user language, of_account r language (λ accountID,
  let refuse id status := renderUsers r language user no_users FormData_zero "list" None (failure language id) status in
  if negb (isChecked (PostFormValue r "confirm")) then refuse "admin.account.error.confirm_required" StatusUnprocessableEntity else
  match WebGroups.parseVersion (PostFormValue r "version") with
  | None => renderError StatusInternalServerError
  | Some version =>
    let! deleted := call (Admin.Delete App.auditService (App.revoker cfg) (adminActionContext user r) accountID version) in
    match deleted with
    | Ok _ => admin_redirect r language "/admin/users"
    | Err e =>
      if errors_Is e ErrAdminSelfAction || errors_Is e ErrLastAdministrator then refuse (adminAccountErrorMessage e) StatusUnprocessableEntity
      else if errors_Is e ErrRecordNotFound then renderState r language PageStateNotFound
      else if errors_Is e ErrOptimisticLockConflict then refuse "admin.account.error.conflict" StatusConflict
      else renderError StatusInternalServerError
    end
  end)).

(** ** Reports *)
Definition windowKey (r : Request) : string := TrimSpace (Query_Get r "window").
Definition renderSuspicious (r : Request) (language : string) (user : User) (report : SuspiciousReport) (alerts : list Alert) (status : Z) : Web unit :=
  renderPage r (admin_page site r language user "admin.suspicious." alerts
    (mkAdminView true "suspicious" (adminSections site language "suspicious") None None None None None None (Some (suspicious_view site language report)))) status.
Definition suspicious : handler := λ r, viewed r (λ user language,
  let! report := call (UsageReports.SuspiciousReport_ (windowKey r)) in
  match report with
  | Err _ => renderSuspicious r language user (mkSuspiciousReport UsageReports.DefaultUsageWindowKey 0 0 0 0 []) (failure language "admin.usage.error") StatusInternalServerError
  | Ok report => renderSuspicious r language user report [] StatusOK
  end).
Definition renderUsage (r : Request) (language : string) (user : User) (report : UsageReport) (alerts : list Alert) (status : Z) : Web unit :=
  renderPage r (admin_page site r language user "admin.usage." alerts
    (mkAdminView true "usage" (adminSections site language "usage") None None None None None (Some (usage_view site language report)) None)) status.
Definition usage : handler := λ r, viewed r (λ user language,
  let ascending := String.eqb (Query_Get r "order") "least" in
  let! report := call (UsageReports.Report (port_queue ports) (windowKey r) ascending) in
  match report with
  | Err _ => renderUsage r language user (mkUsageReport UsageReports.DefaultUsageWindowKey 0 0 0 ascending [] (mkQueueStats 0 0 0 0 0))
               (failure language "admin.usage.error") StatusInternalServerError
  | Ok report => renderUsage r language user report [] StatusOK
  end).

(** ** Rate limits *)
Definition ok_or {A} (default : A) (m : M A) : Web A := let! a := call m in ret (match a with Ok a => a | Err _ => default end).
Fixpoint action_views (base : string) (actions : list RateLimitActionInfo) : Web (list AdminRateLimitActionView) :=
  match actions with
  | [] => ret []
  | a :: actions =>
    let! buckets := ok_or [] (RateLimitAdmin.AdminBuckets (App.limiters cfg) (info_Action a)) in
    let! views := action_views base actions in
    ret (mkAdminRateLimitActionView (info_Action a) (info_Limit a) (formatAdminDuration (info_Window a)) (info_Buckets a) (info_Locked a) (base +:+ "/clear")
           ((λ b, mkAdminRateLimitBucketView (bucket_KeyHint b) (bucket_Count b) (bucket_Limit b) (formatAdminDuration (bucket_RetryAfter b))) <$> buckets)
         :: views)
  end.
Definition renderRateLimits (r : Request) (language : string) (user : User) (alerts : list Alert) (status : Z) : Web unit :=
  let base := path language "/admin/ratelimits" in
  let! actions := ok_or [] (RateLimitAdmin.Overview (App.limiters cfg)) in
  let! views := action_views base actions in
  renderPage r (admin_page site r language user "admin.ratelimits." alerts
    (mkAdminView true "ratelimits" (adminSections site language "ratelimits") None None None None
       (Some (mkAdminRateLimitView (base +:+ "/clear") (base +:+ "/clear") (t language "admin.ratelimits.clear_confirm") views)) None None)) status.
Definition rateLimits : handler := λ r, viewed r (λ user language, renderRateLimits r language user [] StatusOK).
Definition clearRateLimit : handler := λ r, posted r (λ user language,
  let action := TrimSpace (PostFormValue r "action") in
  let actor := adminActionContext user r in
  let! removed := call (if String.eqb action "" then RateLimitAdmin.AdminClearAll (App.limiters cfg) App.auditService actor
                        else RateLimitAdmin.AdminClearAction (App.limiters cfg) App.auditService actor action) in
  match removed with
  | Err e => if errors_Is e ErrUnknownRateLimitAction then renderRateLimits r language user (failure language "admin.ratelimits.unknown") StatusNotFound
             else renderError StatusInternalServerError
  | Ok _ => renderRateLimits r language user (success language "admin.ratelimits.cleared") StatusOK
  end).

(** ** The system *)
Definition renderSystem (r : Request) (language : string) (user : User) (alerts : list Alert) (status : Z) : Web unit :=
  let! jobs := ok_or [] (port_jobs ports) in
  let! runtime := call (port_runtime ports) in
  let! migrations := call (port_migrations ports) in
  let! counts := call (port_counts ports) in
  let alerts := alerts ++ (if is_ok migrations then [] else failure language "admin.system.migrations.error")
                       ++ (if is_ok counts then [] else failure language "admin.system.counts.error") in
  let optional {A B} (f : A → B) (o : outcome A) : option B := match o with Ok a => Some (f a) | Err _ => None end in
  renderPage r (admin_page site r language user "admin.system." alerts
    (mkAdminView true "system" (adminSections site language "system") None None None
       (Some (mkAdminSystemView (path language "/admin/system" +:+ "/maintenance/run") (adminMaintenanceJobView site language <$> jobs) ""
          (Some (adminSystemConfigView (SystemInfo.SystemConfiguration_ (port_settings ports))))
          (optional adminSystemRuntimeView runtime)
          (match migrations with Ok migrations => adminMigrationView <$> migrations | Err _ => [] end)
          (optional adminDatastoreCountsView counts))) None None None)) status.
Definition system : handler := λ r, viewed r (λ user language, renderSystem r language user [] StatusOK).
Definition recordMaintenanceAudit (r : Request) (user : User) (runs : list MaintenanceRun) : Web unit :=
  ignore_call (Record (mkAuditRecord (user_ID user) (or_blank (user_Email user)) AuditActionMaintenanceRun "maintenance" ""
                         (maintenanceAuditDetail runs) (requestOrigin r))).
Definition runMaintenance : handler := λ r, posted r (λ user language,
  let! runs := call (port_run ports) in
  match runs with
  | Err _ => renderError StatusInternalServerError
  | Ok runs =>
    recordMaintenanceAudit r user runs ;;;
    renderSystem r language user
      (if maintenanceFailed runs then [mkAlert "warning" (t language "admin.system.maintenance.partial")]
       else success language "admin.system.maintenance.ran") StatusOK
  end).
End admin.
End WebAdmin.
