(* ===== verification/Routes.v ===== *)
(** * Public pages and the routes: internal/adapter/http/handler.go, about.go

    [ServeMux] is its matching: the most specific pattern first, which the
    order of the list is; another method of a known path answers 405.  Paths
    arrive clean and decoded.  The static files are left out. *)
From S2P Require Export WebAdmin.
Import UserRepository Settings Locale WebAuth.

Inductive segment := Lit (s : string) | Wild (name : string) | Rest (name : string).
Record route := mkRoute { route_Method : string; route_Pattern : list segment; route_Handler : handler }.

Module Routes.
(** The segments of a path, and the wildcards of a pattern that matches. *)
Definition segments_of (path : string) : list string := tail (Split "/" path).
Fixpoint matches (pattern : list segment) (path : list string) : option (list (string * string)) :=
  match pattern, path with
  | [], [] => Some []
  | [Rest name], _ => Some [(name, String.concat "/" path)]
  | Lit s :: pattern, p :: path => if String.eqb s p then matches pattern path else None
  | Wild name :: pattern, p :: path =>
    if String.eqb p "" then None else
    match matches pattern path with Some values => Some ((name, p) :: values) | None => None end
  | _, _ => None
  end.
Definition method_matches (pattern method : string) : bool :=
  String.eqb pattern method || (String.eqb pattern MethodGet && String.eqb method "HEAD").
Fixpoint find_route (routes : list route) (method : string) (path : list string) : option (handler * list (string * string)) :=
  match routes with
  | [] => None
  | rt :: routes =>
    match (if method_matches (route_Method rt) method then matches (route_Pattern rt) path else None) with
    | Some values => Some (route_Handler rt, values)
    | None => find_route routes method path
    end
  end.
(** [matchingMethods], sorted, for the methods in use. *)
Definition allowed (routes : list route) (path : list string) : string :=
  let known method := negb (is_nil (find_route routes method path)) in
  let methods := (if known MethodGet then [MethodGet; "HEAD"] else []) ++ (if known MethodPost then [MethodPost] else []) in
  String.concat ", " methods.
Definition ServeMux (routes : list route) : handler := λ r,
  let path := segments_of (req_Path r) in
  match find_route routes (req_Method r) path with
  | Some (h, values) => h (with_PathValues values r)
  | None =>
    let allow := allowed routes path in
    if String.eqb allow "" then http_Error "404 page not found" StatusNotFound
    else set_header "Allow" allow ;;; http_Error "Method Not Allowed" StatusMethodNotAllowed
  end.

Section routes.
Context `{Unicode, MailParser, Postgres, Crypto, PasswordHashing, URLParser, FloatParser, ReferenceParser, Templates}.
Context (site : Site).
#[local] Abbreviation cfg := (site_config site).
#[local] Abbreviation catalogs := (site_catalogs site).

(** ** Public pages *)
Definition health : handler := λ _,
  set_header "Content-Type" "text/plain; charset=utf-8" ;;; WriteHeader StatusOK ;;; Write ("ok" +:+ String (ascii_of_nat 10) "").
Definition defaultLocale : handler := λ r,
  match Path (resolveRequestLanguage r "") "/" with
  | Err _ => Middlewares.internal_error
  | Ok path => Redirect path StatusFound
  end.
(** [applySessionState] gives the account menu and the navigation, and in client
    mode takes the sign-up link away. *)
Definition applySessionState (r : Request) (language : string) (page : PageData) : Web PageData :=
  let page := match App.ssoClient cfg with Some _ => page <| page_SignUpURL := "" |> | None => page end in
  let! current := currentUser site r in
  let '(user, ok) := current in
  let page := if ok then page <| page_Account := Some (settingsAccountMenu language user) |> else page in
  ret (page <| page_Navigation := primaryNavigation catalogs language ok |>).
Definition render_public (r : Request) (language : string) (page : PageData) : Web unit :=
  let page := page <| page_CSRFToken := csrfToken r |> in
  let! page := applySessionState r language page in
  let! rendered := RenderRequestStatus r page StatusOK in
  if rendered : bool then ret tt else Middlewares.internal_error.
Definition home : handler := λ r,
  match ParsePath (req_Path r) with
  | Some (language, "/") =>
    if negb (match String.get (String.length (req_Path r) - 1) (req_Path r) with Some c => Ascii.eqb c "/" | None => false end) then
      match Path language "/" with
      | Err _ => Middlewares.internal_error
      | Ok path => Redirect path StatusFound
      end
    else
    render_public r language (zero_page <| page_Language := language |> <| page_Title := "GoWeb" |>
      <| page_Heading := "Welcome to GoWeb" |> <| page_Kind := "home" |> <| page_Template := "home" |>
      <| page_FragmentTemplate := "home-fragment" |> <| page_SignInURL := mustLocalePath language "/sign-in" |>
      <| page_SignUpURL := mustLocalePath language "/sign-up" |>)
  | _ => renderNotFound catalogs r
  end.
Definition localized : handler := λ r,
  match ParsePath (req_Path r) with
  | Some (_, "/") => home r
  | _ => renderNotFound catalogs r
  end.
(** Every message has to exist. *)
Fixpoint translate_all (language : string) (ids : list string) : outcome (gmap string string) :=
  match ids with
  | [] => Ok ∅
  | id :: ids =>
    match Translate catalogs language id, translate_all language ids with
    | Ok text, Ok messages => Ok (<[id := text]> messages)
    | Err e, _ | _, Err e => Err e
    end
  end.
Definition about : handler := λ r,
  let language := resolveRequestLanguage r "" in
  match translate_all language ["about.title"; "about.heading"; "about.description"; "about.icons_heading"; "about.icons_credit"; "about.license_summary"] with
  | Err _ => Middlewares.internal_error
  | Ok messages =>
    let text id := match messages !! id with Some t => t | None => "" end in
    render_public r language (zero_page <| page_Language := language |> <| page_Title := text "about.title" |>
      <| page_Heading := text "about.heading" |> <| page_Description := text "about.description" |> <| page_Kind := "about" |>
      <| page_Template := "about" |> <| page_FragmentTemplate := "about-fragment" |>
      <| page_SignInURL := mustLocalePath language "/sign-in" |> <| page_SignUpURL := mustLocalePath language "/sign-up" |>
      <| page_Labels := (list_to_map [("about_icons_heading", text "about.icons_heading");
           ("about_icons_credit", text "about.icons_credit"); ("about_license_summary", text "about.license_summary")] : gmap string string) |>)
  end.

(** ** The table of routes *)
Definition get (pattern : list segment) (h : handler) : route := mkRoute MethodGet pattern h.
Definition post (pattern : list segment) (h : handler) : route := mkRoute MethodPost pattern h.
Definition get_post (pattern : list segment) (h : handler) : list route := [get pattern h; post pattern h].

Definition common_routes (language : string) : list route :=
  let at_ path := Lit language :: path in
  [get (at_ [Lit "home"]) (WebAuth.home site); get (at_ [Lit "about"]) about; post (at_ [Lit "sign-out"]) (signOut site);
   get (at_ [Lit "account"; Lit "settings"]) (WebSettings.page site);
   post (at_ [Lit "account"; Lit "settings"; Lit "locale"]) (WebSettings.updateLocale site);
   post (at_ [Lit "account"; Lit "theme"]) (WebSettings.updateTheme site);
   get (at_ [Lit "groups"]) (WebGroups.list_ site); post (at_ [Lit "groups"]) (WebGroups.create site)]
  ++ get_post (at_ [Lit "groups"; Lit "join"]) (WebGroups.join site)
  ++ [get (at_ [Lit "groups"; Wild "id"]) (WebGroups.detail site);
      post (at_ [Lit "groups"; Wild "id"; Lit "rename"]) (WebGroups.rename site);
      post (at_ [Lit "groups"; Wild "id"; Lit "invite"]) (WebGroups.rotateInvite site);
      post (at_ [Lit "groups"; Wild "id"; Lit "leave"]) (WebGroups.leave site);
      post (at_ [Lit "groups"; Wild "id"; Lit "members"; Wild "memberID"; Lit "role"]) (WebGroups.changeRole site);
      post (at_ [Lit "groups"; Wild "id"; Lit "members"; Wild "memberID"; Lit "remove"]) (WebGroups.removeMember site)]
  ++ get_post (at_ [Lit "guest"; Lit "write"]) (WebFlows.guestWrite site)
  ++ get_post (at_ [Lit "guest"; Lit "transfer"]) (WebFlows.guestTransfer site).
Definition admin_routes (language : string) : list route :=
  let admin path := Lit language :: Lit "admin" :: path in
  let user path := admin (Lit "users" :: Wild "id" :: path) in
  [get (admin []) (WebAdmin.index site); get (admin [Lit "users"]) (WebAdmin.list_ site); get (admin [Lit "audit"]) (WebAdmin.audit site);
   get (admin [Lit "system"]) (WebAdmin.system site);
   post (admin [Lit "system"; Lit "maintenance"; Lit "run"]) (WebAdmin.runMaintenance site);
   get (admin [Lit "ratelimits"]) (WebAdmin.rateLimits site); post (admin [Lit "ratelimits"; Lit "clear"]) (WebAdmin.clearRateLimit site);
   get (admin [Lit "usage"]) (WebAdmin.usage site); get (admin [Lit "suspicious"]) (WebAdmin.suspicious site); get (user []) (WebAdmin.detail site)]
  ++ get_post (user [Lit "edit"]) (WebAdmin.editAccount site)
  ++ [post (user [Lit "delete"]) (WebAdmin.deleteAccount site); post (user [Lit "sessions"; Lit "revoke"]) (WebAdmin.revokeSessions site);
      post (user [Lit "lockout"; Lit "clear"]) (WebAdmin.clearLockout site)].
Definition credential_admin_routes (language : string) : list route :=
  let admin path := Lit language :: Lit "admin" :: path in
  let user path := admin (Lit "users" :: Wild "id" :: path) in
  get_post (admin [Lit "users"; Lit "new"]) (WebAdmin.createAccount site)
  ++ [post (user [Lit "confirm-email"]) (WebAdmin.confirmEmailAccount site); post (user [Lit "send-confirmation"]) (WebAdmin.sendConfirmation site);
      post (user [Lit "identities"; Wild "identityID"; Lit "remove"]) (WebAdmin.removeIdentity site)].
Definition client_routes (client : SSOClientService) (language : string) : list route :=
  let at_ path := Lit language :: path in
  [get (at_ [Lit "sign-in"]) (WebFlows.ssoSignIn site); get (at_ [Lit "oauth"; Lit "sso"]) (WebFlows.ssoStart site client);
   get (at_ [Lit "oauth"; Lit "sso"; Lit "callback"]) (WebFlows.ssoCallback site client)]
  ++ get_post (at_ [Lit "guest"; Lit "upgrade"]) (WebFlows.ssoGuestUpgrade site client).
Definition provider_routes (language name : string) : list route :=
  [get [Lit language; Lit "oauth"; Lit name] (WebFlows.oauthStart site name);
   get [Lit language; Lit "oauth"; Lit name; Lit "callback"] (WebFlows.oauthCallback site name)].
Definition credential_routes (language : string) : list route :=
  let at_ path := Lit language :: path in
  get_post (at_ [Lit "sign-up"]) (signUp site) ++ get_post (at_ [Lit "sign-in"]) (signIn site)
  ++ [post (at_ [Lit "account"; Lit "settings"; Lit "profile"]) (WebSettings.updateProfile site);
      post (at_ [Lit "account"; Lit "settings"; Lit "password"]) (WebSettings.updatePassword site);
      post (at_ [Lit "account"; Lit "settings"; Lit "identity"]) (WebSettings.unlinkIdentity site);
      post (at_ [Lit "account"; Lit "settings"; Lit "identity"; Lit "link"]) (WebSettings.linkIdentity site)]
  ++ get_post (at_ [Lit "resend-confirmation"]) (WebFlows.resendConfirmation site)
  ++ get_post (at_ [Lit "forgot-password"]) (WebFlows.forgotPassword site)
  ++ get_post (at_ [Lit "password-forgotten"]) (WebFlows.forgotPassword site)
  ++ [get (at_ [Lit "check-inbox"]) (WebFlows.resendConfirmation site); get (at_ [Lit "confirm-email"]) (WebFlows.confirmEmail site)]
  ++ get_post (at_ [Lit "reset-password"]) (WebFlows.resetPassword site)
  ++ get_post (at_ [Lit "password-reset"]) (WebFlows.resetPassword site)
  ++ get_post (at_ [Lit "guest"; Lit "upgrade"]) (WebFlows.guestUpgrade site)
  ++ (Providers.Names (providers cfg) ≫= provider_routes language).
Definition language_routes (language : string) : list route :=
  match App.ssoClient cfg with
  | Some client => client_routes client language
  | None => credential_routes language ++ credential_admin_routes language
  end ++ common_routes language ++ admin_routes language.
Definition sso_routes : list route :=
  match App.ssoProvider cfg with
  | None => []
  | Some provider =>
    [get [Lit "sso"; Lit "login"] (ssoLogin site provider); get [Lit "sso"; Lit "consent"] (ssoConsent provider);
     get [Lit "sso"; Lit "logout"] (ssoLogout site provider); get [Lit "sso"; Lit "error"] (ssoError site)]
  end
  ++ match App.ssoClient cfg with
     | Some client => [post [Lit "oauth"; Lit "sso"; Lit "backchannel-logout"] (WebFlows.ssoBackChannelLogout client)]
     | None => [get [Lit "confirm-email"] (WebFlows.confirmEmail site); get [Lit "reset-password"] WebFlows.resetPasswordLink]
     end.
Definition routes : list route :=
  (Codes ≫= language_routes) ++ sso_routes
  ++ [get [Lit "healthz"] health; get [Wild "language"] home; get [Wild "language"; Rest "path"] localized; get [Rest ""] defaultLocale].

(** [NewLoggedRouterWithServices]: what the middlewares are given.  [main]
    makes the tracer for the same proxy and the same log. *)
Definition site_edge (trustedProxy : string) (log : LogLine → Web unit) (enqueue : UsageEvent → Web unit) : Middlewares.Edge :=
  Middlewares.mkEdge trustedProxy (Some (Spans.NewSpanTracer trustedProxy (Some log))) (Some (Logger.LogSecurityRequest log)) (Some enqueue)
    (Some (Logger.LogRequest log))
    (Middlewares.mkCSRFConfig (sc_secure (site_cookie site))
       (match App.ssoClient cfg with Some _ => [WebFlows.ssoBackChannelLogoutPath] | None => [] end)).
Definition router (trustedProxy : string) (log : LogLine → Web unit) (enqueue : UsageEvent → Web unit) : handler :=
  Middlewares.newRouter (site_edge trustedProxy log enqueue) (ServeMux routes).
End routes.
End Routes.
