(* ===== verification/AppSteps.v ===== *)
(** * Every use case moves the database along [steps]

    One lemma per service; the network ports (single sign-on revocation and
    the provider client) are assumed not to write the database. *)
From S2P Require Export App.
Import UserRepository Sessions.

Lemma preserves_mono {S A} (R R' : relation S) (m : ST S A) :
  (∀ s s', R s s' → R' s s') → preserves R m → preserves R' m.
Proof. intros Hi Hm s. apply Hi, Hm. Qed.

(** A port that leaves the database alone; a revoker may update the record of
    single sign-on sessions. *)
Definition quiet {A} (m : M A) : Prop := preserves (on_db eq) m.
Definition quiet_revoker (o : option (Z → M unit)) : Prop :=
  match o with Some f => ∀ u, preserves (on_db logins_only) (f u) | None => True end.
Definition quiet_client (c : OAuthProviderClient) : Prop :=
  (∀ state challenge, quiet (AuthorizationURL c state challenge))
  ∧ ∀ code verifier, quiet (Exchange c code verifier).
Definition quiet_providers (r : gmap string OAuthProvider) : Prop :=
  ∀ n p c, r !! n = Some p → provider_client p = Some c → quiet_client c.
Record quiet_admin (a : SSOAdmin) : Prop := {
  quiet_LoginRequest c : quiet (LoginRequest a c);
  quiet_AcceptLogin c s t : quiet (AcceptLogin a c s t);
  quiet_RejectLogin c : quiet (RejectLogin a c);
  quiet_ConsentRequest c : quiet (ConsentRequest a c);
  quiet_AcceptConsent c g : quiet (AcceptConsent a c g);
  quiet_RejectConsent c : quiet (RejectConsent a c);
  quiet_LogoutRequest c : quiet (LogoutRequest a c);
  quiet_AcceptLogout c : quiet (AcceptLogout a c);
  quiet_RevokeLoginSession sid : quiet (RevokeLoginSession a sid);
  quiet_RevokeConsentSessions s : quiet (RevokeConsentSessions a s);
}.
Record quiet_relying_party (rp : SSORelyingParty) : Prop := {
  quiet_AuthorizationURL st c : quiet (rp_AuthorizationURL rp st c);
  quiet_Exchange c v : quiet (rp_Exchange rp c v);
  quiet_VerifyLogoutToken t : quiet (VerifyLogoutToken rp t);
  quiet_EndSessionURL t u : quiet (EndSessionURL rp t u);
}.
(** The network clients of a configuration do not write the database. *)
Record quiet_ports (cfg : Config) : Prop := {
  quiet_clients : quiet_providers (providers cfg);
  quiet_hydra a : hydra cfg = Some a → quiet_admin a;
  quiet_issuer rp : issuer cfg = Some rp → quiet_relying_party rp;
}.

Section app_steps.
Context `{Unicode, MailParser, Postgres, Crypto, PasswordHashing, URLParser, !PasswordHashingLaws} (del : bool).
#[local] Hint Resolve Hash_db : go_preserves.

Lemma quiet_steps {A} (m : M A) : quiet m → preserves (on_db (steps del)) m.
Proof. apply preserves_mono. intros s s'. unfold on_db. intros ->. reflexivity. Qed.


(** ** Limiters *)
Section limiters.
Context (scope : string) (config : RateLimitConfig).
Abbreviation l := (RateLimitBuckets.newSharedRateLimiter scope config).

Ltac limiter_tac := preserves_tac; simpl; auto with go_preserves.

Lemma Allow_steps a k : preserves (on_db (steps del)) (Allow l a k).
Proof. unfold Allow, valid_key. limiter_tac. Qed.
Lemma Clear_steps a k : preserves (on_db (steps del)) (Clear l a k).
Proof. unfold Clear, valid_key. limiter_tac. Qed.
Lemma Snapshot_steps a k : preserves (on_db (steps del)) (Snapshot l a k).
Proof. unfold Snapshot, valid_key. limiter_tac. Qed.
Lemma Actions_steps : preserves (on_db (steps del)) (Actions l).
Proof. unfold Actions, live_windows. limiter_tac. Qed.
Lemma Buckets_steps a : preserves (on_db (steps del)) (Buckets l a).
Proof. unfold Buckets, valid_key. limiter_tac. Qed.
Lemma ClearAction_steps a : preserves (on_db (steps del)) (ClearAction l a).
Proof. unfold ClearAction, valid_key. preserves_tac. apply delete_where_steps. Qed.
Lemma ClearAll_steps : preserves (on_db (steps del)) (ClearAll l).
Proof. apply delete_where_steps. Qed.
End limiters.
#[local] Hint Resolve Allow_steps Clear_steps Snapshot_steps Actions_steps ClearAction_steps
  ClearAll_steps : go_preserves.

(** ** Sessions *)
Context (cfg : Config) (Hports : quiet_ports cfg).
Abbreviation ss := (App.sessionService cfg).

(** ** The single sign-on provider *)
Section provider.
Context (s : SSOProviderService) (Ha : quiet_admin (sso_admin s)).

Lemma RecordSSOLoginSession_steps x : preserves (on_db (steps del)) (SSOLoginSessionRepository.RecordSSOLoginSession x).
Proof. unfold SSOLoginSessionRepository.RecordSSOLoginSession. preserves_tac. apply steps_statement. intros. by eapply step_record_login. Qed.
Lemma ListSSOLoginSessions_steps u : preserves (on_db (steps del)) (SSOLoginSessionRepository.ListSSOLoginSessions u).
Proof. unfold SSOLoginSessionRepository.ListSSOLoginSessions. preserves_tac. Qed.
Lemma DeleteSSOLoginSession_steps sid : preserves (on_db (steps del)) (SSOLoginSessionRepository.DeleteSSOLoginSession sid).
Proof. unfold SSOLoginSessionRepository.DeleteSSOLoginSession. preserves_tac. apply steps_statement. intros. by eapply step_delete_login. Qed.
#[local] Hint Resolve RecordSSOLoginSession_steps ListSSOLoginSessions_steps DeleteSSOLoginSession_steps : go_preserves.
Lemma eligibleUser_steps u : preserves (on_db (steps del)) (SSOProvider.eligibleUser s u).
Proof. unfold SSOProvider.eligibleUser. preserves_tac. Qed.
#[local] Hint Resolve eligibleUser_steps : go_preserves.
#[local] Hint Extern 1 (preserves (on_db (steps _)) (_ (sso_admin _) _)) => (apply quiet_steps; destruct Ha; auto) : go_preserves.
#[local] Hint Extern 1 (preserves (on_db (steps _)) (_ (sso_admin _) _ _)) => (apply quiet_steps; destruct Ha; auto) : go_preserves.
#[local] Hint Extern 1 (preserves (on_db (steps _)) (_ (sso_admin _) _ _ _)) => (apply quiet_steps; destruct Ha; auto) : go_preserves.
Lemma BeginLogin_steps c u : preserves (on_db (steps del)) (SSOProvider.BeginLogin s c u).
Proof. unfold SSOProvider.BeginLogin, SSOProvider.eligible. preserves_tac. Qed.
Lemma LoginClientName_steps c : preserves (on_db (steps del)) (SSOProvider.LoginClientName s c).
Proof. unfold SSOProvider.LoginClientName. preserves_tac. Qed.
Lemma CompleteLogin_steps c u : preserves (on_db (steps del)) (SSOProvider.CompleteLogin s c u).
Proof. unfold SSOProvider.CompleteLogin, SSOProvider.eligible. preserves_tac. Qed.
Lemma Consent_steps c : preserves (on_db (steps del)) (SSOProvider.Consent s c).
Proof. unfold SSOProvider.Consent. preserves_tac. Qed.
Lemma Logout_steps c : preserves (on_db (steps del)) (SSOProvider.Logout s c).
Proof. unfold SSOProvider.Logout. preserves_tac. Qed.
Lemma revoke_sids_steps sids : preserves (on_db (steps del)) (SSOProvider.revoke_sids s sids).
Proof. induction sids; simpl; preserves_tac. Qed.
#[local] Hint Resolve revoke_sids_steps : go_preserves.
Lemma SSO_RevokeUser_steps u : preserves (on_db (steps del)) (SSOProvider.RevokeUser s u).
Proof. unfold SSOProvider.RevokeUser. preserves_tac. Qed.

(** Revocation only updates the provider's own record. *)
Lemma quiet_logins {A} (m : M A) : quiet m → preserves (on_db logins_only) m.
Proof. apply preserves_mono. intros w w'. unfold on_db. intros ->. reflexivity. Qed.
Lemma DeleteSSOLoginSession_logins sid : preserves (on_db logins_only) (SSOLoginSessionRepository.DeleteSSOLoginSession sid).
Proof.
  unfold SSOLoginSessionRepository.DeleteSSOLoginSession. preserves_tac. apply preserves_statement; [apply _|].
  intros d d' a ->%SSOLoginSessionRepository.delete_login_session_ok. by eexists.
Qed.
#[local] Hint Resolve DeleteSSOLoginSession_logins : go_preserves.
#[local] Hint Extern 1 (preserves (on_db logins_only) (_ (sso_admin _) _)) => (apply quiet_logins; destruct Ha; auto) : go_preserves.
Lemma revoke_sids_logins sids : preserves (on_db logins_only) (SSOProvider.revoke_sids s sids).
Proof. induction sids; simpl; preserves_tac. Qed.
#[local] Hint Resolve revoke_sids_logins : go_preserves.
Lemma SSO_RevokeUser_logins u : preserves (on_db logins_only) (SSOProvider.RevokeUser s u).
Proof. unfold SSOProvider.RevokeUser, SSOLoginSessionRepository.ListSSOLoginSessions. preserves_tac. Qed.
End provider.

Lemma ssoProvider_quiet s : App.ssoProvider cfg = Some s → quiet_admin (sso_admin s).
Proof.
  unfold App.ssoProvider. intros Hs. apply fmap_Some in Hs as (a & Ha & ->). by apply (quiet_hydra cfg Hports).
Qed.
Lemma ssoRevoker_quiet : quiet_revoker (App.ssoRevoker cfg).
Proof.
  unfold quiet_revoker, App.ssoRevoker. destruct (App.ssoProvider cfg) as [s|] eqn:E; simpl; [|done].
  intros u. apply SSO_RevokeUser_logins. by apply ssoProvider_quiet.
Qed.

Lemma newSessionID_steps : preserves (on_db (steps del)) newSessionID.
Proof. unfold newSessionID. preserves_tac. Qed.
#[local] Hint Resolve newSessionID_steps : go_preserves.
Lemma create_steps u sid tok : preserves (on_db (steps del)) (create ss u sid tok).
Proof. unfold create. preserves_tac. Qed.
#[local] Hint Resolve create_steps : go_preserves.
Lemma Create_steps u : preserves (on_db (steps del)) (Create ss u).
Proof. apply create_steps. Qed.
Lemma Lookup_steps id : preserves (on_db (steps del)) (Lookup id).
Proof. unfold Lookup. preserves_tac. Qed.
Lemma Revoke_steps id : preserves (on_db (steps del)) (Revoke id).
Proof. unfold Revoke. preserves_tac. Qed.
#[local] Hint Resolve Create_steps Lookup_steps Revoke_steps : go_preserves.
Lemma SignOut_steps id : preserves (on_db (steps del)) (SignOut id).
Proof. unfold SignOut. preserves_tac. Qed.
Lemma RevokeUser_steps u : preserves (on_db (steps del)) (RevokeUser ss u).
Proof.
  unfold RevokeUser. change (sso_RevokeUser ss) with (App.ssoRevoker cfg). unfold App.ssoRevoker.
  destruct (App.ssoProvider cfg) as [p|] eqn:E; simpl; preserves_tac.
  apply SSO_RevokeUser_steps. by apply ssoProvider_quiet.
Qed.
#[local] Hint Resolve SignOut_steps RevokeUser_steps : go_preserves.

(** ** Sign-in and sign-up *)
Lemma SignIn_steps input : preserves (on_db (steps del)) (SignIn.SignIn (App.signInBase cfg) input).
Proof.
  unfold SignIn.SignIn, SignIn.findUser. preserves_tac; simpl; unfold App.noop_Clear; preserves_tac.
Qed.
Lemma recordAttempt_steps r i o out u : preserves (on_db (steps del)) (SignIn.recordAttempt r i o out u).
Proof. unfold SignIn.recordAttempt, SignIn.RecordAttempt. preserves_tac. Qed.
#[local] Hint Resolve SignIn_steps recordAttempt_steps : go_preserves.
Lemma RateLimitedSignIn_steps i o :
  preserves (on_db (steps del)) (SignIn.RateLimitedSignIn (App.signInBase cfg) (App.signInLimiter cfg) true i o).
Proof. unfold SignIn.RateLimitedSignIn, App.signInLimiter. preserves_tac. Qed.

Lemma SignUp_steps c i : preserves (on_db (steps del)) (SignUp.SignUp ss c i).
Proof.
  unfold SignUp.SignUp, SignUp.rejectDuplicateEmail, SignUp.rejectDuplicateUsername. preserves_tac.
Qed.
#[local] Hint Resolve SignUp_steps : go_preserves.
Lemma RateLimitedSignUp_steps c i :
  preserves (on_db (steps del)) (SignUp.RateLimitedSignUp ss c (App.signInLimiter cfg) i).
Proof. unfold SignUp.RateLimitedSignUp, App.signInLimiter. preserves_tac. Qed.
(** ** Links and passwords *)
Lemma Confirm_steps tk : preserves (on_db (steps del)) (Confirmation.Confirm tk).
Proof. unfold Confirmation.Confirm. preserves_tac. Qed.
Lemma Issue_confirmation_steps s u : preserves (on_db (steps del)) (Confirmation.Issue s u).
Proof. unfold Confirmation.Issue, Confirmation.newConfirmationToken. preserves_tac. Qed.
#[local] Hint Resolve Issue_confirmation_steps : go_preserves.
Lemma Resend_steps e :
  preserves (on_db (steps del)) (Confirmation.Resend (App.confirmation cfg) App.confirmationLimiter e).
Proof. unfold Confirmation.Resend, App.confirmationLimiter. preserves_tac. Qed.
Lemma Request_steps e : preserves (on_db (steps del)) (PasswordReset.Request (App.passwordResetter cfg) e).
Proof.
  unfold PasswordReset.Request, PasswordReset.newPasswordResetToken. simpl.
  unfold App.passwordResetLimiter. preserves_tac.
Qed.
Lemma Redeem_reset_steps tk p : preserves (on_db (steps del)) (PasswordReset.Redeem ss tk p).
Proof. unfold PasswordReset.Redeem. preserves_tac. Qed.
Lemma Update_password_steps u i : preserves (on_db (steps del)) (PasswordReset.Update ss u i).
Proof. unfold PasswordReset.Update, PasswordReset.verifyCurrent. preserves_tac. Qed.

(** ** Guests *)
Lemma random_code_steps n al e : preserves (on_db (steps del)) (random_code n al e).
Proof. induction n; simpl; preserves_tac. Qed.
#[local] Hint Resolve random_code_steps : go_preserves.
Lemma RateLimitedCreate_steps o th :
  preserves (on_db (steps del)) (Guests.RateLimitedCreate ss App.guestLimiter o th).
Proof.
  unfold Guests.RateLimitedCreate, App.guestLimiter, Guests.CreateWithTheme, Guests.newGuestUsername,
    Guests.createWithTheme. preserves_tac.
Qed.
Lemma RateLimitedRedeem_steps o c :
  preserves (on_db (steps del)) (Guests.RateLimitedRedeem ss App.guestLimiter o c).
Proof. unfold Guests.RateLimitedRedeem, App.guestLimiter, Guests.Redeem. preserves_tac. Qed.
Lemma Upgrade_steps u i : preserves (on_db (steps del)) (Guests.Upgrade ss u i).
Proof. unfold Guests.Upgrade, Guests.rejectUpgradeEmail. preserves_tac. Qed.
Lemma Issue_claim_steps u : preserves (on_db (steps del)) (Guests.Issue u).
Proof. unfold Guests.Issue, Guests.validated, Guests.newGuestClaimCode. preserves_tac. Qed.
Lemma Cleanup_steps r : preserves (on_db (steps del)) (Guests.Cleanup r).
Proof. unfold Guests.Cleanup. preserves_tac. Qed.

(** ** Settings *)
Lemma UpdateProfile_steps u i : preserves (on_db (steps del)) (Settings.UpdateProfile u i).
Proof. unfold Settings.UpdateProfile, Settings.rejectDuplicateUsername. preserves_tac. Qed.
Lemma UpdateLocale_steps u l : preserves (on_db (steps del)) (Settings.UpdateLocale u l).
Proof. unfold Settings.UpdateLocale. preserves_tac. Qed.
Lemma UpdateTheme_steps u th : preserves (on_db (steps del)) (Settings.UpdateTheme u th).
Proof. unfold Settings.UpdateTheme. preserves_tac. Qed.

(** ** Groups *)
Lemma Record_steps r : preserves (on_db (steps del)) (Record r).
Proof. unfold Record. preserves_tac. Qed.
#[local] Hint Resolve Record_steps : go_preserves.
Lemma recordSiteAdminAction_steps u g a d :
  preserves (on_db (steps del)) (Groups.recordSiteAdminAction App.auditService u g a d).
Proof. unfold Groups.recordSiteAdminAction, App.auditService. preserves_tac. Qed.
Lemma actorIsGlobalAdmin_steps u : preserves (on_db (steps del)) (Groups.actorIsGlobalAdmin u).
Proof. unfold Groups.actorIsGlobalAdmin. preserves_tac. Qed.
#[local] Hint Resolve recordSiteAdminAction_steps actorIsGlobalAdmin_steps : go_preserves.
Lemma requireAdmin_steps u g : preserves (on_db (steps del)) (Groups.requireAdmin u g).
Proof. unfold Groups.requireAdmin. preserves_tac. Qed.
#[local] Hint Resolve requireAdmin_steps : go_preserves.
Lemma create_tries_steps n : ∀ u nm no e, preserves (on_db (steps del)) (Groups.create_tries n u nm no e).
Proof. induction n; intros; simpl; unfold Groups.newGroupInviteCode; preserves_tac. Qed.
#[local] Hint Resolve create_tries_steps : go_preserves.
Lemma Create_group_steps u nm : preserves (on_db (steps del)) (Groups.Create u nm).
Proof. unfold Groups.Create. preserves_tac. Qed.
Lemma List_groups_steps u : preserves (on_db (steps del)) (Groups.List u).
Proof. unfold Groups.List. preserves_tac. Qed.
Lemma Detail_steps u g : preserves (on_db (steps del)) (Groups.Detail u g).
Proof. unfold Groups.Detail. preserves_tac. Qed.
Lemma Rename_steps u g v nm : preserves (on_db (steps del)) (Groups.Rename App.auditService u g v nm).
Proof. unfold Groups.Rename. preserves_tac. Qed.
Lemma rotate_tries_steps n : ∀ u g b gr e,
  preserves (on_db (steps del)) (Groups.rotate_tries App.auditService n u g b gr e).
Proof. induction n; intros; simpl; unfold Groups.newGroupInviteCode; preserves_tac. Qed.
#[local] Hint Resolve rotate_tries_steps : go_preserves.
Lemma RotateInvite_steps u g : preserves (on_db (steps del)) (Groups.RotateInvite App.auditService u g).
Proof. unfold Groups.RotateInvite. preserves_tac. Qed.
Lemma RateLimitedJoin_steps u c : preserves (on_db (steps del)) (Groups.RateLimitedJoin App.groupJoinLimiter u c).
Proof. unfold Groups.RateLimitedJoin, Groups.Join, App.groupJoinLimiter. preserves_tac. Qed.
Lemma ChangeRole_steps a g u v r : preserves (on_db (steps del)) (Groups.ChangeRole App.auditService a g u v r).
Proof. unfold Groups.ChangeRole. preserves_tac. Qed.
Lemma RemoveMember_steps a g u v : preserves (on_db (steps del)) (Groups.RemoveMember App.auditService a g u v).
Proof. unfold Groups.RemoveMember. preserves_tac. Qed.
Lemma Leave_steps u g : preserves (on_db (steps del)) (Groups.Leave u g).
Proof. unfold Groups.Leave. preserves_tac. Qed.
(** ** External providers *)
Lemma providerClient_quiet name p c :
  Providers.providerClient (providers cfg) name = Some (p, c) → quiet_client c.
Proof.
  unfold Providers.providerClient, Providers.Get. intros Hp. repeat case_match; simplify_eq. by eapply (quiet_clients cfg Hports).
Qed.
Lemma issue_state_steps p c a u :
  quiet_client c → preserves (on_db (steps del)) (OAuth.issue_state (App.oauth cfg) p c a u).
Proof.
  intros [Hu _]. unfold OAuth.issue_state, OAuth.newOAuthState, OAuth.newPKCEVerifier. preserves_tac.
  apply quiet_steps, Hu.
Qed.
Lemma Start_steps p : preserves (on_db (steps del)) (OAuth.Start (App.oauth cfg) p).
Proof.
  unfold OAuth.Start. simpl. destruct (Providers.providerClient _ p) as [[q c]|] eqn:E; [|preserves_tac].
  apply providerClient_quiet in E. by apply issue_state_steps.
Qed.
Lemma StartLink_steps u p : preserves (on_db (steps del)) (OAuth.StartLink (App.oauth cfg) u p).
Proof.
  unfold OAuth.StartLink. simpl. destruct (Providers.providerClient _ p) as [[q c]|] eqn:E; [|preserves_tac].
  apply providerClient_quiet in E. preserves_tac. by apply issue_state_steps.
Qed.
Lemma consumeCallbackState_steps p st :
  preserves (on_db (steps del)) (OAuth.consumeCallbackState (App.oauth cfg) p st).
Proof. unfold OAuth.consumeCallbackState. preserves_tac. Qed.
Lemma consumeCallbackState_client p st w w' stored n c t :
  OAuth.consumeCallbackState (App.oauth cfg) p st w = (w', Ok (stored, n, c, t)) → quiet_client c.
Proof.
  unfold OAuth.consumeCallbackState. intros Hc. inv_ok.
  destruct (Providers.providerClient _ p) as [[q c']|] eqn:E; inv_ok. simplify_eq.
  by apply providerClient_quiet in E.
Qed.
Lemma exchange_steps c code v : quiet_client c → preserves (on_db (steps del)) (OAuth.exchangeOAuthProfile c code v).
Proof.
  intros [_ Hx]. unfold OAuth.exchangeOAuthProfile. preserves_tac. apply quiet_steps, Hx.
Qed.
Lemma signInWithProfile_steps n p t : preserves (on_db (steps del)) (OAuth.signInWithProfile (App.oauth cfg) n p t).
Proof.
  unfold OAuth.signInWithProfile, OAuth.signInExistingIdentity, OAuth.createOAuthAccount. simpl. preserves_tac.
Qed.
Lemma linkProfile_steps u n p t : preserves (on_db (steps del)) (OAuth.linkProfile u n p t).
Proof. unfold OAuth.linkProfile, OAuth.confirm_linked_email. preserves_tac. Qed.
#[local] Hint Resolve consumeCallbackState_steps signInWithProfile_steps linkProfile_steps : go_preserves.
Lemma CompleteCallback_steps a p code st :
  preserves (on_db (steps del)) (OAuth.CompleteCallback (App.oauth cfg) a p code st).
Proof.
  unfold OAuth.CompleteCallback. apply preserves_bind; [apply _|preserves_tac|]. intros _.
  apply preserves_bind_ok; [apply _|preserves_tac|]. intros [[[stored n] c] t] w w' E.
  apply consumeCallbackState_client in E.
  pose proof (exchange_steps c code (state_CodeVerifier stored) E).
  repeat first [assumption | preserves_step].
Qed.
Lemma Unlink_steps u i : preserves (on_db (steps del)) (OAuth.Unlink u i).
Proof. unfold OAuth.Unlink. preserves_tac. Qed.
#[local] Hint Resolve Start_steps StartLink_steps CompleteCallback_steps Unlink_steps : go_preserves.

(** ** Single sign-on clients *)
Section client.
Context (s : SSOClientService) (Hrp : quiet_relying_party (relyingParty s)) (Hss : client_sessions s = ss).

Lemma UpgradeGuestWithIdentity_steps g v i t :
  preserves (on_db (steps del)) (SSOGuestUpgradeRepository.UpgradeGuestWithIdentity g v i t).
Proof.
  unfold SSOGuestUpgradeRepository.UpgradeGuestWithIdentity. case_match; [preserves_tac|].
  apply preserves_transaction; [apply _|]. unfold SSOGuestUpgradeRepository.upgrade_statements.
  apply preserves_bind; [apply _|apply preserves_map_err, steps_statement; intros; by eapply step_revoke_active|].
  intros _. apply preserves_bind; [apply _| |].
  - apply preserves_map_err, preserves_bind; [apply _| |intro; preserves_tac].
    apply steps_statement. intros d d' row (old & Hold & Hguest & Hup)%SSOGuestUpgradeRepository.update_guest_ok.
    eapply step_update_user; [exact Hup|]. intros Hn u Hu Hadm.
    assert (u = old) as ->.
    { simpl in Hu. congruence. }
    exfalso. unfold UserRepository.is_administrator in *. simpl in *. rewrite Hguest in Hadm. by destruct (user_IsAdmin old).
  - intro. preserves_tac. apply steps_statement. intros. by eapply step_insert_identity.
Qed.
#[local] Hint Resolve UpgradeGuestWithIdentity_steps : go_preserves.
#[local] Hint Extern 1 (preserves (on_db (steps _)) (_ (relyingParty _) _)) => (apply quiet_steps; destruct Hrp; auto) : go_preserves.
#[local] Hint Extern 1 (preserves (on_db (steps _)) (_ (relyingParty _) _ _)) => (apply quiet_steps; destruct Hrp; auto) : go_preserves.
Lemma SSO_start_steps a u : preserves (on_db (steps del)) (SSOClient.start s a u).
Proof. unfold SSOClient.start, OAuth.newOAuthState, OAuth.newPKCEVerifier. preserves_tac. Qed.
#[local] Hint Resolve SSO_start_steps : go_preserves.
Lemma StartUpgrade_steps u : preserves (on_db (steps del)) (SSOClient.StartUpgrade s u).
Proof. unfold SSOClient.StartUpgrade. preserves_tac. Qed.
Lemma CreateSSO_steps u sid tok : preserves (on_db (steps del)) (CreateSSO ss u sid tok).
Proof. unfold CreateSSO. preserves_tac. Qed.
#[local] Hint Resolve CreateSSO_steps : go_preserves.
Lemma upgradeGuest_steps u i t : preserves (on_db (steps del)) (SSOClient.upgradeGuest s u i t).
Proof. unfold SSOClient.upgradeGuest, SSOClient.reject_taken_email. rewrite Hss. preserves_tac. Qed.
Lemma SSO_account_steps i t : preserves (on_db (steps del)) (SSOClient.account i t).
Proof. unfold SSOClient.account, SSOClient.linkable_account, SSOClient.refresh. preserves_tac. Qed.
#[local] Hint Resolve upgradeGuest_steps SSO_account_steps : go_preserves.
Lemma SSO_Callback_steps a c st : preserves (on_db (steps del)) (SSOClient.Callback s a c st).
Proof. unfold SSOClient.Callback. rewrite Hss. preserves_tac. Qed.
Lemma BackChannelLogout_steps t : preserves (on_db (steps del)) (SSOClient.BackChannelLogout s t).
Proof. unfold SSOClient.BackChannelLogout. preserves_tac. Qed.
Lemma SignOutURL_steps i : preserves (on_db (steps del)) (SSOClient.SignOutURL s i).
Proof. unfold SSOClient.SignOutURL. preserves_tac. Qed.
End client.

Lemma ssoClient_quiet s : App.ssoClient cfg = Some s → quiet_relying_party (relyingParty s) ∧ client_sessions s = ss.
Proof.
  unfold App.ssoClient. intros Hs. apply fmap_Some in Hs as (rp & Hrp & ->).
  split; [by apply (quiet_issuer cfg Hports)|done].
Qed.
Lemma wired_steps {S A} (service : option S) (m : S → M A) :
  (∀ s, service = Some s → preserves (on_db (steps del)) (m s)) → preserves (on_db (steps del)) (App.wired service m).
Proof.
  intros Hs. unfold App.wired, App.done_. destruct service as [s|]; [|preserves_tac].
  apply preserves_bind; [apply _|by apply Hs|]. intro. preserves_tac.
Qed.
Lemma RecordUsageEvent_steps e : preserves (on_db (steps del)) (UsageEventRepository.RecordUsageEvent e).
Proof.
  unfold UsageEventRepository.RecordUsageEvent. preserves_tac; apply steps_statement; intros; by eapply step_insert_usage.
Qed.

(** ** Administration *)
Lemma record_admin_steps c a u d : preserves (on_db (steps del)) (Admin.record App.auditService c a u d).
Proof. unfold Admin.record, App.auditService. preserves_tac. Qed.
#[local] Hint Resolve record_admin_steps : go_preserves.
Abbreviation rev := (App.revoker cfg).
Lemma Admin_RevokeSessions_steps c u : preserves (on_db (steps del)) (Admin.RevokeSessions App.auditService rev c u).
Proof. unfold Admin.RevokeSessions, App.revoker. preserves_tac. Qed.
Lemma optional_hash_steps p : preserves (on_db (steps del)) (Admin.optional_hash p).
Proof. unfold Admin.optional_hash. preserves_tac. Qed.
#[local] Hint Resolve optional_hash_steps : go_preserves.
Lemma Admin_Create_steps c i : preserves (on_db (steps del)) (Admin.Create App.auditService c i).
Proof. unfold Admin.Create. preserves_tac. Qed.
Lemma Admin_Update_steps c u i : preserves (on_db (steps del)) (Admin.Update App.auditService rev c u i).
Proof. unfold Admin.Update, App.revoker. preserves_tac. Qed.
Lemma Admin_Delete_steps c u v : del = true → preserves (on_db (steps del)) (Admin.Delete App.auditService rev c u v).
Proof.
  intros Hdel. unfold Admin.Delete, App.revoker.
  assert (∀ id v, preserves (on_db (steps del)) (DeleteUser id v)) by (intros; by apply DeleteUser_steps).
  preserves_tac.
Qed.
Lemma Admin_List_steps q : preserves (on_db (steps del)) (Admin.List q).
Proof. unfold Admin.List, AdminUserRepository.ListUsers. preserves_tac. Qed.
Lemma Admin_ConfirmEmail_steps c u : preserves (on_db (steps del)) (Admin.ConfirmEmail App.auditService c u).
Proof. unfold Admin.ConfirmEmail. preserves_tac. Qed.
Lemma Admin_SendConfirmation_steps c u :
  preserves (on_db (steps del)) (Admin.SendConfirmation App.auditService (App.confirmation cfg) c u).
Proof. unfold Admin.SendConfirmation. preserves_tac. Qed.
Lemma Admin_RemoveIdentity_steps c u i :
  preserves (on_db (steps del)) (Admin.RemoveIdentity App.auditService OAuth.Unlink c u i).
Proof. unfold Admin.RemoveIdentity. preserves_tac. Qed.

Lemma recentOrigins_steps u : preserves (on_db (steps del)) (Lockout.recentOrigins u).
Proof. unfold Lockout.recentOrigins, AdminHistory.ListLoginAttemptsForEmail. preserves_tac. Qed.
#[local] Hint Resolve recentOrigins_steps : go_preserves.
Lemma identifier_status_steps ks : ∀ st,
  preserves (on_db (steps del)) (Lockout.identifier_status (App.signInLimiter cfg) ks st).
Proof. induction ks; intros; simpl; [preserves_tac|]. unfold App.signInLimiter in *. preserves_tac. Qed.
Lemma origin_statuses_steps os :
  preserves (on_db (steps del)) (Lockout.origin_statuses (App.signInLimiter cfg) os).
Proof. induction os; simpl; [preserves_tac|]. unfold App.signInLimiter in *. preserves_tac. Qed.
#[local] Hint Resolve identifier_status_steps origin_statuses_steps : go_preserves.
Lemma Lockout_Status_steps u : preserves (on_db (steps del)) (Lockout.Status (App.signInLimiter cfg) u).
Proof.
  unfold Lockout.Status, Lockout.identifierLimit. apply preserves_bind; [apply _| |intro; preserves_tac].
  unfold App.signInLimiter. preserves_tac.
Qed.
Lemma record_action_steps r : preserves (on_db (steps del)) (record_action App.auditService r).
Proof. unfold record_action, App.auditService. preserves_tac. Qed.
#[local] Hint Resolve record_action_steps : go_preserves.
Lemma ClearLockout_steps c u :
  preserves (on_db (steps del)) (Lockout.ClearLockout (App.signInLimiter cfg) App.auditService c u).
Proof. unfold Lockout.ClearLockout, App.signInLimiter. preserves_tac. Qed.
Lemma AuditList_steps q : preserves (on_db (steps del)) (AdminHistory.AuditList q).
Proof. unfold AdminHistory.AuditList, AdminHistory.ListAuditEntries. preserves_tac. Qed.

(** The limiters of the application are the shared ones. *)
Definition shared (l : RateLimiter World) : Prop :=
  ∃ scope config, l = RateLimitBuckets.newSharedRateLimiter scope config.
Lemma limiters_shared : Forall shared (App.limiters cfg).
Proof. repeat (constructor; [by eexists _, _|]). constructor. Qed.
Lemma overview_steps ls : Forall shared ls → ∀ seen o, preserves (on_db (steps del)) (RateLimitAdmin.overview_of ls seen o).
Proof.
  induction 1 as [|l ls (sc & cf & ->) _ IH]; intros; simpl; [preserves_tac|].
  apply preserves_bind; [apply _|apply Actions_steps|]. intro. case_match. apply IH.
Qed.
Lemma clear_listed_steps l a as_ : shared l → ∀ acc, preserves (on_db (steps del)) (RateLimitAdmin.clear_listed l a as_ acc).
Proof. intros (sc & cf & ->). induction as_; intros; simpl; preserves_tac. Qed.
Lemma clear_action_steps ls a : Forall shared ls → ∀ acc, preserves (on_db (steps del)) (RateLimitAdmin.clear_action_of ls a acc).
Proof.
  induction 1 as [|l ls Hl _ IH]; intros; simpl; [preserves_tac|].
  pose proof Hl as (sc & cf & ->). apply preserves_bind; [apply _|apply Actions_steps|]. intro.
  apply preserves_bind; [apply _|by apply clear_listed_steps|]. intro. apply IH.
Qed.
Lemma clear_all_steps ls c : Forall shared ls →
  ∀ n, preserves (on_db (steps del)) (RateLimitAdmin.clear_all_of App.auditService ls c n).
Proof.
  induction 1 as [|l ls (sc & cf & ->) _ IH]; intros; simpl; [preserves_tac|].
  unfold RateLimitAdmin.record. preserves_tac.
Qed.
Lemma RateLimitAdmin_steps c a :
  preserves (on_db (steps del)) (RateLimitAdmin.Overview (App.limiters cfg)) ∧
  preserves (on_db (steps del)) (RateLimitAdmin.AdminClearAction (App.limiters cfg) App.auditService c a) ∧
  preserves (on_db (steps del)) (RateLimitAdmin.AdminClearAll (App.limiters cfg) App.auditService c).
Proof.
  pose proof limiters_shared as Hl. split_and!.
  - by apply overview_steps.
  - unfold RateLimitAdmin.AdminClearAction, RateLimitAdmin.record.
    pose proof (clear_action_steps _ a Hl (false, 0)). preserves_tac.
  - unfold RateLimitAdmin.AdminClearAll, RateLimitAdmin.record.
    pose proof (clear_all_steps _ c Hl 0). preserves_tac.
Qed.

(** Deleting an account on request is one use case. *)
Definition deletes (u : use_case) : bool := match u with DoAdminDelete _ _ _ => true | _ => false end.

Lemma serve_steps u : (deletes u = true → del = true) → preserves (on_db (steps del)) (App.serve cfg u).
Proof.
  pose proof (RateLimitAdmin_steps (mkActor 0 "") "") as (Hov & _ & _). intros Hdel.
  destruct u; cbn [App.serve]; unfold App.done_; try (apply preserves_bind; [apply _| |intro; apply preserves_ret; apply _]);
  auto using RateLimitedSignIn_steps, RateLimitedSignUp_steps, Lookup_steps, SignOut_steps, Confirm_steps,
    Resend_steps, Request_steps, Redeem_reset_steps, RateLimitedCreate_steps, RateLimitedRedeem_steps,
    Upgrade_steps, Issue_claim_steps, Cleanup_steps, Update_password_steps, UpdateProfile_steps,
    UpdateLocale_steps, UpdateTheme_steps.
  all: auto using Create_group_steps, List_groups_steps, Detail_steps, Rename_steps, RotateInvite_steps,
    RateLimitedJoin_steps, ChangeRole_steps, RemoveMember_steps, Leave_steps, Start_steps, StartLink_steps,
    CompleteCallback_steps, Unlink_steps, Admin_Create_steps, Admin_Update_steps, Admin_Delete_steps,
    Admin_RevokeSessions_steps, Admin_List_steps, Admin_ConfirmEmail_steps, Admin_SendConfirmation_steps,
    Admin_RemoveIdentity_steps, Lockout_Status_steps, ClearLockout_steps, AuditList_steps, RecordUsageEvent_steps.
  all: try (apply wired_steps; intros s Hs;
            first [apply ssoProvider_quiet in Hs as Hq | apply ssoClient_quiet in Hs as [Hq Hq2]];
            eauto using BeginLogin_steps, LoginClientName_steps, CompleteLogin_steps, Consent_steps, Logout_steps,
              SSO_start_steps, StartUpgrade_steps, SSO_Callback_steps, BackChannelLogout_steps, SignOutURL_steps).
  all: try (apply SSO_start_steps, Hq).
  - apply (RateLimitAdmin_steps actor action).
  - apply (RateLimitAdmin_steps actor "").
Qed.

Lemma serve_all_steps (us : list use_case) :
  (del = false → Forall (λ u, deletes u = false) us) → preserves (on_db (steps del)) (App.serve_all cfg us).
Proof.
  induction us as [|x us IH]; cbn [App.serve_all]; intros Hd; [preserves_tac|].
  assert (preserves (on_db (steps del)) (App.serve cfg x)).
  { apply serve_steps. intros Hu. apply not_false_is_true. intros E. specialize (Hd E).
    apply Forall_cons in Hd as [Hd _]. congruence. }
  assert (preserves (on_db (steps del)) (App.serve_all cfg us)).
  { apply IH. intros E. by apply Hd, Forall_cons in E as [_ ?]. }
  preserves_tac.
Qed.
End app_steps.
