(* ===== verification/Demo.v ===== *)
(** * A concrete site for evaluation

    Concrete parameters (letters of Latin-1, plain addresses, byte order, an
    abbreviating hash, a transparent password hash, one provider) and a small
    database built by the modelled operations, for the witnesses of the
    properties.  Nothing here models the program. *)
From S2P Require Export AppSteps History.

#[export] Existing Instance latin1.
#[export] Existing Instance latin1_laws.
#[export] Existing Instance plain_mail.
#[export] Instance demo_postgres : Postgres := {| sql_lower := ToLower; sql_text_compare := String.compare |}.
(** Digests fit their columns, as SHA-256's do. *)
#[export] Instance demo_hash : Crypto :=
  {| sha256 s := substring 0 32 (s +:+ "................................")%string |}.
#[export] Instance demo_hash_size : DigestSize.
Proof.
  split. intros s. simpl. assert (∀ n a b, (n ≤ String.length b)%nat → String.length (substring 0 n (a +:+ b)%string) = n) as Hs.
  { induction n as [|n IH]; intros [|c a] b Hb; simpl; [by destruct b|done|destruct b; simpl in *; [lia|]|].
    - f_equal. apply (IH "" b). lia.
    - f_equal. apply IH. lia. }
  by apply Hs.
Qed.
#[export] Instance demo_passwords : PasswordHashing := {|
  Hash p := λ w, match ValidatePassword p with
                 | Ok _ => (w, Ok ("demo$" +:+ p)%string)
                 | Err e => (w, Err e)
                 end;
  Verify p h := Ok (String.eqb h ("demo$" +:+ p)%string)
|}.
#[export] Instance demo_passwords_laws : PasswordHashingLaws.
Proof.
  split.
  - intros p w w' h. simpl. destruct (ValidatePassword p); intros; simplify_eq. by rewrite String.eqb_refl.
  - intros p w w' h. simpl. by destruct (ValidatePassword p) as [[]|].
  - intros R HR p w. simpl. unfold on_db. by destruct (ValidatePassword p); simpl; reflexivity.
  - intros p w. simpl. unfold later. by destruct (ValidatePassword p); simpl.
Qed.
#[export] Instance demo_urls : URLParser :=
  {| url_Parse s := if String.prefix "https://" s then Some ("https", "acme.example", false) else None |}.

(** The provider asserts a verified address and takes the code as subject. *)
Definition acme : OAuthProviderClient :=
  mkClient (λ state _, ret ("https://acme.example/" +:+ state)%string)
           (λ code _, ret (mkProfile code "carol@example.org" true "Carol")).
(** A Hydra server that knows one pending request, of account 2, and accepts
    whatever it is told; an issuer that takes the code as subject. *)
Definition demo_hydra : SSOAdmin := mkSSOAdmin
  (λ _, ret (mkLoginRequest false "" "" "Demo app")) (λ _ subject _, ret ("/accepted/" +:+ subject)%string)
  (λ _, ret "/rejected") (λ _, ret (mkConsentRequest "2" "hydra-session" ["email"] []))
  (λ _ _, ret "/consented") (λ _, ret "/refused") (λ _, ret (mkLogoutRequest "2" "hydra-session"))
  (λ _, ret "/bye") (λ _, ret tt) (λ _, ret tt).
Definition demo_issuer : SSORelyingParty := mkRelyingParty
  (λ state _, ret ("https://issuer.example/" +:+ state)%string)
  (λ code _, ret (mkSSOIdentity code "dora@example.org" true "Dora" "hu" "hydra-session" "token"))
  (λ token, ret token) (λ _ url, ret url).
Definition demo_cfg : Config :=
  mkConfig (3600 * second) false (mkURL "https" "goweb.example" "") 0 (24 * 3600 * second)
    {["acme" := mkProvider "Acme" (Some acme)]} (Some demo_hydra) (Some demo_issuer).

Lemma demo_quiet : quiet_ports demo_cfg.
Proof.
  split.
  - intros n p c Hp Hc. unfold demo_cfg in Hp. cbn [providers] in Hp. apply lookup_singleton_Some in Hp as [_ <-]. simpl in Hc. simplify_eq.
    split; intros; intros w; reflexivity.
  - intros a [= <-]. split; intros; intros w; reflexivity.
  - intros rp [= <-]. split; intros; intros w; reflexivity.
Qed.

(** Ada administers the site, Bob the group, and account 3 is a guest. *)
Definition account (email username password : option string) (guest admin : bool) : User :=
  mkUser 0 email password username None guest admin "light" "en" 1000 None 0.
Definition ada : User := account (Some "ada@example.org") (Some "ada") (Some "demo$correct horse") false true.
Definition bob : User := account (Some "bob@example.org") (Some "bob") (Some "demo$battery staple") false false.
Definition visitor : User := account None (Some "guest-1") None true false.
Definition chess : Group := mkGroup 0 "Chess" "chess" "ABCDEFGHJKMN" (Some 2) 1000 0.
Definition sid : string := "0123456789abcdef0123456789abcdef0123456789abcdef0123456789abcdef".

Definition setup : M unit :=
  UserRepository.CreateUser ada ;;;
  UserRepository.CreateUser bob ;;;
  UserRepository.CreateUser visitor ;;;
  GroupRepository.CreateGroupWithAdmin chess 2 GroupRoleAdmin ;;;
  SessionRepository.CreateSession (mkSession sid 2 1000 100000 None "" "") ;;;
  TokenRepository.CreatePasswordResetToken (mkToken 2 sid 1000 100000 None) ;;;
  TokenRepository.CreateEmailConfirmationToken (mkToken 2 sid 1000 100000 None) ;;;
  ret tt.

(** Two thousand seconds after the epoch, with some entropy to draw from. *)
Definition world_of (d : DB) : World :=
  mkWorld d (2000 * second) [] (Some <$> seqZ 7 40) [] [] [].
Lemma world_of_db d : db (world_of d) = d.
Proof. done. Qed.
Definition site_db : DB := db (fst (setup (world_of empty_db))).
Definition site : World := world_of site_db.

Lemma setup_steps : preserves (on_db (steps true)) setup.
Proof. unfold setup. preserves_tac. Qed.
Lemma site_db_steps : steps true empty_db site_db.
Proof. unfold site_db. pose proof (setup_steps (world_of empty_db)) as Hs. unfold on_db in Hs. exact Hs. Qed.
Lemma site_wf : db_wf (db site).
Proof. pose proof (steps_wf true _ _ site_db_steps empty_wf) as Hw. unfold site, world_of, db. exact Hw. Qed.

Example site_rows : (size (users (db site)), size (group_members (db site)), size (sessions (db site)),
                     size (reset_tokens (db site)), size (email_tokens (db site))) = (3, 1, 1, 1, 1)%nat.
Proof. vm_compute. reflexivity. Qed.

(** Name the outcome of a run that succeeds. *)
Definition succeeded {A} (r : outcome A) : bool := match r with Ok _ => true | Err _ => false end.
Lemma succeeds {A} (m : M A) w : succeeded (snd (m w)) = true → ∃ r, m w = (fst (m w), Ok r) ∧ snd (m w) = Ok r.
Proof. destruct (m w) as [w' [r|e]]; [by exists r | done]. Qed.
Tactic Notation "run" constr(m) "from" constr(w) "as" simple_intropattern(r) ident(E) ident(Er) :=
  destruct (succeeds m w ltac:(vm_compute; reflexivity)) as (r & E & Er);
  eexists (fst (m w)), _; split; [exact E|].
Ltac evaluates := vm_compute; reflexivity.

Lemma site_administered : has_site_admin (db site) ∧ groups_administered (db site).
Proof.
  split.
  - exists 1. eexists. split; evaluates.
  - intros g [gr Hg]. assert (Hm : map_Forall (λ g' _, g' = 1) (groups (db site))) by (by apply (bool_decide_unpack _); evaluates).
    rewrite (Hm _ _ Hg). exists 2. eexists. split; evaluates.
Qed.
