(* ===== verification/Safety.v ===== *)
(** * What holds after any sequence of use cases

    Whatever the requests, their order, the clock, the random source and the
    failures of the database and of mail delivery. *)
From S2P Require Export Demo.
Import UserRepository Sessions.

Section safety.
Context `{Unicode, MailParser, Postgres, Crypto, PasswordHashing, URLParser, !PasswordHashingLaws}.
Context (cfg : Config) (Hports : quiet_ports cfg).

(** The database after a sequence of use cases. *)
Definition after (us : list use_case) (w : World) : DB := db (fst (App.serve_all cfg us w)).

Lemma served us w : steps true (db w) (after us w).
Proof. exact (serve_all_steps true cfg Hports us ltac:(done) w). Qed.

(** C1. No sequence of use cases leaves the site without an administrator:
    whoever demotes or deletes accounts, in whatever order and with whatever
    failures in between, an account with [is_admin] that is not a guest is
    left. *)
Theorem site_keeps_administrator us w :
  db_wf (db w) → has_site_admin (db w) → has_site_admin (after us w).
Proof. apply (steps_keep true has_site_admin); [|apply served]. intros. by eapply change_site_admin. Qed.

(** C2. The database stays well formed under every sequence of use cases.  In
    every table, rows sit under their keys and satisfy the column types (but
    for the width of numbers) and CHECK constraints of the migrations: accounts,
    groups, memberships, sessions, links, codes, identities, states, single
    sign-on logins, limiter windows, sign-in attempts, audit entries and usage
    events.  E-mail addresses, user names, invite codes, provider subjects,
    active transfer codes and identity columns are unique, and no row refers to
    an account or group that is gone, history included. *)
Theorem database_stays_well_formed us w : db_wf (db w) → db_wf (after us w).
Proof. apply (steps_wf true), served. Qed.

(** As long as no account is deleted on request, every group keeps an
    administrator: leaving, removing members, demoting them and cleaning up
    guests cannot take the last one. *)
Theorem groups_keep_administrators us w :
  Forall (λ u, deletes u = false) us →
  db_wf (db w) → groups_administered (db w) → groups_administered (after us w).
Proof.
  intros Hd. apply (steps_keep false groups_administered).
  - intros. by eapply change_groups_administered.
  - exact (serve_all_steps false cfg Hports us (λ _, Hd) w).
Qed.

(** A revision number identifies the contents of an account: whatever
    happened in between, an account that still has the revision a caller read
    is exactly the account the caller read, so a write conditioned on the
    revision never overwrites an unseen change.  Revisions only grow, and the
    number of a deleted account is never given to another. *)
Theorem revision_identifies_account us w id u :
  db_wf (db w) → users (db w) !! id = Some u →
  match users (after us w) !! id with
  | Some u' => user_ID u' = id ∧ user_CreatedAt u' = user_CreatedAt u ∧ user_Version u ≤ user_Version u' ∧
               (user_Version u' = user_Version u → u' = u)
  | None => ∀ us', users (after us' (fst (App.serve_all cfg us w))) !! id = None
  end.
Proof.
  intros Hwf Hu. pose proof (steps_evolve true _ _ (served us w) Hwf) as He.
  pose proof (steps_wf true _ _ (served us w) Hwf) as Hwf'.
  destruct (wf_users _ Hwf _ _ Hu) as [(Hid & ? & _) _].
  destruct (users (after us w) !! id) as [u'|] eqn:E.
  - destruct (ev_users _ _ He _ _ _ Hu E) as (H1' & H2' & H3').
    split_and!; [congruence|done|by destruct H3' as [->|]; lia|]. intros Hv. destruct H3' as [->|]; [done|lia].
  - intros us'. pose proof (steps_evolve true _ _ (served us' _) Hwf') as He'. unfold after in *.
    apply (ev_gone _ _ He'); [|done]. pose proof (ev_seq _ _ He). lia.
Qed.

(** A revoked session is dead for ever after: no later row under its digest is
    a live session of its account, and no credential gets it back. *)
Lemma revoked_stays_revoked d d' digest row row' revoked :
  db_wf d → steps true d d' → sessions d !! digest = Some row → session_RevokedAt row = Some revoked →
  sessions d' !! digest = Some row' → session_RevokedAt row' = None → session_UserID row' ≠ session_UserID row.
Proof.
  intros Hwf Hs Hrow Hrev Hrow' Hn Hsame.
  pose proof (steps_evolve true _ _ Hs Hwf) as He. pose proof (steps_wf true _ _ Hs Hwf) as Hwf'.
  destruct (wf_sessions _ Hwf' _ _ Hrow') as [_ Ho]. destruct (Ho _ eq_refl) as [u Hux].
  destruct (ev_sessions _ _ He _ _ Hrow) as [(i & [= <-] & Hg)|(s & Hs' & Hl)]; [congruence|].
  rewrite Hrow' in Hs'. simplify_eq. destruct Hl as [->|[? _]]; congruence.
Qed.
Lemma revoked_is_refused d d' id row revoked w2 :
  db_wf d → steps true d d' → sessions d !! sessionDigest id = Some row → session_RevokedAt row = Some revoked → db w2 = d' →
  match Lookup id w2 with
  | (_, Ok x) => session_UserID x ≠ session_UserID row
  | (_, Err _) => True
  end.
Proof.
  intros Hwf Hs Hrow Hrev Hw2. destruct (Lookup id w2) as [w' [x|e]] eqn:E; [|done].
  apply Lookup_ok in E as (row' & Hrow' & _ & -> & Hn & _). rewrite Hw2 in Hrow'. by eapply revoked_stays_revoked.
Qed.

(** C9. Revocation is final: once a session of an account is revoked, by
    signing out, a password change, an administrator or single sign-on, no
    later request is ever accepted with its identifier for that account. *)
Theorem revocation_is_final us w id row revoked :
  db_wf (db w) → sessions (db w) !! sessionDigest id = Some row → session_RevokedAt row = Some revoked →
  ∀ w2, db w2 = after us w →
  match Lookup id w2 with
  | (_, Ok x) => session_UserID x ≠ session_UserID row
  | (_, Err _) => True
  end.
Proof.
  intros Hwf Hrow Hrev w2 Hw2. by eapply revoked_is_refused; [|apply served|..].
Qed.
End safety.

(** ** Witnesses *)

(** Ada deletes her own account, Bob renames himself, leaves his group and signs out. *)
Definition busy_day : list use_case :=
  [DoAdminDelete (mkActor 1 "192.0.2.7") 1 0;
   DoUpdateProfile 2 (mkProfileInput "bob" "Robert"); DoLeaveGroup 2 1; DoSignOut sid; DoCleanupGuests].

Lemma site_keeps_administrator_witness : has_site_admin (after demo_cfg busy_day site).
Proof.
  apply (site_keeps_administrator demo_cfg demo_quiet busy_day site site_wf).
  exact (proj1 site_administered).
Defined.

Lemma database_stays_well_formed_witness : db_wf (after demo_cfg busy_day site).
Proof. exact (database_stays_well_formed demo_cfg demo_quiet busy_day site site_wf). Defined.

Lemma groups_keep_administrators_witness :
  groups_administered (after demo_cfg (tail busy_day) site).
Proof.
  apply (groups_keep_administrators demo_cfg demo_quiet (tail busy_day) site).
  - repeat constructor.
  - exact site_wf.
  - exact (proj2 site_administered).
Defined.

(** Bob's profile change gave his account its next revision. *)
Lemma revision_identifies_account_witness :
  ∃ u u', users (db site) !! 2 = Some u ∧ users (after demo_cfg busy_day site) !! 2 = Some u' ∧
    user_Version u ≤ user_Version u' ∧ (user_Version u' = user_Version u → u' = u).
Proof.
  eexists _, _. split; [evaluates|]. split; [evaluates|].
  pose proof (revision_identifies_account demo_cfg demo_quiet busy_day site 2 _ site_wf
    ltac:(evaluates)) as Hr.
  vm_compute in Hr. exact (proj2 (proj2 Hr)).
Defined.

Lemma revocation_is_final_witness :
  match Lookup sid (fst (App.serve_all demo_cfg [DoSignIn (mkSignInInput "bob" "battery staple") "192.0.2.7"]
                           (fst (SignOut sid site)))) with
  | (_, Ok x) => session_UserID x ≠ 2
  | (_, Err _) => True
  end.
Proof.
  pose proof (SignOut_steps true sid site) as Hs. unfold on_db in Hs.
  apply (revocation_is_final demo_cfg demo_quiet
    [DoSignIn (mkSignInInput "bob" "battery staple") "192.0.2.7"] (fst (SignOut sid site)) sid
    (mkSession (sessionDigest sid) 2 1000 100000 (Some 2000) "" "") 2000 (steps_wf _ _ _ Hs site_wf)); evaluates.
Defined.
