(* ===== verification/Upkeep.v ===== *)
(** * The maintenance of the wired application

    The jobs of internal/app/app.go and the worker built from them, running
    between use cases.  [upkeep] is what use cases and jobs do to the database:
    [steps], and the removal of rows by the cleanups. *)
From S2P Require Export Maintenance Safety.

(** The three retention fields of [config.Config], in nanoseconds. *)
Record RetentionConfig := mkRetentionConfig {
  cfg_GuestRetention : Z;
  cfg_LoginAttemptRetention : Z;
  cfg_UsageRetention : Z;
}.

Module Upkeep.
Definition DefaultGuestRetention : Z := 30 * 24 * 3600 * second.
Definition DefaultLoginAttemptRetention : Z := 30 * 24 * 3600 * second.
Definition DefaultUsageRetention : Z := 90 * 24 * 3600 * second.

Definition withRetentionDefaults (c : RetentionConfig) : RetentionConfig :=
  mkRetentionConfig
    (if cfg_GuestRetention c <=? 0 then DefaultGuestRetention else cfg_GuestRetention c)
    (if cfg_LoginAttemptRetention c <=? 0 then DefaultLoginAttemptRetention else cfg_LoginAttemptRetention c)
    (if cfg_UsageRetention c <=? 0 then DefaultUsageRetention else cfg_UsageRetention c).

Section jobs.
Context `{Unicode, Postgres, Crypto}.

(** [NewRetentionService] and [NewMaintenanceWorker] as [New] calls them. *)
Definition maintenanceWorker (c : RetentionConfig) : outcome MaintenanceWorker :=
  let c := withRetentionDefaults c in
  match Retention.NewRetentionService (cfg_LoginAttemptRetention c) (cfg_UsageRetention c) with
  | Err e => Err (Errorf "construct retention service" e)
  | Ok retentionService =>
    match Maintenance.NewMaintenanceWorker Maintenance.DefaultMaintenanceInterval
      [mkJob Maintenance.MaintenanceJobGuestCleanup (Some (reported (Guests.Cleanup (cfg_GuestRetention c))));
       mkJob Maintenance.MaintenanceJobTokenRetention (Some Retention.CleanupTokens);
       mkJob Maintenance.MaintenanceJobLoginAttemptRetention (Some (Retention.CleanupLoginAttempts retentionService));
       mkJob Maintenance.MaintenanceJobUsageRetention (Some (Retention.CleanupUsageEvents retentionService));
       mkJob Maintenance.MaintenanceJobRateLimitRetention (Some (reported RateLimitBuckets.DeleteExpired))]
    with
    | Err e => Err (Errorf "construct maintenance worker" e)
    | Ok w => Ok w
    end
  end.
End jobs.
End Upkeep.

(** ** What cleanups do to the database *)
Section upkeep.
Context `{Unicode, Postgres, Crypto}.
Import RetentionRepository.

(** Some rows of the links, states, single sign-on logins and logs are gone. *)
Record purges (d d' : DB) : Prop := {
  pg_users : users d' = users d ∧ users_seq d' = users_seq d;
  pg_groups : groups d' = groups d ∧ groups_seq d' = groups_seq d ∧ group_members d' = group_members d;
  pg_sessions : sessions d' = sessions d;
  pg_claims : claim_codes d' = claim_codes d;
  pg_identities : oauth_identities d' = oauth_identities d ∧ identities_seq d' = identities_seq d;
  pg_seqs : tokens_seq d' = tokens_seq d ∧ claims_seq d' = claims_seq d ∧ members_seq d' = members_seq d;
  pg_email : email_tokens d' ⊆ email_tokens d;
  pg_reset : reset_tokens d' ⊆ reset_tokens d;
  pg_states : oauth_states d' ⊆ oauth_states d;
  pg_logins : sso_login_sessions d' ⊆ sso_login_sessions d;
  pg_buckets : rate_buckets d' = rate_buckets d;
  pg_attempts : login_attempts d' `sublist_of` login_attempts d;
  pg_audit : audit_log d' = audit_log d;
  pg_usage : usage_events d' `sublist_of` usage_events d;
}.

Lemma purges_wf d d' : purges d d' → db_wf d → db_wf d'.
Proof.
  intros [[U1 U2] [G1 [G2 G3]] S C [I1 I2] [N1 [N2 N3]] E R O L B T A V] [].
  split; rewrite ?U1, ?U2, ?G1, ?G2, ?G3, ?S, ?C, ?I1, ?I2, ?N1, ?N2, ?N3, ?A, ?B; try done;
    first [by eapply log_ok_sublist | by eapply unique_by_subset | by eapply rows_ok_subset].
Qed.

Lemma purge_subset {K A} `{Countable K} expired (t : gmap K A) : purge expired t ⊆ t.
Proof. apply map_filter_subseteq. Qed.

Variant upkeep_step (del : bool) (d d' : DB) : Prop :=
| upkeep_use : db_step del d d' → upkeep_step del d d'
| upkeep_purge : purges d d' → upkeep_step del d d'.
Definition upkeep (del : bool) : relation DB := rtc (upkeep_step del).
#[export] Instance upkeep_preorder del : PreOrder (upkeep del).
Proof. unfold upkeep. apply _. Qed.

Lemma steps_upkeep del d d' : steps del d d' → upkeep del d d'.
Proof. induction 1; [reflexivity|]. eapply rtc_l; [by apply upkeep_use|done]. Qed.
Lemma purges_upkeep del d d' : purges d d' → upkeep del d d'.
Proof. intros. by apply rtc_once, upkeep_purge. Qed.

(** Facts about the rows that no cleanup removes. *)
Lemma upkeep_keep del (P : DB → Prop) d d' :
  (∀ d d', change del d d' → db_wf d → P d → P d') → (∀ d d', purges d d' → P d → P d') →
  upkeep del d d' → db_wf d → P d → db_wf d' ∧ P d'.
Proof.
  intros Hc Hp. induction 1 as [|d d1 d' Hs _ IH]; [done|]. intros Hwf Hd.
  destruct Hs as [Hs%step_change|Hs]; apply IH; eauto using change_wf, purges_wf.
Qed.

Lemma upkeep_wf del d d' : upkeep del d d' → db_wf d → db_wf d'.
Proof. intros Hu Hwf. by eapply (upkeep_keep del (λ _, True)) in Hu as [? _]. Qed.
(** A session that has been revoked stays so while its account is there, and
    the identifier of an account is not used again. *)
Definition session_dead (digest : string) (userID : Z) (d : DB) : Prop :=
  userID ≤ users_seq d ∧
  (users d !! userID = None ∨
   ∃ row t, sessions d !! digest = Some row ∧ session_RevokedAt row = Some t ∧ session_UserID row = userID).
Lemma change_session_dead del digest userID d d' : change del d d' → db_wf d → session_dead digest userID d → session_dead digest userID d'.
Proof.
  intros Hc Hwf [Hseq Hd]. pose proof (change_evolves del _ _ Hc Hwf) as He. split; [destruct (ev_seq _ _ He); lia|].
  destruct Hd as [Hn|(row & t & Hrow & Ht & <-)]; [left; by eapply ev_gone|].
  destruct (ev_sessions _ _ He _ _ Hrow) as [(i & [= <-] & Hg)|(row' & Hrow' & Hl)]; [by left|].
  right. exists row', t. destruct Hl as [->|[Hn _]]; [done|congruence].
Qed.
Lemma upkeep_revoked del d d' digest row row' revoked :
  db_wf d → upkeep del d d' → sessions d !! digest = Some row → session_RevokedAt row = Some revoked →
  sessions d' !! digest = Some row' → session_RevokedAt row' = None → session_UserID row' ≠ session_UserID row.
Proof.
  intros Hwf Hu Hrow Hrev Hrow' Hn Heq. destruct (wf_sessions _ Hwf _ _ Hrow) as [_ Ho]. destruct (Ho _ eq_refl) as [u Hux].
  destruct (upkeep_keep del (session_dead digest (session_UserID row)) d d') as [Hwf' [_ Hd]]; try done.
  - intros ? ?. apply change_session_dead.
  - intros d1 d2 [[Hus Hsq] _ Hss] [? [?|?]]; (split; [by rewrite Hsq|]); rewrite ?Hus, ?Hss; auto.
  - split; [pose proof (wf_users _ Hwf _ _ Hux) as [(? & ? & ?) _]; lia|]. right. eauto.
  - destruct (wf_sessions _ Hwf' _ _ Hrow') as [_ Ho']. destruct (Ho' _ eq_refl) as [u' Hux'].
    destruct Hd as [Hg|(row2 & t & Hrow2 & Ht & _)]; congruence.
Qed.

(** A cleanup run as a job. *)
Definition task_keeps (R : relation DB) (t : task) : Prop := ∀ w, R (db w) (db (fst (t w))).

Lemma reported_keeps R m : preserves (on_db R) m → task_keeps R (reported m).
Proof. intros Hm w. specialize (Hm w). unfold on_db, reported in *. by destruct (m w) as [? []]. Qed.

Ltac purging := intros d d' n Hd; injection Hd as <- _; apply purges_upkeep; split; simpl; try done; first [apply purge_subset | apply sublist_filter].

Lemma delete_upkeep del op sql t :
  (∀ d d' n, sql t d = Ok (d', n) → upkeep del d d') → preserves (on_db (upkeep del)) (delete op sql t).
Proof. intros Hs. unfold delete. preserves_tac. by apply preserves_statement; [apply _|]. Qed.

Lemma removal_upkeep del remove t : remove ∈ Retention.removals → preserves (on_db (upkeep del)) (remove t).
Proof.
  unfold Retention.removals. rewrite !elem_of_cons. intros [->|[->|[->|[->|?%not_elem_of_nil]]]]; [..|done];
    apply delete_upkeep; purging.
Qed.

Lemma remove_all_upkeep del removes : ∀ now n,
  (∀ r t, r ∈ removes → preserves (on_db (upkeep del)) (r t)) → task_keeps (upkeep del) (Retention.remove_all removes now n).
Proof.
  induction removes as [|r removes IH]; simpl; intros now n Hr w; [reflexivity|].
  pose proof (Hr r now ltac:(by left) w) as Hw. unfold on_db in Hw. destruct (r now w) as [w1 [k|e]]; cbn [fst] in *; [|done].
  etransitivity; [exact Hw|]. apply IH. intros. apply Hr. by right.
Qed.

Lemma CleanupTokens_upkeep del : task_keeps (upkeep del) Retention.CleanupTokens.
Proof.
  intros w. unfold Retention.CleanupTokens. pose proof (preserves_unix_now (upkeep del) w) as Hw. unfold on_db in Hw.
  destruct (unix_now w) as [w1 [now|e]]; cbn [fst] in *; [|done]. etransitivity; [exact Hw|].
  apply remove_all_upkeep. intros. by apply removal_upkeep.
Qed.

Lemma delete_before_upkeep del op sql msg retention :
  (∀ t d d' n, sql t d = Ok (d', n) → upkeep del d d') →
  task_keeps (upkeep del) (Retention.delete_before msg (delete op sql) retention).
Proof.
  intros Hs. apply reported_keeps. preserves_tac. apply delete_upkeep. intros d d' n. apply Hs.
Qed.

Lemma jobs_upkeep del c w name t :
  Upkeep.maintenanceWorker c = Ok w → (name, t) ∈ worker_jobs w → task_keeps (upkeep del) t.
Proof.
  unfold Upkeep.maintenanceWorker. destruct (Retention.NewRetentionService _ _) as [s|]; [|done].
  destruct (Maintenance.NewMaintenanceWorker _ _) as [w1|] eqn:E; [|done]. intros [= <-] Hin.
  pose proof (Maintenance.NewMaintenanceWorker_jobs _ _ _ _ _ E Hin) as Hj. rewrite !elem_of_cons in Hj.
  destruct Hj as [Hj|[Hj|[Hj|[Hj|[Hj|Hj%not_elem_of_nil]]]]]; [..|done]; injection Hj as -> ->.
  - apply reported_keeps. intros w0. apply steps_upkeep, (Cleanup_steps del).
  - apply CleanupTokens_upkeep.
  - apply delete_before_upkeep. intros t. purging.
  - apply delete_before_upkeep. intros t. purging.
  - apply reported_keeps. unfold RateLimitBuckets.DeleteExpired. preserves_tac.
    intros w0. apply steps_upkeep, (delete_where_steps del).
Qed.

(** ** The worker's runs *)
Lemma run_task_keeps R t : task_keeps R t → preserves (on_db R) (Maintenance.run_task t).
Proof. intros Ht w. specialize (Ht w). unfold on_db, Maintenance.run_task. by destruct (t w) as [w' [n e]]. Qed.

Context (Error : error → string).

Lemma runJob_keeps R `{!PreOrder R} job w : task_keeps R job.2 → preserves (on_db R) (Maintenance.runJob Error job w).
Proof. intros Ht%run_task_keeps. unfold Maintenance.runJob. preserves_tac. Qed.

Lemma run_jobs_keeps R `{!PreOrder R} jobs : ∀ w runs,
  (∀ job, job ∈ jobs → task_keeps R job.2) → preserves (on_db R) (Maintenance.run_jobs Error jobs w runs).
Proof.
  induction jobs as [|job jobs IH]; cbn [Maintenance.run_jobs]; intros w runs Hj; [preserves_tac|].
  apply preserves_bind; [apply _| |].
  - apply runJob_keeps; [apply _|]. apply Hj. by left.
  - intros [run w1]. apply IH. intros. apply Hj. by right.
Qed.
End upkeep.

(** ** A site that serves and is maintained *)
Section live.
Context `{Unicode, MailParser, Postgres, Crypto, PasswordHashing, URLParser}.
Context (cfg : Config) (Error : error → string).

(** A use case, a pass of the worker, a job an administrator starts. *)
Variant event := Served (u : use_case) | Pass | JobStarted (name : string).

Definition happens (e : event) (world : World) (w : MaintenanceWorker) : World * MaintenanceWorker :=
  match e with
  | Served u => (fst (App.serve cfg u world), w)
  | Pass => match Maintenance.RunOnce Error w world with (world, Ok (_, w)) => (world, w) | (world, Err _) => (world, w) end
  | JobStarted name =>
    match Maintenance.RunJob Error name w world with (world, Ok (_, w)) => (world, w) | (world, Err _) => (world, w) end
  end.
Fixpoint live (es : list event) (world : World) (w : MaintenanceWorker) : World * MaintenanceWorker :=
  match es with [] => (world, w) | e :: es => let (world, w) := happens e world w in live es world w end.

Definition serves (e : event) : bool := match e with Served u => deletes u | _ => false end.

Context (Hports : quiet_ports cfg) `{!PasswordHashingLaws}.
Import Maintenance.

Lemma find_job (jobs : list (string * task)) name job :
  List.find (λ j, String.eqb j.1 name) jobs = Some job → job ∈ jobs ∧ job.1 = name.
Proof. intros [Hin Hn]%List.find_some. apply String.eqb_eq in Hn. split; [by apply list_elem_of_In|done]. Qed.

Lemma happens_upkeep del e world w :
  (serves e = true → del = true) → worker_wf w → (∀ job, job ∈ worker_jobs w → task_keeps (upkeep del) job.2) →
  upkeep del (db world) (db (fst (happens e world w))) ∧
  worker_wf (snd (happens e world w)) ∧ worker_jobs (snd (happens e world w)) = worker_jobs w.
Proof.
  intros Hdel Hwf Hjobs. destruct e as [u| |name]; cbn [happens].
  - split_and!; [|done|done]. apply steps_upkeep. by apply (serve_steps del cfg Hports u Hdel).
  - pose proof (run_jobs_keeps Error (upkeep del) (worker_jobs w) w [] Hjobs world) as Hk. unfold on_db in Hk.
    destruct (run_jobs_ok Error (worker_jobs w) w world []) as (world' & runs & w' & Hr & Hwf' & Hj & _).
    { done. } { rewrite <- (wf_order w Hwf). apply (wf_nodup w Hwf). }
    { intros n. rewrite <- (wf_order w Hwf). apply (wf_status w Hwf). }
    unfold RunOnce. rewrite Hr in *. done.
  - unfold RunJob. destruct (List.find _ _) as [job|] eqn:Ef; [|by split_and!].
    apply find_job in Ef as [Hin Hn].
    pose proof (runJob_keeps Error (upkeep del) job w (Hjobs _ Hin) world) as Hk. unfold on_db in Hk.
    destruct (runJob_ok Error job w world) as (world' & r & d & Hr & Hj & _). rewrite Hr in *.
    destruct (record_keeps r d w) as (? & ? & _); [|done|done].
    rewrite Hj. apply (wf_status w Hwf). rewrite (wf_order w Hwf). by apply list_elem_of_fmap_2.
Qed.

Lemma live_upkeep del es : ∀ world w,
  (del = false → Forall (λ e, serves e = false) es) → worker_wf w →
  (∀ job, job ∈ worker_jobs w → task_keeps (upkeep del) job.2) →
  upkeep del (db world) (db (fst (live es world w))) ∧
  worker_wf (snd (live es world w)) ∧ worker_jobs (snd (live es world w)) = worker_jobs w.
Proof.
  induction es as [|e es IH]; cbn [live]; intros world w Hdel Hwf Hjobs; [by split_and!|].
  destruct (happens_upkeep del e world w) as (Hu & Hwf1 & Hj1); [|done|done|].
  { intros Hs. apply not_false_is_true. intros E. specialize (Hdel E). apply Forall_cons in Hdel as [Hd _]. congruence. }
  destruct (happens e world w) as [world1 w1]. cbn [fst snd] in *.
  destruct (IH world1 w1) as (Hu2 & Hwf2 & Hj2); [|done| |].
  { intros E. specialize (Hdel E). by apply Forall_cons in Hdel as [_ ?]. }
  { by rewrite Hj1. }
  split_and!; [by etransitivity|done|congruence].
Qed.

Lemma purges_site_admin d d' : purges d d' → has_site_admin d → has_site_admin d'.
Proof. intros [[Hu _] _ _ _ _ _ _ _ _] (id & u & Hid & Ha). exists id, u. by rewrite Hu. Qed.
Lemma purges_groups d d' : purges d d' → groups_administered d → groups_administered d'.
Proof.
  intros [_ (Hg & _ & Hm) _ _ _ _ _ _ _] Ha g Hi. rewrite Hg in Hi. destruct (Ha g Hi) as (u & m & ? & ?).
  exists u, m. by rewrite Hm.
Qed.

Lemma maintenanceWorker_total c : ∃ w, Upkeep.maintenanceWorker c = Ok w.
Proof.
  unfold Upkeep.maintenanceWorker, Retention.NewRetentionService, Upkeep.withRetentionDefaults.
  cbn [cfg_LoginAttemptRetention cfg_UsageRetention cfg_GuestRetention].
  assert (Hd : ∀ d v : Z, 0 < d → ((if v <=? 0 then d else v) <=? 0) = false).
  { intros d v Hpos. destruct (v <=? 0) eqn:E; [by apply Z.leb_gt|done]. }
  rewrite !Hd by done. cbn [orb]. eexists. reflexivity.
Qed.

(** C7. The worker that [New] builds from any retention settings exists, and a
    site that serves use cases while the worker cleans up, in any order and with
    any failures, stays well formed and keeps a site administrator; without
    requested deletions every group keeps an administrator too; and the worker
    keeps its jobs and one status for each. *)
Theorem site_survives_maintenance c :
  ∃ w, Upkeep.maintenanceWorker c = Ok w ∧
  ∀ es world, db_wf (db world) → has_site_admin (db world) →
    let (world', w') := live es world w in
    db_wf (db world') ∧ has_site_admin (db world') ∧
    (Forall (λ e, serves e = false) es → groups_administered (db world) → groups_administered (db world')) ∧
    worker_wf w' ∧ Jobs w' = Jobs w.
Proof.
  destruct (maintenanceWorker_total c) as [w Hw]. exists w. split; [done|]. intros es world Hwf Ha.
  assert (Hww : worker_wf w).
  { unfold Upkeep.maintenanceWorker in Hw. destruct (Retention.NewRetentionService _ _); [|done].
    destruct (NewMaintenanceWorker _ _) eqn:E; [|done]. injection Hw as <-. by apply NewMaintenanceWorker_wf in E as [? _]. }
  assert (Hjobs : ∀ del job, job ∈ worker_jobs w → task_keeps (upkeep del) job.2).
  { intros del [n t] Hin. by eapply jobs_upkeep. }
  destruct (live_upkeep true es world w) as (Hu & Hwf' & Hj); [done|done|apply Hjobs|].
  destruct (upkeep_keep true has_site_admin _ _ ltac:(intros; by eapply change_site_admin) purges_site_admin Hu Hwf Ha).
  pose proof (live_upkeep false es world w) as Hnd.
  destruct (live es world w) as [world' w']. cbn [fst snd] in *. split_and!; try done.
  - intros Hs Hg. destruct (Hnd (λ _, Hs) Hww (Hjobs false)) as (Hu' & _).
    by destruct (upkeep_keep false groups_administered _ _ ltac:(intros; by eapply change_groups_administered) purges_groups Hu' Hwf Hg).
  - unfold Jobs. by rewrite (wf_order w' Hwf'), (wf_order w Hww), Hj.
Qed.
End live.

(** ** Witnesses *)

Definition demo_Error (e : error) : string := "failed".

(** A worker whose first job fails after removing three rows. *)
Definition demo_jobs : list MaintenanceJob :=
  [mkJob "broken" (Some (λ w, (w, (3, Some (Opaque "disk full"))))); mkJob "tokens" (Some Retention.CleanupTokens)].

Lemma run_once_runs_every_job_witness :
  ∃ w, Maintenance.NewMaintenanceWorker 0 demo_jobs = Ok w ∧
  ∃ world' runs w', Maintenance.RunOnce demo_Error w site = (world', Ok (runs, w')) ∧
    run_Job <$> runs = ["broken"; "tokens"].
Proof.
  assert (∃ w, Maintenance.NewMaintenanceWorker 0 demo_jobs = Ok w ∧ Maintenance.Jobs w = ["broken"; "tokens"]) as (w & E & Hn).
  { eexists. split; reflexivity. }
  exists w. split; [done|]. pose proof (Maintenance.NewMaintenanceWorker_wf _ _ _ E) as [Hwf _].
  destruct (Maintenance.run_once_runs_every_job demo_Error w site Hwf) as (world' & runs & w' & Hr & _ & _ & Hj & _).
  exists world', runs, w'. split; [exact Hr|]. by rewrite Hj.
Defined.

Lemma cleanup_is_invisible_witness :
  ∃ d', TokenRepository.ConsumePasswordResetToken sid 2000 (set_db (without_expired 1500 (db site)) site) =
    (set_db d' (fst (TokenRepository.ConsumePasswordResetToken sid 2000 site)),
     snd (TokenRepository.ConsumePasswordResetToken sid 2000 site)).
Proof.
  destruct (cleanup_is_invisible 1500 2000 sid ltac:(lia)) as (Hd & _ & Hr & _).
  destruct (Hr site _ (Hd (db site))) as (d' & E & _). by exists d'.
Defined.

Lemma site_survives_maintenance_witness :
  ∃ w, Upkeep.maintenanceWorker (mkRetentionConfig 0 0 0) = Ok w ∧
    has_site_admin (db (fst (live demo_cfg demo_Error
      [Pass; Served (DoSignOut sid); JobStarted "token_retention"; Served DoCleanupGuests; Pass] site w))).
Proof.
  destruct (site_survives_maintenance demo_cfg demo_Error demo_quiet (mkRetentionConfig 0 0 0)) as (w & Hw & Hl).
  exists w. split; [exact Hw|].
  specialize (Hl [Pass; Served (DoSignOut sid); JobStarted "token_retention"; Served DoCleanupGuests; Pass] site
    site_wf (proj1 site_administered)).
  destruct (live _ _ _ _ _) as [world' w']. exact (proj1 (proj2 Hl)).
Defined.
