(* ===== verification/WebSteps.v ===== *)
(** * What the web layer can do

    The web layer adds nothing of its own: what a request does to the data is
    what the services it calls do, and the cookies it writes are the site's.
    Every handler is walked once, for any relation between the states before
    and after that answers, the site's own cookies and calls of services keep;
    the relation is chosen later. *)
From S2P Require Export Routes AppSteps Upkeep.
Import UserRepository Sessions Locale WebSession WebAuth.

(** A relation between the states before and after that writing a response,
    writing an [ok] cookie and calling a service keep. *)
Class WebRelation `{Postgres} (ok : Cookie → Prop) (del : bool) (R : relation (World * Response)) := {
  web_preorder : PreOrder R;
  web_answer f : (∀ x, resp_Cookies (f x) = resp_Cookies x) → preserves R (write f);
  web_cookie c : ok c → preserves R (SetCookie c);
  web_call {A} (m : M A) : preserves (on_db (upkeep del)) m → preserves R (call m);
  web_same s s' : db_of s = db_of s' → s.2 = s'.2 → R s s';
}.
#[export] Existing Instance web_preorder.

(** The cookies of a site: the session, the pending single sign-on login, the
    state of an external sign-in and the synchronizer token.  Scripts cannot
    read them, another site's requests do not carry them unless the session
    cookie is configured so, and they are secure when it is. *)
Definition site_cookie_names (site : Site) : list string :=
  [sc_name (site_cookie site); loginChallengeCookieName; WebFlows.oauthStateCookieName; Middlewares.CSRFCookieName].
Record own_cookie (site : Site) (c : Cookie) : Prop := {
  own_name : cookie_Name c ∈ site_cookie_names site;
  own_hidden : cookie_HttpOnly c = true;
  own_secure : sc_secure (site_cookie site) = true → cookie_Secure c = true;
  own_same_site : cookie_SameSite c ∈ [SameSiteLaxMode; SameSiteStrictMode; sc_sameSite (site_cookie site)];
}.

(** The services that keep state in the process change no data, but for a pass
    of the maintenance worker. *)
Record quiet_process `{Postgres} (p : AdminPorts) : Prop := {
  quiet_runtime : quiet (port_runtime p);
  quiet_migrations : quiet (port_migrations p);
  quiet_queue : quiet (port_queue p);
  quiet_counts : quiet (port_counts p);
  quiet_jobs : quiet (port_jobs p);
  run_upkeep del : preserves (on_db (upkeep del)) (port_run p);
}.
Record quiet_site `{Postgres} (site : Site) : Prop := {
  site_ports : quiet_ports (site_config site);
  site_process : quiet_process (site_admin site);
}.
(** The one kind of request that deletes an account. *)
Definition deletes_account (r : Request) : bool :=
  match Routes.segments_of (req_Path r) with
  | [_; admin; users; _; delete] => String.eqb admin "admin" && String.eqb users "users" && String.eqb delete "delete"
  | _ => false
  end.

Section web_steps.
Context `{Unicode, MailParser, Postgres, Crypto, PasswordHashing, URLParser, !PasswordHashingLaws, FloatParser, ReferenceParser, Templates}.
Context (del : bool) (site : Site) (Hsite : quiet_site site).
Context (R : relation (World * Response)) `{!WebRelation (own_cookie site) del R}.
#[local] Abbreviation moves := (preserves R).
#[local] Abbreviation cfg := (site_config site).
#[local] Abbreviation cookie := (site_cookie site).
Let Hports : quiet_ports (site_config site) := site_ports site Hsite.
(** Where accounts are not deleted, requests for it are left aside. *)
Definition within (r : Request) : Prop := del = true ∨ deletes_account r = false.
Lemma call_steps {A} (m : M A) : preserves (on_db (steps del)) m → moves (call m).
Proof. intros Hm. apply web_call. intros w. apply steps_upkeep, Hm. Qed.
#[local] Hint Resolve call_steps : go_preserves.

(** ** Answers *)
Lemma set_header_steps n v : moves (set_header n v).
Proof. by apply web_answer. Qed.
Lemma add_header_steps n v : moves (add_header n v).
Proof. by apply web_answer. Qed.
Lemma WriteHeader_steps v : moves (WriteHeader v).
Proof. by apply web_answer. Qed.
#[local] Hint Resolve set_header_steps add_header_steps WriteHeader_steps : go_preserves.
Lemma Write_steps b : moves (Write b).
Proof. unfold Write. apply preserves_bind; [apply _|apply WriteHeader_steps|intros _; by apply web_answer]. Qed.
#[local] Hint Resolve Write_steps : go_preserves.
Lemma http_Error_steps m v : moves (http_Error m v).
Proof. unfold http_Error. preserves_tac. Qed.
Lemma Redirect_steps u v : moves (Redirect u v).
Proof. unfold Redirect. preserves_tac. Qed.
#[local] Hint Resolve http_Error_steps Redirect_steps : go_preserves.
#[local] Hint Opaque set_header add_header WriteHeader Write http_Error Redirect SetCookie call : go_preserves.
Lemma renderError_steps st : moves (renderError st).
Proof. unfold renderError. apply http_Error_steps. Qed.
Lemma internal_error_steps : moves Middlewares.internal_error.
Proof. unfold Middlewares.internal_error. apply http_Error_steps. Qed.
Lemma method_not_allowed_steps a : moves (method_not_allowed a).
Proof. unfold method_not_allowed. preserves_tac. Qed.
Lemma RenderRequestStatus_steps r p st : moves (RenderRequestStatus r p st).
Proof.
  unfold RenderRequestStatus, renderStatus. destruct (_ || _); [apply preserves_ret; apply _|]. cbv zeta.
  destruct (String.eqb _ _); [apply preserves_ret; apply _|]. apply preserves_bind; [apply _|apply add_header_steps|intros _].
  destruct (ExecuteTemplate _ _); preserves_tac.
Qed.
#[local] Hint Resolve renderError_steps internal_error_steps RenderRequestStatus_steps : go_preserves.
Lemma renderPage_steps r p st : moves (renderPage r p st).
Proof. unfold renderPage. apply preserves_bind; [apply _|apply RenderRequestStatus_steps|intros []; preserves_tac]. Qed.
Lemma RenderState_steps c r l st : moves (RenderState c r l st).
Proof. unfold RenderState. preserves_tac. Qed.
#[local] Hint Resolve RenderState_steps : go_preserves.
Lemma renderNotFound_steps c r : moves (renderNotFound c r).
Proof. unfold renderNotFound. preserves_tac. Qed.
Lemma redirectLocalized_steps l rt : moves (redirectLocalized l rt).
Proof. unfold redirectLocalized. preserves_tac. Qed.
Lemma hx_redirect_steps t : moves (hx_redirect t).
Proof. unfold hx_redirect. preserves_tac. Qed.
Lemma redirectWithStatus_steps r d st : moves (redirectWithStatus r d st).
Proof. unfold redirectWithStatus. destruct (IsHTMX r); [apply hx_redirect_steps|preserves_tac]. Qed.
Lemma Now_steps : moves Now.
Proof. unfold Now. apply preserves_bind; [apply _|apply call_steps, preserves_time_Now; apply _|intro; preserves_tac]. Qed.
Lemma own_session_cookie value expires maxAge : own_cookie site (mkCookie (sc_name cookie) value (sc_path cookie) expires maxAge true (sc_secure cookie) (sc_sameSite cookie)).
Proof. split; simpl; [apply list_elem_of_here|done|done|do 2 apply list_elem_of_further; apply list_elem_of_here]. Qed.
Lemma own_lax_cookie name value maxAge :
  name = loginChallengeCookieName ∨ name = WebFlows.oauthStateCookieName →
  own_cookie site (mkCookie name value "/" None maxAge true (sc_secure cookie) SameSiteLaxMode).
Proof.
  intros Hn. split; simpl; [|done|done|apply list_elem_of_here].
  destruct Hn as [->| ->]; [do 1 apply list_elem_of_further|do 2 apply list_elem_of_further]; apply list_elem_of_here.
Qed.
Lemma SetCookie_steps v now : moves (WebSession.Set_ cookie v now).
Proof.
  unfold WebSession.Set_. cbv zeta. destruct (negb _); [preserves_tac|]. destruct (negb _); [preserves_tac|].
  apply preserves_bind; [apply _|apply web_cookie, own_session_cookie|intros; preserves_tac].
Qed.
Lemma ClearCookie_steps : moves (WebSession.Clear cookie).
Proof. apply web_cookie, own_session_cookie. Qed.
Lemma challenge_cookie_steps value maxAge : moves (SetCookie (loginChallengeCookie site value maxAge)).
Proof. apply web_cookie, own_lax_cookie. by left. Qed.
Lemma set_state_cookie_steps v : moves (WebFlows.setOAuthStateCookie site v).
Proof. apply web_cookie, own_lax_cookie. by right. Qed.
Lemma clear_state_cookie_steps : moves (WebFlows.clearOAuthStateCookie site).
Proof. apply web_cookie, own_lax_cookie. by right. Qed.
#[local] Hint Resolve renderError_steps internal_error_steps method_not_allowed_steps RenderRequestStatus_steps
  renderPage_steps RenderState_steps renderNotFound_steps redirectLocalized_steps hx_redirect_steps
  redirectWithStatus_steps Now_steps SetCookie_steps ClearCookie_steps challenge_cookie_steps set_state_cookie_steps
  clear_state_cookie_steps : go_preserves.
(** Pages are large: the search compares the renderers by name. *)
#[local] Hint Opaque renderError Middlewares.internal_error method_not_allowed RenderRequestStatus renderPage RenderState renderNotFound
  redirectLocalized hx_redirect redirectWithStatus Now WebSession.Set_ WebSession.Clear call ignore_call http_Error Redirect
  finishSignIn replaceSession completeSSOLogin renderPasswordPage authenticate signed_in currentUser current_user_id
  WebFlows.setOAuthStateCookie WebFlows.clearOAuthStateCookie
  WebFlows.renderRecovery WebFlows.renderGuest WebFlows.ssoClientFailure WebFlows.ssoCallbackFailure WebSettings.renderSettings
  WebGroups.renderGroups WebGroups.renderGroupNotFound WebGroups.renderGroupError WebGroups.renderDetail
  WebGroups.renderGroupWriteError WebGroups.group_redirect Routes.render_public : go_preserves.

(** ** Middlewares *)
Import Middlewares.
#[local] Abbreviation keeps h := (∀ r, within r → moves (h r)).
#[local] Abbreviation quietly m := (∀ a, moves (m a)).
#[local] Hint Resolve internal_error_steps : go_preserves.

Lemma preserves_NewRequestID : preserves (on_db (steps del)) NewRequestID.
Proof. unfold NewRequestID. preserves_tac. Qed.
Lemma preserves_NewCSRFToken : preserves (on_db (steps del)) NewCSRFToken.
Proof. unfold NewCSRFToken. preserves_tac. Qed.
Lemma keeps_WithRequestID h : keeps h → keeps (WithRequestID h).
Proof.
  intros Hh r Hr. unfold WithRequestID. apply preserves_bind; [apply _|apply call_steps, preserves_NewRequestID|].
  intros [id|]; [|preserves_tac]. destruct (negb _); [preserves_tac|]. apply preserves_bind; [apply _|apply set_header_steps|intros; by apply Hh].
Qed.
Lemma keeps_ClientIP proxy h : keeps h → keeps (ClientIP_ proxy h).
Proof. intros Hh r Hr. by apply Hh. Qed.
Lemma keeps_SecurityHeaders h : keeps h → keeps (SecurityHeaders h).
Proof. intros Hh r Hr. unfold SecurityHeaders. preserves_tac; by apply Hh. Qed.
Lemma keeps_Recover h : keeps h → keeps (Recover h).
Proof.
  intros Hh r Hr s. specialize (Hh r Hr s). unfold Recover. destruct (h r s) as [s' [u|e]]; [done|]. simpl in *.
  etransitivity; [exact Hh|]. apply internal_error_steps.
Qed.
Lemma keeps_SecurityEvents log n h : quietly log → keeps h → keeps (SecurityEvents log n h).
Proof. intros Hl Hh r Hr. unfold SecurityEvents, response_status. apply preserves_bind; [apply _|by apply Hh|intros _]. preserves_tac. Qed.
Lemma keeps_Usage enq n h : quietly enq → keeps h → keeps (Usage enq n h).
Proof. intros Hl Hh r Hr. unfold Usage, response_status. apply preserves_bind; [apply _|by apply Hh|intros _]. preserves_tac. Qed.
Lemma keeps_deferred m f : moves m → moves f → moves (deferred m f).
Proof.
  intros Hm Hf s. unfold deferred. specialize (Hm s). destruct (m s) as [s1 r]. specialize (Hf s1). destruct (f s1) as [s2 [u|e]]; simpl in *; by etransitivity.
Qed.
Lemma preserves_newTraceContext tracer r : preserves (on_db (steps del)) (Spans.newTraceContext tracer r).
Proof. unfold Spans.newTraceContext, Spans.randomHex. preserves_tac; apply preserves_attempt; preserves_tac. Qed.
(** [within] looks at the address of a request only. *)
Lemma within_Trace r v : within r → within (with_Trace v r).
Proof. done. Qed.
Lemma within_limited n r : within r → within (limited n r).
Proof. unfold limited. by destruct (_ <? _). Qed.
Lemma keeps_Span tracer n h : (∀ log, Spans.tracer_log tracer = Some log → quietly log) → keeps h → keeps (Span tracer n h).
Proof.
  intros Hl Hh r Hr. unfold Span. apply preserves_bind; [apply _|apply call_steps, preserves_newTraceContext|]. intros [trace|]; [|by apply Hh].
  apply preserves_bind; [apply _|apply Now_steps|]. intros startedAt. apply keeps_deferred; [by apply Hh, within_Trace|].
  unfold response_status, Spans.finish. preserves_tac.
Qed.
Lemma keeps_LimitRequestBody n h : keeps h → keeps (LimitRequestBody n h).
Proof. intros Hh r Hr. by apply Hh, within_limited. Qed.
Lemma keeps_Log log h : quietly log → keeps h → keeps (Log log h).
Proof. intros Hl Hh r Hr. unfold Log, response_status. apply preserves_bind; [apply _|apply Now_steps|intros startedAt]. apply preserves_bind; [apply _|by apply Hh|intros _]. preserves_tac. Qed.
Lemma keeps_CrossOriginProtection h : keeps h → keeps (CrossOriginProtection h).
Proof. intros Hh r Hr. unfold CrossOriginProtection. destruct (_ || _); [by apply Hh|preserves_tac]. Qed.
Lemma keeps_CSRF c h : (sc_secure cookie = true → csrf_secure c = true) → keeps h → keeps (CSRF c h).
Proof.
  intros Hc Hh r Hr. unfold CSRF, setCSRFCookie, withCSRFToken. cbv zeta. destruct (isSafeMethod _).
  - destruct (match Cookie_ r CSRFCookieName with Some _ => _ | None => _ end); [by apply Hh|].
    apply preserves_bind; [apply _|apply call_steps, preserves_NewCSRFToken|]. intros [token|]; [|preserves_tac].
    destruct (negb _); [preserves_tac|]. apply preserves_bind; [apply _| |intros; by apply Hh].
    apply web_cookie. split; simpl; [do 3 apply list_elem_of_further; apply list_elem_of_here|done|by intros ->%Hc|apply list_elem_of_further, list_elem_of_here].
  - destruct (existsb _ _); [by apply Hh|]. destruct (_ || _); [preserves_tac|by apply Hh].
Qed.
Lemma keeps_optional {A} (port : option A) (m : A → Middleware) h :
  (∀ p, port = Some p → keeps h → keeps (m p h)) → keeps h → keeps (Chain h (optional port m)).
Proof. intros Hm Hh. destruct port as [p|]; simpl; [by apply Hm|done]. Qed.
Lemma keeps_newRouter e h :
  (sc_secure cookie = true → csrf_secure (edge_csrf e) = true) →
  (∀ tracer log, edge_tracer e = Some tracer → Spans.tracer_log tracer = Some log → quietly log) →
  (∀ log, edge_security_log e = Some log → quietly log) → (∀ enq, edge_usage e = Some enq → quietly enq) →
  (∀ log, edge_request_log e = Some log → quietly log) → keeps h → keeps (newRouter e h).
Proof.
  intros Hc Ht Hl Hu Hr Hh.
  assert (keeps (CrossOriginProtection (CSRF (edge_csrf e) (Chain h (optional (edge_request_log e) Log))))) as Hcsrf.
  { apply keeps_CrossOriginProtection, keeps_CSRF; [done|]. refine (keeps_optional (edge_request_log e) _ _ _ Hh). intros log El. apply keeps_Log. by apply Hr. }
  assert (newRouter e h = WithRequestID (ClientIP_ (edge_TrustedProxy e) (SecurityHeaders (Recover
    (Chain (Chain (Chain (LimitRequestBody maxRequestBodyBytes (CrossOriginProtection (CSRF (edge_csrf e) (Chain h (optional (edge_request_log e) Log)))))
      (optional (edge_usage e) (λ enqueue, Usage enqueue NormalizeUsageRoute)))
      (optional (edge_security_log e) (λ log, SecurityEvents log NormalizeUsageRoute)))
      (optional (edge_tracer e) (λ tracer, Span tracer NormalizeUsageRoute))))))) as ->
    by (unfold newRouter, shared, Chain; by rewrite !foldr_app).
  apply keeps_WithRequestID, keeps_ClientIP, keeps_SecurityHeaders, keeps_Recover.
  refine (keeps_optional (edge_tracer e) _ _ _ (keeps_optional (edge_security_log e) _ _ _ (keeps_optional (edge_usage e) _ _ _ _))).
  - intros tracer Et. apply keeps_Span. intros log Ep. by apply (Ht tracer).
  - intros log El. apply keeps_SecurityEvents. by apply Hl.
  - intros enq Eu. apply keeps_Usage. by apply Hu.
  - by apply keeps_LimitRequestBody.
Qed.

(** ** Handlers *)
Lemma ignore_call_steps {A} (m : M A) : preserves (on_db (steps del)) m → moves (ignore_call m).
Proof. intros Hm. unfold ignore_call. apply preserves_bind; [apply _|by apply call_steps|intro; preserves_tac]. Qed.
#[local] Hint Resolve ignore_call_steps : go_preserves.
#[local] Hint Resolve Lookup_steps SignOut_steps FindUserByID_steps RateLimitedSignIn_steps RateLimitedSignUp_steps
  Issue_confirmation_steps : go_preserves.

Lemma authenticate_steps r : moves (authenticate site r).
Proof. apply call_steps, WebSession.preserves_Authenticate. apply _. Qed.
#[local] Hint Resolve authenticate_steps : go_preserves.
Lemma signed_in_steps r : moves (signed_in site r).
Proof. unfold signed_in. preserves_tac. Qed.
Lemma currentUser_steps r : moves (currentUser site r).
Proof. unfold currentUser. preserves_tac. Qed.
Lemma current_user_id_steps r : moves (current_user_id site r).
Proof. unfold current_user_id. preserves_tac. Qed.
#[local] Hint Resolve signed_in_steps currentUser_steps current_user_id_steps : go_preserves.

(** The optional single sign-on services are quiet when they are there. *)
Lemma wired_provider {A} (m : SSOProviderService → Web A) (n : Web A) :
  (∀ p, App.ssoProvider cfg = Some p → quiet_admin (sso_admin p) → moves (m p)) → moves n →
  moves (match App.ssoProvider cfg with Some p => m p | None => n end).
Proof. intros Hm Hn. destruct (App.ssoProvider cfg) as [p|] eqn:E; [|done]. apply Hm; [done|by eapply ssoProvider_quiet]. Qed.

Lemma completeSSOLogin_steps r id : moves (completeSSOLogin site r id).
Proof.
  unfold completeSSOLogin. apply wired_provider; [|preserves_tac]. intros p _ Hp. pose proof (CompleteLogin_steps del p Hp). preserves_tac.
Qed.
Lemma replaceSession_steps r id : moves (replaceSession site r id).
Proof. unfold replaceSession. preserves_tac. Qed.
#[local] Hint Resolve completeSSOLogin_steps replaceSession_steps : go_preserves.
Lemma arrive_steps r language sessionID destination :
  moves (let! redirected := completeSSOLogin site r sessionID in
         if redirected : bool then ret tt
         else if IsHTMX r then hx_redirect (mustLocalePath language destination) else redirectLocalized language destination).
Proof. preserves_tac. Qed.
Lemma finishSignIn_steps r l id d : moves (finishSignIn site r l id d).
Proof. unfold finishSignIn. preserves_tac. Qed.
#[local] Hint Resolve finishSignIn_steps : go_preserves.
Lemma renderPasswordPage_steps r l k f st al : moves (renderPasswordPage site r l k f st al).
Proof.
  unfold renderPasswordPage, sso_client_name. apply preserves_bind; [apply _| |intro; apply renderPage_steps].
  apply wired_provider; [|preserves_tac]. intros p _ Hp. pose proof (LoginClientName_steps del p Hp). preserves_tac.
Qed.
#[local] Hint Resolve renderPasswordPage_steps : go_preserves.
Lemma handlePasswordPage_steps k r : moves (handlePasswordPage site k r).
Proof. unfold handlePasswordPage, postSignUp, postSignIn. preserves_tac. Qed.
Lemma home_steps r : moves (WebAuth.home site r).
Proof. unfold WebAuth.home. preserves_tac. Qed.
Lemma signOut_steps r : moves (signOut site r).
Proof.
  unfold signOut, end_session, issuer_logout. destruct (negb _); [preserves_tac|].
  apply preserves_bind; [apply _| |intro; preserves_tac]. destruct (WebSession.Read _ r) as [id|]; [|preserves_tac].
  apply preserves_bind; [apply _| |intro; preserves_tac]. destruct (App.ssoClient cfg) as [c|] eqn:E; [|preserves_tac].
  pose proof (ssoClient_quiet cfg Hports c E) as [Hc _]. pose proof (SignOutURL_steps del c Hc). preserves_tac.
Qed.
Lemma sso_steps p r : App.ssoProvider cfg = Some p →
  moves (ssoLogin site p r) ∧ moves (ssoConsent p r) ∧ moves (ssoLogout site p r) ∧ moves (ssoError site r).
Proof.
  intros Hp. apply ssoProvider_quiet in Hp; [|done]. pose proof (BeginLogin_steps del p Hp). pose proof (Consent_steps del p Hp).
  pose proof (Logout_steps del p Hp). unfold ssoLogin, ssoConsent, ssoLogout, ssoError, ssoFailureRedirect. split_and!; preserves_tac.
Qed.
#[local] Hint Resolve handlePasswordPage_steps home_steps signOut_steps : go_preserves.

(** ** Flows *)
#[local] Hint Resolve Start_steps StartLink_steps CompleteCallback_steps Unlink_steps Resend_steps Request_steps Confirm_steps
  Redeem_reset_steps RateLimitedCreate_steps RateLimitedRedeem_steps Upgrade_steps Issue_claim_steps : go_preserves.
Lemma oauth_flow_steps p r : moves (WebFlows.oauthStart site p r) ∧ moves (WebFlows.oauthCallback site p r).
Proof.
  unfold WebFlows.oauthStart, WebFlows.oauthCallback, WebFlows.oauthFailureRedirect.
  split; preserves_tac.
Qed.
Lemma renderRecovery_steps r k f st al : moves (WebFlows.renderRecovery site r k f st al).
Proof. unfold WebFlows.renderRecovery. preserves_tac. Qed.
#[local] Hint Resolve renderRecovery_steps : go_preserves.
Lemma requestLink_steps k send r : (∀ e, preserves (on_db (steps del)) (send e)) → moves (WebFlows.requestLink site k send r).
Proof. intros Hs. unfold WebFlows.requestLink. preserves_tac. Qed.
Lemma recovery_steps r :
  moves (WebFlows.resendConfirmation site r) ∧ moves (WebFlows.forgotPassword site r) ∧ moves (WebFlows.confirmEmail site r) ∧
  moves (WebFlows.resetPasswordLink r) ∧ moves (WebFlows.resetPassword site r).
Proof.
  split_and!; [apply requestLink_steps; intro; apply Resend_steps|apply requestLink_steps; intro; apply Request_steps|..];
    unfold WebFlows.confirmEmail, WebFlows.resetPasswordLink, WebFlows.resetPassword; preserves_tac.
Qed.
Lemma renderGuest_steps r k u g o c f st al : moves (WebFlows.renderGuest site r k u g o c f st al).
Proof. unfold WebFlows.renderGuest. preserves_tac. Qed.
#[local] Hint Resolve renderGuest_steps : go_preserves.
Lemma guest_steps r :
  moves (WebFlows.guestWrite site r) ∧ moves (WebFlows.guestTransfer site r) ∧ moves (WebFlows.guestUpgrade site r).
Proof.
  unfold WebFlows.guestWrite, WebFlows.guestTransfer, WebFlows.guestUpgrade, WebFlows.renderGuestAlert. split_and!; preserves_tac.
Qed.
Section client.
Context (c : SSOClientService) (Hc : App.ssoClient cfg = Some c).
Lemma ssoClientFailure_steps r : moves (WebFlows.ssoClientFailure r).
Proof. unfold WebFlows.ssoClientFailure. preserves_tac. Qed.
#[local] Hint Resolve ssoClientFailure_steps : go_preserves.
Lemma ssoCallbackFailure_steps r g e : moves (WebFlows.ssoCallbackFailure r g e).
Proof. unfold WebFlows.ssoCallbackFailure. cbv zeta. destruct (negb g); [preserves_tac|apply redirectLocalized_steps]. Qed.
#[local] Hint Resolve ssoCallbackFailure_steps : go_preserves.
Lemma ssoSignIn_steps r : moves (WebFlows.ssoSignIn site r).
Proof.
  unfold WebFlows.ssoSignIn. destruct (requestLanguage r) as [language|]; [|preserves_tac].
  apply preserves_bind; [apply _|apply signed_in_steps|]. intros []; [apply redirectLocalized_steps|].
  apply renderPage_steps.
Qed.
Lemma ssoStart_steps r : moves (WebFlows.ssoStart site c r).
Proof.
  destruct (ssoClient_quiet cfg Hports c Hc) as [Hq _]. unfold WebFlows.ssoStart.
  apply preserves_bind; [apply _|apply call_steps, SSO_start_steps, Hq|]. intros [[? ?]|]; preserves_tac.
Qed.
Lemma ssoCallback_steps r : moves (WebFlows.ssoCallback site c r).
Proof.
  destruct (ssoClient_quiet cfg Hports c Hc) as [Hq Hs]. unfold WebFlows.ssoCallback. cbv zeta.
  apply preserves_bind; [apply _|preserves_tac|intros _]. apply preserves_bind; [apply _|preserves_tac|intros [actor signedIn]].
  destruct (_ || _); [preserves_tac|]. apply preserves_bind; [apply _|apply call_steps; by eapply (SSO_Callback_steps del cfg)|].
  intros [?|]; preserves_tac.
Qed.
Lemma ssoGuestUpgrade_steps r : moves (WebFlows.ssoGuestUpgrade site c r).
Proof.
  destruct (ssoClient_quiet cfg Hports c Hc) as [Hq _]. unfold WebFlows.ssoGuestUpgrade, WebFlows.renderGuestAlert. cbv zeta.
  apply preserves_bind; [apply _|preserves_tac|intros [user ok]]. do 3 (case_match; [preserves_tac|]).
  apply preserves_bind; [apply _|apply call_steps; by apply StartUpgrade_steps|]. intros [[? ?]|]; preserves_tac.
Qed.
Lemma ssoBackChannelLogout_steps r : moves (WebFlows.ssoBackChannelLogout c r).
Proof.
  destruct (ssoClient_quiet cfg Hports c Hc) as [Hq _]. unfold WebFlows.ssoBackChannelLogout.
  apply preserves_bind; [apply _|preserves_tac|intros _]. case_match; [preserves_tac|].
  apply preserves_bind; [apply _|apply call_steps; by apply BackChannelLogout_steps|]. intros ?; preserves_tac.
Qed.
End client.

(** ** Pages of the signed-in account *)
#[local] Hint Resolve ListOAuthIdentities_steps UpdateProfile_steps Update_password_steps UpdateLocale_steps UpdateTheme_steps : go_preserves.
Lemma withPageUser_steps r next : (∀ u l, moves (next u l)) → moves (WebSettings.withPageUser site r next).
Proof. intros Hn. unfold WebSettings.withPageUser. preserves_tac. Qed.
Lemma posted_steps r next : (∀ u l, moves (next u l)) → moves (WebSettings.posted site r next).
Proof. intros Hn. apply withPageUser_steps. intros. destruct (negb _); [preserves_tac|apply Hn]. Qed.
Lemma renderSettings_steps r l u f al st : moves (WebSettings.renderSettings site r l u f al st).
Proof.
  unfold WebSettings.renderSettings, WebSettings.identityViews. apply preserves_bind; [apply _|preserves_tac|intros views].
  destruct views as [[? ?]|]; preserves_tac.
Qed.
#[local] Hint Resolve renderSettings_steps : go_preserves.
Lemma settings_steps r :
  moves (WebSettings.page site r) ∧ moves (WebSettings.updateProfile site r) ∧ moves (WebSettings.updatePassword site r) ∧
  moves (WebSettings.updateLocale site r) ∧ moves (WebSettings.unlinkIdentity site r) ∧ moves (WebSettings.linkIdentity site r) ∧
  moves (WebSettings.updateTheme site r).
Proof.
  split_and!; try (apply posted_steps; intros u l);
    unfold WebSettings.page, WebSettings.updateTheme;
    try (destruct (negb _); [preserves_tac|apply withPageUser_steps; intros u l]); preserves_tac.
Qed.

Lemma renderGroups_steps r l u su f al st cr : moves (WebGroups.renderGroups site r l u su f al st cr).
Proof. unfold WebGroups.renderGroups. preserves_tac. Qed.
Lemma renderGroupNotFound_steps r l : moves (WebGroups.renderGroupNotFound site r l).
Proof. unfold WebGroups.renderGroupNotFound. preserves_tac. Qed.
#[local] Hint Resolve renderGroups_steps renderGroupNotFound_steps Detail_steps : go_preserves.
Lemma renderGroupError_steps r l e : moves (WebGroups.renderGroupError site r l e).
Proof. unfold WebGroups.renderGroupError. preserves_tac. Qed.
#[local] Hint Resolve renderGroupError_steps : go_preserves.
Lemma renderDetail_steps r l u g f al st : moves (WebGroups.renderDetail site r l u g f al st).
Proof. unfold WebGroups.renderDetail, WebGroups.renderGroupDetail. preserves_tac. Qed.
#[local] Hint Resolve renderDetail_steps : go_preserves.
Lemma renderGroupWriteError_steps r l u g e f : moves (WebGroups.renderGroupWriteError site r l u g e f).
Proof. unfold WebGroups.renderGroupWriteError, WebGroups.renderGroupDetailError. preserves_tac. Qed.
Lemma group_redirect_steps r l rt : moves (WebGroups.group_redirect r l rt).
Proof. unfold WebGroups.group_redirect. preserves_tac. Qed.
#[local] Hint Resolve renderGroupWriteError_steps group_redirect_steps : go_preserves.
Lemma viewed_steps r next : (∀ u l, moves (next u l)) → moves (WebGroups.viewed site r next).
Proof. intros Hn. apply withPageUser_steps. intros. destruct (negb _); [preserves_tac|apply Hn]. Qed.
Lemma group_form_steps r next : (∀ u l g, moves (next u l g)) → moves (WebGroups.group_form site r next).
Proof. intros Hn. apply posted_steps. intros. destruct (WebGroups.pathID r); [apply Hn|preserves_tac]. Qed.
Lemma member_form_steps r next : (∀ u l g m v, moves (next u l g m v)) → moves (WebGroups.member_form site r next).
Proof.
  intros Hn. apply group_form_steps. intros. destruct (WebGroups.pathMemberID r); [|preserves_tac].
  destruct (WebGroups.parseVersion _); [apply Hn|unfold WebGroups.renderGroupDetailError; preserves_tac].
Qed.
Lemma group_changed_steps {A} r u l g f al (m : M A) : preserves (on_db (steps del)) m → moves (WebGroups.group_changed site r u l g f al m).
Proof. intros Hm. unfold WebGroups.group_changed. preserves_tac. Qed.
#[local] Hint Resolve List_groups_steps Create_group_steps RateLimitedJoin_steps Leave_steps : go_preserves.
Lemma group_view_steps r :
  moves (WebGroups.list_ site r) ∧ moves (WebGroups.create site r) ∧ moves (WebGroups.detail site r) ∧ moves (WebGroups.join site r).
Proof.
  split_and!; [apply viewed_steps|apply posted_steps|apply viewed_steps|apply withPageUser_steps]; intros u l; cbv zeta; preserves_tac.
Qed.
Lemma group_write_steps r :
  moves (WebGroups.rename site r) ∧ moves (WebGroups.rotateInvite site r) ∧ moves (WebGroups.leave site r) ∧
  moves (WebGroups.changeRole site r) ∧ moves (WebGroups.removeMember site r).
Proof.
  split_and!; [apply group_form_steps|apply group_form_steps|apply group_form_steps|apply member_form_steps|apply member_form_steps]; intros.
  - destruct (WebGroups.parseVersion _); [apply group_changed_steps, Rename_steps|unfold WebGroups.renderGroupDetailError; preserves_tac].
  - apply group_changed_steps, RotateInvite_steps.
  - preserves_tac.
  - apply group_changed_steps, ChangeRole_steps.
  - apply group_changed_steps, RemoveMember_steps.
Qed.

(** ** Administrators *)
Lemma renderState_steps r l st : moves (WebAdmin.renderState site r l st).
Proof. unfold WebAdmin.renderState. preserves_tac. Qed.
#[local] Hint Resolve renderState_steps : go_preserves.
#[local] Hint Opaque WebAdmin.renderState WebAdmin.renderUsers WebAdmin.renderAudit WebAdmin.renderDetail WebAdmin.account_action
  WebAdmin.admin_redirect WebAdmin.renderSystem WebAdmin.renderRateLimits WebAdmin.renderUsage WebAdmin.renderSuspicious : go_preserves.
Lemma authorize_steps r next : (∀ u l, moves (next u l)) → moves (WebAdmin.authorize site r next).
Proof. intros Hn. unfold WebAdmin.authorize. preserves_tac. Qed.
Lemma viewed_admin_steps r next : (∀ u l, moves (next u l)) → moves (WebAdmin.viewed site r next).
Proof. intros Hn. apply authorize_steps. intros. destruct (negb _); [preserves_tac|apply Hn]. Qed.
Lemma posted_admin_steps r next : (∀ u l, moves (next u l)) → moves (WebAdmin.posted site r next).
Proof. intros Hn. apply authorize_steps. intros. destruct (negb _); [preserves_tac|apply Hn]. Qed.
Lemma of_account_steps r l next : (∀ i, moves (next i)) → moves (WebAdmin.of_account site r l next).
Proof. intros Hn. unfold WebAdmin.of_account. destruct (WebGroups.pathID r); [apply Hn|preserves_tac]. Qed.
Lemma admin_redirect_steps r l rt : moves (WebAdmin.admin_redirect r l rt).
Proof. unfold WebAdmin.admin_redirect. preserves_tac. Qed.
Lemma renderUsers_steps r l u p f m af al st : moves (WebAdmin.renderUsers site r l u p f m af al st).
Proof. apply renderPage_steps. Qed.
Lemma quiet_call {A} (m : M A) : quiet m → moves (call m).
Proof. intros Hq. by apply call_steps, quiet_steps. Qed.
#[local] Hint Resolve admin_redirect_steps renderUsers_steps Admin_RevokeSessions_steps Admin_Create_steps Admin_Update_steps
  Admin_List_steps Admin_ConfirmEmail_steps Admin_SendConfirmation_steps Admin_RemoveIdentity_steps Lockout_Status_steps
  ClearLockout_steps AuditList_steps : go_preserves.
Lemma Detail_admin_steps i : preserves (on_db (steps del)) (AdminDiagnostics.Detail i).
Proof.
  unfold AdminDiagnostics.Detail, AdminDiagnostics.ListActiveSessions, AdminHistory.ListLoginAttemptsForUser. preserves_tac.
Qed.
Lemma Find_admin_steps i : preserves (on_db (steps del)) (Admin.Find i).
Proof. unfold Admin.Find. preserves_tac. Qed.
#[local] Hint Resolve Detail_admin_steps Find_admin_steps : go_preserves.
Lemma renderDetail_admin_steps r l u i al st : moves (WebAdmin.renderDetail site r l u i al st).
Proof. unfold WebAdmin.renderDetail. preserves_tac. Qed.
#[local] Hint Resolve renderDetail_admin_steps : go_preserves.
Lemma account_action_steps r u l i m cs a : preserves (on_db (steps del)) a → moves (WebAdmin.account_action site r u l i m cs a).
Proof. intros Ha. unfold WebAdmin.account_action. preserves_tac. Qed.

Lemma account_pages_steps r :
  moves (WebAdmin.index site r) ∧ moves (WebAdmin.list_ site r) ∧ moves (WebAdmin.audit site r) ∧ moves (WebAdmin.detail site r) ∧
  moves (WebAdmin.createAccount site r) ∧ moves (WebAdmin.editAccount site r).
Proof.
  split_and!; [apply viewed_admin_steps|apply viewed_admin_steps|apply viewed_admin_steps|apply viewed_admin_steps|apply authorize_steps|apply authorize_steps];
    intros u l; try (apply of_account_steps; intros i);
    unfold WebAdmin.renderAdmin, WebAdmin.renderAudit, WebAdmin.submitCreateAccount, WebAdmin.renderEditAccount, WebAdmin.submitEditAccount;
    cbv zeta; preserves_tac.
Qed.
Lemma account_actions_steps r :
  moves (WebAdmin.revokeSessions site r) ∧ moves (WebAdmin.confirmEmailAccount site r) ∧ moves (WebAdmin.sendConfirmation site r) ∧
  moves (WebAdmin.removeIdentity site r) ∧ moves (WebAdmin.clearLockout site r).
Proof.
  split_and!; (apply posted_admin_steps; intros u l; apply of_account_steps; intros i).
  - apply account_action_steps, Admin_RevokeSessions_steps, Hports.
  - apply account_action_steps, Admin_ConfirmEmail_steps.
  - apply account_action_steps, Admin_SendConfirmation_steps.
  - destruct (WebAdmin.pathIdentityID r); [apply account_action_steps, Admin_RemoveIdentity_steps|preserves_tac].
  - preserves_tac.
Qed.
Lemma deleteAccount_steps r : del = true → moves (WebAdmin.deleteAccount site r).
Proof.
  intros Hd. apply posted_admin_steps. intros u l. apply of_account_steps. intros i. cbv zeta. destruct (negb _); [preserves_tac|].
  destruct (WebGroups.parseVersion _) as [v|]; [|preserves_tac].
  apply preserves_bind; [apply _|apply call_steps; by apply Admin_Delete_steps|]. intros res. preserves_tac.
Qed.

Lemma quiet_report key : preserves (on_db (steps del)) (UsageReports.SuspiciousReport_ key).
Proof. unfold UsageReports.SuspiciousReport_, UsageReports.QueryAccountUsage. destruct (UsageReports.Window key). preserves_tac. Qed.
Lemma Report_steps key asc : preserves (on_db (steps del)) (UsageReports.Report (port_queue (site_admin site)) key asc).
Proof.
  pose proof (quiet_steps del _ (quiet_queue _ (site_process site Hsite))). unfold UsageReports.Report, UsageReports.QueryRouteUsage.
  destruct (UsageReports.Window key). preserves_tac.
Qed.
#[local] Hint Resolve quiet_report Report_steps : go_preserves.
Lemma AdminBuckets_steps a : preserves (on_db (steps del)) (RateLimitAdmin.AdminBuckets (App.limiters cfg) a).
Proof.
  unfold RateLimitAdmin.AdminBuckets. induction (limiters_shared cfg) as [|l ls (sc & cf & ->) _ IH]; simpl; [preserves_tac|].
  apply preserves_bind; [apply _|apply Actions_steps|]. intros infos. destruct (existsb _ _); [|apply IH]. apply Buckets_steps.
Qed.
#[local] Hint Resolve AdminBuckets_steps : go_preserves.
Lemma ok_or_steps {A} (d : A) m : preserves (on_db (steps del)) m → moves (WebAdmin.ok_or d m).
Proof. intros Hm. unfold WebAdmin.ok_or. preserves_tac. Qed.
Lemma action_views_steps base actions : moves (WebAdmin.action_views site base actions).
Proof.
  induction actions as [|a actions IH]; cbn [WebAdmin.action_views]; [preserves_tac|].
  apply preserves_bind; [apply _|apply ok_or_steps, AdminBuckets_steps|]. intros buckets. apply preserves_bind; [apply _|apply IH|]. intros. preserves_tac.
Qed.
Lemma renderRateLimits_steps r l u al st : moves (WebAdmin.renderRateLimits site r l u al st).
Proof.
  unfold WebAdmin.renderRateLimits. cbv zeta. apply preserves_bind; [apply _|apply ok_or_steps|].
  - by destruct (RateLimitAdmin_steps del cfg (mkActor 0 "") "") as (? & _).
  - intros infos. apply preserves_bind; [apply _|apply action_views_steps|]. intros. apply renderPage_steps.
Qed.
Lemma renderSystem_steps r l u al st : moves (WebAdmin.renderSystem site r l u al st).
Proof.
  destruct (site_process site Hsite) as [Hr Hm _ Hc Hj _]. unfold WebAdmin.renderSystem.
  apply preserves_bind; [apply _|by apply ok_or_steps, quiet_steps|]. intros jobs.
  do 3 (apply preserves_bind; [apply _|by apply quiet_call|]; intro). apply renderPage_steps.
Qed.
#[local] Hint Resolve renderRateLimits_steps renderSystem_steps : go_preserves.
Lemma report_pages_steps r :
  moves (WebAdmin.usage site r) ∧ moves (WebAdmin.suspicious site r) ∧ moves (WebAdmin.rateLimits site r) ∧ moves (WebAdmin.system site r).
Proof.
  split_and!; (apply viewed_admin_steps; intros u l); unfold WebAdmin.renderUsage, WebAdmin.renderSuspicious; preserves_tac.
Qed.
Lemma upkeep_actions_steps r : moves (WebAdmin.clearRateLimit site r) ∧ moves (WebAdmin.runMaintenance site r).
Proof.
  split; (apply posted_admin_steps; intros u l).
  - cbv zeta. apply preserves_bind; [apply _| |intros [?|]; preserves_tac].
    destruct (RateLimitAdmin_steps del cfg (WebAdmin.adminActionContext u r) (TrimSpace (PostFormValue r "action"))) as (_ & ? & ?).
    apply call_steps. by destruct (String.eqb _ _).
  - destruct (site_process site Hsite) as [_ _ _ _ _ Hrun]. apply preserves_bind; [apply _|apply web_call, Hrun|]. intros [runs|]; [|preserves_tac].
    apply preserves_bind; [apply _|apply ignore_call_steps, Record_steps|intros _; preserves_tac].
Qed.

(** ** The router *)
Lemma render_public_steps r l p : moves (Routes.render_public site r l p).
Proof. unfold Routes.render_public, Routes.applySessionState. cbv zeta. preserves_tac. Qed.
#[local] Hint Resolve render_public_steps : go_preserves.
Lemma public_steps r :
  moves (Routes.health r) ∧ moves (Routes.defaultLocale r) ∧ moves (Routes.home site r) ∧ moves (Routes.localized site r) ∧
  moves (Routes.about site r).
Proof.
  assert (moves (Routes.home site r)) as Hh.
  { unfold Routes.home. destruct (ParsePath _) as [[l rt]|]; [|preserves_tac]. preserves_tac. }
  split_and!; [unfold Routes.health| unfold Routes.defaultLocale|done|unfold Routes.localized|unfold Routes.about]; preserves_tac.
Qed.

(** The component of a conjunction that is the goal, found by its name. *)
Ltac component H :=
  lazymatch type of H with
  | ?A ∧ ?B => first [component constr:(proj1 H) | component constr:(proj2 H)]
  | preserves _ ?m => lazymatch goal with |- preserves _ ?x => constr_eq x m; exact H end
  end.
Definition moving (rt : route) : Prop :=
  ∀ r values, within r → Routes.matches (route_Pattern rt) (Routes.segments_of (req_Path r)) = Some values →
    moves (route_Handler rt (with_PathValues values r)).
Lemma moving_any rt : (∀ r, moves (route_Handler rt r)) → moving rt.
Proof. intros Hm r values _ _. apply Hm. Qed.
Ltac moving_tac := repeat first [apply Forall_nil; done | apply Forall_cons; split | apply Forall_app; split]; try (apply moving_any; intros r; simpl).
Lemma common_routes_steps l : Forall moving (Routes.common_routes site l).
Proof.
  unfold Routes.common_routes, Routes.get_post. cbn [app]. moving_tac;
    first [apply home_steps | apply signOut_steps | component constr:(public_steps r) | component constr:(settings_steps r)
          | component constr:(group_view_steps r) | component constr:(group_write_steps r) | component constr:(guest_steps r)].
Qed.
Lemma Forall_bind {A B} (P : B → Prop) (f : A → list B) l : (∀ x, Forall P (f x)) → Forall P (l ≫= f).
Proof. intros Hf. apply Forall_forall. intros y Hy. apply list_elem_of_bind in Hy as (x & Hy & _). revert y Hy. by apply Forall_forall. Qed.
Lemma credential_routes_steps l : Forall moving (Routes.credential_routes site l).
Proof.
  unfold Routes.credential_routes, Routes.get_post. cbn [app].
  moving_tac; try first [apply handlePasswordPage_steps | component constr:(settings_steps r) | component constr:(recovery_steps r)
    | component constr:(guest_steps r)].
  apply Forall_bind. intros n. unfold Routes.provider_routes. moving_tac; component constr:(oauth_flow_steps n r).
Qed.
Lemma client_routes_steps c l : App.ssoClient cfg = Some c → Forall moving (Routes.client_routes site c l).
Proof.
  intros Hc. unfold Routes.client_routes, Routes.get_post. cbn [app].
  moving_tac; auto using ssoSignIn_steps, ssoStart_steps, ssoCallback_steps, ssoGuestUpgrade_steps.
Qed.
Lemma matches_Lit s p path v : Routes.matches (Lit s :: p) path = Some v → ∃ rest, path = s :: rest ∧ Routes.matches p rest = Some v.
Proof. destruct path as [|x path]; simpl; [done|]. destruct (String.eqb_spec s x) as [->|]; [eauto|done]. Qed.
Lemma matches_Wild n p path v : Routes.matches (Wild n :: p) path = Some v → ∃ x rest v', path = x :: rest ∧ Routes.matches p rest = Some v'.
Proof. destruct path as [|x path]; simpl; [done|]. destruct (String.eqb x ""); [done|]. destruct (Routes.matches p path) as [v'|] eqn:E; [|done]. intros _. by exists x, path, v'. Qed.
Lemma admin_routes_steps l : Forall moving (Routes.admin_routes site l).
Proof.
  unfold Routes.admin_routes, Routes.get_post. cbv zeta. cbn [app]. repeat (apply Forall_cons; split); try apply Forall_nil; try done;
    try (apply moving_any; intros r; simpl;
         first [component constr:(account_pages_steps r) | component constr:(account_actions_steps r) | component constr:(report_pages_steps r)
               | component constr:(upkeep_actions_steps r)]).
  intros r values [Hd|Hno] Hm; [by apply deleteAccount_steps|]. exfalso. cbn [route_Pattern Routes.post] in Hm.
  apply matches_Lit in Hm as (? & Hp & Hm). apply matches_Lit in Hm as (? & -> & Hm). apply matches_Lit in Hm as (? & -> & Hm).
  apply matches_Wild in Hm as (? & ? & ? & -> & Hm). apply matches_Lit in Hm as (rest & -> & Hm).
  destruct rest; [|done]. unfold deletes_account in Hno. rewrite Hp in Hno. done.
Qed.
Lemma credential_admin_routes_steps l : Forall moving (Routes.credential_admin_routes site l).
Proof.
  unfold Routes.credential_admin_routes, Routes.get_post. cbv zeta. cbn [app]. moving_tac;
    first [component constr:(account_pages_steps r) | component constr:(account_actions_steps r)].
Qed.
Lemma language_routes_steps l : Forall moving (Routes.language_routes site l).
Proof.
  unfold Routes.language_routes. rewrite !Forall_app. split_and!; [|apply common_routes_steps|apply admin_routes_steps].
  destruct (App.ssoClient cfg) as [c|] eqn:E; [by apply client_routes_steps|].
  apply Forall_app. split; [apply credential_routes_steps|apply credential_admin_routes_steps].
Qed.
Lemma sso_routes_steps : Forall moving (Routes.sso_routes site).
Proof.
  unfold Routes.sso_routes. apply Forall_app. split.
  - destruct (App.ssoProvider cfg) as [p|] eqn:E; moving_tac; by apply (sso_steps p).
  - destruct (App.ssoClient cfg) as [c|] eqn:E; moving_tac; [by apply ssoBackChannelLogout_steps|apply recovery_steps|apply recovery_steps].
Qed.
Lemma routes_steps : Forall moving (Routes.routes site).
Proof.
  unfold Routes.routes. apply Forall_app. split; [apply Forall_bind, language_routes_steps|].
  apply Forall_app. split; [apply sso_routes_steps|]. moving_tac; apply public_steps.
Qed.
Lemma find_route_In rs m p h v :
  Routes.find_route rs m p = Some (h, v) → ∃ rt, rt ∈ rs ∧ h = route_Handler rt ∧ Routes.matches (route_Pattern rt) p = Some v.
Proof.
  induction rs as [|rt rs IH]; simpl; [done|]. destruct (Routes.method_matches _ _).
  - destruct (Routes.matches _ _) eqn:E; [intros [= <- <-]; exists rt; split_and!; [left|done|done]|].
    intros Hf. destruct (IH Hf) as (rt' & Hin & ?). exists rt'. split; [by right|done].
  - intros Hf. destruct (IH Hf) as (rt' & Hin & ?). exists rt'. split; [by right|done].
Qed.
Lemma ServeMux_steps r : within r → moves (Routes.ServeMux (Routes.routes site) r).
Proof.
  intros Hr. unfold Routes.ServeMux. destruct (Routes.find_route _ _ _) as [[h v]|] eqn:E; [|preserves_tac].
  apply find_route_In in E as (rt & Hin & -> & Hv). pose proof routes_steps as Hf. rewrite Forall_forall in Hf. by apply Hf.
Qed.

(** The router of a site whose loggers change nothing. *)
Lemma router_keeps proxy log enq r : quiet_port log → quiet_port enq → within r → moves (Routes.router site proxy log enq r).
Proof.
  intros Hl Hu. assert (∀ A (port : A → Web unit), quiet_port port → ∀ a, moves (port a)) as Hq
    by (intros A port Hp a s; destruct (Hp a s) as (Hd & Hr & _); apply web_same; by symmetry).
  revert r. unfold Routes.router. apply keeps_newRouter; simpl; [done|..]; try exact ServeMux_steps.
  - intros tracer l [= <-]. simpl. intros [= <-]. by apply Hq.
  - intros l [= <-] a. exact (Hq _ log Hl _).
  - intros enqueue [= <-]. exact (Hq _ enq Hu).
  - intros l [= <-] a. exact (Hq _ log Hl _).
Qed.
End web_steps.

(** ** The relations of interest *)
#[export] Instance steps_relation `{Postgres} ok del : WebRelation ok del (on_site (upkeep del)).
Proof.
  split; [apply _|..].
  - intros f _. apply preserves_write, _.
  - intros c _. apply preserves_SetCookie, _.
  - intros A m. apply preserves_call.
  - intros s s' Hd _. unfold on_site. by rewrite Hd.
Qed.

(** The answer got further cookies, all of them [ok]. *)
Definition wrote (ok : Cookie → Prop) : relation (World * Response) :=
  λ s s', ∃ cs, resp_Cookies s'.2 = resp_Cookies s.2 ++ cs ∧ Forall ok cs.
#[export] Instance wrote_preorder ok : PreOrder (wrote ok).
Proof.
  split.
  - intros s. exists []. by rewrite app_nil_r.
  - intros a b c (cs & Hb & Hcs) (cs' & Hc & Hcs'). exists (cs ++ cs'). by rewrite Hc, Hb, <- app_assoc, Forall_app.
Qed.
#[export] Instance wrote_relation `{Postgres} ok del : WebRelation ok del (wrote ok).
Proof.
  split; [apply _|..].
  - intros f Hf s. exists []. rewrite app_nil_r. split; [apply Hf|done].
  - intros c Hc s. exists [c]. by rewrite Forall_singleton.
  - intros A m _ s. unfold call. destruct (m s.1) as [w' res]. exists []. by rewrite app_nil_r.
  - intros s s' _ Hr. exists []. by rewrite app_nil_r, Hr.
Qed.

Section router.
Context `{Unicode, MailParser, Postgres, Crypto, PasswordHashing, URLParser, !PasswordHashingLaws, FloatParser, ReferenceParser, Templates}.
Context (site : Site) (Hsite : quiet_site site).
Context (proxy : string) (log : LogLine → Web unit) (enq : UsageEvent → Web unit).
Context (Hlog : quiet_port log) (Henq : quiet_port enq).
Lemma router_steps del r : within del r → preserves (on_site (upkeep del)) (Routes.router site proxy log enq r).
Proof. exact (router_keeps del site Hsite _ proxy log enq r Hlog Henq). Qed.
Lemma router_cookies r : preserves (wrote (own_cookie site)) (Routes.router site proxy log enq r).
Proof. apply (router_keeps true site Hsite _ proxy log enq r Hlog Henq). by left. Qed.
End router.
