(* ===== verification/AccountProps.v ===== *)
(** * Sessions, sign-in, passwords and links

    What the account services promise, for a successful call and for its
    failures. *)
From S2P Require Export Safety.
Import UserRepository Sessions SessionRepository TokenRepository.

(** The row that stores a session, under the digest of its identifier. *)
Definition row_of (d : DB) `{Crypto} (id : string) : option Session := sessions d !! sessionDigest id.
(** A call that was refused. *)
Definition refused {A} (run : World * outcome A) : Prop := ∃ e, snd run = Err e.

Section sessions.
Context `{Unicode, Postgres, Crypto, !DigestSize} (s : SessionService).

(** What [Lookup] answers for a stored session, whole or revoked. *)
Lemma Lookup_row id w row :
  faults w = [] → TrimSpace id ≠ "" → len id = 64 → sessions (db w) !! sessionDigest id = Some row →
  session_ID row = sessionDigest id → 0 < session_UserID row → session_CreatedAt row < session_ExpiresAt row →
  snd (Lookup id w) =
    if negb (is_nil (session_RevokedAt row)) then Err ErrSessionRevoked
    else if session_ExpiresAt row <=? Unix (clock (fst (time_Now w))) then Err ErrSessionExpired
    else Ok (mkSession id (session_UserID row) (session_CreatedAt row) (session_ExpiresAt row) None "" "").
Proof.
  intros Hf Ht Hl Hrow Hid Hu Hlt. pose proof (sessionDigest_length id) as Hdl.
  assert (Hne : id ≠ "") by (intros ->; done).
  unfold Lookup, validateSessionID. rewrite (proj2 (String.eqb_neq _ _) Ht), Hl. simpl.
  unfold bind at 1, lift. unfold bind at 1, map_err at 1.
  rewrite (FindSession_found id w row); simpl; try done; try lia;
    [|rewrite Hid; intros E; by rewrite E in Hdl|rewrite Hid; unfold len; by rewrite Hdl].
  unfold bind at 1, guard at 1. rewrite (proj2 (String.eqb_neq _ _) Hne). simpl.
  rewrite String.eqb_refl, (proj2 (Z.leb_gt (session_UserID row) 0)), (proj2 (Z.leb_gt _ _) Hlt) by lia.
  unfold bind, guard. simpl. destruct (session_RevokedAt row); simpl; [done|].
  unfold unix_now, time_Now, bind. simpl. by destruct (_ <=? _).
Qed.

Lemma Revoke_row id w w' row :
  Revoke id w = (w', Ok tt) → sessions (db w) !! sessionDigest id = Some row →
  ∃ t, sessions (db w') !! sessionDigest id = Some (with_RevokedAt (Some t) row).
Proof.
  unfold Revoke, RevokeSession. intros Hr Hrow. inv_ok.
  match goal with Hx : unix_now _ = _ |- _ => apply unix_now_ok in Hx as (Hd & _) end.
  destruct (_ || _); [done|]. inv_db. unfold revoke_session in *. rewrite Hd, Hrow in *. simplify_eq.
  match goal with Hx : set_sessions _ _ = db _ |- _ => rewrite <- Hx end.
  simpl. rewrite lookup_insert_eq. unfold coalesce_revoked.
  destruct (session_RevokedAt row) as [t|]; eauto.
Qed.

(** C15. A created session is accepted, with the account it was created for,
    by every later lookup of its identifier until it expires or is revoked,
    and from then on it is refused: as revoked once its row carries a
    revocation time, else as expired from its last second on.  The row
    [Create] stores, under the digest of the identifier, is the row [Lookup]
    judges: whatever use cases follow, as long as the account exists, it is
    as created or revoked; and [Revoke] revokes it. *)
Theorem created_session_accepted_until_expiry userID w w1 x :
  Create s userID w = (w1, Ok x) →
  let stored d revoked := row_of d (session_ID x) = with_RevokedAt revoked <$> row_of (db w1) (session_ID x) in
  session_UserID x = userID ∧ Unix (clock w) ≤ session_CreatedAt x ≤ Unix (clock w1) ∧
  session_ExpiresAt x = expiry s (session_CreatedAt x) ∧
  (∀ w2 revoked, stored (db w2) revoked → faults w2 = [] →
     snd (Lookup (session_ID x) w2) =
       match revoked with
       | Some _ => Err ErrSessionRevoked
       | None => if session_ExpiresAt x <=? Unix (clock (fst (time_Now w2))) then Err ErrSessionExpired else Ok x
       end) ∧
  stored (db w1) None ∧
  (∀ d, db_wf (db w1) → steps true (db w1) d → is_Some (users d !! userID) → ∃ revoked, stored d revoked) ∧
  (∀ w2 w3 revoked, stored (db w2) revoked → Revoke (session_ID x) w2 = (w3, Ok tt) → ∃ t, stored (db w3) (Some t)).
Proof.
  intros Hc stored. unfold Create in Hc.
  apply create_ok in Hc as (Hpos & Hu & Hn & Hlen & Htrim & Hexp & Hlt & Hclk & Hsid & Htok & Hex & Hnone & Hdb).
  set (row := with_SessionID (sessionDigest (session_ID x)) x).
  assert (Hrow : row_of (db w1) (session_ID x) = Some row) by (unfold row_of; rewrite Hdb; apply lookup_insert_eq).
  assert (Hself : with_RevokedAt None row = row) by (unfold row; destruct x; simpl in *; by subst).
  split_and!; try done; try lia.
  - intros w2 revoked Hw Hf. unfold stored in Hw. rewrite Hrow in Hw. simpl in Hw.
    rewrite (Lookup_row _ _ _ Hf Htrim ltac:(unfold len; by rewrite Hlen) Hw); [|done|simpl; lia|done].
    destruct revoked; [done|]. simpl. destruct (_ <=? _); [done|]. do 2 f_equal. destruct x; simpl in *; by subst.
  - unfold stored. rewrite Hrow. simpl. by rewrite Hself.
  - intros d Hwf Hs Hacc. unfold stored. rewrite Hrow. simpl.
    destruct (ev_sessions _ _ (steps_evolve _ _ _ Hs Hwf) _ _ Hrow) as [(id & [= <-] & Hg)|(row' & Hr & Hl)].
    + rewrite <- Hu in Hacc. simpl in Hg. rewrite Hg in Hacc. by destruct Hacc.
    + destruct Hl as [->|(_ & t & ->)]; [exists None; by rewrite Hself|by exists (Some t)].
  - intros w2 w3 revoked Hw Hr. unfold stored in *. rewrite Hrow in *. simpl in *.
    destruct (Revoke_row _ _ _ _ Hr Hw) as [t Ht]. exists t. exact Ht.
Qed.
End sessions.

(** ** Quiet runs *)
Lemma quiet_ok {A} (m : M A) w w' r : quiet m → m w = (w', r) → db w' = db w.
Proof. intros Hq Hm. specialize (Hq w). rewrite Hm in Hq. symmetry. exact Hq. Qed.

Section signin.
Context `{UnicodeLaws, MailParser, Crypto, PasswordHashing} (s : SignInService).
Context (Hclear : ∀ i, quiet (attempts_Clear s i)).

(** The account an identifier names. *)
Definition names_account (raw : string) (u : User) : Prop :=
  match normalizeSignInIdentifier raw with
  | (true, Ok i) => user_Email u = Some i
  | (false, Ok i) => user_Username u = Some i
  | (_, Err _) => False
  end.

Lemma findUser_ok raw b i w w' u :
  normalizeSignInIdentifier raw = (b, Ok i) → SignIn.findUser i b w = (w', Ok u) →
  db w' = db w ∧ ∃ k, users (db w) !! k = Some u ∧ names_account raw u.
Proof.
  intros Hn Hf. pose proof (normalizeSignInIdentifier_ok _ _ _ Hn) as [_ Hb]. unfold names_account. rewrite Hn.
  unfold SignIn.findUser in Hf. destruct b.
  - apply FindUserByEmail_ok in Hf as (Hd & k & n & Hm & _ & Hk & He & _). split; [done|]. exists k. split; [done|].
    rewrite (NormalizeEmail_idemp _ _ Hb) in Hm. by simplify_eq.
  - apply FindUserByUsername_ok in Hf as (Hd & k & n & Hm & _ & Hk & He & _). split; [done|]. exists k. split; [done|].
    rewrite (NormalizeUsername_idemp _ _ Hb) in Hm. by simplify_eq.
Qed.

(** C8. Sign-in authenticates: it succeeds only for the stored account its
    identifier names by e-mail address or user name, which is not a guest,
    whose stored hash verifies the given password, and whose address is
    confirmed where that is required.  It then adds exactly one session, for
    that account, and hands the account out without its password hash. *)
Theorem sign_in_authenticates input w w' r `{Postgres} :
  db_wf (db w) → SignIn.SignIn s input w = (w', Ok r) →
  ∃ id u hash, users (db w) !! id = Some u ∧ names_account (Identifier input) u ∧
    user_PasswordHash u = Some hash ∧ Verify (Password input) hash = Ok true ∧ user_IsGuest u = false ∧
    (confirmationRequired s = true → user_EmailVerifiedAt u ≠ None) ∧
    result_User r = with_PasswordHash None u ∧ session_UserID (result_Session r) = id ∧
    session_RevokedAt (result_Session r) = None ∧
    let x := result_Session r in
    sessions (db w) !! sessionDigest (session_ID x) = None ∧
    db w' = set_sessions (<[sessionDigest (session_ID x) := with_SessionID (sessionDigest (session_ID x)) x]>
                            (sessions (db w))) (db w).
Proof.
  intros Hwf. unfold SignIn.SignIn.
  destruct (normalizeSignInIdentifier (Identifier input)) as [b [i|e]] eqn:Hn; [|by destruct b].
  intros Hs. apply bind_ok in Hs as (w1 & u & Hf & Hs). apply map_err_ok in Hf.
  apply (findUser_ok _ _ _ _ _ _ Hn) in Hf as (Hd & k & Hk & Hna).
  destruct (user_PasswordHash u) as [hash|] eqn:Hh; [|done].
  apply bind_ok in Hs as (? & ? & Hg & Hs). apply guard_ok in Hg as [Hg ->].
  apply bind_ok in Hs as (? & ? & Hv & Hs). apply guard_ok in Hv as [Hv ->].
  apply bind_ok in Hs as (? & ? & Hc & Hs). apply guard_ok in Hc as [Hc ->].
  apply bind_ok in Hs as (w2 & ? & Hcl & Hs). apply map_err_ok, quiet_ok in Hcl; [|apply Hclear].
  apply bind_ok in Hs as (w3 & sess & Hx & Hs). apply map_err_ok in Hx. apply ret_ok in Hs as [<- <-].
  apply create_ok in Hx as (_ & Hu & Hnr & _ & _ & _ & _ & _ & _ & _ & _ & Hnone & Hdb).
  destruct (wf_users _ Hwf _ _ Hk) as [(Hid & _) _]. rewrite Hcl, Hd in *. bool_props.
  exists k, u, hash. split_and!; try done.
  - destruct (Verify _ hash) as [[]|]; done.
  - intros Hr. rewrite Hr in Hc. simpl in Hc. by destruct (user_EmailVerifiedAt u).
  - simpl. congruence.
Qed.

Lemma select_where_run `{Postgres} P w :
  faults w = [] → db_wf (db w) →
  UserRepository.find (select_where P) w =
    (w, match find_row P (users (db w)) with Some (_, u) => Ok u | None => Err ErrUserNotFound end).
Proof.
  intros Hf Hwf. rewrite find_run by done. unfold select_where.
  destruct (find_row P (users (db w))) as [[k u]|] eqn:E; [|done].
  apply find_row_Some in E as [Hk _]. destruct (wf_users _ Hwf _ _ Hk) as [(Hid & ? & Hc) _].
  by rewrite (scanUser_stored u ltac:(lia) Hc).
Qed.

(** C17. A refused sign-in tells nothing about the account: an identifier that
    names no account, one that names a guest or an account without a
    password, and a wrong password all give [ErrInvalidCredentials] and leave
    the same world. *)
Theorem sign_in_failures_look_alike input w `{Postgres} :
  faults w = [] → db_wf (db w) →
  (∀ id u hash, users (db w) !! id = Some u → names_account (Identifier input) u → user_IsGuest u = false →
     user_PasswordHash u = Some hash → Verify (Password input) hash ≠ Ok true) →
  SignIn.SignIn s input w = (w, Err ErrInvalidCredentials).
Proof.
  intros Hf Hwf Hno. unfold SignIn.SignIn, names_account in *.
  destruct (normalizeSignInIdentifier (Identifier input)) as [b [i|e]] eqn:Hn; [|by destruct b].
  pose proof (normalizeSignInIdentifier_ok _ _ _ Hn) as [Hne Hb].
  assert (Hfind : ∃ P, SignIn.findUser i b w = UserRepository.find (select_where P) w ∧
                    ∀ u, P u = true → if b then user_Email u = Some i else user_Username u = Some i).
  { unfold SignIn.findUser. destruct b.
    - unfold FindUserByEmail. rewrite (NormalizeEmail_idemp _ _ Hb), (proj2 (String.eqb_neq _ _) Hne).
      eexists. split; [done|]. intros u Hu. simpl in Hu. by bool_props.
    - unfold FindUserByUsername. rewrite (NormalizeUsername_idemp _ _ Hb), (proj2 (String.eqb_neq _ _) Hne).
      eexists. split; [done|]. intros u Hu. simpl in Hu. by bool_props. }
  destruct Hfind as (P & Hfind & HP). unfold bind at 1, map_err at 1.
  rewrite Hfind, (select_where_run P w) by done.
  destruct (find_row P (users (db w))) as [[k u]|] eqn:E; [|done].
  apply find_row_Some in E as [Hk Hu%HP].
  destruct (user_PasswordHash u) as [hash|] eqn:Hh; [|done].
  unfold bind at 1, guard at 1. destruct ((user_ID u <=? 0) || user_IsGuest u) eqn:Hg; [done|]. bool_props. simpl.
  assert (Hv : Verify (Password input) hash ≠ Ok true) by (eapply Hno; try done; by destruct b).
  unfold bind at 1, guard at 1. by destruct (Verify (Password input) hash) as [[]|].
Qed.
End signin.

(** ** Password-reset and confirmation links *)
Section links.
Context `{Unicode, MailParser, Postgres, Crypto, PasswordHashing, !PasswordHashingLaws}.

Section redeem.
Context (s : SessionService) (Hsso : quiet_revoker (sso_RevokeUser s)).

Lemma sso_quiet f u : sso_RevokeUser s = Some f → preserves (on_db logins_only) (f u).
Proof. intros E. unfold quiet_revoker in Hsso. rewrite E in Hsso. apply Hsso. Qed.

(** The link [tok] was used at [now] to give its account the hash [hash]. *)
Definition reset_with (tok : string) (d d' : DB) (i : Z) (t : Token) (now : Z) (u : User) (hash : string) : Prop :=
  reset_tokens d !! tokenDigest tok = Some (i, t) ∧ token_ConsumedAt t = None ∧ now < token_ExpiresAt t ∧
  users d !! token_UserID t = Some u ∧ user_IsGuest u = false ∧ user_Email u ≠ None ∧
  users d' = <[token_UserID t := mkUser (user_ID u) (user_Email u) (Some hash) (user_Username u)
    (user_DisplayName u) false (user_IsAdmin u) (user_Theme u) (user_Locale u) (user_CreatedAt u)
    (user_EmailVerifiedAt u) (user_Version u + 1)]> (users d) ∧
  reset_tokens d' = <[tokenDigest tok := (i, with_ConsumedAt (Some now) t)]> (reset_tokens d) ∧
  ∀ k x, sessions d' !! k = Some x → session_UserID x = token_UserID t → session_RevokedAt x ≠ None.

Lemma Redeem_ok tok password w w' :
  db_wf (db w) → PasswordReset.Redeem s tok password w = (w', Ok tt) →
  ∃ i t now u hash, reset_with tok (db w) (db w') i t now u hash ∧
    Unix (clock w) ≤ now ∧ Verify password hash = Ok true ∧ ValidatePassword password = Ok tt.
Proof.
  intros Hwf Hr. unfold PasswordReset.Redeem in Hr.
  apply bind_ok in Hr as (w0 & [] & Hval & Hr). injection Hval as <- Hval.
  apply bind_ok in Hr as (w1 & token & Htok & Hr).
  assert (token = tok ∧ w1 = w) as [-> ->].
  { unfold lift, normalizePasswordResetToken in Htok. repeat case_match; by simplify_eq. }
  apply bind_ok in Hr as (w2 & now & Hnow & Hr). apply unix_now_ok in Hnow as (Hd2 & -> & Hle).
  apply bind_ok in Hr as (w3 & reset & Hc & Hr). apply map_err_ok in Hc.
  apply ConsumePasswordResetToken_ok in Hc as (i & t & Ht & Hus & _ & -> & Hd3). rewrite Hd2 in *.
  apply bind_ok in Hr as (? & ? & Hg & Hr). apply guard_ok in Hg as [_ ->].
  apply bind_ok in Hr as (w4 & u & Hf & Hr). apply map_err_ok in Hf.
  apply FindUserByID_ok in Hf as (Hd4 & Hu & _). rewrite Hd3 in Hu. simpl in Hu.
  apply bind_ok in Hr as (? & ? & Hg & Hr). apply guard_ok in Hg as [Hg ->]. simpl in Hg.
  apply bind_ok in Hr as (w5 & hash & Hh & Hr). apply map_err_ok in Hh.
  pose proof (Hash_verifies _ _ _ _ Hh) as Hver. apply (quiet_ok _ _ _ _ (Hash_db eq password)) in Hh.
  apply bind_ok in Hr as (w6 & upd & Hup & Hr). apply map_err_ok in Hup.
  apply UpdateUser_ok in Hup as (old & Hold & Hv & Hd6 & Hrow).
  apply bind_ok in Hr as (? & ? & Hg2 & Hr). apply guard_ok in Hg2 as [_ ->].
  apply map_err_ok, RevokeUser_ok in Hr as (_ & rev & ls & Hd7); [|apply sso_quiet].
  bool_props. destruct (wf_users _ Hwf _ _ Hu) as [(Hid & _) _].
  rewrite Hh, Hd4, Hd3 in Hold, Hd6. simpl in *. rewrite Hid in *.
  assert (old = u) as -> by congruence. unfold usable in Hus. bool_props.
  exists i, t, (Unix (clock w2)), u, hash. unfold reset_with. rewrite Hd7, Hd6, Hrow, Hid. simpl.
  split_and!; try done; [|by destruct (user_Email u)|by repeat f_equal| |].
  - by destruct (token_ConsumedAt t).
  - intros k x Hx Hxu. apply revoke_all_lookup in Hx as (y & _ & E & Hn). apply Hn. congruence.
  - unfold Unix, second. by apply Z.div_le_mono.
Qed.

(** C13. Redeeming a reset link replaces the password of the account the
    link was issued for and of no other: the link was stored, unused and
    unexpired, the account has an e-mail address and is not a guest, the
    new hash verifies the new password, the link is used up, and every
    session of the account is revoked. *)
Theorem reset_replaces_password tok password w w' :
  db_wf (db w) → PasswordReset.Redeem s tok password w = (w', Ok tt) →
  ∃ i t now u hash, reset_with tok (db w) (db w') i t now u hash ∧
    Unix (clock w) ≤ now ∧ Verify password hash = Ok true ∧ ValidatePassword password = Ok tt ∧
    ∀ id, id ≠ token_UserID t → users (db w') !! id = users (db w) !! id.
Proof.
  intros Hwf Hr. destruct (Redeem_ok _ _ _ _ Hwf Hr) as (i & t & now & u & hash & Hw & ? & ? & ?).
  exists i, t, now, u, hash. split_and!; try done.
  destruct Hw as (_ & _ & _ & _ & _ & _ & Hu & _). intros id Hid. rewrite Hu. by rewrite lookup_insert_ne.
Qed.
End redeem.

(** C14. A reset link works once: after it was redeemed, no sequence of use
    cases makes it redeemable again for the account it was issued for. *)
Theorem reset_link_single_use `{URLParser} cfg us tok password password' w w' i t :
  quiet_ports cfg → db_wf (db w) →
  reset_tokens (db w) !! tokenDigest tok = Some (i, t) →
  PasswordReset.Redeem (App.sessionService cfg) tok password w = (w', Ok tt) →
  ∀ later_, db later_ = after cfg us w' → is_Some (users (db later_) !! token_UserID t) →
  refused (PasswordReset.Redeem (App.sessionService cfg) tok password' later_).
Proof.
  intros Hports Hwf Ht Hr later_ Hlater Huser.
  pose proof (Redeem_reset_steps true cfg Hports tok password w) as Hst. rewrite Hr in Hst. simpl in Hst.
  unfold on_db in Hst. pose proof (steps_wf _ _ _ Hst Hwf) as Hwf'.
  apply (Redeem_ok (App.sessionService cfg) (ssoRevoker_quiet cfg Hports)) in Hr; [|done].
  destruct Hr as (i1 & t1 & now & u & h & (Ht1 & _ & _ & _ & _ & _ & _ & Hrt & _) & _). simplify_eq.
  pose proof (served cfg Hports us w') as Hs2. rewrite <- Hlater in Hs2.
  pose proof (steps_evolve _ _ _ Hs2 Hwf') as He. pose proof (steps_wf _ _ _ Hs2 Hwf') as Hwf2.
  unfold refused. destruct (PasswordReset.Redeem _ tok password' later_) as [w3 [[]|e]] eqn:E; [|by eexists].
  exfalso. apply (Redeem_ok (App.sessionService cfg) (ssoRevoker_quiet cfg Hports)) in E; [|done].
  destruct E as (i2 & t2 & now2 & u2 & h2 & (Ht2 & Hn2 & _) & _).
  assert (Hrow : reset_tokens (db w') !! tokenDigest tok = Some (i, with_ConsumedAt (Some now) t)).
  { rewrite Hrt. apply lookup_insert_eq. }
  destruct (ev_reset _ _ He _ _ Hrow) as [(id & [= <-] & Hg)|(a & Ha & Hl)].
  - simpl in Hg. destruct Huser. congruence.
  - rewrite Ha in Ht2. simplify_eq. destruct Hl as [[= -> ->]|[? _]]; done.
Qed.

Lemma confirm_tok tok a (w w' : World) : lift (normalizeConfirmationToken tok) w = (w', Ok a) → a = tok ∧ w' = w.
Proof. unfold lift, normalizeConfirmationToken. intros. repeat case_match; by simplify_eq. Qed.

(** A confirmation link confirms the account it was issued for, once: the
    link was stored, unused and unexpired, the account has an e-mail address
    and is not a guest, only its confirmation time and revision change, and
    the link is used up. *)
Theorem confirmation_confirms_account tok w w' :
  db_wf (db w) → Confirmation.Confirm tok w = (w', Ok tt) →
  ∃ i t now u,
    email_tokens (db w) !! tokenDigest tok = Some (i, t) ∧ token_ConsumedAt t = None ∧ now < token_ExpiresAt t ∧
    users (db w) !! token_UserID t = Some u ∧ user_IsGuest u = false ∧ user_Email u ≠ None ∧
    users (db w') = <[token_UserID t := mkUser (user_ID u) (user_Email u) (user_PasswordHash u) (user_Username u)
      (user_DisplayName u) false (user_IsAdmin u) (user_Theme u) (user_Locale u) (user_CreatedAt u)
      (Some now) (user_Version u + 1)]> (users (db w)) ∧
    email_tokens (db w') = <[tokenDigest tok := (i, with_ConsumedAt (Some now) t)]> (email_tokens (db w)) ∧
    sessions (db w') = sessions (db w) ∧
    ∀ w2, db w2 = db w' → refused (Confirmation.Confirm tok w2).
Proof.
  intros Hwf Hr. unfold Confirmation.Confirm in Hr.
  apply bind_ok in Hr as (w1 & token & Htok & Hr). apply confirm_tok in Htok as [-> ->].
  apply bind_ok in Hr as (w2 & now & Hnow & Hr). apply unix_now_ok in Hnow as (Hd2 & _ & _).
  apply bind_ok in Hr as (w3 & c & Hc & Hr). apply map_err_ok in Hc.
  apply ConsumeEmailConfirmationToken_ok in Hc as (i & t & Ht & Hus & _ & -> & Hd3). rewrite Hd2 in *.
  apply bind_ok in Hr as (? & ? & Hg & Hr). apply guard_ok in Hg as [_ ->].
  apply bind_ok in Hr as (w4 & u & Hf & Hr). apply map_err_ok in Hf.
  apply FindUserByID_ok in Hf as (Hd4 & Hu & _). rewrite Hd3 in Hu. simpl in Hu.
  apply bind_ok in Hr as (? & ? & Hg & Hr). apply guard_ok in Hg as [Hg ->]. simpl in Hg.
  apply bind_ok in Hr as (w6 & upd & Hup & Hr). apply map_err_ok in Hup.
  apply UpdateUser_ok in Hup as (old & Hold & Hv & Hd6 & Hrow). apply guard_ok in Hr as [_ ->].
  bool_props. destruct (wf_users _ Hwf _ _ Hu) as [(Hid & _) _].
  rewrite Hd4, Hd3 in Hold, Hd6. simpl in *. rewrite Hid in *.
  assert (old = u) as -> by congruence. unfold usable in Hus. bool_props.
  exists i, t, now, u. rewrite Hd6, Hrow, Hid. simpl. split_and!; try done.
  - by destruct (token_ConsumedAt t).
  - by destruct (user_Email u).
  - repeat f_equal; done.
  - intros v Hdv. unfold refused. destruct (Confirmation.Confirm tok v) as [v' [[]|e]] eqn:E; [|by eexists]. exfalso.
    unfold Confirmation.Confirm in E.
    apply bind_ok in E as (v1 & token & Htok & E). apply confirm_tok in Htok as [-> ->].
    apply bind_ok in E as (v2 & now2 & Hnow & E). apply unix_now_ok in Hnow as (Hd & _ & _).
    apply bind_ok in E as (v3 & c & Hc & E). apply map_err_ok in Hc.
    apply ConsumeEmailConfirmationToken_ok in Hc as (i2 & t2 & Ht2 & Hus2 & _).
    rewrite Hd, Hdv in Ht2. simpl in Ht2. rewrite lookup_insert_eq in Ht2. by simplify_eq.
Qed.
End links.

(** ** Witnesses *)

Definition demo_sessions : SessionService := App.sessionService demo_cfg.
Lemma demo_revoker : quiet_revoker (sso_RevokeUser demo_sessions).
Proof. exact (ssoRevoker_quiet demo_cfg demo_quiet). Qed.

Lemma created_session_accepted_until_expiry_witness :
  ∃ w x, Create demo_sessions 2 site = (w, Ok x) ∧
    snd (Lookup (session_ID x) (world_of (db w))) = Ok x ∧
    session_ExpiresAt x = session_CreatedAt x + 3600.
Proof.
  run (Create demo_sessions 2) from site as x E Er.
  destruct (created_session_accepted_until_expiry demo_sessions 2 site _ x E) as (_ & Hc & Hex & Hl & Hst & _).
  rewrite (Hl (world_of _) None); [|by rewrite world_of_db|done].
  rewrite Hex. vm_compute in Er. injection Er as <-. split; evaluates.
Defined.

Lemma sign_in_authenticates_witness :
  ∃ w r, SignIn.SignIn (App.signInBase demo_cfg) (mkSignInInput "Bob" "battery staple") site = (w, Ok r) ∧
    ∃ id u, users (db site) !! id = Some u ∧ session_UserID (result_Session r) = id ∧ user_Username u = Some "bob".
Proof.
  run (SignIn.SignIn (App.signInBase demo_cfg) (mkSignInInput "Bob" "battery staple")) from site as r E Er.
  destruct (sign_in_authenticates (App.signInBase demo_cfg) (λ i w, eq_refl) _ site _ r site_wf E)
    as (id & u & hash & Hu & Hn & _ & _ & _ & _ & _ & Hs & _).
  exists id, u. split_and!; [done|done|exact Hn].
Defined.

Lemma sign_in_failures_look_alike_witness :
  SignIn.SignIn (App.signInBase demo_cfg) (mkSignInInput "Bob" "wrong password") site = (site, Err ErrInvalidCredentials) ∧
  SignIn.SignIn (App.signInBase demo_cfg) (mkSignInInput "nobody" "wrong password") site = (site, Err ErrInvalidCredentials).
Proof.
  assert (Hno : map_Forall (λ _ u, user_PasswordHash u ≠ Some "demo$wrong password") (users (db site))).
  { apply (bool_decide_unpack _). evaluates. }
  split; [apply (sign_in_failures_look_alike (App.signInBase demo_cfg) (mkSignInInput "Bob" "wrong password") site eq_refl site_wf)
         |apply (sign_in_failures_look_alike (App.signInBase demo_cfg) (mkSignInInput "nobody" "wrong password") site eq_refl site_wf)];
    intros id u hash Hu _ _ Hh [= Hv]; apply (Hno _ _ Hu); rewrite Hh; f_equal; by apply String.eqb_eq.
Defined.

Lemma reset_replaces_password_witness :
  ∃ w r, PasswordReset.Redeem demo_sessions sid "a new password" site = (w, Ok r) ∧
    users (db w) !! 1 = users (db site) !! 1.
Proof.
  run (PasswordReset.Redeem demo_sessions sid "a new password") from site as [] E Er.
  destruct (reset_replaces_password demo_sessions demo_revoker sid "a new password" site _ site_wf E)
    as (i & t & now & u & hash & Hr & _ & _ & _ & Ho).
  apply Ho. destruct Hr as (Ht & _). vm_compute in Ht. by injection Ht as <- <-.
Defined.

Lemma reset_link_single_use_witness :
  ∃ w r, PasswordReset.Redeem demo_sessions sid "a new password" site = (w, Ok r) ∧
    refused (PasswordReset.Redeem demo_sessions sid "another password"
               (world_of (after demo_cfg [DoRequestReset "bob@example.org"] w))).
Proof.
  run (PasswordReset.Redeem demo_sessions sid "a new password") from site as [] E Er.
  eapply (reset_link_single_use demo_cfg [DoRequestReset "bob@example.org"] sid "a new password" "another password"
    site _ _ _ demo_quiet site_wf); [evaluates|exact E|by rewrite world_of_db|].
  eexists. evaluates.
Defined.

Lemma confirmation_confirms_account_witness :
  ∃ w r, Confirmation.Confirm sid site = (w, Ok r) ∧ sessions (db w) = sessions (db site).
Proof.
  run (Confirmation.Confirm sid) from site as [] E Er.
  by destruct (confirmation_confirms_account sid site _ site_wf E) as (? & ? & ? & ? & _ & _ & _ & _ & _ & _ & _ & _ & Hs & _).
Defined.
