(* ===== verification/GroupProps.v ===== *)
(** * Group collaboration

    What a successful group operation required and did. *)
From S2P Require Export AccountProps WebGroups.
Import UserRepository GroupRepository GuestClaimCodeRepository.

Section lookups.
Context `{Postgres}.

Lemma scanMembership_ok m m' : scanMembership m = Ok m' → m' = m.
Proof. unfold scanMembership. repeat case_match; by intros; simplify_eq. Qed.
Lemma scanGroup_ok g g' : scanGroup g = Ok g' → g' = g.
Proof. unfold scanGroup. repeat case_match; by intros; simplify_eq. Qed.

Lemma FindMembership_ok g u w w' m :
  FindMembership g u w = (w', Ok m) → db w' = db w ∧ group_members (db w) !! (g, u) = Some m.
Proof.
  unfold FindMembership. intros Hf. case_match; [done|]. inv_db. unfold lift in *. simplify_eq.
  match goal with H : scanMembership _ = _ |- _ => apply scanMembership_ok in H as -> end.
  unfold select_member in *. by case_match; simplify_eq.
Qed.
Lemma FindMembership_db g u w : db (fst (FindMembership g u w)) = db w.
Proof.
  symmetry. change (on_db eq w (fst (FindMembership g u w))). revert w.
  change (preserves (on_db eq) (FindMembership g u)). unfold FindMembership. preserves_tac.
Qed.
Lemma FindMembership_not_found g u w w' e :
  0 < g → 0 < u → FindMembership g u w = (w', Err e) → errors_Is e ErrMembershipNotFound = true →
  group_members (db w) !! (g, u) = None.
Proof.
  unfold FindMembership. intros ?? Hf He. case_match; [bool_props; lia|].
  unfold map_err, bind in Hf. destruct (query (select_member g u) w) as [w1 [m|e1]] eqn:Eq.
  - unfold lift in Hf. destruct (scanMembership m) eqn:Es; simplify_eq.
    unfold scanMembership in Es. repeat case_match; simplify_eq; done.
  - simplify_eq. assert (errors_Is e1 ErrNoRows = true) as Hn.
    { unfold query, statement, next_fault, select_member in Eq. simpl in Eq.
      destruct (match faults w with f :: _ => f | [] => None end) as [f|];
        destruct (group_members (db w) !! (g, u)); simplify_eq; try done;
        unfold fault_error in He; by destruct (fault_cause f). }
    apply query_NoRows in Eq; [|done]. unfold select_member in Eq. by case_match; simplify_eq.
Qed.
Lemma actorIsGlobalAdmin_ok u w w' b :
  Groups.actorIsGlobalAdmin u w = (w', Ok b) →
  db w' = db w ∧ ∃ a, users (db w) !! u = Some a ∧ b = is_administrator a.
Proof.
  unfold Groups.actorIsGlobalAdmin. intros Ha. inv_ok.
  match goal with H : FindUserByID _ _ = _ |- _ => apply FindUserByID_ok in H as (? & ? & _) end. eauto.
Qed.

Lemma findGroup_ok sql w w' g :
  findGroup (query sql) w = (w', Ok g) → db w' = db w ∧ sql (db w) = Ok g.
Proof.
  unfold findGroup. intros Hf. inv_db. unfold lift in *. simplify_eq.
  match goal with H : scanGroup _ = _ |- _ => apply scanGroup_ok in H as -> end. done.
Qed.
Lemma FindGroupByID_ok id w w' g :
  FindGroupByID id w = (w', Ok g) → db w' = db w ∧ groups (db w) !! id = Some g.
Proof.
  unfold FindGroupByID. intros Hf. case_match; [done|]. apply findGroup_ok in Hf as [? Hs].
  by destruct (groups (db w) !! id); simplify_eq.
Qed.
Lemma FindGroupByInviteCode_ok c w w' g :
  FindGroupByInviteCode c w = (w', Ok g) →
  db w' = db w ∧ ∃ id, groups (db w) !! id = Some g ∧ group_InviteCode g = c.
Proof.
  unfold FindGroupByInviteCode. intros Hf. case_match; [done|]. apply findGroup_ok in Hf as [? Hs].
  destruct (find_row _ _) as [[id g']|] eqn:E; simplify_eq. apply find_row_Some in E as [? Hc].
  bool_props. eauto.
Qed.

(** A refused duplicate wrote nothing. *)
Lemma CreateMembership_exists m w w' e :
  CreateMembership m w = (w', Err e) → errors_Is e ErrMembershipExists = true → db w' = db w.
Proof.
  unfold CreateMembership, map_err, bind. intros Hc He.
  destruct (statement _ w) as [w1 [row|e1]] eqn:Es.
  - unfold lift in Hc. destruct (scanMembership row) as [|e2] eqn:E; simplify_eq.
    unfold scanMembership in E. repeat case_match; simplify_eq; done.
  - simplify_eq. unfold statement, next_fault in Es. simpl in Es.
    destruct (match faults w with f :: _ => f | [] => None end) as [f|];
      destruct (insert_member _ _ _ _ _ (db w)) as [[]|]; simplify_eq; try done;
      unfold fault_error in He; by destruct (fault_cause f).
Qed.

(** The group [g] is joined with [code]. *)
Definition invites (d : DB) (g : Z) (code : string) : Prop :=
  ∃ group, groups d !! g = Some group ∧ group_InviteCode group = code.
Definition membership (d : DB) (g userID : Z) : option GroupMembership := group_members d !! (g, userID).

(** Who may administer a group: its administrators and the site's. *)
Definition may_administer (userID groupID : Z) (d : DB) : Prop :=
  (∃ m, group_members d !! (groupID, userID) = Some m ∧ member_Role m = GroupRoleAdmin) ∨
  (∃ a, users d !! userID = Some a ∧ is_administrator a = true).

Lemma requireAdmin_ok u g w w' b :
  Groups.requireAdmin u g w = (w', Ok b) → db w' = db w ∧ may_administer u g (db w).
Proof.
  unfold Groups.requireAdmin. intros Hr. apply bind_ok in Hr as (w1 & r & Hf & Hr). apply attempt_ok in Hf.
  pose proof (FindMembership_db g u w) as Hd. rewrite Hf in Hd. simpl in Hd.
  assert (Hadm : ∀ v v' b', (let! administrator := Groups.actorIsGlobalAdmin u in
    guard (negb administrator) ErrNotGroupAdmin ;;; ret true) v = (v', Ok b') → db v = db w →
    db v' = db w ∧ may_administer u g (db w)).
  { intros v v' b' Ha Hv. inv_ok.
    match goal with H : Groups.actorIsGlobalAdmin _ _ = _ |- _ => apply actorIsGlobalAdmin_ok in H as (? & a & Ha & ->) end.
    bool_props. rewrite Hv in *. split; [congruence|]. right. eauto. }
  destruct r as [m|e].
  - destruct (String.eqb (member_Role m) GroupRoleAdmin) eqn:Er; [|by eapply Hadm].
    apply ret_ok in Hr as [<- ->]. split; [done|]. left. apply FindMembership_ok in Hf as [_ Hm].
    bool_props. eauto.
  - apply bind_ok in Hr as (v & ? & Hg & Hr). apply guard_ok in Hg as [_ ->]. by eapply Hadm.
Qed.
End lookups.

Section groups.
Context `{Unicode, Postgres} (auditor : AuditRecorder).

(** C18. Only a group's administrators and the site's administrators change a
    group: renaming it, rotating its invite code, changing a role or removing
    a member succeeds for nobody else. *)
Theorem group_changes_need_an_administrator actor g w :
  (∀ v name w' r, Groups.Rename auditor actor g v name w = (w', Ok r) → may_administer actor g (db w)) ∧
  (∀ w' r, Groups.RotateInvite auditor actor g w = (w', Ok r) → may_administer actor g (db w)) ∧
  (∀ u v role w' r, Groups.ChangeRole auditor actor g u v role w = (w', Ok r) → may_administer actor g (db w)) ∧
  (∀ u v w' r, Groups.RemoveMember auditor actor g u v w = (w', Ok r) → may_administer actor g (db w)).
Proof.
  split_and!; intros *; unfold Groups.Rename, Groups.RotateInvite, Groups.ChangeRole, Groups.RemoveMember; intros Hr.
  all: repeat match type of Hr with
    | bind (Groups.requireAdmin _ _) _ _ = _ =>
      apply bind_ok in Hr as (? & ? & Ha & _); apply requireAdmin_ok in Ha as [_ Ha]; exact Ha
    | bind (guard _ _) _ _ = _ => apply bind_ok in Hr as (? & ? & Hg & Hr); apply guard_ok in Hg as [_ ->]
    | bind (lift _) _ _ = _ => apply bind_ok in Hr as (? & ? & Hg & Hr); injection Hg as <- _
    end.
Qed.

(** A code lets its bearer into the group it belongs to and no further:
    joining returns the membership the account already has, whatever its
    role, or adds one as an ordinary member and changes nothing else. *)
Theorem join_grants_membership userID code w w' m :
  db_wf (db w) → Groups.Join userID code w = (w', Ok m) →
  ∃ g, invites (db w) g (ToUpper (TrimSpace code)) ∧
    ((membership (db w) g userID = Some m ∧ db w' = db w) ∨
     (membership (db w) g userID = None ∧
      member_GroupID m = g ∧ member_UserID m = userID ∧ member_Role m = GroupRoleMember ∧
      db w' = set_group_members (<[(g, userID) := m]> (group_members (db w))) (members_seq (db w) + 1) (db w))).
Proof.
  unfold Groups.Join, membership. intros Hwf Hj.
  apply bind_ok in Hj as (? & ? & Hg & Hj). apply guard_ok in Hg as [_ ->].
  apply bind_ok in Hj as (? & ? & Hg & Hj). apply guard_ok in Hg as [_ ->].
  apply bind_ok in Hj as (w1 & group & Hf & Hj). apply map_err_ok, FindGroupByInviteCode_ok in Hf as (Hd1 & g & Hgr & Hc).
  destruct (wf_groups _ Hwf _ _ Hgr) as [(Hid & _) _]. exists g. split; [by exists group|]. rewrite <- Hid.
  apply bind_ok in Hj as (w2 & r & Hf & Hj). apply attempt_ok in Hf.
  pose proof (FindMembership_db (group_ID group) userID w1) as Hd2. rewrite Hf in Hd2. simpl in Hd2.
  destruct r as [e1|e1].
  { apply FindMembership_ok in Hf as [_ Hm]. apply ret_ok in Hj as [<- <-]. left. split; congruence. }
  apply bind_ok in Hj as (? & ? & Hg & Hj). apply guard_ok in Hg as [_ ->].
  apply bind_ok in Hj as (w3 & now & Hn & Hj). apply unix_now_ok in Hn as (Hd3 & _).
  apply bind_ok in Hj as (w4 & r & Hcr & Hj). apply attempt_ok in Hcr.
  destruct r as [e2|e2].
  - apply ret_ok in Hj as [<- <-]. right. unfold CreateMembership in Hcr. inv_db. unfold lift in *. simplify_eq.
    match goal with H : scanMembership _ = _ |- _ => apply scanMembership_ok in H as -> end.
    match goal with H : insert_member _ _ _ _ _ _ = _ |- _ => apply insert_member_ok in H as (Hdb & ? & ? & ? & _ & Hnone & _) end.
    simpl in *. rewrite Hd3, Hd2, Hd1 in *. done.
  - destruct (errors_Is e2 ErrMembershipExists) eqn:He; [|done].
    apply bind_ok in Hj as (w5 & r & Hf2 & Hj). apply attempt_ok in Hf2.
    destruct r as [e3|]; [|done]. apply ret_ok in Hj as [<- <-]. left.
    apply FindMembership_ok in Hf2 as [Hd5 Hm].
    apply CreateMembership_exists in Hcr; [|done]. simpl in *. split; congruence.
Qed.


Lemma UpdateGroup_ok g v w w' row :
  UpdateGroup g v w = (w', Ok row) →
  ∃ old, groups (db w) !! group_ID g = Some old ∧
    row = mkGroup (group_ID old) (group_Name g) (group_NameNorm g) (group_InviteCode g)
        (group_CreatedBy old) (group_CreatedAt old) (v + 1) ∧
    db w' = set_groups (<[group_ID g := row]> (groups (db w))) (groups_seq (db w)) (db w).
Proof.
  unfold UpdateGroup. intros Hu. apply bind_ok in Hu as (w1 & r & Hr & Hu). apply attempt_ok in Hr.
  destruct r as [upd|e].
  - apply ret_ok in Hu as [-> ->]. unfold findGroup in Hr. inv_db. unfold lift in *. simplify_eq.
    match goal with H : scanGroup _ = _ |- _ => apply scanGroup_ok in H as -> end.
    match goal with H : update_group _ _ _ = _ |- _ => apply update_group_ok in H as (old & ? & ? & ? & _ & _ & ->) end.
    eauto.
  - case_match; [done|]. unfold GroupRepository.classifyMissingWrite in Hu. case_match; [done|]. inv_ok. case_match; inv_ok.
Qed.

(** A code that was taken wrote nothing. *)
Lemma UpdateGroup_taken g v w w' e :
  UpdateGroup g v w = (w', Err e) → errors_Is e ErrGroupInviteTaken = true → db w' = db w.
Proof.
  intros Hu He. destruct (findGroup (statement (update_group g v)) w) as [w1 r] eqn:Ef.
  unfold UpdateGroup, bind at 1, attempt at 1 in Hu. rewrite Ef in Hu.
  destruct r as [row|e1]; [done|].
  assert (Hd : errors_Is e1 ErrGroupInviteTaken = true → db w1 = db w).
  { intros Ht. unfold findGroup, bind, map_err in Ef.
    destruct (statement (update_group g v) w) as [v1 [row|e2]] eqn:Es.
    - unfold lift, scanGroup in Ef. case_match; by simplify_eq.
    - simplify_eq. unfold statement, next_fault in Es. simpl in Es.
      destruct (match faults w with f :: _ => f | [] => None end) as [f|];
        destruct (update_group g v (db w)) as [[]|]; simplify_eq; try done;
        unfold fault_error in Ht; by destruct (fault_cause f). }
  destruct (errors_Is e1 ErrGroupNotFound) eqn:En; simpl in Hu; [|unfold throw in Hu; simplify_eq; by apply Hd].
  exfalso. unfold GroupRepository.classifyMissingWrite in Hu. destruct (group_ID g <=? 0).
  { unfold throw in Hu. by simplify_eq. }
  unfold bind, map_err in Hu. destruct (query _ w1) as [w2 [b|e3]] eqn:Eq.
  - by destruct b; unfold throw in Hu; simpl in Hu; simplify_eq.
  - simplify_eq. unfold query, statement, next_fault in Eq. simpl in Eq.
    destruct (match faults w1 with f :: _ => f | [] => None end) as [f|]; simplify_eq.
    unfold fault_error in He. by destruct (fault_cause f).
Qed.

Lemma recordSiteAdminAction_groups a g act det w w' r :
  Groups.recordSiteAdminAction App.auditService a g act det w = (w', r) → groups (db w') = groups (db w).
Proof.
  intros Hw.
  set (R := λ d d' : DB, groups d' = groups d).
  assert (PreOrder R) by (split; unfold R; [by intros ?|by intros ??? -> ->]).
  assert (Hs : preserves (on_db R) (Groups.recordSiteAdminAction App.auditService a g act det)).
  2: { pose proof (Hs w) as Hg. by rewrite Hw in Hg. }
  clear Hw.
  unfold Groups.recordSiteAdminAction, App.auditService, Record, AuditLogRepository.CreateAuditEntry,
    FindUserByID, UserRepository.find.
  preserves_tac. apply preserves_statement; [done|]. intros d d' [] Hi.
  unfold AuditLogRepository.insert_audit in Hi. unfold R. by case_match; simplify_eq.
Qed.

Lemma rotate_tries_ok n : ∀ actor g b group e w w' code,
  Groups.rotate_tries App.auditService n actor g b group e w = (w', Ok code) →
  ∃ old row, groups (db w) !! group_ID group = Some old ∧ group_ID row = group_ID old ∧ group_InviteCode row = code ∧
    groups (db w') = <[group_ID group := row]> (groups (db w)).
Proof.
  induction n as [|n IH]; intros actor g b group e w w' code Hr; [done|]. cbn [Groups.rotate_tries] in Hr.
  apply bind_ok in Hr as (w1 & c & Hc & Hr).
  assert (Hd1 : db w1 = db w).
  { assert (Hq : quiet Groups.newGroupInviteCode); [|exact (quiet_ok _ _ _ _ Hq Hc)].
    unfold Groups.newGroupInviteCode, quiet. generalize 12%nat. intros k. induction k; simpl; preserves_tac. }
  apply bind_ok in Hr as (w2 & r & Hu & Hr). apply attempt_ok in Hu. destruct r as [row|e2].
  - apply UpdateGroup_ok in Hu as (old & Hold & Hrow & Hdb). simpl in *. rewrite Hd1 in *.
    apply bind_ok in Hr as (w3 & u & Hrec & Hr). apply ret_ok in Hr as [<- <-].
    exists old, row. split_and!; [done|by rewrite Hrow|done|].
    assert (groups (db w3) = groups (db w2)) as ->; [|by rewrite Hdb].
    destruct b; [|by injection Hrec as ->].
    exact (recordSiteAdminAction_groups _ _ _ _ _ _ _ Hrec).
  - destruct (errors_Is e2 ErrGroupInviteTaken) eqn:Et; [|done].
    apply UpdateGroup_taken in Hu; [|done]. apply IH in Hr as (old & row & ? & ? & ? & ?). simpl in *.
    rewrite Hu, Hd1 in *. eauto 10.
Qed.

(** Rotating an invite code retires the old one: the group then has the
    code that was returned and every other group the code it had; and unless
    the two codes came out equal, joining with the old code fails as long as
    the groups stay as they are. *)
Theorem rotated_invite_is_refused actor g w w' code group userID w2 :
  db_wf (db w) → groups (db w) !! g = Some group →
  Groups.RotateInvite App.auditService actor g w = (w', Ok code) →
  invites (db w') g code ∧ (∀ k, k ≠ g → groups (db w') !! k = groups (db w) !! k) ∧
  (code ≠ group_InviteCode group → ToUpper (TrimSpace (group_InviteCode group)) = group_InviteCode group →
   groups (db w2) = groups (db w') → ∃ e, snd (Groups.Join userID (group_InviteCode group) w2) = Err e).
Proof.
  intros Hwf Hg Hr. unfold Groups.RotateInvite in Hr.
  apply bind_ok in Hr as (? & ? & Hgd & Hr). apply guard_ok in Hgd as [_ ->].
  apply bind_ok in Hr as (w1 & b & Ha & Hr). apply requireAdmin_ok in Ha as [Hd1 _].
  apply bind_ok in Hr as (w1' & group1 & Hf & Hr). apply map_err_ok, FindGroupByID_ok in Hf as [Hd1' Hg1].
  rewrite Hd1 in *. assert (group1 = group) as -> by congruence.
  assert (Hid : group_ID group = g) by by apply (wf_groups _ Hwf _ _ Hg).
  apply rotate_tries_ok in Hr as (old & row & Hold & Hrid & Hcode & Hgs). rewrite Hd1' in *. rewrite Hid in *.
  split; [exists row; rewrite Hgs; split; [apply lookup_insert_eq|done]|].
  split; [intros k Hk; rewrite Hgs; by rewrite lookup_insert_ne|]. intros Hne Hnorm Hw2.
  destruct (Groups.Join _ _ w2) as [w3 [m|e]] eqn:Hj; [|by eexists]. exfalso. unfold Groups.Join in Hj.
  rewrite Hnorm in Hj.
  apply bind_ok in Hj as (? & ? & Hgd & Hj). apply guard_ok in Hgd as [_ ->].
  apply bind_ok in Hj as (? & ? & Hgd & Hj). apply guard_ok in Hgd as [_ ->].
  apply bind_ok in Hj as (w4 & gr & Hf & _). apply map_err_ok, FindGroupByInviteCode_ok in Hf as (_ & k & Hk & Hc).
  rewrite Hw2, Hgs in Hk. apply lookup_insert_Some in Hk as [[<- <-]|[Hkg Hk]]; [congruence|].
  apply Hkg. symmetry. eapply (wf_invites _ Hwf); [exact Hk|exact Hg|done|by rewrite Hc].
Qed.

(** What [Detail] returns, from the tables. *)
Definition detail_of (userID groupID : Z) (group : Group) (viewer : User) (d : DB) : GroupDetail :=
  let mem := membership d groupID userID in
  let role := match mem with Some m => member_Role m | None => "" end in
  let isAdmin := is_administrator viewer || String.eqb role GroupRoleAdmin in
  mkDetail group (count_members groupID d) role (negb (is_nil mem)) isAdmin
    (if isAdmin then group_InviteCode group else "")
    (if isAdmin then roster groupID d else Groups.hide_email userID <$> roster groupID d).

Lemma Detail_ok userID groupID w w' d :
  Groups.Detail userID groupID w = (w', Ok d) →
  db w' = db w ∧ ∃ group viewer, groups (db w) !! groupID = Some group ∧ users (db w) !! userID = Some viewer ∧
    d = detail_of userID groupID group viewer (db w) ∧ (detail_IsMember d = true ∨ is_administrator viewer = true).
Proof.
  unfold Groups.Detail, detail_of, membership. intros Hd.
  apply bind_ok in Hd as (? & ? & Hgd & Hd). apply guard_ok in Hgd as [Hpos ->].
  apply bind_ok in Hd as (w1 & r & Hf & Hd). apply attempt_ok in Hf.
  pose proof (FindMembership_db groupID userID w) as Hd1. rewrite Hf in Hd1. simpl in Hd1.
  apply bind_ok in Hd as (w2 & mem & Hm & Hd).
  assert (w2 = w1 ∧ group_members (db w) !! (groupID, userID) = mem) as [-> Hmem].
  { destruct r as [m|e].
    - apply ret_ok in Hm as [<- <-]. split; [done|]. by apply FindMembership_ok in Hf as [_ ->].
    - destruct (errors_Is e ErrMembershipNotFound) eqn:En; [|done]. apply ret_ok in Hm as [<- <-]. split; [done|].
      bool_props. by apply FindMembership_not_found in Hf; [|lia|lia|]. }
  clear Hm Hf. apply bind_ok in Hd as (w3 & adm & Ha & Hd). apply actorIsGlobalAdmin_ok in Ha as (Hd3 & a & Hua & ->).
  apply bind_ok in Hd as (? & ? & Hgd & Hd). apply guard_ok in Hgd as [Hsee ->].
  apply bind_ok in Hd as (w4 & group & Hf & Hd). apply map_err_ok, FindGroupByID_ok in Hf as [Hd4 Hgr].
  apply bind_ok in Hd as (w5 & count & Hc & Hd). apply map_err_ok, map_err_ok, query_ok in Hc as [[= <-] Hd5].
  apply bind_ok in Hd as (w6 & ms & Hl & Hd). apply map_err_ok, map_err_ok, query_ok in Hl as [[= <-] Hd6].
  apply ret_ok in Hd as [<- <-]. db_eqs. split; [done|]. exists group, a. rewrite Hmem. split_and!; try done.
  destruct mem; [by left|]. simpl in *. right. by destruct (is_administrator a).
Qed.

(** The same tables but for the invite code of one group. *)
Definition with_code (groupID : Z) (code : string) (d : DB) : DB :=
  set_groups (alter (with_InviteCode code) groupID (groups d)) (groups_seq d) d.

Lemma detail_of_code userID groupID group viewer code d :
  detail_IsAdmin (detail_of userID groupID group viewer d) = false →
  detail_of userID groupID (with_InviteCode code group) viewer (with_code groupID code d) =
    mkDetail (with_InviteCode code group) (detail_MemberCount (detail_of userID groupID group viewer d))
      (detail_ViewerRole (detail_of userID groupID group viewer d)) (detail_IsMember (detail_of userID groupID group viewer d))
      false "" (detail_Members (detail_of userID groupID group viewer d)).
Proof. unfold detail_of, membership. simpl. by intros ->. Qed.

Section page.
Context `{MailParser, Crypto, PasswordHashing, URLParser, FloatParser, ReferenceParser, Templates} (site : Site).

(** What the page of a group is made of. *)
Lemma renderGroupDetail_fields r language user d d2 form alerts status :
  group_ID (detail_Group d2) = group_ID (detail_Group d) → group_Name (detail_Group d2) = group_Name (detail_Group d) →
  group_Version (detail_Group d2) = group_Version (detail_Group d) → detail_MemberCount d2 = detail_MemberCount d →
  detail_IsMember d2 = detail_IsMember d → detail_IsAdmin d2 = detail_IsAdmin d →
  detail_InviteCode d2 = detail_InviteCode d → detail_Members d2 = detail_Members d →
  WebGroups.renderGroupDetail site r language user d2 form alerts status =
  WebGroups.renderGroupDetail site r language user d form alerts status.
Proof.
  intros E1 E2 E3 E4 E5 E6 E7 E8. unfold WebGroups.renderGroupDetail, WebGroups.groupDetailView.
  by rewrite E1, E2, E3, E4, E5, E6, E7, E8.
Qed.

(** C19. A group shows itself only to members and site administrators; an
    administrator gets the invite code and the whole roster.  The detail of an
    ordinary member has the code left out and every other address hidden; the
    [Group] value inside it is the stored row, code included, but nothing of
    the code reaches the page: the page of an ordinary member is the same
    whatever the code is. *)
Theorem detail_hides_from_members userID groupID w w' d :
  Groups.Detail userID groupID w = (w', Ok d) →
  db w' = db w ∧ groups (db w) !! groupID = Some (detail_Group d) ∧
  (detail_IsMember d = true ↔ is_Some (membership (db w) groupID userID)) ∧
  (detail_IsAdmin d = true ↔ may_administer userID groupID (db w)) ∧
  (detail_IsMember d = true ∨ detail_IsAdmin d = true) ∧
  (detail_IsAdmin d = true → detail_InviteCode d = group_InviteCode (detail_Group d) ∧
     detail_Members d = roster groupID (db w)) ∧
  (detail_IsAdmin d = false → detail_InviteCode d = "" ∧
     Forall (λ m, roster_UserID m ≠ userID → roster_Email m = None) (detail_Members d) ∧
     ∀ code w2 w2' d2, db w2 = with_code groupID code (db w) → Groups.Detail userID groupID w2 = (w2', Ok d2) →
       ∀ r language user form alerts status,
         WebGroups.renderGroupDetail site r language user d2 form alerts status =
         WebGroups.renderGroupDetail site r language user d form alerts status).
Proof.
  intros Hd. apply Detail_ok in Hd as (Hdb & group & viewer & Hg & Hv & -> & Hsee). split_and!; [exact Hdb|exact Hg|..].
  - unfold detail_of. simpl. destruct (membership _ _ _); simpl; split; intros Hs; try done; by apply is_Some_None in Hs.
  - unfold detail_of, may_administer, membership. simpl. rewrite orb_true_iff. split.
    + intros [?|Hr]; [right; eauto|]. destruct (group_members _ !! _) as [m|]; [|done]. bool_props. left. eauto.
    + intros [(m & -> & ->)|(a' & Ha & ?)]; [by right|left; congruence].
  - unfold detail_of in *. simpl in *. destruct Hsee as [?|Hs]; [by left|]. right. by rewrite Hs.
  - unfold detail_of. simpl. by intros ->.
  - intros Hn. split_and!.
    + unfold detail_of in *. simpl in *. by rewrite Hn.
    + unfold detail_of in *. simpl in *. rewrite Hn. apply Forall_fmap, Forall_true. intros m Hne.
      unfold Groups.hide_email in *. simpl in *. by destruct (roster_UserID m =? userID) eqn:E; [bool_props|].
    + intros code w2 w2' d2 Hw2 Hd2 *. apply Detail_ok in Hd2 as (_ & group2 & viewer2 & Hg2 & Hv2 & -> & _).
      rewrite Hw2 in *. simpl in Hg2, Hv2. rewrite lookup_alter_eq, Hg in Hg2.
      injection Hg2 as <-. rewrite Hv in Hv2. injection Hv2 as <-.
      rewrite detail_of_code by done. apply renderGroupDetail_fields; try reflexivity; [by rewrite Hn|].
      unfold detail_of in *. simpl in *. by rewrite Hn.
Qed.
End page.
End groups.

(** ** Witnesses *)

Lemma join_grants_membership_witness :
  ∃ w m, Groups.Join 1 "abcdefghjkmn" site = (w, Ok m) ∧
    ∃ g, invites (db site) g (ToUpper (TrimSpace "abcdefghjkmn")).
Proof.
  run (Groups.Join 1 "abcdefghjkmn") from site as m E Er.
  destruct (join_grants_membership 1 "abcdefghjkmn" site _ m site_wf E) as (g & Hg & _). eauto.
Defined.

Lemma rotated_invite_is_refused_witness :
  ∃ w code, Groups.RotateInvite App.auditService 1 1 site = (w, Ok code) ∧
    ∃ e, snd (Groups.Join 1 "ABCDEFGHJKMN" w) = Err e.
Proof.
  run (Groups.RotateInvite App.auditService 1 1) from site as code E Er.
  eapply (rotated_invite_is_refused 1 1 site _ code
    (mkGroup 1 "Chess" "chess" "ABCDEFGHJKMN" (Some 2) 1000 0) 1 _ site_wf ltac:(evaluates) E); [|evaluates|done].
  vm_compute in Er. by injection Er as <-.
Defined.

Lemma group_changes_need_an_administrator_witness :
  ∃ w code, Groups.RotateInvite App.auditService 2 1 site = (w, Ok code) ∧ may_administer 2 1 (db site).
Proof.
  run (Groups.RotateInvite App.auditService 2 1) from site as code E Er.
  exact (proj1 (proj2 (group_changes_need_an_administrator App.auditService 2 1 site)) _ _ E).
Defined.
