(* ===== verification/GuestProps.v ===== *)
(** * Guest accounts

    What upgrading, redeeming and cleaning up guest accounts do to the
    database. *)
From S2P Require Export GroupProps.
Import UserRepository Sessions SessionRepository GuestClaimCodeRepository.

Section stores.
Context `{Postgres}.

Lemma RevokeGuestClaimCode_ok u t w w' :
  0 < u → RevokeGuestClaimCode u t w = (w', Ok tt) →
  db w' = set_claim_codes ((λ row, if active_for u row then (row.1, revoke_claim t row.2) else row) <$> claim_codes (db w))
            (claims_seq (db w)) (db w).
Proof.
  unfold RevokeGuestClaimCode. intros Hu Hr. case_match; [bool_props; lia|].
  apply map_err_ok, statement_ok in Hr. unfold revoke_active in Hr. by simplify_eq.
Qed.

Lemma FindGuestClaimCodeByCode_ok code w w' c :
  FindGuestClaimCodeByCode code w = (w', Ok c) →
  db w' = db w ∧ ∃ i, claim_codes (db w) !! code = Some (i, c) ∧ claim_RevokedAt c = None.
Proof.
  unfold FindGuestClaimCodeByCode. intros Hf. case_match; [done|].
  apply map_err_ok, bind_ok in Hf as (w1 & c1 & Hq & Hl). apply query_ok in Hq as [Hs Hd].
  assert (c1 = c ∧ w1 = w') as [-> ->].
  { unfold lift, scanGuestClaimCode in Hl. case_match; by simplify_eq. }
  split; [done|]. unfold select_code in Hs.
  destruct (claim_codes (db w) !! code) as [[i c2]|]; [|done]. simpl in Hs.
  destruct (claim_RevokedAt c2) eqn:E; simplify_eq/=. eauto.
Qed.

Lemma MarkGuestClaimCodeUsed_ok code t w w' :
  MarkGuestClaimCodeUsed code t w = (w', Ok tt) →
  ∃ i c, claim_codes (db w) !! code = Some (i, c) ∧
    db w' = set_claim_codes (<[code := (i, mark_used t c)]> (claim_codes (db w))) (claims_seq (db w)) (db w).
Proof.
  unfold MarkGuestClaimCodeUsed. intros Hm. case_match; [done|].
  apply bind_ok in Hm as (w1 & n & Hs & Hg). apply map_err_ok, statement_ok in Hs. apply guard_ok in Hg as [Hn ->].
  unfold update_used in Hs. destruct (claim_codes (db w) !! code) as [[i c]|] eqn:E; simpl in Hs.
  - case_match; simplify_eq; eauto.
  - by simplify_eq.
Qed.
End stores.

(** ** Cleanup *)
Section cleanup.
Context `{Postgres}.

(** A guest cleanup removes: old, and in no group. *)
Definition forgotten (cutoff : Z) (d : DB) (kv : Z * User) : bool :=
  abandoned cutoff kv.2 && negb (has_membership kv.1 d).

Lemma candidates_forgotten cutoff d :
  length (filter (λ id, has_membership id d = false) (candidates cutoff d)) =
  length (filter (λ kv, forgotten cutoff d kv = true) (map_to_list (users d))).
Proof.
  unfold candidates, forgotten. generalize (map_to_list (users d)). intros l.
  induction l as [|kv l IH]; [done|]. rewrite !filter_cons.
  destruct (abandoned cutoff kv.2); simpl; [|exact IH].
  rewrite filter_cons. destruct (has_membership kv.1 d); simpl; [exact IH|by f_equal].
Qed.

Lemma has_membership_same u d d' : group_members d' = group_members d → has_membership u d' = has_membership u d.
Proof. unfold has_membership. by intros ->. Qed.

Lemma memberless_cascade u d : has_membership u d = false → group_members (cascade_user u d) = group_members d.
Proof.
  unfold has_membership. intros Hm. simpl. apply map_filter_id. intros [g v] m Hl. simpl. intros ->.
  apply Z.ltb_ge in Hm. apply (Zle_not_lt _ _ Hm), count_rows_pos. exists (g, u), m. split; [done|]. simpl. lia.
Qed.

Lemma delete_candidates_ok ids : ∀ n w w' n',
  delete_candidates ids n w = (w', Ok n') → NoDup ids → (∀ id, id ∈ ids → is_Some (users (db w) !! id)) →
  group_members (db w') = group_members (db w) ∧
  users (db w') = filter (λ kv, ¬ (kv.1 ∈ ids ∧ has_membership kv.1 (db w) = false)) (users (db w)) ∧
  n' = n + Z.of_nat (length (filter (λ id, has_membership id (db w) = false) ids)).
Proof.
  induction ids as [|id ids IH]; intros n w w' n' Hr Hnd Hin; cbn [delete_candidates] in Hr.
  { apply ret_ok in Hr as [<- <-]. split_and!; [done| |simpl; lia].
    symmetry. apply map_filter_id. intros ??? [Hx _]. by apply not_elem_of_nil in Hx. }
  apply NoDup_cons in Hnd as [Hni Hnd].
  apply bind_ok in Hr as (w1 & b & Hq & Hr). apply map_err_ok, query_ok in Hq as [[= <-] Hd1].
  destruct (has_membership id (db w)) eqn:Hm.
  - apply IH in Hr as (Hg & Hu & Hn); [|done|]; [|rewrite Hd1; intros; apply Hin; by constructor].
    rewrite Hd1 in *. split_and!; [done| |].
    + rewrite Hu. apply map_filter_ext. intros k v _. simpl. rewrite elem_of_cons.
      split; intros Hk [Hi Hf]; apply Hk; split; [by destruct Hi as [->|]; [congruence|]|done|by right|done].
    + rewrite Hn. rewrite filter_cons_False by (by rewrite Hm). done.
  - apply bind_ok in Hr as (w2 & a & Hs & Hr). apply map_err_ok, statement_ok in Hs. rewrite Hd1 in Hs.
    unfold delete_by_id in Hs. destruct (Hin id ltac:(by constructor)) as [v Hv]. rewrite Hv in Hs. injection Hs as Hd2 <-.
    assert (Hgm : group_members (db w2) = group_members (db w)) by (rewrite <- Hd2; by apply memberless_cascade).
    assert (Hus : users (db w2) = delete id (users (db w))) by (by rewrite <- Hd2).
    apply IH in Hr as (Hg & Hu & Hn); [|done|].
    2: { intros k Hk. rewrite Hus, lookup_delete_ne by (by intros <-). apply Hin. by constructor. }
    split_and!; [congruence| |].
    + rewrite Hu, Hus. apply map_eq. intros k. apply option_eq. intros x.
      rewrite !map_lookup_filter_Some, lookup_delete_Some. simpl. rewrite (has_membership_same k _ _ Hgm), elem_of_cons.
      split; [intros [[Hne Hx] Hk]|intros [Hx Hk]]; split_and!; try done.
      * intros [[->|Hi] Hf]; [done|by apply Hk].
      * intros <-. apply Hk. by split; [left|].
      * intros [Hi Hf]. apply Hk. by split; [right|].
    + rewrite Hn, filter_cons_True by done. simpl length. rewrite Nat2Z.inj_succ.
      assert (filter (λ x, has_membership x (db w2) = false) ids = filter (λ x, has_membership x (db w) = false) ids) as ->.
      { apply list_filter_iff. intros x. by rewrite (has_membership_same _ _ _ Hgm). }
      lia.
Qed.

Lemma candidates_In cutoff d id : id ∈ candidates cutoff d ↔ ∃ u, users d !! id = Some u ∧ abandoned cutoff u = true.
Proof.
  unfold candidates. rewrite list_elem_of_fmap. split.
  - intros ([k u] & -> & Hin). apply list_elem_of_filter in Hin as [Ha Hin]. apply elem_of_map_to_list in Hin. eauto.
  - intros (u & Hu & Ha). exists (id, u). split; [done|]. apply list_elem_of_filter. by rewrite elem_of_map_to_list.
Qed.

Lemma candidates_NoDup cutoff d : NoDup (candidates cutoff d).
Proof.
  unfold candidates. apply NoDup_fmap_fst; [|apply NoDup_filter, NoDup_map_to_list].
  intros x y1 y2 [_ H1]%list_elem_of_filter [_ H2]%list_elem_of_filter.
  apply elem_of_map_to_list in H1, H2. congruence.
Qed.

(** Cleanup deletes the accounts it says: exactly the guests created before
    the cutoff that are in no group, and it reports their number.  No registered
    account and no membership is touched, and the cutoff is the retention period
    before the time of the call. *)
Theorem cleanup_deletes_forgotten retention w w' n :
  Guests.Cleanup retention w = (w', Ok n) →
  ∃ cutoff, 0 < cutoff ∧ Unix (clock w - retention) ≤ cutoff ∧
    users (db w') = filter (λ kv, forgotten cutoff (db w) kv = false) (users (db w)) ∧
    n = count_rows (forgotten cutoff (db w)) (users (db w)) ∧
    group_members (db w') = group_members (db w).
Proof.
  unfold Guests.Cleanup. intros Hc.
  apply bind_ok in Hc as (? & ? & Hg & Hc). apply guard_ok in Hg as [_ ->].
  apply bind_ok in Hc as (w1 & now & Hn & Hc).
  assert (db w1 = db w ∧ clock w ≤ now) as [Hd1 Hle].
  { unfold time_Now in Hn. injection Hn as <- <-. split; [done|]. destruct (ticks w); lia. }
  apply bind_ok in Hc as (? & ? & Hg & Hc). apply guard_ok in Hg as [Hpos ->].
  apply map_err_ok in Hc. unfold DeleteEmptyAbandonedGuests in Hc.
  apply transaction_ok in Hc as (w2 & w3 & Hd2 & Hc & Hd3).
  apply bind_ok in Hc as (w4 & ids & Hq & Hc). apply map_err_ok, query_ok in Hq as [[= <-] Hd4].
  apply delete_candidates_ok in Hc as (Hm & Hu & Hcount);
    [|apply candidates_NoDup|rewrite Hd4; intros id (u & Hx & _)%candidates_In; eauto].
  rewrite Hd4, Hd2, Hd1 in *. exists (Unix (now - retention)). split_and!.
  - bool_props. lia.
  - apply Z.div_le_mono; unfold second; lia.
  - rewrite Hd3, Hu. apply map_filter_ext. intros k u Hk. simpl. unfold forgotten. simpl.
    rewrite andb_false_iff, negb_false_iff, candidates_In. split.
    + intros Hx. destruct (abandoned _ u) eqn:Ea; [right|by left].
      destruct (has_membership k (db w)) eqn:E; [done|]. exfalso. apply Hx. eauto.
    + intros Ho [(u' & Hu' & Ha) Hf]. destruct Ho; congruence.
  - rewrite Hcount. unfold count_rows. by rewrite candidates_forgotten.
  - congruence.
Qed.
End cleanup.

(** ** Upgrading and redeeming *)
Section sessions.
Context `{Unicode, MailParser, Postgres, Crypto, PasswordHashing, !PasswordHashingLaws}.
Context (s : SessionService) (Hsso : quiet_revoker (sso_RevokeUser s)).

(** Every session an account had is revoked. *)
Definition signed_out (userID : Z) (d d' : DB) : Prop :=
  ∀ k x, sessions d !! k = Some x → session_UserID x = userID →
    ∃ y, sessions d' !! k = Some y ∧ session_UserID y = userID ∧ session_RevokedAt y ≠ None.

Lemma revoke_all_signed_out userID now t k x :
  t !! k = Some x → session_UserID x = userID →
  ∃ y, revoke_all userID now t !! k = Some y ∧ session_UserID y = userID ∧ session_RevokedAt y ≠ None.
Proof.
  intros Hx Hu. unfold revoke_all. rewrite lookup_fmap, Hx. simpl. eexists. split; [done|].
  rewrite Hu, Z.eqb_refl. split; [done|]. simpl. by destruct (session_RevokedAt x).
Qed.

Lemma rejectUpgradeEmail_quiet email : quiet (Guests.rejectUpgradeEmail email).
Proof. unfold Guests.rejectUpgradeEmail, FindUserByEmail, UserRepository.find, quiet. preserves_tac. Qed.

(** Upgrading keeps the account: it stays under its identifier with its
    name, settings and memberships, gets the given address and a hash of the
    given password and stops being a guest, in one revision; its transfer codes
    and its earlier sessions are revoked, and the session handed out is its
    own.  It succeeds for guests only. *)
Theorem upgrade_keeps_account userID input w w' r :
  db_wf (db w) → Guests.Upgrade s userID input w = (w', Ok r) →
  ∃ g email hash,
    users (db w) !! userID = Some g ∧ user_IsGuest g = true ∧
    NormalizeEmail (upgrade_Email input) = Ok email ∧ Verify (upgrade_Password input) hash = Ok true ∧
    users (db w') = <[userID := mkUser userID (Some email) (Some hash) (user_Username g) (user_DisplayName g) false
      (user_IsAdmin g) (user_Theme g) (user_Locale g) (user_CreatedAt g) None (user_Version g + 1)]> (users (db w)) ∧
    group_members (db w') = group_members (db w) ∧ groups (db w') = groups (db w) ∧
    signed_out userID (db w) (db w') ∧
    (∀ code i c, claim_codes (db w') !! code = Some (i, c) → claim_UserID c = userID → claim_RevokedAt c ≠ None) ∧
    session_UserID (upgraded_Session r) = userID ∧ session_RevokedAt (upgraded_Session r) = None.
Proof.
  intros Hwf Hr. unfold Guests.Upgrade in Hr.
  apply bind_ok in Hr as (? & ? & Hg & Hr). apply guard_ok in Hg as [Hpos ->].
  apply bind_ok in Hr as (w1 & email & He & Hr). apply map_err_ok in He. unfold lift in He. injection He as <- He.
  apply bind_ok in Hr as (? & ? & Hg & Hr). apply guard_ok in Hg as [_ ->].
  apply bind_ok in Hr as (w2 & [] & Hv & Hr). apply map_err_ok in Hv. unfold lift in Hv. injection Hv as <- _.
  apply bind_ok in Hr as (w3 & g & Hf & Hr). apply map_err_ok, FindUserByID_ok in Hf as (Hd3 & Hu & _).
  apply bind_ok in Hr as (? & ? & Hg & Hr). apply guard_ok in Hg as [Hguest ->].
  apply bind_ok in Hr as (w4 & [] & Hrej & Hr).
  apply quiet_ok in Hrej as Hd4; [|apply rejectUpgradeEmail_quiet].
  apply bind_ok in Hr as (w5 & hash & Hh & Hr). apply map_err_ok in Hh.
  pose proof (Hash_verifies _ _ _ _ Hh) as Hver. apply (quiet_ok _ _ _ _ (Hash_db eq _)) in Hh.
  apply bind_ok in Hr as (w6 & now & Hn & Hr). apply unix_now_ok in Hn as (Hd6 & _ & _).
  apply bind_ok in Hr as (w7 & [] & Hc & Hr). apply map_err_ok, RevokeGuestClaimCode_ok in Hc; [|bool_props; lia].
  apply bind_ok in Hr as (w8 & upd & Hup & Hr). apply map_err_ok, UpdateUser_ok in Hup as (old & Hold & Hvv & Hd8 & Hrow).
  apply bind_ok in Hr as (? & ? & Hg & Hr). apply guard_ok in Hg as [_ ->].
  apply bind_ok in Hr as (w9 & [] & Hrv & Hr).
  apply map_err_ok, RevokeUser_ok in Hrv as (_ & t & ls & Hd9); [|intros f u Hfu; unfold quiet_revoker in Hsso; rewrite Hfu in Hsso; apply Hsso].
  apply bind_ok in Hr as (w10 & x & Hx & Hr). apply map_err_ok in Hx. apply ret_ok in Hr as [<- <-].
  apply create_ok in Hx as (_ & Hxu & Hxr & _ & _ & _ & _ & _ & _ & _ & _ & Hnone & Hd10).
  destruct (wf_users _ Hwf _ _ Hu) as [(Hid & _) _]. bool_props.
  rewrite Hc, Hd6, Hh, Hd4, Hd3 in *. simpl in *. rewrite Hid in *.
  assert (old = g) as -> by congruence. rewrite Hd10, Hd9, Hd8, Hrow. simpl in *.
  exists g, email, hash. split_and!; try done.
  - rewrite Hid. by repeat f_equal.
  - intros k y Hy Hyu. destruct (revoke_all_signed_out userID t _ _ _ Hy Hyu) as (z & Hz & ? & ?).
    exists z. split; [|done]. simpl. rewrite lookup_insert_ne; [done|]. intros <-. rewrite Hd9, Hd8 in Hnone. simpl in Hnone. congruence.
  - intros code i c Hl Hcu. rewrite lookup_fmap in Hl. destruct (claim_codes (db w) !! code) as [[j c']|]; [|done].
    simpl in Hl. destruct (active_for userID (j, c')) eqn:Ha; injection Hl as <- <-; [done|].
    unfold active_for in Ha. simpl in Ha. rewrite Hcu, Z.eqb_refl in Ha. simpl in Ha. by destruct (claim_RevokedAt c').
Qed.

(** A transfer code signs its bearer in as the guest it was issued to, and
    as nobody else: the code is stored and not revoked, the account still is a
    guest without address and password, one session is added for it, and of
    the rest only the code's time of use changes. *)
Theorem redeemed_code_opens_its_guest code w w' r :
  Guests.Redeem s code w = (w', Ok r) →
  ∃ norm i c g, normalizeGuestClaimCode code = Ok norm ∧
    claim_codes (db w) !! norm = Some (i, c) ∧ claim_RevokedAt c = None ∧
    users (db w) !! claim_UserID c = Some g ∧ user_IsGuest g = true ∧ user_Email g = None ∧ user_PasswordHash g = None ∧
    let x := guest_Session r in
    session_UserID x = claim_UserID c ∧ session_RevokedAt x = None ∧
    sessions (db w) !! sessionDigest (session_ID x) = None ∧
    ∃ now, db w' =
      set_claim_codes (<[norm := (i, mark_used now c)]> (claim_codes (db w))) (claims_seq (db w))
        (set_sessions (<[sessionDigest (session_ID x) := with_SessionID (sessionDigest (session_ID x)) x]> (sessions (db w)))
           (db w)).
Proof.
  unfold Guests.Redeem. intros Hr.
  apply bind_ok in Hr as (w1 & norm & Hn & Hr). unfold lift in Hn. injection Hn as <- Hn.
  apply bind_ok in Hr as (w2 & c & Hf & Hr). apply map_err_ok, FindGuestClaimCodeByCode_ok in Hf as (Hd2 & i & Hc & Hrev).
  apply bind_ok in Hr as (? & ? & Hg & Hr). apply guard_ok in Hg as [_ ->].
  apply bind_ok in Hr as (w3 & g & Hf & Hr). apply map_err_ok, FindUserByID_ok in Hf as (Hd3 & Hu & _).
  apply bind_ok in Hr as (? & ? & Hg & Hr). apply guard_ok in Hg as [Hguest ->].
  apply bind_ok in Hr as (w4 & x & Hx & Hr). apply map_err_ok in Hx.
  apply create_ok in Hx as (_ & Hxu & Hxr & _ & _ & _ & _ & _ & _ & _ & _ & Hnone & Hd4).
  apply bind_ok in Hr as (w5 & now & Hn5 & Hr). apply unix_now_ok in Hn5 as (Hd5 & _ & _).
  apply bind_ok in Hr as (w6 & m & Hm & Hr). apply attempt_ok in Hm. destruct m as [[]|e].
  2: { apply bind_ok in Hr as (? & b & _ & Hr); destruct b; by apply throw_ok in Hr. }
  apply ret_ok in Hr as [<- <-]. apply MarkGuestClaimCodeUsed_ok in Hm as (j & c' & Hc' & Hd6).
  bool_props. rewrite Hd5, Hd4 in *. rewrite Hd3, Hd2 in *. simpl in *.
  assert (j = i ∧ c' = c) as [-> ->] by (split; congruence).
  exists norm, i, c, g. split_and!; try done.
  - by destruct (user_Email g).
  - by destruct (user_PasswordHash g).
  - congruence.
  - by exists now.
Qed.
End sessions.

(** ** Witnesses *)

Lemma cleanup_deletes_forgotten_witness :
  ∃ w n, Guests.Cleanup (500 * second) site = (w, Ok n) ∧
    ∃ cutoff, n = count_rows (forgotten cutoff (db site)) (users (db site)).
Proof.
  run (Guests.Cleanup (500 * second)) from site as n E Er.
  destruct (cleanup_deletes_forgotten (500 * second) site _ n E) as (c & _ & _ & _ & Hn & _). eauto.
Defined.

Lemma upgrade_keeps_account_witness :
  ∃ w r, Guests.Upgrade demo_sessions 3 (mkUpgradeInput "v@example.org" "a new password") site = (w, Ok r) ∧
    session_UserID (upgraded_Session r) = 3 ∧ groups (db w) = groups (db site).
Proof.
  run (Guests.Upgrade demo_sessions 3 (mkUpgradeInput "v@example.org" "a new password")) from site as r E Er.
  destruct (upgrade_keeps_account demo_sessions demo_revoker 3 _ site _ r site_wf E)
    as (g & e & h & _ & _ & _ & _ & _ & _ & Hg & _ & _ & Hx & _). split; [exact Hx|exact Hg].
Defined.

Lemma redeemed_code_opens_its_guest_witness :
  ∃ w r, Guests.Redeem demo_sessions "hjkmnpqrst" (fst (Guests.Issue 3 site)) = (w, Ok r) ∧
    ∃ norm, normalizeGuestClaimCode "hjkmnpqrst" = Ok norm.
Proof.
  run (Guests.Redeem demo_sessions "hjkmnpqrst") from (fst (Guests.Issue 3 site)) as r E Er.
  destruct (redeemed_code_opens_its_guest demo_sessions "hjkmnpqrst" _ _ r E) as (norm & _ & _ & _ & Hn & _). eauto.
Defined.
