(* ===== verification/OAuthProps.v ===== *)
(** * Signing in and linking with an external provider *)
From S2P Require Export GuestProps.
Import UserRepository Sessions SessionRepository OAuthStateRepository OAuthIdentityRepository.

Section stores.
Context `{Unicode, Crypto}.

(** The identity a provider's subject is stored under. *)
Definition linked_to (d : DB) (provider subject : string) (k : Z) (i : OAuthIdentity) : Prop :=
  oauth_identities d !! k = Some i ∧
  is_subject (canonicalProvider provider) subject i = true.

Lemma FindOAuthIdentity_ok p sub w w' i :
  FindOAuthIdentity p sub w = (w', Ok i) → db w' = db w ∧ ∃ k, linked_to (db w) p sub k i.
Proof.
  unfold FindOAuthIdentity. intros Hf. case_match; [done|].
  apply map_err_ok, bind_ok in Hf as (w1 & i1 & Hq & Hl). apply query_ok in Hq as [Hs Hd].
  assert (i1 = i ∧ w1 = w') as [-> ->].
  { unfold lift, scanOAuthIdentity in Hl. case_match; by simplify_eq. }
  split; [done|]. destruct (find_row _ _) as [[k j]|] eqn:E; simplify_eq. exists k. by apply find_row_Some in E.
Qed.


Lemma FindOAuthIdentity_quiet p sub : quiet (FindOAuthIdentity p sub).
Proof. unfold FindOAuthIdentity, quiet. preserves_tac. Qed.

Lemma FindOAuthIdentity_not_found p sub w w' e :
  canonicalProvider p ≠ "" → sub ≠ "" →
  FindOAuthIdentity p sub w = (w', Err e) → errors_Is e ErrOAuthIdentityNotFound = true →
  ∀ k i, ¬ linked_to (db w) p sub k i.
Proof.
  unfold FindOAuthIdentity. intros Hp Hs Hf He k i [Hk Hi]. case_match; [bool_props|].
  { match goal with H : (_ || _)%bool = true |- _ => apply orb_true_iff in H as [?|?] end; bool_props; done. }
  unfold map_err, bind in Hf.
  destruct (query _ w) as [w1 [j|e1]] eqn:Eq.
  - unfold lift in Hf. destruct (scanOAuthIdentity j) eqn:Es; simplify_eq.
    unfold scanOAuthIdentity in Es. case_match; simplify_eq; done.
  - simplify_eq. unfold query, statement, next_fault in Eq. simpl in Eq.
    destruct (find_row _ _) as [[k' j]|] eqn:Er.
    + destruct (match faults w with f :: _ => f | [] => None end) as [f|]; simplify_eq.
      unfold fault_error in He. by destruct (fault_cause f).
    + rewrite find_row_None in Er. by rewrite (Er _ _ Hk) in Hi.
Qed.

Lemma CreateOAuthIdentity_ok i w w' :
  CreateOAuthIdentity i w = (w', Ok tt) →
  let row := mkIdentity (identities_seq (db w) + 1) (identity_UserID i) (canonicalProvider (identity_Provider i))
               (identity_Subject i) (identity_Email i) (identity_CreatedAt i) in
  db w' = set_oauth_identities (<[identities_seq (db w) + 1 := row]> (oauth_identities (db w))) (identities_seq (db w) + 1) (db w)
  ∧ ∀ k j, oauth_identities (db w) !! k = Some j → is_subject (identity_Provider row) (identity_Subject row) j = false.
Proof.
  unfold CreateOAuthIdentity. intros Hc. repeat (case_match; [done|]).
  apply map_err_ok, statement_ok in Hc. unfold insert_identity in Hc.
  destruct (first_violation _) as [[]|] eqn:E; [|done]. injection Hc as Hd. split; [done|].
  apply first_violation_ok in E. rewrite Forall_forall in E.
  destruct (find_row (is_subject _ _) _) as [[k j]|] eqn:Er.
  - exfalso. specialize (E (Err (PgError "23505" "oauth_identities_provider_subject_unique"))).
    discriminate E. right. left.
  - by apply find_row_None.
Qed.
End stores.

(** ** Callbacks *)
Section callbacks.
Context `{Unicode, MailParser, Postgres, Crypto, URLParser} (s : OAuthSignInService).

(** The callback used up the state [rawState], issued for [provider] and [action]. *)
Definition consumed_state (rawState provider action : string) (userID now : Z) (d d' : DB) : Prop :=
  ∃ row, oauth_states d !! tokenDigest rawState = Some (row, None) ∧
    state_Provider row = provider ∧ state_Action row = action ∧ state_UserID row = userID ∧
    now < state_ExpiresAt row ∧
    d' = set_oauth_states (<[tokenDigest rawState := (row, Some now)]> (oauth_states d)) d.

Lemma consumeCallbackState_ok p raw w w' stored name c now :
  OAuth.consumeCallbackState s p raw w = (w', Ok (stored, name, c, now)) →
  (∃ q, Providers.providerClient (oauth_providers s) p = Some (q, c) ∧ name = canonicalProviderName (provider_Name q)) ∧
  Unix (clock w) ≤ now ∧
  consumed_state raw name (state_Action stored) (state_UserID stored) now (db w) (db w').
Proof.
  unfold OAuth.consumeCallbackState. intros Hc.
  apply bind_ok in Hc as (w1 & st & Hn & Hc).
  assert (st = raw ∧ w1 = w) as [-> ->].
  { unfold lift, OAuth.normalizeOAuthState in Hn. repeat case_match; by simplify_eq. }
  destruct (Providers.providerClient _ p) as [[q c']|] eqn:E; [|done].
  apply bind_ok in Hc as (w2 & t & Ht & Hc). apply unix_now_ok in Ht as (Hd2 & -> & Hle).
  apply bind_ok in Hc as (w3 & x & Hx & Hc). apply map_err_ok, ConsumeOAuthState_ok in Hx as (row & Hrow & Hexp & -> & Hd3).
  apply bind_ok in Hc as (? & ? & Hg & Hc). apply guard_ok in Hg as [Hg ->]. apply ret_ok in Hc as [Heq <-].
  injection Heq as <- <- <- <-. bool_props. split; [by exists q|]. split; [unfold Unix, second; by apply Z.div_le_mono|].
  rewrite Hd2 in *. exists row. split_and!; done.
Qed.

(** A consumed state is not accepted again. *)
Lemma consumeCallbackState_once p raw row t w :
  oauth_states (db w) !! tokenDigest raw = Some (row, Some t) → ∃ e, snd (OAuth.consumeCallbackState s p raw w) = Err e.
Proof.
  intros Hrow. destruct (OAuth.consumeCallbackState s p raw w) as [w' [[[[st n] c] now]|e]] eqn:E; [|by eexists].
  apply consumeCallbackState_ok in E as (_ & _ & row' & Hrow' & _). congruence.
Qed.

Lemma CompleteCallback_once actor p code raw row t w :
  oauth_states (db w) !! tokenDigest raw = Some (row, Some t) → refused (OAuth.CompleteCallback s actor p code raw w).
Proof.
  intros Hrow. unfold refused, OAuth.CompleteCallback, bind at 1. destruct (guard _ _ w) as [w1 [u|e]] eqn:Eg; [|by eexists].
  apply guard_ok in Eg as [_ ->]. destruct (consumeCallbackState_once p raw row t w Hrow) as [e Hbad].
  unfold bind at 1. destruct (OAuth.consumeCallbackState s p raw w) as [w2 [?|?]]; [done|by eexists].
Qed.

Lemma linkProfile_states a name profile now w w' :
  OAuth.linkProfile a name profile now w = (w', Ok tt) → oauth_states (db w') = oauth_states (db w).
Proof.
  unfold OAuth.linkProfile. intros Hl.
  apply bind_ok in Hl as (w1 & r & Hf & Hl). apply attempt_ok in Hf.
  pose proof (quiet_ok _ _ _ _ (FindOAuthIdentity_quiet _ _) Hf) as Hd1. destruct r; [done|].
  apply bind_ok in Hl as (? & ? & Hg & Hl). apply guard_ok in Hg as [_ ->].
  apply bind_ok in Hl as (w2 & user & Hu & Hl). apply map_err_ok, FindUserByID_ok in Hu as (Hd2 & _).
  apply bind_ok in Hl as (? & ? & Hg & Hl). apply guard_ok in Hg as [_ ->].
  apply bind_ok in Hl as (w3 & email & He & Hl).
  assert (w3 = w2) as ->.
  { case_match; [by apply ret_ok in He as [_ ->]|]. apply bind_ok in He as (w4 & x & Hx & He).
    apply map_err_ok in Hx. unfold lift in Hx. destruct (NormalizeEmail _); [|done]. injection Hx as -> ->.
    apply bind_ok in He as (? & ? & Hg & He). apply guard_ok in Hg as [_ ->]. by apply ret_ok in He as [_ ->]. }
  apply bind_ok in Hl as (w4 & [] & Hc & Hl). apply map_err_ok, CreateOAuthIdentity_ok in Hc as [Hd4 _].
  assert (Hd5 : oauth_states (db w') = oauth_states (db w4)).
  { unfold OAuth.confirm_linked_email in Hl.
    destruct (user_Email user) as [ae|]; [|by apply ret_ok in Hl as [_ ->]].
    destruct (_ && is_nil _)%bool in Hl; [|by apply ret_ok in Hl as [_ ->]].
    apply bind_ok in Hl as (w5 & upd & Hup & Hl). apply guard_ok in Hl as [_ ->].
    by apply map_err_ok, UpdateUser_ok in Hup as (old & _ & _ & -> & _). }
  by rewrite Hd5, Hd4, Hd2, Hd1.
Qed.

Lemma FindUserByEmail_quiet email : quiet (FindUserByEmail email).
Proof. unfold FindUserByEmail, UserRepository.find, quiet. preserves_tac. Qed.

Lemma createOAuthAccount_ok name profile now w w' r :
  db_wf (db w) → OAuth.createOAuthAccount s name profile now w = (w', Ok r) →
  let id := users_seq (db w) + 1 in
  ∃ email u, EmailVerified profile = true ∧ NormalizeEmail (profile_Email profile) = Ok email ∧
    (∀ k v, users (db w) !! k = Some v → user_Email v ≠ Some email) ∧
    users (db w') = <[id := u]> (users (db w)) ∧ user_Email u = Some email ∧ user_EmailVerifiedAt u = Some now ∧
    user_PasswordHash u = None ∧ user_IsAdmin u = false ∧ user_IsGuest u = false ∧
    session_UserID (oauth_Session r) = id ∧
    ∃ k i, linked_to (db w') name (Subject profile) k i ∧ identity_UserID i = id.
Proof.
  intros Hwf Hc. unfold OAuth.createOAuthAccount in Hc.
  apply bind_ok in Hc as (? & ? & Hg & Hc). apply guard_ok in Hg as [Hv ->].
  apply bind_ok in Hc as (? & ? & Hg & Hc). apply guard_ok in Hg as [_ ->].
  apply bind_ok in Hc as (w1 & email & He & Hc). apply map_err_ok in He. unfold lift in He. injection He as <- He.
  apply bind_ok in Hc as (? & ? & Hg & Hc). apply guard_ok in Hg as [_ ->].
  apply bind_ok in Hc as (w2 & ex & Hf & Hc). apply attempt_ok, quiet_ok in Hf as Hd2; [|apply FindUserByEmail_quiet].
  apply bind_ok in Hc as (w3 & [] & Hg & Hc).
  assert (w3 = w2) as -> by (destruct ex; by apply guard_ok in Hg as [_ ->]).
  apply bind_ok in Hc as (w4 & dn & Hn & Hc). apply map_err_ok in Hn. unfold lift in Hn. injection Hn as <- _.
  apply bind_ok in Hc as (w5 & u & Hu & Hc). apply map_err_ok, CreateUser_ok in Hu as (Hd5 & Huniq & Hrow).
  apply bind_ok in Hc as (? & ? & Hg2 & Hc). apply guard_ok in Hg2 as [_ ->].
  apply bind_ok in Hc as (w6 & [] & Hi & Hc). apply map_err_ok, CreateOAuthIdentity_ok in Hi as [Hd6 _].
  apply bind_ok in Hc as (w7 & x & Hx & Hc). apply map_err_ok in Hx. apply ret_ok in Hc as [<- <-].
  apply create_ok in Hx as (_ & Hxu & _ & _ & _ & _ & _ & _ & _ & _ & _ & _ & Hd7).
  rewrite Hd2 in *. exists email, u. subst u. simpl in *.
  split_and!; try done.
  - by apply negb_false_iff in Hv.
  - intros k v Hk Hev. apply users_unique_ok in Huniq as [Hq _].
    pose proof (Hq _ _ _ Hk eq_refl Hev) as Hid. simpl in Hid.
    destruct (wf_users _ Hwf _ _ Hk) as [(Hkid & Hkb & _) _]. lia.
  - by rewrite Hd7, Hd6, Hd5.
  - rewrite Hd7, Hd6. simpl. eexists _, (mkIdentity _ _ _ _ _ _). split; [|reflexivity].
    split; [apply lookup_insert_eq|]. unfold is_subject. simpl. by rewrite !String.eqb_refl.
Qed.

(** C25. Signing in with a provider never takes over an account by its e-mail
    address: the session is for the account the provider's subject is linked
    to, or, when it is linked to none, for a new account with the verified
    address of the profile, which no account had, and the new link.  No other
    account changes. *)
Theorem provider_sign_in_never_merges name profile now w w' r :
  db_wf (db w) → canonicalProvider name ≠ "" → Subject profile ≠ "" →
  OAuth.signInWithProfile s name profile now w = (w', Ok r) →
  (∃ k i, linked_to (db w) name (Subject profile) k i ∧ session_UserID (oauth_Session r) = identity_UserID i ∧
     users (db w') = users (db w) ∧ oauth_identities (db w') = oauth_identities (db w)) ∨
  ((∀ k i, ¬ linked_to (db w) name (Subject profile) k i) ∧
   let id := users_seq (db w) + 1 in
   ∃ email u, EmailVerified profile = true ∧ NormalizeEmail (profile_Email profile) = Ok email ∧
     (∀ k v, users (db w) !! k = Some v → user_Email v ≠ Some email) ∧
     users (db w') = <[id := u]> (users (db w)) ∧ user_Email u = Some email ∧ user_EmailVerifiedAt u = Some now ∧
     user_PasswordHash u = None ∧ user_IsAdmin u = false ∧ user_IsGuest u = false ∧
     session_UserID (oauth_Session r) = id ∧
     ∃ k i, linked_to (db w') name (Subject profile) k i ∧ identity_UserID i = id).
Proof.
  intros Hwf Hp Hsub Hc. unfold OAuth.signInWithProfile in Hc.
  apply bind_ok in Hc as (w1 & found & Hf & Hc). apply attempt_ok in Hf.
  pose proof (quiet_ok _ _ _ _ (FindOAuthIdentity_quiet _ _) Hf) as Hd1. destruct found as [i|e].
  - left. apply FindOAuthIdentity_ok in Hf as (_ & k & Hk). exists k, i. split; [done|].
    unfold OAuth.signInExistingIdentity in Hc.
    apply bind_ok in Hc as (? & ? & Hg & Hc). apply guard_ok in Hg as [_ ->].
    apply bind_ok in Hc as (w2 & u & Hu & Hc). apply map_err_ok, FindUserByID_ok in Hu as (Hd2 & _ & _).
    apply bind_ok in Hc as (? & ? & Hg & Hc). apply guard_ok in Hg as [Hg ->].
    apply bind_ok in Hc as (w3 & x & Hx & Hc). apply map_err_ok in Hx. apply ret_ok in Hc as [<- <-].
    apply create_ok in Hx as (_ & Hxu & _ & _ & _ & _ & _ & _ & _ & _ & _ & _ & Hd3).
    bool_props. rewrite Hd3, Hd2, Hd1. simpl. split_and!; [congruence|done|done].
  - destruct (errors_Is e ErrOAuthIdentityNotFound) eqn:En; [|done]. right.
    split; [by eapply FindOAuthIdentity_not_found|]. rewrite <- Hd1 in *. by apply createOAuthAccount_ok.
Qed.

(** Unlinking removes the one identity asked for, which was the caller's,
    and never the last way to sign in: a password or another identity is left. *)
Theorem unlink_keeps_a_sign_in_method userID identityID w w' :
  db_wf (db w) → OAuth.Unlink userID identityID w = (w', Ok tt) →
  ∃ u i, users (db w) !! userID = Some u ∧ oauth_identities (db w) !! identityID = Some i ∧
    identity_UserID i = userID ∧
    db w' = set_oauth_identities (delete identityID (oauth_identities (db w))) (identities_seq (db w)) (db w) ∧
    (user_PasswordHash u ≠ None ∨
     ∃ k j, oauth_identities (db w') !! k = Some j ∧ identity_UserID j = userID).
Proof.
  intros Hwf Hu. unfold OAuth.Unlink in Hu.
  apply bind_ok in Hu as (? & ? & Hg & Hu). apply guard_ok in Hg as [_ ->].
  apply bind_ok in Hu as (w1 & u & Hf & Hu). apply map_err_ok, FindUserByID_ok in Hf as (Hd1 & Hfu & _).
  apply bind_ok in Hu as (w2 & is_ & Hl & Hu).
  assert (Hd2 : db w2 = db w1).
  { apply map_err_ok in Hl. refine (quiet_ok _ _ _ _ _ Hl). unfold ListOAuthIdentities, quiet. preserves_tac. }
  destruct (List.find _ is_) as [target|] eqn:Eq; [|done].
  apply List.find_some in Eq as [_ [Ht1%Z.eqb_eq _]%andb_true_iff]. subst identityID.
  apply bind_ok in Hu as (? & ? & Hg & Hu). apply guard_ok in Hg as [_ ->].
  apply map_err_ok in Hu. unfold DeleteOAuthIdentity in Hu. case_match; [done|].
  apply transaction_ok in Hu as (w3 & w4 & Hd3 & Hu & Hd4).
  apply bind_ok in Hu as (w5 & hp & Hq & Hu). apply map_err_ok, query_ok in Hq as [Hhp Hd5].
  apply bind_ok in Hu as (w6 & n & Hq & Hu). apply map_err_ok, query_ok in Hq as [[= <-] Hd6].
  apply bind_ok in Hu as (w7 & rows & Hs & Hu). apply map_err_ok, statement_ok in Hs.
  apply bind_ok in Hu as (? & ? & Hg & Hu). apply guard_ok in Hg as [Hrows ->]. apply guard_ok in Hu as [Hlast ->].
  rewrite Hd6, Hd5, Hd3, Hd2, Hd1, ?Hfu in *. injection Hhp as <-.
  unfold delete_identity in Hs. destruct (oauth_identities (db w) !! identity_ID target) as [i|] eqn:Ei; [|by injection Hs as _ <-].
  destruct (identity_UserID i =? userID) eqn:Eu; [|by injection Hs as _ <-].
  injection Hs as Hd7 <-. bool_props. exists u, i. rewrite Hd4, <- Hd7. split_and!; try done.
  apply andb_false_iff in Hlast as [Hp|Hc]; [left; by destruct (user_PasswordHash u)|right].
  bool_props. apply (count_rows_two _ _ (identity_ID target)) in Hc as (k & j & Hne & Hk & Hj).
  exists k, j. simpl in *. rewrite lookup_delete_ne by done. bool_props. done.
Qed.

End callbacks.

(** A used state stays used as long as the account it was issued to exists. *)
Lemma state_stays_used `{Unicode, Postgres, Crypto} del d d' k row t :
  steps del d d' → db_wf d → oauth_states d !! k = Some (row, Some t) →
  (0 < state_UserID row → is_Some (users d' !! state_UserID row)) →
  oauth_states d' !! k = Some (row, Some t).
Proof.
  intros Hs Hwf Hk Ho. destruct (ev_states _ _ (steps_evolve _ _ _ Hs Hwf) _ _ Hk) as [(id & Hid & Hg)|(a & Ha & Hl)].
  - unfold state_owner in Hid. simpl in Hid. case_match eqn:E; [|done]. simplify_eq. bool_props.
    destruct (Ho E). congruence.
  - destruct Hl as [->|[? _]]; done.
Qed.

(** ** The wired service *)
Section site.
Context `{Unicode, MailParser, Postgres, Crypto, PasswordHashing, URLParser, !PasswordHashingLaws} (cfg : Config).

Lemma after_nil w : db w = after cfg [] w.
Proof. reflexivity. Qed.

Lemma exchange_quiet c code v : quiet_client c → quiet (OAuth.exchangeOAuthProfile c code v).
Proof. intros [_ Hx]. unfold OAuth.exchangeOAuthProfile, quiet. preserves_tac. apply Hx. Qed.

(** C24. A callback is accepted once, and for whom it was started: it needs a
    stored state that was issued for the very provider it answers for, has not
    expired and was not used, and uses it up; a link completes only for the
    account that started it, a sign-in only for a state that was not issued to
    an account.  Whatever use cases follow, the same state is refused (for a
    link: as long as the account exists). *)
Theorem callback_needs_its_state actor provider code raw w w' result :
  quiet_ports cfg → db_wf (db w) →
  OAuth.CompleteCallback (App.oauth cfg) actor provider code raw w = (w', Ok result) →
  (∃ q c row now,
    Providers.providerClient (providers cfg) provider = Some (q, c) ∧
    oauth_states (db w) !! tokenDigest raw = Some (row, None) ∧
    state_Provider row = canonicalProviderName (provider_Name q) ∧
    Unix (clock w) ≤ now < state_ExpiresAt row ∧
    match result with
    | Linked u => u = actor ∧ 0 < actor ∧ state_Action row = oauthActionLink ∧ state_UserID row = actor
    | SignedIn _ => state_Action row = oauthActionSignIn ∧ state_UserID row = 0
    end ∧
    oauth_states (db w') !! tokenDigest raw = Some (row, Some now)) ∧
  ∀ us later_ actor' provider' code', db later_ = after cfg us w' →
    match result with Linked u => is_Some (users (db later_) !! u) | SignedIn _ => True end →
    refused (OAuth.CompleteCallback (App.oauth cfg) actor' provider' code' raw later_).
Proof.
  intros Hports Hwf Hc. unfold OAuth.CompleteCallback in Hc.
  apply bind_ok in Hc as (? & ? & Hg & Hc). apply guard_ok in Hg as [_ ->].
  apply bind_ok in Hc as (w1 & [[[stored name] c] now] & Hs & Hc).
  pose proof (consumeCallbackState_steps true cfg provider raw w) as Hst1.
  pose proof (consumeCallbackState_client cfg Hports _ _ _ _ _ _ _ _ Hs) as Hqc.
  rewrite Hs in Hst1. unfold on_db in Hst1. simpl in Hst1.
  apply consumeCallbackState_ok in Hs as ((q & Hq & ->) & Hle & row & Hrow & Hp & Ha & Hu & Hexp & Hd1).
  apply bind_ok in Hc as (? & ? & Hg & Hc). apply guard_ok in Hg as [Hg ->].
  apply bind_ok in Hc as (w2 & profile & He & Hc).
  pose proof (quiet_ok _ _ _ _ (exchange_quiet _ _ _ Hqc) He) as Hd2.
  assert (Hwf1 : db_wf (db w1)) by by eapply steps_wf.
  assert (Hrow1 : oauth_states (db w1) !! tokenDigest raw = Some (row, Some now)) by (rewrite Hd1; apply lookup_insert_eq).
  assert (Hlater : oauth_states (db w') !! tokenDigest raw = Some (row, Some now) → db_wf (db w') →
    ∀ us later_ actor' provider' code', db later_ = after cfg us w' →
    (0 < state_UserID row → is_Some (users (db later_) !! state_UserID row)) →
    refused (OAuth.CompleteCallback (App.oauth cfg) actor' provider' code' raw later_)).
  { intros Hrow' Hwf' us v a p cd Hv Ho. pose proof (served cfg Hports us w') as Hsv. rewrite <- Hv in Hsv.
    eapply CompleteCallback_once, (state_stays_used true (db w')); done. }
  rewrite <- Hd2 in Hrow1, Hwf1. rewrite <- Ha, <- Hu in Hg.
  destruct (String.eqb (state_Action row) oauthActionLink) eqn:E2; rewrite <- Ha, <- Hu, E2 in Hc.
  - apply String.eqb_eq in E2. rewrite E2 in Hg. simpl in Hg. bool_props.
    apply bind_ok in Hc as (w3 & [] & Hl & Hc). apply ret_ok in Hc as [<- <-].
    pose proof (linkProfile_steps true (state_UserID row) (canonicalProviderName (provider_Name q)) profile now w2) as Hst.
    rewrite Hl in Hst. unfold on_db in Hst. simpl in Hst. apply linkProfile_states in Hl. rewrite <- Hl in Hrow1.
    split; [exists q, c, row, now; split_and!; try done; lia|].
    intros us v a p cd Hv Ho. eapply Hlater; [done|by eapply steps_wf|done|done].
  - apply bind_ok in Hc as (w3 & r & Hl & Hc). apply ret_ok in Hc as [<- <-].
    pose proof (signInWithProfile_steps true cfg (canonicalProviderName (provider_Name q)) profile now w2) as Hst.
    rewrite Hl in Hst. unfold on_db in Hst. simpl in Hst.
    destruct (String.eqb (state_Action row) oauthActionSignIn) eqn:E1; [|done]. apply String.eqb_eq in E1. bool_props.
    assert (Hrow' : oauth_states (db w3) !! tokenDigest raw = Some (row, Some now)) by (eapply state_stays_used; [done..|lia]).
    split; [exists q, c, row, now; split_and!; done|].
    intros us v a p cd Hv _. eapply Hlater; [done|by eapply steps_wf|done|lia].
Qed.
End site.

(** ** Witnesses *)

Definition demo_oauth : OAuthSignInService := App.oauth demo_cfg.
Definition demo_state : string := "0700000000000000000000000000000000000000000000000000000000000000".

(** A sign-in with the provider has been started. *)
Definition started_site : World := fst (OAuth.Start (App.oauth demo_cfg) "acme" site).
Lemma started_wf : db_wf (db started_site).
Proof. exact (steps_wf true _ _ (Start_steps true demo_cfg demo_quiet "acme" site) site_wf). Qed.

Lemma callback_needs_its_state_witness :
  ∃ w r, OAuth.CompleteCallback (App.oauth demo_cfg) 0 "acme" "subject-1" demo_state started_site = (w, Ok r) ∧
    refused (OAuth.CompleteCallback (App.oauth demo_cfg) 0 "acme" "subject-2" demo_state w).
Proof.
  run (OAuth.CompleteCallback (App.oauth demo_cfg) 0 "acme" "subject-1" demo_state) from started_site as r E Er.
  destruct (callback_needs_its_state demo_cfg 0 "acme" "subject-1" demo_state started_site _ r demo_quiet started_wf E) as [_ Hr].
  apply (Hr []); [apply after_nil|].
  assert (Hsigned : match r with Linked _ => false | SignedIn _ => true end = true) by (destruct r; vm_compute in Er; congruence).
  destruct r; [discriminate Hsigned | exact I].
Defined.

Definition carol : OAuthProfile := mkProfile "subject-1" "carol@example.org" true "Carol".
Lemma provider_sign_in_never_merges_witness :
  ∃ w r, OAuth.signInWithProfile demo_oauth "acme" carol 2000 site = (w, Ok r) ∧
    ((∃ k i, linked_to (db site) "acme" (Subject carol) k i) ∨ session_UserID (oauth_Session r) = users_seq (db site) + 1).
Proof.
  run (OAuth.signInWithProfile demo_oauth "acme" carol 2000) from site as r E Er.
  destruct (provider_sign_in_never_merges demo_oauth "acme" carol 2000 site _ r site_wf ltac:(vm_compute; discriminate) ltac:(vm_compute; discriminate) E)
    as [(k & i & Hk & _)|(_ & e & u & _ & _ & _ & _ & _ & _ & _ & _ & _ & Hs & _)]; [left; eauto|by right].
Defined.

(** Bob has linked an identity. *)
Definition linked_site : World :=
  world_of (db (fst (CreateOAuthIdentity (mkIdentity 0 2 "acme" "bob-1" "" 1000) site))).
Lemma linked_site_wf : db_wf (db linked_site).
Proof.
  unfold linked_site. rewrite world_of_db.
  pose proof (CreateOAuthIdentity_steps true (mkIdentity 0 2 "acme" "bob-1" "" 1000) site) as Hs. unfold on_db in Hs.
  exact (steps_wf _ _ _ Hs site_wf).
Qed.

Lemma unlink_keeps_a_sign_in_method_witness :
  ∃ w r, OAuth.Unlink 2 1 linked_site = (w, Ok r) ∧
    ∃ u, users (db linked_site) !! 2 = Some u ∧
      (user_PasswordHash u ≠ None ∨ ∃ k j, oauth_identities (db w) !! k = Some j).
Proof.
  run (OAuth.Unlink 2 1) from linked_site as [] E Er.
  destruct (unlink_keeps_a_sign_in_method 2 1 linked_site _ linked_site_wf E) as (u & i & Hu & _ & _ & _ & Hm).
  exists u. split; [exact Hu|]. destruct Hm as [Hp|(k & j & Hk & _)]; [left; exact Hp|right; exists k, j; exact Hk].
Defined.
