(* ===== verification/SSOProps.v ===== *)
(** * Single sign-on, as client and as provider *)
From S2P Require Export OAuthProps.
Import UserRepository Sessions SessionRepository OAuthStateRepository OAuthIdentityRepository
  GuestClaimCodeRepository SSOGuestUpgradeRepository SSOLoginSessionRepository.

(** ** The local account of an issuer identity *)
Section account.
Context `{Unicode, MailParser, Postgres, Crypto}.

(** What single sign-on never changes of an account. *)
Definition credentials_kept (old new : User) : Prop :=
  user_ID new = user_ID old ∧ user_PasswordHash new = user_PasswordHash old ∧
  user_Username new = user_Username old ∧ user_IsGuest new = user_IsGuest old ∧
  user_IsAdmin new = user_IsAdmin old ∧ user_Theme new = user_Theme old ∧
  user_Locale new = user_Locale old ∧ user_CreatedAt new = user_CreatedAt old.
(** An address changes only to [email], the normalized one of the issuer. *)
Definition address_from (email : string) (old new : User) : Prop :=
  user_Email new = user_Email old ∨ (email ≠ "" ∧ user_Email new = Some email).
(** An address is verified because it was, or because the issuer says so. *)
Definition verification_earned (identity : SSOIdentity) (old new : User) : Prop :=
  user_EmailVerifiedAt new ≠ None →
  (user_Email new = user_Email old ∧ user_EmailVerifiedAt old ≠ None) ∨ sso_EmailVerified identity = true.

Lemma refreshed_fields user identity email now :
  credentials_kept user (SSOClient.refreshed user identity email now).1 ∧
  verification_earned identity user (SSOClient.refreshed user identity email now).1 ∧
  address_from email user (SSOClient.refreshed user identity email now).1.
Proof.
  unfold SSOClient.refreshed, verification_earned, credentials_kept, address_from.
  destruct (SSOClient.usable_name _) as [n|]; [destruct (negb (bool_decide _))|];
    destruct (negb (String.eqb email "") && negb _) eqn:E0; simpl;
    destruct (_ && sso_EmailVerified identity && _) eqn:E; simpl; split_and!; try done; auto;
    bool_props; auto.
Qed.

(** What an update from a freshly read row does to the row. *)
Lemma refresh_ok user identity email now w w' u :
  users (db w) !! user_ID user = Some user →
  SSOClient.refresh user identity email now w = (w', Ok u) →
  user_ID u = user_ID user ∧ oauth_identities (db w') = oauth_identities (db w) ∧
  (∀ id, id ≠ user_ID user → users (db w') !! id = users (db w) !! id) ∧
  ∃ new, users (db w') !! user_ID user = Some new ∧ credentials_kept user new ∧
    verification_earned identity user new ∧ address_from email user new.
Proof.
  intros Hu Hr. unfold SSOClient.refresh in Hr.
  destruct (refreshed_fields user identity email now) as (Hk & Hv & Hm).
  destruct (SSOClient.refreshed user identity email now) as [upd changed]. simpl in *.
  destruct changed; simpl in Hr.
  2: { apply ret_ok in Hr as [-> ->]. split_and!; [done..|]. exists u. split_and!; [done|done|by left|by left]. }
  apply bind_ok in Hr as (w1 & r & Ha & Hr). apply attempt_ok in Ha.
  assert (Hid : user_ID u = user_ID user).
  { destruct r as [saved|e]; apply ret_ok in Hr as [<- _]; [|done].
    apply UpdateUser_ok in Ha as (old & Ho & _ & _ & ->). simpl. destruct Hk as [E _]. rewrite E in Ho. by simplify_eq. }
  assert (w1 = w') as -> by (destruct r; by apply ret_ok in Hr as [_ ->]).
  pose proof (UpdateUser_effect upd (user_Version user) w) as He. rewrite Ha in He. simpl in He.
  pose proof Hk as [E _]. rewrite E in He.
  destruct He as [->|(old & row & Ho & _ & -> & Hrow)].
  - split_and!; [done..|]. exists user. split_and!; [done|by split_and!|by left|by left].
  - simplify_eq. simpl. split_and!; [done|done|by intros; rewrite lookup_insert_ne|].
    eexists. rewrite lookup_insert_eq. split; [done|]. split; [|split; [exact Hv|exact Hm]].
    destruct Hk as (? & ? & ? & ? & ? & ? & ? & ?). split_and!; done.
Qed.

Lemma linkable_account_ok identity email w w' r :
  SSOClient.linkable_account identity email w = (w', Ok r) →
  db w' = db w ∧
  match r with
  | Some u => email ≠ "" ∧ sso_EmailVerified identity = true ∧ user_EmailVerifiedAt u ≠ None ∧
              user_IsGuest u = false ∧ 0 < user_ID u ∧
              ∃ k n, NormalizeEmail email = Ok n ∧ users (db w) !! k = Some u ∧ user_Email u = Some n
  | None => True
  end.
Proof.
  unfold SSOClient.linkable_account. intros Hl. destruct (String.eqb email "") eqn:Ee.
  { by apply ret_ok in Hl as [<- <-]. }
  apply bind_ok in Hl as (w1 & found & Hf & Hl). apply attempt_ok in Hf.
  pose proof (quiet_ok _ _ _ _ (FindUserByEmail_quiet email) Hf) as Hd. destruct found as [u|e].
  - destruct (0 <? user_ID u) eqn:Ei; [|by apply ret_ok in Hl as [<- <-]].
    apply bind_ok in Hl as (? & ? & Hg & Hl). apply guard_ok in Hg as [Hg ->]. apply ret_ok in Hl as [<- <-].
    apply FindUserByEmail_ok in Hf as (_ & k & n & Hn & Hne & Hu & Hm & Hid). split; [done|].
    bool_props. split_and!; try done; [|eauto]. by destruct (user_EmailVerifiedAt u).
  - apply bind_ok in Hl as (? & ? & Hg & Hl). apply guard_ok in Hg as [_ ->]. by apply ret_ok in Hl as [<- <-].
Qed.

Lemma sso_provider_name : canonicalProvider SSOClient.SSOProviderName = SSOClient.SSOProviderName.
Proof. done. Qed.

(** C26. Signing in through the issuer opens the account its subject is linked
    to, and of it changes at most address, verification and name, the address
    only to the issuer's; or, when the subject is linked to no account, the
    account that has the issuer's address, if both sides have verified it, or a
    new account with that address, which no account had.  A new account has no
    password and no rights, and no address is marked verified unless it was or
    the issuer says so.  Afterwards the subject is linked to that account, and no
    other account has changed. *)
Theorem sso_sign_in_account identity now w w' u :
  db_wf (db w) → sso_Subject identity ≠ "" → SSOClient.account identity now w = (w', Ok u) →
  let linked d i := ∃ k, linked_to d SSOClient.SSOProviderName (sso_Subject identity) k i in
  let address := SSOClient.usable_email (sso_Email identity) in
  (∃ i, linked (db w') i ∧ identity_UserID i = user_ID u) ∧
  (∀ id, id ≠ user_ID u → users (db w') !! id = users (db w) !! id) ∧
  ((∃ i old new, linked (db w) i ∧ identity_UserID i = user_ID u ∧
      users (db w) !! user_ID u = Some old ∧ users (db w') !! user_ID u = Some new ∧
      credentials_kept old new ∧ verification_earned identity old new ∧ address_from address old new) ∨
   ((∀ i, ¬ linked (db w) i) ∧ users (db w') = users (db w) ∧ users (db w) !! user_ID u = Some u ∧
      (∃ n, address ≠ "" ∧ NormalizeEmail address = Ok n ∧ user_Email u = Some n) ∧
      sso_EmailVerified identity = true ∧ user_EmailVerifiedAt u ≠ None ∧ user_IsGuest u = false) ∨
   ((∀ i, ¬ linked (db w) i) ∧ users (db w) !! user_ID u = None ∧ users (db w') !! user_ID u = Some u ∧
      user_Email u = (if String.eqb address "" then None else Some address) ∧
      (∀ k v e, users (db w) !! k = Some v → user_Email v = Some e → user_Email u ≠ Some e) ∧
      user_PasswordHash u = None ∧ user_IsAdmin u = false ∧ user_IsGuest u = false ∧
      (user_EmailVerifiedAt u ≠ None → sso_EmailVerified identity = true))).
Proof.
  intros Hwf Hsub Ha linked address. unfold SSOClient.account in Ha. fold address in Ha.
  apply bind_ok in Ha as (w1 & found & Hf & Ha). apply attempt_ok in Hf.
  pose proof (quiet_ok _ _ _ _ (FindOAuthIdentity_quiet _ _) Hf) as Hd1. destruct found as [i|e].
  - apply FindOAuthIdentity_ok in Hf as (_ & k & Hk).
    apply bind_ok in Ha as (w2 & v & Hv & Ha). apply map_err_ok, FindUserByID_ok in Hv as (Hd2 & Hu & _ & _).
    apply bind_ok in Ha as (? & ? & Hg & Ha). apply guard_ok in Hg as [Hg ->]. bool_props.
    rewrite Hd1 in Hd2, Hu. rewrite <- Hg in Hu.
    apply refresh_ok in Ha as (Hid & Hids & Hother & new & Hnew & Hkept & Hver & Hadr); [|by rewrite Hd2].
    rewrite Hd2 in Hids, Hother. rewrite <- Hid in Hu, Hother, Hnew. rewrite <- Hid in Hg.
    split_and!; [|done|].
    + exists i. split; [|done]. exists k. unfold linked_to. by rewrite Hids.
    + left. exists i, v, new. split; [by exists k|]. by split_and!.
  - apply bind_ok in Ha as (? & ? & Hg & Ha). apply guard_ok in Hg as [He ->]. apply negb_false_iff in He.
    assert (Hnone : ∀ i, ¬ linked (db w) i).
    { intros i (k & Hk). refine (FindOAuthIdentity_not_found _ _ _ _ _ _ Hsub Hf He k i Hk). done. }
    apply bind_ok in Ha as (w2 & l & Hl & Ha). apply linkable_account_ok in Hl as [Hd2 Hl]. rewrite Hd1 in Hd2.
    apply bind_ok in Ha as (w3 & v & Hv & Ha).
    apply bind_ok in Ha as (w4 & [] & Hi & Ha). apply map_err_ok, CreateOAuthIdentity_ok in Hi as [Hd4 _].
    apply ret_ok in Ha as [-> ->].
    assert (Hlinked : ∃ i, linked (db w') i ∧ identity_UserID i = user_ID u).
    { rewrite Hd4. eexists (mkIdentity _ _ _ _ _ _). split; [|reflexivity]. eexists. split; [apply lookup_insert_eq|].
      unfold is_subject. simpl. by rewrite !String.eqb_refl. }
    destruct l as [x|].
    + apply ret_ok in Hv as [-> ->]. destruct Hl as (Hne & Hv1 & Hv2 & Hgst & Hpos & k & n & Hn & Hk & Hm).
      rewrite Hd1 in Hk. destruct (wf_users _ Hwf _ _ Hk) as [(Hid & _) _].
      assert (Hsame : users (db w') = users (db w)) by (by rewrite Hd4, Hd2).
      split_and!; [done|by rewrite Hsame|]. right; left. rewrite Hid. split_and!; try done. by exists n.
    + apply map_err_ok, CreateUser_ok in Hv as (Hd3 & [Hfree _]%users_unique_ok & Hrow). rewrite Hd2 in *.
      assert (Hnew : users (db w') = <[user_ID u := u]> (users (db w))) by (rewrite Hd4, Hd3, Hrow; done).
      assert (Hfresh : users (db w) !! user_ID u = None) by (rewrite Hrow; by apply fresh_user).
      split_and!; [done|intros; by rewrite Hnew, lookup_insert_ne|]. right; right.
      rewrite Hnew, lookup_insert_eq. split_and!; [done|done|done| | |by rewrite Hrow|by rewrite Hrow|by rewrite Hrow|].
      { rewrite Hrow. simpl. by destruct (String.eqb address ""). }
      { intros k x em Hk Hxe Hue. destruct (wf_users _ Hwf _ _ Hk) as [(Hid & _) _].
        specialize (Hfree k x em Hk Hue Hxe). congruence. }
      rewrite Hrow. simpl. destruct (sso_EmailVerified identity); [done|]. by rewrite andb_false_r.
Qed.
End account.

(** ** Upgrading a guest into an issuer account *)
Section upgrade.
Context `{Unicode, MailParser, Postgres, Crypto, URLParser}.

(** The guest with number [id] became an account linked to [identity]: its
    transfer codes are revoked, its row keeps number, settings and rights, and
    the identity is a new row. *)
Definition guest_converted (guest : User) (identity : OAuthIdentity) (now : Z) (d d' : DB) : Prop :=
  ∃ old row, users d !! user_ID guest = Some old ∧ user_IsGuest old = true ∧
    row = mkUser (user_ID old) (user_Email guest) (user_PasswordHash old) (user_Username old)
      (user_DisplayName guest) false (user_IsAdmin old) (user_Theme old) (user_Locale old)
      (user_CreatedAt old) (user_EmailVerifiedAt guest) (user_Version old + 1) ∧
    (∀ k j, oauth_identities d !! k = Some j →
       is_subject (canonicalProvider (identity_Provider identity)) (identity_Subject identity) j = false) ∧
    d' = set_oauth_identities
      (<[identities_seq d + 1 := mkIdentity (identities_seq d + 1) (identity_UserID identity)
           (canonicalProvider (identity_Provider identity)) (identity_Subject identity) (identity_Email identity)
           (identity_CreatedAt identity)]> (oauth_identities d)) (identities_seq d + 1)
      (set_users (<[user_ID guest := row]> (users d)) (users_seq d)
        (set_claim_codes ((λ r, if active_for (user_ID guest) r then (r.1, revoke_claim now r.2) else r) <$> claim_codes d)
           (claims_seq d) d)).

Lemma insert_identity_ok i d d' u :
  insert_identity i d = Ok (d', u) →
  d' = set_oauth_identities (<[identities_seq d + 1 := mkIdentity (identities_seq d + 1) (identity_UserID i)
         (identity_Provider i) (identity_Subject i) (identity_Email i) (identity_CreatedAt i)]> (oauth_identities d))
         (identities_seq d + 1) d ∧
  ∀ k j, oauth_identities d !! k = Some j → is_subject (identity_Provider i) (identity_Subject i) j = false.
Proof.
  unfold insert_identity. intros Hi. destruct (first_violation _) as [[]|] eqn:E; [|done]. injection Hi as <- _.
  split; [done|]. apply first_violation_ok in E. rewrite !Forall_cons in E. destruct E as (_ & E & _).
  destruct (find_row _ _) as [[k j]|] eqn:Er; [done|]. by apply find_row_None.
Qed.

Lemma upgrade_statements_ok guest v identity now w w' row :
  upgrade_statements guest v (mkIdentity (identity_ID identity) (identity_UserID identity)
    (canonicalProvider (identity_Provider identity)) (identity_Subject identity) (identity_Email identity)
    (identity_CreatedAt identity)) now w = (w', Ok row) →
  guest_converted guest identity now (db w) (db w').
Proof.
  unfold upgrade_statements. intros Hr. inv_db. unfold lift in *. simplify_eq.
  match goal with H : UserRepository.scanUser _ = Ok _ |- _ => apply UserRepository.scanUser_ok in H as [-> _] end.
  match goal with H : insert_identity _ _ = Ok _ |- _ => apply insert_identity_ok in H as [Hd2 Hnone] end.
  match goal with H : update_guest _ _ _ = Ok _ |- _ => apply update_guest_ok in H as (old & Hold & Hguest & Hup) end.
  apply update_user_ok in Hup as (o & Ho & Hv & _ & Hd3 & _ & Hrow).
  match goal with H : revoke_active _ _ _ = Ok _ |- _ => unfold revoke_active in H; injection H as Hd4 end.
  rewrite Hd3, <- Hd4 in *. simpl in *. simplify_eq. exists old. eexists. split_and!; try done.
Qed.

Lemma UpgradeGuestWithIdentity_ok guest v identity now w w' row :
  UpgradeGuestWithIdentity guest v identity now w = (w', Ok row) →
  guest_converted guest identity now (db w) (db w').
Proof.
  unfold UpgradeGuestWithIdentity. intros Hu. case_match; [done|].
  apply transaction_ok in Hu as (w1 & w2 & <- & Hu & ->). by eapply upgrade_statements_ok.
Qed.

(** C29. Converting a guest is all or nothing: whatever fails and whatever the
    caller is told, afterwards either the database is as it was, or the guest is
    an account that keeps its number, settings and rights, is linked to the
    issuer identity, which was linked to no account, and has no transfer code
    left. *)
Theorem guest_upgrade_all_or_nothing guest v identity now w :
  let d' := db (fst (UpgradeGuestWithIdentity guest v identity now w)) in
  d' = db w ∨ guest_converted guest identity now (db w) d'.
Proof.
  simpl. unfold UpgradeGuestWithIdentity. case_match; [by left|].
  match goal with |- context [transaction ?f ?b w] =>
    destruct (transaction_effect f b w) as [->|(w1 & w2 & row & Hd1 & Hr & ->)] end; [by left|right].
  rewrite <- Hd1. by eapply upgrade_statements_ok.
Qed.
End upgrade.

(** ** Callbacks *)
Section callback.
Context `{Unicode, MailParser, Postgres, Crypto, PasswordHashing, URLParser, !PasswordHashingLaws}.

Lemma CreateSSO_ok s u sid tok w w' x :
  CreateSSO s u sid tok w = (w', Ok x) →
  session_UserID x = u ∧ session_SSOSessionID x = sid ∧ TrimSpace sid ≠ "" ∧ session_RevokedAt x = None ∧
  ∃ row, sessions (db w) !! sessionDigest (session_ID x) = None ∧ session_UserID row = u ∧
    db w' = set_sessions (<[sessionDigest (session_ID x) := row]> (sessions (db w))) (db w).
Proof.
  unfold CreateSSO. intros Hc.
  apply bind_ok in Hc as (? & ? & Hg & Hc). apply guard_ok in Hg as [Hg ->].
  apply bind_ok in Hc as (w1 & y & Hy & Hc). apply ret_ok in Hc as [<- <-]. bool_props.
  apply create_ok in Hy as (_ & Hu & Hr & _ & _ & _ & _ & _ & Hs & _ & _ & Hn & Hd).
  simpl. split_and!; try done. eexists. split_and!; [done| |exact Hd]. done.
Qed.

Lemma SSO_Callback_once s actor code raw row t w :
  oauth_states (db w) !! tokenDigest raw = Some (row, Some t) → refused (SSOClient.Callback s actor code raw w).
Proof.
  intros Hrow. unfold refused. destruct (SSOClient.Callback s actor code raw w) as [w' [r|e]] eqn:E; [|by eexists].
  exfalso. unfold SSOClient.Callback in E.
  apply bind_ok in E as (? & ? & Hg & E). apply guard_ok in Hg as [_ ->].
  apply bind_ok in E as (w1 & st & Hn & E). apply map_err_ok in Hn.
  assert (st = raw ∧ w1 = w) as [-> ->].
  { unfold lift, OAuth.normalizeOAuthState in Hn. repeat case_match; by simplify_eq. }
  apply bind_ok in E as (w2 & now & Hw & E). apply unix_now_ok in Hw as (Hd & _ & _).
  apply bind_ok in E as (w3 & x & Hx & E). apply map_err_ok, ConsumeOAuthState_ok in Hx as (r' & Hr' & _).
  congruence.
Qed.

Lemma upgraded_guest_fields g identity email now :
  let u := SSOClient.upgraded_guest g identity email now in
  user_ID u = user_ID g ∧ user_IsGuest u = false ∧
  (user_Email u = if String.eqb email "" then user_Email g else Some email).
Proof.
  unfold SSOClient.upgraded_guest. destruct (SSOClient.usable_name _) as [n|]; [destruct (is_nil _)|];
    destruct (String.eqb email ""), (sso_EmailVerified identity); by split_and!.
Qed.

(** What [upgradeGuest] leaves behind. *)
Lemma upgradeGuest_ok s guestID identity now w w' r :
  quiet_revoker (sso_RevokeUser (client_sessions s)) → db_wf (db w) →
  SSOClient.upgradeGuest s guestID identity now w = (w', Ok r) →
  Upgraded r = true ∧ session_UserID (sso_Session r) = guestID ∧
  session_SSOSessionID (sso_Session r) = sso_SessionID identity ∧
  group_members (db w') = group_members (db w) ∧ signed_out guestID (db w) (db w') ∧
  ∃ g g', users (db w) !! guestID = Some g ∧ user_IsGuest g = true ∧ users (db w') !! guestID = Some g' ∧
    user_IsGuest g' = false ∧ user_IsAdmin g' = user_IsAdmin g ∧ user_Username g' = user_Username g ∧
    ∃ k i, linked_to (db w') SSOClient.SSOProviderName (sso_Subject identity) k i ∧ identity_UserID i = guestID.
Proof.
  intros Hq Hwf Hc. unfold SSOClient.upgradeGuest in Hc.
  apply bind_ok in Hc as (w1 & g & Hf & Hc). apply map_err_ok, FindUserByID_ok in Hf as (Hd1 & Hu & _).
  apply bind_ok in Hc as (? & ? & Hg & Hc). apply guard_ok in Hg as [Hguest ->].
  apply bind_ok in Hc as (w2 & fi & Hfi & Hc). apply attempt_ok, quiet_ok in Hfi as Hd2; [|apply FindOAuthIdentity_quiet].
  apply bind_ok in Hc as (w3 & [] & Hg3 & Hc).
  assert (w3 = w2) as -> by (destruct fi; [done|by apply guard_ok in Hg3 as [_ ->]]).
  apply bind_ok in Hc as (w4 & [] & Hrej & Hc).
  assert (Hd4 : db w4 = db w2).
  { refine (quiet_ok _ _ _ _ _ Hrej). unfold SSOClient.reject_taken_email, quiet.
    pose proof (FindUserByEmail_quiet (SSOClient.usable_email (sso_Email identity))). unfold quiet in *. preserves_tac. }
  apply bind_ok in Hc as (w5 & saved & Hs & Hc). apply map_err_ok in Hs.
  apply UpgradeGuestWithIdentity_ok in Hs as (old & row & Hold & Hog & Hrow & _ & Hd5). simpl in Hold.
  apply bind_ok in Hc as (? & ? & Hg2 & Hc). apply guard_ok in Hg2 as [_ ->].
  apply bind_ok in Hc as (w6 & [] & Hrv & Hc).
  apply map_err_ok, RevokeUser_ok in Hrv as (_ & t & ls & Hd6).
  2: { intros f u Hfu. unfold quiet_revoker in Hq. rewrite Hfu in Hq. apply Hq. }
  apply bind_ok in Hc as (w7 & x & Hx & Hc). apply map_err_ok, CreateSSO_ok in Hx as (Hxu & Hxs & _ & _ & srow & Hnone & Hsu & Hd7).
  apply ret_ok in Hc as [<- <-]. simpl in *.
  destruct (upgraded_guest_fields g identity (SSOClient.usable_email (sso_Email identity)) now) as (Eid & _ & _).
  bool_props. rewrite Eid in *. rewrite Hd4, Hd2, Hd1 in *.
  match goal with E : user_ID g = guestID |- _ => rewrite E in * end. simplify_eq.
  rewrite Hd7, Hd6, Hd5. simpl. split_and!; try done.
  - intros k y Hy Hyu. destruct (revoke_all_signed_out (user_ID g) t _ _ _ Hy Hyu) as (z & Hz & ? & ?).
    exists z. split; [|done]. simpl. rewrite lookup_insert_ne; [done|]. intros <-.
    rewrite Hd6, Hd5 in Hnone. simpl in Hnone. congruence.
  - exists g. eexists. rewrite lookup_insert_eq. split_and!; try done.
    eexists _, (mkIdentity _ _ _ _ _ _). split; [|reflexivity]. split; [apply lookup_insert_eq|].
    unfold is_subject. simpl. by rewrite !String.eqb_refl.
Qed.

(** C30. A single sign-on callback completes once and for whom it was started:
    it uses up a stored, unexpired state of this issuer; an upgrade completes
    only in the browser of the guest that started it, a sign-in only with a
    state that was issued to no account.  An upgraded guest keeps its number,
    name, rights and memberships, its earlier sessions end, and the issuer
    identity is linked to it.  The session handed out is bound to the issuer's
    session.  Whatever use cases follow, the same state is refused. *)
Theorem sso_callback_is_for_its_browser cfg s actor code raw w w' r :
  quiet_ports cfg → App.ssoClient cfg = Some s → db_wf (db w) →
  SSOClient.Callback s actor code raw w = (w', Ok r) →
  (∃ row now, oauth_states (db w) !! tokenDigest raw = Some (row, None) ∧
     state_Provider row = SSOClient.SSOProviderName ∧ now < state_ExpiresAt row ∧ Unix (clock w) ≤ now ∧
     if Upgraded r then
       state_Action row = oauthActionLink ∧ state_UserID row = actor ∧ session_UserID (sso_Session r) = actor ∧
       group_members (db w') = group_members (db w) ∧ signed_out actor (db w) (db w') ∧
       ∃ g g' subject k i, users (db w) !! actor = Some g ∧ user_IsGuest g = true ∧
         users (db w') !! actor = Some g' ∧ user_IsGuest g' = false ∧ user_IsAdmin g' = user_IsAdmin g ∧
         user_Username g' = user_Username g ∧
         linked_to (db w') SSOClient.SSOProviderName subject k i ∧ identity_UserID i = actor
     else state_Action row = oauthActionSignIn ∧ state_UserID row = 0) ∧
  TrimSpace (session_SSOSessionID (sso_Session r)) ≠ "" ∧
  ∀ us later_ actor' code', db later_ = after cfg us w' →
    (Upgraded r = true → is_Some (users (db later_) !! actor)) →
    refused (SSOClient.Callback s actor' code' raw later_).
Proof.
  intros Hports Hs Hwf Hc. destruct (ssoClient_quiet cfg Hports s Hs) as [Hrp Hss].
  assert (Hq : quiet_revoker (sso_RevokeUser (client_sessions s))) by (rewrite Hss; by apply ssoRevoker_quiet).
  unfold SSOClient.Callback in Hc.
  apply bind_ok in Hc as (? & ? & Hg & Hc). apply guard_ok in Hg as [_ ->].
  apply bind_ok in Hc as (w1 & st & Hn & Hc). apply map_err_ok in Hn.
  assert (st = raw ∧ w1 = w) as [-> ->].
  { unfold lift, OAuth.normalizeOAuthState in Hn. repeat case_match; by simplify_eq. }
  apply bind_ok in Hc as (w2 & now & Hw & Hc). apply unix_now_ok in Hw as (Hd2 & -> & Hle).
  apply bind_ok in Hc as (w3 & stored & Hx & Hc).
  pose proof (ConsumeOAuthState_steps true raw (Unix (clock w2)) w2) as Hst3.
  apply map_err_ok in Hx. rewrite Hx in Hst3. apply ConsumeOAuthState_ok in Hx as (row & Hrow & Hexp & -> & Hd3).
  apply bind_ok in Hc as (? & ? & Hg & Hc). apply guard_ok in Hg as [Hg1 ->].
  apply bind_ok in Hc as (? & ? & Hg & Hc). apply guard_ok in Hg as [Hg2 ->].
  apply bind_ok in Hc as (w4 & identity & Hex & Hc). apply map_err_ok, quiet_ok in Hex as Hd4; [|apply Hrp].
  apply bind_ok in Hc as (? & ? & Hg & Hc). apply guard_ok in Hg as [Hg3 ->].
  simpl in *. bool_props. unfold on_db in Hst3. simpl in Hst3.
  assert (Hwf4 : db_wf (db w4)) by (rewrite Hd4; eapply steps_wf; [exact Hst3|by rewrite Hd2]).
  assert (Hrow4 : oauth_states (db w4) !! tokenDigest raw = Some (row, Some (Unix (clock w2)))).
  { rewrite Hd4, Hd3. apply lookup_insert_eq. }
  assert (Hkeep : group_members (db w4) = group_members (db w) ∧ users (db w4) = users (db w) ∧ sessions (db w4) = sessions (db w)).
  { by rewrite Hd4, Hd3, Hd2. }
  destruct Hkeep as (Hm4 & Hu4 & Hs4). rewrite Hd2 in Hrow.
  assert (Hnow : Unix (clock w) ≤ Unix (clock w2)) by (unfold Unix, second; by apply Z.div_le_mono).
  assert (Hlater : ∀ us later_ actor' code', steps true (db w4) (db w') → db later_ = after cfg us w' →
    (0 < state_UserID row → is_Some (users (db later_) !! state_UserID row)) →
    refused (SSOClient.Callback s actor' code' raw later_)).
  { intros us v a c Hs4' Hv Ho. pose proof (served cfg Hports us w') as Hsv. rewrite <- Hv in Hsv.
    eapply SSO_Callback_once. eapply (state_stays_used true (db w4)); [by etransitivity|done..]. }
  destruct (String.eqb (state_Action row) oauthActionLink) eqn:Hact.
  - pose proof (upgradeGuest_steps true cfg Hports s Hss (state_UserID row) identity (Unix (clock w2)) w4) as Hst.
    rewrite Hc in Hst. unfold on_db in Hst. simpl in Hst.
    apply String.eqb_eq in Hact. rewrite Hact in Hg2. simpl in Hg2. bool_props.
    apply upgradeGuest_ok in Hc as (Hup & Hsu & Hss2 & Hm & Hso & g & g' & Hg4 & Hgg & Hg' & Hgg' & Hadm & Hnm & k & i & Hl & Hli); [|done|done].
    subst actor. rewrite Hup. split_and!.
    + exists row, (Unix (clock w2)). split_and!; try done; [congruence| |].
      * unfold signed_out in *. by rewrite Hs4 in Hso.
      * rewrite Hu4 in Hg4. by exists g, g', (sso_Subject identity), k, i.
    + by rewrite Hss2.
    + intros us v a c Hv Ho. by apply (Hlater us v a c Hst Hv); auto.
  - apply bind_ok in Hc as (w5 & u & Ha & Hc). apply bind_ok in Hc as (w6 & x & Hx & Hc). apply ret_ok in Hc as [<- <-].
    apply map_err_ok in Hx. simpl.
    destruct (String.eqb (state_Action row) oauthActionSignIn) eqn:Hact2; [|done].
    apply String.eqb_eq in Hact2. bool_props.
    assert (Hst : steps true (db w4) (db w6)).
    { pose proof (SSO_account_steps true identity (Unix (clock w2)) w4) as Hs1. rewrite Ha in Hs1.
      pose proof (CreateSSO_steps true cfg (user_ID u) (sso_SessionID identity) (sso_IDToken identity) w5) as Hs2.
      rewrite <- Hss, Hx in Hs2. unfold on_db in *. simpl in *. by etransitivity. }
    apply CreateSSO_ok in Hx as (_ & Hxs & Hne & _). split_and!.
    + exists row, (Unix (clock w2)). by split_and!.
    + by rewrite Hxs.
    + intros us v a c Hv Ho. apply (Hlater us v a c Hst Hv). lia.
Qed.
End callback.

(** ** The provider *)
Section provider.
Context `{Unicode, MailParser, Postgres} (s : SSOProviderService) (Ha : quiet_admin (sso_admin s)).

(** The account may sign in to client apps. *)
Definition may_sign_in (d : DB) (userID : Z) : Prop :=
  ∃ u, users d !! userID = Some u ∧ user_ID u = userID ∧ user_IsGuest u = false ∧
    (sso_emailConfirmationRequired s = true → user_EmailVerifiedAt u ≠ None).

Lemma eligibleUser_ok userID w w' r :
  SSOProvider.eligibleUser s userID w = (w', r) →
  db w' = db w ∧ ∃ o, r = Ok o ∧ ∀ u, o = Some u → users (db w) !! userID = Some u ∧ may_sign_in (db w) userID.
Proof.
  unfold SSOProvider.eligibleUser. intros He. case_match; [by injection He as <- <-; split; [|eexists]|].
  unfold bind at 1, attempt in He. destruct (FindUserByID userID w) as [w1 [u|e]] eqn:Hf.
  - apply FindUserByID_ok in Hf as (Hd & Hu & _).
    destruct (negb (user_ID u =? userID) || user_IsGuest u) eqn:Hg; [by injection He as <- <-; split; [|eexists]|].
    destruct (sso_emailConfirmationRequired s && is_nil (user_EmailVerifiedAt u)) eqn:Hc; injection He as <- <-.
    { split; [done|by eexists]. }
    split; [done|]. eexists. split; [done|]. intros u' [= <-]. bool_props. split; [done|]. exists u.
    split_and!; try done. intros Hr Hn. rewrite Hr, Hn in Hc. done.
  - injection He as <- <-. assert (Hd : db w1 = db w); [|by split; [|eexists]].
    refine (quiet_ok (FindUserByID userID) w w1 _ _ Hf). unfold FindUserByID, UserRepository.find, quiet. preserves_tac.
Qed.

Lemma eligible_ok userID w w' r :
  SSOProvider.eligible s userID w = (w', r) →
  db w' = db w ∧ ∃ b, r = Ok b ∧ (b = true → may_sign_in (db w) userID).
Proof.
  unfold SSOProvider.eligible, bind. intros He. destruct (SSOProvider.eligibleUser s userID w) as [w1 o] eqn:E.
  apply eligibleUser_ok in E as (Hd & o' & -> & Ho). injection He as <- <-. split; [done|]. eexists. split; [done|].
  destruct o' as [u|]; [|done]. intros _. by apply (Ho u).
Qed.

(** The run ends by telling Hydra that account [userID] is signed in. *)
Definition vouches (challenge : string) (userID : Z) (w w' : World) (r : outcome string) : Prop :=
  ∃ w1, db w1 = db w ∧ may_sign_in (db w) userID ∧
    AcceptLogin (sso_admin s) challenge (SSOProvider.ssoSubject userID) (rememberFor s) w1 = (w', r).
(** The run ends by rejecting the challenge, or without an answer to Hydra. *)
Definition declines (challenge : string) (w w' : World) (r : outcome string) : Prop :=
  (∃ w1, db w1 = db w ∧ RejectLogin (sso_admin s) challenge w1 = (w', r)) ∨ r = Ok "" ∨ ∃ e, r = Err e.

(** C34. The provider tells Hydra that an account is signed in only when the
    account exists, is not a guest and has confirmed its address where that is
    required: the account of the browser's session, or the one Hydra remembers,
    checked again.  Everything else is rejected or sent to the sign-in page. *)
Theorem login_vouches_for_eligible_accounts challenge userID w w' r :
  (SSOProvider.CompleteLogin s challenge userID w = (w', r) →
     vouches challenge userID w w' r ∨ declines challenge w w' r) ∧
  (SSOProvider.BeginLogin s challenge userID w = (w', r) →
     (∃ remembered, vouches challenge remembered w w' r ∧ 0 < remembered ∧
        (remembered = userID ∨ ∃ w1 request, LoginRequest (sso_admin s) challenge w = (w1, Ok request) ∧
           login_Skip request = true ∧ login_Subject request = SSOProvider.ssoSubject remembered))
     ∨ declines challenge w w' r).
Proof.
  split; intros Hr.
  - unfold SSOProvider.CompleteLogin, bind at 1, lift in Hr. destruct (SSOProvider.validateSSOChallenge challenge).
    2: { right; right; right. injection Hr as _ <-. by eexists. }
    unfold bind in Hr. destruct (SSOProvider.eligible s userID w) as [w1 o] eqn:E.
    apply eligible_ok in E as (Hd & [] & -> & Hm); simpl in Hr; [left|right; left]; exists w1; auto.
  - unfold SSOProvider.BeginLogin, bind at 1, lift in Hr. destruct (SSOProvider.validateSSOChallenge challenge).
    2: { right; right; right. injection Hr as _ <-. by eexists. }
    unfold bind at 1 in Hr. destruct (LoginRequest (sso_admin s) challenge w) as [w1 [request|e]] eqn:Hl.
    2: { right; right; right. injection Hr as _ <-. by eexists. }
    pose proof (quiet_ok _ _ _ _ (quiet_LoginRequest _ Ha challenge) Hl) as Hd1.
    destruct (login_Skip request) eqn:Hskip.
    + destruct (SSOProvider.parseSSOSubject (login_Subject request)) as [u|] eqn:Hp; [|right; left; by exists w1].
      apply SSOProvider.parseSSOSubject_ok in Hp as [Hpos Hsub].
      unfold bind at 1 in Hr. destruct (SSOProvider.eligible s u w1) as [w2 o] eqn:E.
      apply eligible_ok in E as (Hd2 & [] & -> & Hm); rewrite Hd1 in *; simpl in Hr; [left|right; left; by exists w2].
      exists u. split_and!; [|done|right; eauto]. exists w2. rewrite <- Hsub. auto.
    + unfold bind at 1 in Hr. destruct (0 <? userID) eqn:Hpos.
      * destruct (SSOProvider.eligible s userID w1) as [w2 o] eqn:E.
        apply eligible_ok in E as (Hd2 & [] & -> & Hm); rewrite Hd1 in *; simpl in Hr; [left|right; right; left].
        -- exists userID. split_and!; [|lia|by left]. exists w2. auto.
        -- by injection Hr as _ <-.
      * simpl in Hr. right; right; left. by injection Hr as _ <-.
Qed.

(** Claims follow the granted scopes. *)
Definition claims_in_scope (scopes : list string) (claims : gmap string claim) : Prop :=
  ∀ k v, claims !! k = Some v →
    ((k = "email" ∨ k = "email_verified") ∧ "email" ∈ scopes) ∨
    ((k = "name" ∨ k = "locale") ∧ "profile" ∈ scopes).

Lemma Contains_In xs x : SSOProvider.Contains xs x = true → x ∈ xs.
Proof.
  unfold SSOProvider.Contains. intros (y & Hy & ->%String.eqb_eq)%existsb_exists. by apply list_elem_of_In.
Qed.

Lemma ssoIDTokenClaims_scope user scopes : claims_in_scope scopes (SSOProvider.ssoIDTokenClaims user scopes).
Proof.
  assert (He : claims_in_scope scopes
    match user_Email user with
    | Some e => if SSOProvider.Contains scopes "email"
                then <["email_verified" := ClaimBool (negb (is_nil (user_EmailVerifiedAt user)))]>
                       (<["email" := ClaimString e]> ∅) else ∅
    | None => ∅ end).
  { intros k v Hk. destruct (user_Email user); [|by rewrite lookup_empty in Hk].
    destruct (SSOProvider.Contains scopes "email") eqn:Ec; [|by rewrite lookup_empty in Hk].
    apply Contains_In in Ec. left. apply lookup_insert_Some in Hk as [[<- _]|[_ Hk]]; [auto|].
    apply lookup_insert_Some in Hk as [[<- _]|[_ Hk]]; [auto|by rewrite lookup_empty in Hk]. }
  unfold SSOProvider.ssoIDTokenClaims. destruct (SSOProvider.Contains scopes "profile") eqn:Ec; [|exact He].
  apply Contains_In in Ec. intros k v Hk.
  destruct (negb (String.eqb (user_Locale user) "")), (negb (String.eqb (SSOProvider.ssoDisplayName user) ""));
    repeat (apply lookup_insert_Some in Hk as [[<- _]|[_ Hk]]; [by auto|]); by apply (He k v).
Qed.

(** Consent is granted only to an account that may sign in, with claims
    taken from the account as it is now and no others than the granted scopes
    release; the issuer's session is on record first, so that revoking the
    account reaches it, unless the same session is on record for another
    account.  Otherwise consent is rejected or the request fails, and then the
    only row that can have changed is that record. *)
Theorem consent_is_recorded_and_scoped challenge w w' r :
  SSOProvider.Consent s challenge w = (w', r) →
  (∃ request u user grant w0 w1,
     ConsentRequest (sso_admin s) challenge w = (w0, Ok request) ∧
     consent_Subject request = SSOProvider.ssoSubject u ∧ may_sign_in (db w) u ∧ users (db w) !! u = Some user ∧
     (consent_LoginSessionID request ≠ "" → ∃ row, sso_login_sessions (db w1) !! consent_LoginSessionID request = Some row ∧
        (login_UserID row = u ∨ sso_login_sessions (db w) !! consent_LoginSessionID request = Some row)) ∧
     grant_Scope grant = RequestedScope request ∧
     IDTokenClaims grant = SSOProvider.ssoIDTokenClaims user (RequestedScope request) ∧
     claims_in_scope (grant_Scope grant) (IDTokenClaims grant) ∧
     AcceptConsent (sso_admin s) challenge grant w1 = (w', r)) ∨
  (∃ w1, db w1 = db w ∧ RejectConsent (sso_admin s) challenge w1 = (w', r)) ∨
  (∃ e, r = Err e ∧ logins_only (db w) (db w')).
Proof.
  intros Hr. unfold SSOProvider.Consent, bind at 1, lift in Hr.
  destruct (SSOProvider.validateSSOChallenge challenge).
  2: { right; right. injection Hr as <- <-. eexists. by split. }
  unfold bind at 1 in Hr. destruct (ConsentRequest (sso_admin s) challenge w) as [w0 [request|e]] eqn:Hc;
    pose proof (quiet_ok _ _ _ _ (quiet_ConsentRequest _ Ha challenge) Hc) as Hd0.
  2: { right; right. injection Hr as <- <-. eexists. rewrite Hd0. by split. }
  destruct (SSOProvider.parseSSOSubject (consent_Subject request)) as [u|] eqn:Hp; [|right; left; by exists w0].
  apply SSOProvider.parseSSOSubject_ok in Hp as [Hpos Hsub].
  unfold bind at 1 in Hr. destruct (SSOProvider.eligibleUser s u w0) as [w1 o] eqn:E.
  apply eligibleUser_ok in E as (Hd1 & o' & -> & Hm). rewrite Hd0 in *.
  destruct o' as [user|]; [|right; left; by exists w1]. destruct (Hm user eq_refl) as [Hu Hmay].
  unfold bind at 1 in Hr. destruct (String.eqb (consent_LoginSessionID request) "") eqn:Hsid; simpl in Hr.
  - left. exists request, u, user, (mkGrant (RequestedScope request) (RequestedAudience request)
      (SSOProvider.ssoIDTokenClaims user (RequestedScope request)) (rememberFor s)), w0, w1. apply String.eqb_eq in Hsid.
    split_and!; try done. apply ssoIDTokenClaims_scope.
  - unfold bind at 1 in Hr. destruct (unix_now w1) as [w2 [now|e]] eqn:Hn.
    2: { unfold unix_now, time_Now, bind, ret in Hn. done. }
    apply unix_now_ok in Hn as (Hd2 & _ & _). rewrite Hd1 in Hd2.
    unfold map_err in Hr. destruct (RecordSSOLoginSession _ w2) as [w3 [[]|e]] eqn:Hrec.
    + left. exists request, u, user, (mkGrant (RequestedScope request) (RequestedAudience request)
        (SSOProvider.ssoIDTokenClaims user (RequestedScope request)) (rememberFor s)), w0, w3. split_and!; try done; [|apply ssoIDTokenClaims_scope].
      intros _. unfold RecordSSOLoginSession in Hrec. case_match; [done|].
      apply map_err_ok, statement_ok, upsert_login_session_ok in Hrec as (row & Hd3 & _ & Hrow).
      simpl in *. rewrite Hd2 in *. exists row. rewrite Hd3. simpl. rewrite lookup_insert_eq. split; [done|].
      destruct Hrow as [(_ & _ & ->)|(old & Ho & ->)]; [by left|].
      unfold merge_login_session. simpl. destruct (login_UserID old =? u) eqn:Eu; [left; simpl; bool_props; done|by right].
    + right; right. injection Hr as <- <-. eexists. split; [done|].
      assert (Hl : preserves (on_db logins_only) (RecordSSOLoginSession
        (mkLoginSession (consent_LoginSessionID request) u now (SSOProvider.remember_until s now)))).
      { unfold RecordSSOLoginSession. preserves_tac. apply preserves_statement; [apply _|].
        intros ? ? ? (row & -> & _)%upsert_login_session_ok. by eexists. }
      specialize (Hl w2). rewrite Hrec in Hl. unfold on_db in Hl. simpl in Hl. by rewrite Hd2 in Hl.
Qed.

(** ** Revocation *)

(** The calls of a revocation that meets no failure. *)
Definition revoke_each (sids : list string) : M unit :=
  for_each sids (λ sid, RevokeLoginSession (sso_admin s) sid ;;; DeleteSSOLoginSession sid).

Lemma for_each_cons {A} (x : A) xs (f : A → M unit) : for_each (x :: xs) f = bind (f x) (λ _, for_each xs f).
Proof. done. Qed.

Lemma revoke_sids_total sids : ∀ w, ∃ w' fs, SSOProvider.revoke_sids s sids w = (w', Ok fs).
Proof.
  induction sids as [|sid sids IH]; intros w; [by eexists _, _|]. cbn [SSOProvider.revoke_sids].
  unfold bind at 1, attempt. destruct (RevokeLoginSession (sso_admin s) sid w) as [w1 [u|e]].
  - unfold bind at 1. destruct (DeleteSSOLoginSession sid w1) as [w2 o].
    destruct (IH w2) as (w3 & fs & E). unfold bind. rewrite E. by eexists _, _.
  - destruct (IH w1) as (w3 & fs & E). unfold bind. rewrite E. by eexists _, _.
Qed.

Lemma revoke_sids_clean sids : ∀ w w', SSOProvider.revoke_sids s sids w = (w', Ok []) → revoke_each sids w = (w', Ok tt).
Proof.
  unfold revoke_each. induction sids as [|sid sids IH]; intros w w' Hr; [by injection Hr as <-|].
  cbn [SSOProvider.revoke_sids] in Hr. rewrite for_each_cons. unfold bind at 1 in Hr. unfold attempt in Hr.
  unfold bind at 1 2. destruct (RevokeLoginSession (sso_admin s) sid w) as [w1 [u|e]].
  - unfold bind at 1 in Hr. destruct (DeleteSSOLoginSession sid w1) as [w2 [[]|e]].
    + apply bind_ok in Hr as (w3 & fs & Hf & Hr). apply ret_ok in Hr as [-> ->]. by apply IH.
    + apply bind_ok in Hr as (w3 & fs & _ & Hr). by apply ret_ok in Hr as [? _].
  - apply bind_ok in Hr as (w3 & fs & _ & Hr). by apply ret_ok in Hr as [? _].
Qed.

Lemma DeleteSSOLoginSession_ok sid w w' :
  DeleteSSOLoginSession sid w = (w', Ok tt) →
  db w' = set_sso_login_sessions (delete sid (sso_login_sessions (db w))) (db w).
Proof.
  unfold DeleteSSOLoginSession. intros Hd. by apply map_err_ok, statement_ok, delete_login_session_ok in Hd.
Qed.

Lemma revoke_each_ok sids : ∀ w w',
  revoke_each sids w = (w', Ok tt) →
  db w' = set_sso_login_sessions (filter (λ kv, kv.1 ∉ sids) (sso_login_sessions (db w))) (db w).
Proof.
  unfold revoke_each. induction sids as [|sid sids IH]; intros w w' Hr.
  { injection Hr as <-. rewrite map_filter_id; [by destruct (db w)|]. intros. apply not_elem_of_nil. }
  rewrite for_each_cons in Hr. apply bind_ok in Hr as (w1 & [] & Hone & Hr).
  apply bind_ok in Hone as (w2 & [] & Hrev & Hdel). apply (quiet_ok _ _ _ _ (quiet_RevokeLoginSession _ Ha sid)) in Hrev.
  apply DeleteSSOLoginSession_ok in Hdel. apply IH in Hr. rewrite Hr, Hdel, Hrev.
  match goal with |- set_sso_login_sessions ?l _ = set_sso_login_sessions ?l' _ =>
    assert (l = l') as Heq; [|rewrite Heq; done] end.
  simpl. apply map_eq. intros k. apply option_eq. intros x.
  rewrite !map_lookup_filter_Some, lookup_delete_Some, not_elem_of_cons. simpl.
  split; [intros [[Hn ?] ?]|intros [? [Hn ?]]]; split_and!; auto.
Qed.

Lemma ListSSOLoginSessions_ok userID w w' sids :
  ListSSOLoginSessions userID w = (w', Ok sids) →
  db w' = db w ∧ sids = login_SessionID <$> select_login_sessions userID (db w).
Proof.
  unfold ListSSOLoginSessions. intros Hl. case_match; [done|].
  apply map_err_ok, query_ok in Hl as [[= <-] Hd]. done.
Qed.

Lemma recorded_sids userID d k :
  db_wf d → (k ∈ login_SessionID <$> select_login_sessions userID d ↔
    ∃ x, sso_login_sessions d !! k = Some x ∧ login_UserID x = userID).
Proof.
  intros Hwf. rewrite list_elem_of_fmap. split.
  - intros (x & -> & (j & Hj & Hu)%select_login_sessions_In).
    destruct (wf_logins _ Hwf _ _ Hj) as [[Hk _] _]. exists x. by rewrite Hk.
  - intros (x & Hk & Hu). exists x. destruct (wf_logins _ Hwf _ _ Hk) as [[Hj _] _].
    split; [done|]. apply select_login_sessions_In. eauto.
Qed.

(** Revoking an account at the provider reaches every recorded session:
    when it succeeds, each session ID on record for the account was revoked at
    the issuer and then forgotten, in order, and the account's consents were
    revoked; no record of the account is left and other accounts keep theirs.
    Otherwise it reports an error, and nothing but the record of issuer
    sessions can have changed. *)
Theorem revocation_reaches_every_client userID w w' r :
  db_wf (db w) → SSOProvider.RevokeUser s userID w = (w', r) →
  (r = Ok tt →
     (∃ w1, db w1 = db w ∧
        (revoke_each (login_SessionID <$> select_login_sessions userID (db w)) ;;;
         RevokeConsentSessions (sso_admin s) (SSOProvider.ssoSubject userID)) w1 = (w', Ok tt)) ∧
     ∀ k x, sso_login_sessions (db w') !! k = Some x ↔
            sso_login_sessions (db w) !! k = Some x ∧ login_UserID x ≠ userID) ∧
  ((∃ e, r = Err e ∧ logins_only (db w) (db w')) ∨ r = Ok tt).
Proof.
  intros Hwf Hr.
  pose proof (SSO_RevokeUser_logins s Ha userID w) as Hlog. rewrite Hr in Hlog. unfold on_db in Hlog. simpl in Hlog.
  split; [|destruct r as [[]|e]; [by right|left; eauto]]. intros ->.
  unfold SSOProvider.RevokeUser in Hr.
  apply bind_ok in Hr as (? & ? & Hg & Hr). apply guard_ok in Hg as [_ ->].
  apply bind_ok in Hr as (w1 & sids & Hl & Hr). apply map_err_ok, ListSSOLoginSessions_ok in Hl as [Hd1 ->].
  apply bind_ok in Hr as (w2 & fs & Hf & Hr).
  apply bind_ok in Hr as (w3 & c & Hc & Hr). apply attempt_ok in Hc.
  assert (fs = [] ∧ c = Ok tt ∧ w3 = w') as (-> & -> & ->).
  { destruct fs as [|e fs]; [|done]. destruct c as [[]|e]; [|done]. simpl in Hr. by apply ret_ok in Hr as [_ ->]. }
  apply revoke_sids_clean in Hf. split.
  - exists w1. split; [done|]. unfold bind. by rewrite Hf.
  - apply revoke_each_ok in Hf. apply (quiet_ok _ _ _ _ (quiet_RevokeConsentSessions _ Ha _)) in Hc.
    intros k x. rewrite Hc, Hf, Hd1. simpl. rewrite map_lookup_filter_Some. simpl. rewrite recorded_sids by done.
    split; [intros [Hk Hn]|intros [Hk Hn]]; (split; [done|]).
    + intros Hu. apply Hn. eauto.
    + intros (y & Hy & Hu). congruence.
Qed.
End provider.

(** ** Back-channel logout *)
Section logout.
Context `{Unicode, MailParser, Postgres, Crypto, URLParser} (s : SSOClientService)
  (Hrp : quiet_relying_party (relyingParty s)).

Lemma RevokeSSOSessions_ok sid t w w' n :
  RevokeSSOSessions sid t w = (w', Ok n) →
  db w' = set_sessions ((λ x, if bound_to sid x then with_RevokedAt (Some t) x else x) <$> sessions (db w)) (db w).
Proof.
  unfold RevokeSSOSessions. intros Hr. case_match; [done|]. apply map_err_ok, statement_ok in Hr.
  unfold revoke_sso_sessions in Hr. destruct (text_param sid); [|done]. by simplify_eq.
Qed.

(** A back-channel logout ends exactly the sessions bound to the issuer
    session its verified token names: each of them is revoked afterwards, a
    revocation time already set stays, every other session and every other
    table is as before.  Delivering it again changes nothing. *)
Theorem back_channel_logout_ends_bound_sessions token w w' :
  SSOClient.BackChannelLogout s token w = (w', Ok tt) →
  ∃ sid w1 t, VerifyLogoutToken (relyingParty s) token w = (w1, Ok sid) ∧ TrimSpace sid ≠ "" ∧
    (∃ t', db w' = set_sessions t' (db w)) ∧
    (∀ k, is_Some (sessions (db w') !! k) ↔ is_Some (sessions (db w) !! k)) ∧
    (∀ k x y, sessions (db w) !! k = Some x → sessions (db w') !! k = Some y →
       y = if bound_to sid x then with_RevokedAt (Some t) x else x) ∧
    (∀ k y, sessions (db w') !! k = Some y → session_SSOSessionID y = sid → session_RevokedAt y ≠ None) ∧
    ∀ w2 t2, sessions (db w2) = sessions (db w') → db (fst (RevokeSSOSessions sid t2 w2)) = db w2.
Proof.
  unfold SSOClient.BackChannelLogout. intros Hb.
  apply bind_ok in Hb as (w1 & sid & Hv & Hb). apply map_err_ok in Hv.
  pose proof (quiet_ok _ _ _ _ (quiet_VerifyLogoutToken _ Hrp token) Hv) as Hd1.
  apply bind_ok in Hb as (? & ? & Hg & Hb). apply guard_ok in Hg as [Hg ->].
  apply bind_ok in Hb as (w2 & t & Hn & Hb). apply unix_now_ok in Hn as (Hd2 & _ & _).
  apply bind_ok in Hb as (w3 & n & Hr & Hb). apply ret_ok in Hb as [_ ->].
  apply map_err_ok, RevokeSSOSessions_ok in Hr. rewrite Hd2, Hd1 in Hr. bool_props.
  assert (Hended : ∀ k y, sessions (db w') !! k = Some y → bound_to sid y = false).
  { intros k y. rewrite Hr. simpl. rewrite lookup_fmap. destruct (sessions (db w) !! k) as [x|]; [|done]. simpl.
    intros [= <-]. destruct (bound_to sid x) eqn:E; [|done]. unfold bound_to. simpl. by rewrite andb_false_r. }
  exists sid, w1, t. split_and!; try done.
  - eauto.
  - intros k. rewrite Hr. simpl. rewrite lookup_fmap. apply fmap_is_Some.
  - intros k x y Hx Hy. rewrite Hr in Hy. simpl in Hy. rewrite lookup_fmap, Hx in Hy. by injection Hy as <-.
  - intros k y Hk Hs Hn. specialize (Hended k y Hk). unfold bound_to in Hended.
    by rewrite Hs, Hn, String.eqb_refl in Hended.
  - intros v t2 Hsame. unfold RevokeSSOSessions. case_match; [done|].
    assert (Hid : (λ x, if bound_to sid x then with_RevokedAt (Some t2) x else x) <$> sessions (db v) = sessions (db v)).
    { apply map_eq. intros k. rewrite lookup_fmap. destruct (sessions (db v) !! k) as [x|] eqn:E; [|done]. simpl.
      rewrite Hsame in E. by rewrite (Hended _ _ E). }
    unfold map_err. pose proof (statement_effect (revoke_sso_sessions sid t2) v) as He.
    destruct (statement _ v) as [v' [?|?]]; simpl in *;
      (destruct He as [He|(d2 & n2 & Hd & He)]; [done|]; unfold revoke_sso_sessions in Hd; destruct (text_param sid); [|done]; injection Hd as <- _;
       rewrite He, Hid; by destruct (db v)).
Qed.
End logout.

(** ** Witnesses *)

Definition demo_provider : SSOProviderService := mkSSOProvider demo_hydra (3600 * second) false.
Definition demo_client : SSOClientService :=
  mkSSOClient demo_issuer (App.sessionService demo_cfg) App.DefaultOAuthStateLifetime (App.postLogout demo_cfg).
Lemma demo_client_wired : App.ssoClient demo_cfg = Some demo_client.
Proof. reflexivity. Qed.
Lemma demo_hydra_quiet : quiet_admin (sso_admin demo_provider).
Proof. exact (quiet_hydra demo_cfg demo_quiet demo_hydra eq_refl). Qed.
Lemma demo_issuer_quiet : quiet_relying_party (relyingParty demo_client).
Proof. exact (quiet_issuer demo_cfg demo_quiet demo_issuer eq_refl). Qed.

Definition dora : SSOIdentity := mkSSOIdentity "subject-9" "dora@example.org" true "Dora" "hu" "hydra-session" "token".
Lemma sso_sign_in_account_witness :
  ∃ w u, SSOClient.account dora 2000 site = (w, Ok u) ∧
    ∃ i, (∃ k, linked_to (db w) SSOClient.SSOProviderName "subject-9" k i) ∧ identity_UserID i = user_ID u.
Proof.
  run (SSOClient.account dora 2000) from site as u E Er.
  destruct (sso_sign_in_account dora 2000 site _ u site_wf ltac:(discriminate) E) as (Hl & _). exact Hl.
Defined.

(** The guest has asked to become an issuer account. *)
Definition asked : World := world_of (db (fst (SSOClient.StartUpgrade demo_client 3 site))).
Lemma asked_wf : db_wf (db asked).
Proof.
  unfold asked. rewrite world_of_db.
  pose proof (StartUpgrade_steps true demo_client demo_issuer_quiet 3 site) as Hs. unfold on_db in Hs.
  exact (steps_wf _ _ _ Hs site_wf).
Qed.
Lemma sso_callback_is_for_its_browser_witness :
  ∃ w r, SSOClient.Callback demo_client 3 "subject-7" demo_state asked = (w, Ok r) ∧
    (∃ row, oauth_states (db asked) !! tokenDigest demo_state = Some (row, None)) ∧
    TrimSpace (session_SSOSessionID (sso_Session r)) ≠ "".
Proof.
  run (SSOClient.Callback demo_client 3 "subject-7" demo_state) from asked as r E Er.
  destruct (sso_callback_is_for_its_browser demo_cfg demo_client 3 "subject-7" demo_state asked _ r demo_quiet demo_client_wired asked_wf E)
    as ((row & now & Hrow & _) & Hs & _). split; [exists row; exact Hrow|exact Hs].
Defined.

Lemma login_vouches_for_eligible_accounts_witness :
  ∃ w r, SSOProvider.CompleteLogin demo_provider "challenge" 2 site = (w, Ok r) ∧
    (vouches demo_provider "challenge" 2 site w (Ok r) ∨ declines demo_provider "challenge" site w (Ok r)).
Proof.
  run (SSOProvider.CompleteLogin demo_provider "challenge" 2) from site as r E Er.
  exact (proj1 (login_vouches_for_eligible_accounts demo_provider demo_hydra_quiet "challenge" 2 site _ (Ok r)) E).
Defined.

Lemma consent_is_recorded_and_scoped_witness :
  ∃ w r, SSOProvider.Consent demo_provider "challenge" site = (w, Ok r) ∧
    ((∃ u, may_sign_in demo_provider (db site) u) ∨
     (∃ w1, RejectConsent demo_hydra "challenge" w1 = (w, Ok r))).
Proof.
  run (SSOProvider.Consent demo_provider "challenge") from site as r E Er.
  destruct (consent_is_recorded_and_scoped demo_provider demo_hydra_quiet "challenge" site _ (Ok r) E)
    as [(q & u & v & g & w0 & w1 & _ & _ & Hm & _)|[(w1 & _ & Hr)|(e & He & _)]].
  - left. exists u. exact Hm.
  - right. exists w1. exact Hr.
  - discriminate He.
Defined.

(** Bob has signed in to a client app. *)
Definition consented : World := world_of (db (fst (SSOProvider.Consent demo_provider "challenge" site))).
Lemma consented_wf : db_wf (db consented).
Proof.
  unfold consented. rewrite world_of_db.
  pose proof (Consent_steps true demo_provider demo_hydra_quiet "challenge" site) as Hs. unfold on_db in Hs.
  exact (steps_wf _ _ _ Hs site_wf).
Qed.
Example bob_is_on_record :
  map_to_list (sso_login_sessions (db consented)) = [("hydra-session", mkLoginSession "hydra-session" 2 2000 5600)].
Proof. vm_compute. reflexivity. Qed.
Lemma revocation_reaches_every_client_witness :
  ∃ w r, SSOProvider.RevokeUser demo_provider 2 consented = (w, Ok r) ∧
    ∀ k x, sso_login_sessions (db w) !! k = Some x → login_UserID x ≠ 2.
Proof.
  run (SSOProvider.RevokeUser demo_provider 2) from consented as [] E Er.
  destruct (revocation_reaches_every_client demo_provider demo_hydra_quiet 2 consented _ (Ok tt) consented_wf E) as [Hall _].
  destruct (Hall eq_refl) as [_ Hk]. intros k x Hx. exact (proj2 (proj1 (Hk k x) Hx)).
Defined.

Lemma back_channel_logout_ends_bound_sessions_witness :
  ∃ w r, SSOClient.BackChannelLogout demo_client "hydra-session" site = (w, Ok r) ∧
    ∃ id, ∀ k y, sessions (db w) !! k = Some y → session_SSOSessionID y = id → session_RevokedAt y ≠ None.
Proof.
  run (SSOClient.BackChannelLogout demo_client "hydra-session") from site as [] E Er.
  destruct (back_channel_logout_ends_bound_sessions demo_client demo_issuer_quiet "hydra-session" site _ E)
    as (id & w1 & t & _ & _ & _ & _ & _ & Hb & _). exists id. exact Hb.
Defined.
