(* ===== verification/WebProps.v ===== *)
(** * What holds of the site behind its router

    Any requests, in any order, with whatever headers, cookies and forms. *)
From S2P Require Export WebSteps AccountProps Safety.
Import UserRepository SessionRepository Sessions Locale WebSession WebAuth.

(** Requests one after another; a response goes to its own client. *)
Fixpoint serve_requests (h : handler) (rs : list Request) (w : World) : World :=
  match rs with
  | [] => w
  | r :: rs => serve_requests h rs (fst (fst (h r (w, no_response))))
  end.

Section web.
Context `{Unicode, MailParser, Postgres, Crypto, PasswordHashing, URLParser, !PasswordHashingLaws, FloatParser, ReferenceParser, Templates}.
Context (site : Site) (Hsite : quiet_site site).
Let Hports : quiet_ports (site_config site) := site_ports site Hsite.
Context (proxy : string) (log : LogLine → Web unit) (enqueue : UsageEvent → Web unit).
Context (Hlog : quiet_port log) (Henq : quiet_port enqueue).
#[local] Abbreviation router := (Routes.router site proxy log enqueue).
#[local] Abbreviation cookie := (site_cookie site).
#[local] Abbreviation cfg := (site_config site).

Lemma serve_requests_upkeep del rs w : Forall (within del) rs → upkeep del (db w) (db (serve_requests router rs w)).
Proof.
  intros Hrs. revert w. induction Hrs as [|r rs Hr _ IH]; intros w; simpl; [reflexivity|]. etransitivity; [|apply IH].
  exact (router_steps site Hsite proxy log enqueue Hlog Henq del r Hr (w, no_response)).
Qed.
Lemma any_requests rs : Forall (within true) rs.
Proof. apply Forall_forall. intros. by left. Qed.

(** C3. Whatever requests reach the site, and in whatever order, those of its
    administrators and the maintenance they start included, the data stay well
    formed and an administrator of the site remains; and as long as none of
    them posts to the page that deletes an account, every group keeps an
    administrator. *)
Theorem requests_keep_the_site_sound rs w :
  db_wf (db w) →
  db_wf (db (serve_requests router rs w)) ∧
  (has_site_admin (db w) → has_site_admin (db (serve_requests router rs w))) ∧
  (Forall (λ r, deletes_account r = false) rs → groups_administered (db w) → groups_administered (db (serve_requests router rs w))).
Proof.
  intros Hwf. pose proof (serve_requests_upkeep true rs w (any_requests rs)) as Hu. split_and!.
  - by eapply upkeep_wf.
  - intros Ha. eapply (upkeep_keep true has_site_admin) in Hu as [_ ?]; eauto using purges_site_admin. intros. by eapply change_site_admin.
  - intros Hrs Ha. assert (upkeep false (db w) (db (serve_requests router rs w))) as Hf.
    { apply serve_requests_upkeep. eapply Forall_impl; [exact Hrs|]. intros r Hr. by right. }
    eapply (upkeep_keep false groups_administered) in Hf as [_ ?]; eauto using purges_groups. intros. by eapply change_groups_administered.
Qed.

(** ** Sessions that end *)
Lemma sendable_visible id : validSessionCookieValue id = true → TrimSpace id ≠ "" ∧ len id ≤ 64.
Proof.
  unfold validSessionCookieValue. rewrite !andb_true_iff, negb_true_iff, orb_false_iff, Z.ltb_ge. intros [[Hne Hl] Hv]. split; [|done].
  destruct id as [|c id]; [done|]. simpl in Hv. apply andb_true_iff in Hv as [Hc _]. unfold session_value_byte in Hc.
  rewrite !andb_true_iff, Z.leb_le, Z.ltb_lt in Hc. apply TrimSpace_visible; [apply Z.ltb_lt; lia|].
  unfold IsSpace. simpl. repeat (apply orb_false_iff; split); try done; try (apply Z.eqb_neq; lia).
  unfold in_range. apply andb_false_iff. left. apply Z.leb_gt. lia.
Qed.
(** Signing out that succeeds has revoked the stored session. *)
Lemma fault_not_missing f : errors_Is (mapSessionError (fault_error f)) ErrSessionNotFound = false ∧
  errors_Is (mapSessionError (fault_error f)) ErrInvalidSessionID = false.
Proof. by destruct f as [[] ?]. Qed.
Lemma Revoke_errors id w w' row e :
  TrimSpace id ≠ "" → len id ≤ 64 → sessions (db w) !! sessionDigest id = Some row → Revoke id w = (w', Err e) →
  ∃ f, faults w ≠ [] ∧ e = Errorf "revoke session" (mapSessionError (fault_error f)).
Proof.
  intros Ht Hl Hrow. unfold Revoke, validateSessionID, maxSessionID. rewrite (proj2 (String.eqb_neq _ _) Ht), (proj2 (Z.ltb_ge _ _) Hl).
  assert (id ≠ "") as Hne by by intros ->. unfold RevokeSession. rewrite (proj2 (String.eqb_neq _ _) Hne), (proj2 (Z.ltb_ge _ _) Hl).
  unfold unix_now, bind, lift, time_Now, ret, map_err, guard, statement, next_fault, revoke_session. simpl. rewrite Hrow.
  destruct (faults w) as [|[f|] fs]; simpl; [done| |done]. intros He. exists f. split; [done|]. by injection He.
Qed.
Lemma Revoke_ok id w w' row :
  Revoke id w = (w', Ok tt) → sessions (db w) !! sessionDigest id = Some row →
  ∃ row' t, sessions (db w') !! sessionDigest id = Some row' ∧ session_RevokedAt row' = Some t ∧ session_UserID row' = session_UserID row.
Proof.
  intros Hr Hrow. destruct (Revoke_row _ _ _ _ Hr Hrow) as [t Ht]. by exists (with_RevokedAt (Some t) row), t.
Qed.
Lemma SignOut_ok id w w' row :
  validSessionCookieValue id = true → SignOut id w = (w', Ok tt) → sessions (db w) !! sessionDigest id = Some row →
  ∃ row' t, sessions (db w') !! sessionDigest id = Some row' ∧ session_RevokedAt row' = Some t ∧ session_UserID row' = session_UserID row.
Proof.
  intros Hv Hs Hrow. apply sendable_visible in Hv as [Ht Hl]. unfold SignOut in Hs.
  rewrite (proj2 (String.eqb_neq _ _) Ht) in Hs. apply bind_ok in Hs as (w1 & res & Hr & Hs). unfold attempt in Hr.
  destruct (Revoke id w) as [w2 [[]|e]] eqn:E; injection Hr as <- <-.
  - apply ret_ok in Hs as [_ <-]. by eapply Revoke_ok.
  - exfalso. assert (errors_Is e ErrSessionNotFound = false ∧ errors_Is e ErrInvalidSessionID = false) as [E1 E2]; [|by rewrite E1, E2 in Hs].
    eapply Revoke_errors in E as (f & _ & ->); [|eassumption..]. apply fault_not_missing.
Qed.
Lemma SignOut_goes_through id w row :
  faults w = [] → validSessionCookieValue id = true → sessions (db w) !! sessionDigest id = Some row → ∃ w', SignOut id w = (w', Ok tt).
Proof.
  intros Hf Hv Hrow. apply sendable_visible in Hv as [Ht Hl]. unfold SignOut. rewrite (proj2 (String.eqb_neq _ _) Ht).
  unfold bind, attempt. destruct (Revoke id w) as [w' [[]|e]] eqn:E; [by eexists|]. by eapply Revoke_errors in E as (f & ? & _); [|eassumption..].
Qed.

(** A session that has been revoked never stands for its account again. *)
Lemma FormatInt_inj x y : 0 ≤ x → 0 ≤ y → FormatInt x = FormatInt y → x = y.
Proof. intros. rewrite !FormatInt_nonneg in * by done. apply Z2N.inj; [done|done|]. by apply (inj pretty). Qed.
(** No request the site serves from here on, and no other after them, is
    accepted with the cookie value [id] as the account [userID]. *)
Definition never_again (w : World) (id : string) (userID : Z) : Prop :=
  ∀ rs w' r, db w' = db (serve_requests router rs w) → Read cookie r = Some id →
    match Authenticate cookie r w' with
    | (_, Ok p) => principal_ID p ≠ FormatInt userID
    | (_, Err _) => True
    end.
Lemma revoked_never_again d w id row t :
  db_wf d → sessions d !! sessionDigest id = Some row → session_RevokedAt row = Some t → upkeep true d (db w) →
  never_again w id (session_UserID row).
Proof.
  intros Hwf Hrow Ht Hdw rs w' r Hw' Hid. destruct (Authenticate cookie r w') as [w2 [p|]] eqn:E; [|done].
  apply Authenticate_ok in E as (id' & row' & user & Hid' & Hrow' & Hn & _ & Huser & Hu & -> & _ & _). rewrite Hid in Hid'. injection Hid' as <-.
  rewrite Hw' in *. assert (upkeep true d (db (serve_requests router rs w))) as Hs by (etransitivity; [exact Hdw|apply serve_requests_upkeep, any_requests]).
  pose proof (upkeep_wf true _ _ Hs Hwf) as Hwf'.
  destruct (wf_sessions _ Hwf _ _ Hrow) as [_ Ho]. destruct (Ho _ eq_refl) as [u Hux].
  destruct (wf_users _ Hwf _ _ Hux) as [(Hi1 & Hp1 & _) _]. destruct (wf_users _ Hwf' _ _ Huser) as [(Hi2 & Hp2 & _) _].
  pose proof (upkeep_revoked true _ _ _ _ _ _ Hwf Hs Hrow Ht Hrow' Hn) as Hne. intros Heq. apply FormatInt_inj in Heq; lia.
Qed.

(** ** Signing out *)
Lemma Now_runs s : ∃ w now, Now s = ((w, s.2), Ok now) ∧ db w = db s.1 ∧ clock s.1 ≤ now.
Proof. eexists _, _. split_and!; [reflexivity|done|]. simpl. destruct (ticks s.1); lia. Qed.
Lemma issuer_logout_runs id s : ∃ w' url, issuer_logout site id s = ((w', s.2), Ok url) ∧ db w' = db s.1 ∧ (App.ssoClient cfg = None → w' = s.1).
Proof.
  unfold issuer_logout. destruct (App.ssoClient cfg) as [c|] eqn:E; [|by exists s.1, ""; destruct s].
  destruct (ssoClient_quiet cfg Hports c E) as [Hq _].
  assert (quiet (SSOClient.SignOutURL c id)) as Hp.
  { unfold quiet, SSOClient.SignOutURL, FindSSOIDToken. preserves_tac. apply (quiet_EndSessionURL _ Hq). }
  specialize (Hp s.1). unfold bind, call. destruct (SSOClient.SignOutURL c id s.1) as [w' url] eqn:Eu. simpl in *.
  eexists w', _. split; [reflexivity|]. unfold on_db in Hp. by split.
Qed.
(** What ending the browser's session comes to. *)
Lemma end_session_runs r id row s :
  Read cookie r = Some id → sessions (db s.1) !! sessionDigest id = Some row →
  ∃ w' url, end_session site r s = ((w', s.2), Ok url) ∧ steps true (db s.1) (db w') ∧
    (is_Some url → ∃ row' t, sessions (db w') !! sessionDigest id = Some row' ∧ session_RevokedAt row' = Some t ∧
                             session_UserID row' = session_UserID row) ∧
    (faults s.1 = [] → App.ssoClient cfg = None → is_Some url).
Proof.
  intros Hid Hrow. assert (validSessionCookieValue id = true) as Hv.
  { unfold Read in Hid. destruct (Cookie_ r _); [|done]. destruct (validSessionCookieValue _) eqn:Hv; [congruence|done]. }
  unfold end_session. rewrite Hid. destruct (issuer_logout_runs id s) as (w1 & url & E & Hd & Hw). rewrite (bind_of_ok _ _ _ _ _ E).
  unfold bind, call. simpl. destruct (SignOut id w1) as [w2 res] eqn:Es. simpl.
  pose proof (SignOut_steps true id w1) as Hs. rewrite Es in Hs. unfold on_db in Hs. simpl in Hs. rewrite Hd in Hs.
  eexists w2, _. split; [reflexivity|]. split; [done|]. rewrite <- Hd in Hrow. split.
  - destruct res as [[]|]; [|by intros [? ?]]. intros _. by eapply SignOut_ok.
  - intros Hf Hc. rewrite (Hw Hc) in *. destruct (SignOut_goes_through id s.1 row Hf Hv Hrow) as [w3 E3]. rewrite E3 in Es. by injection Es as <- <-.
Qed.

(** C10. Signing out ends the session of the browser: the cookie is cleared only
    when the stored session has been revoked, and from then on no request, now
    or after any others, is accepted with that cookie as the account.  When the
    session cannot be ended the answer is an error that leaves the cookie
    alone; without failures, and with no issuer to ask first, it is ended. *)
Theorem sign_out_ends_the_session r id row w :
  db_wf (db w) → req_Method r = MethodPost → Read cookie r = Some id → sessions (db w) !! sessionDigest id = Some row →
  let s := fst (signOut site r (w, no_response)) in
  (resp_Cookies s.2 = [cleared cookie] ∧ never_again s.1 id (session_UserID row) ∨
   resp_Cookies s.2 = [] ∧ resp_Status s.2 = StatusInternalServerError) ∧
  (faults w = [] → App.ssoClient cfg = None → resp_Cookies s.2 = [cleared cookie]).
Proof.
  intros Hwf Hm Hid Hrow s. destruct (end_session_runs r id row (w, no_response) Hid Hrow) as (w' & url & E & Hs & Hended & Hfine). simpl in *.
  subst s. unfold signOut. rewrite Hm, String.eqb_refl. cbn [negb]. rewrite (bind_of_ok _ _ _ _ _ E). destruct url as [url|].
  - destruct (Hended ltac:(by eexists)) as (row' & t & Hrow' & Ht & Hu). rewrite <- Hu.
    pose proof (steps_wf true _ _ Hs Hwf) as Hwf'.
    destruct (Now_runs (w', no_response)) as (w2 & now & En & Hd & _). rewrite (bind_of_ok _ _ _ _ _ En). simpl in Hd.
    assert (never_again w2 id (session_UserID row')) as Hno by (eapply revoked_never_again; [exact Hwf'|done|done|by rewrite Hd]).
    destruct (negb (String.eqb url "")) eqn:E1; [|destruct (negb (String.eqb (site_SSOLogoutURL site) "")) eqn:E2; [|unfold redirectLocalized; destruct (Path _ _)]];
      (split; [left; split; [reflexivity|exact Hno]|reflexivity]).
  - split; [by right|]. intros Hf Hc. by destruct (Hfine Hf Hc).
Qed.





(** ** Whom a request acts for *)
Lemma call_runs {A} (m : M A) s : ∃ w o, call m s = ((w, s.2), Ok o) ∧ m s.1 = (w, o).
Proof. unfold call. destruct (m s.1) as [w o] eqn:E. by exists w, o. Qed.
Lemma Authenticate_db r w : db (fst (Authenticate cookie r w)) = db w.
Proof. symmetry. exact (preserves_Authenticate eq cookie r w). Qed.
Lemma FindUserByID_db id w : db (fst (FindUserByID id w)) = db w.
Proof. symmetry. exact (preserves_FindUserByID eq id w). Qed.
Lemma currentUser_runs r s : ∃ w a, currentUser site r s = ((w, s.2), Ok a) ∧ db w = db s.1.
Proof.
  unfold currentUser, authenticate. destruct (call_runs (Authenticate cookie r) s) as (w1 & p & E & Ea).
  pose proof (Authenticate_db r s.1) as Hd. rewrite Ea in Hd. rewrite (bind_of_ok _ _ _ _ _ E).
  destruct p as [p|]; [|by eexists _, _]. destruct (ParseInt _) as [id|]; [|by eexists _, _].
  destruct (call_runs (FindUserByID id) (w1, s.2)) as (w2 & u & Eu & Hu). simpl in Eu, Hu.
  pose proof (FindUserByID_db id w1) as Hd2. rewrite Hu in Hd2. rewrite (bind_of_ok _ _ _ _ _ Eu). simpl in Hd, Hd2.
  destruct u as [u|]; eexists _, _; (split; [reflexivity|congruence]).
Qed.

(** C38. A callback of an external provider or of the issuer counts only in the
    browser that started the sign-in: without the state cookie that goes with
    the [state] of the address nothing is stored and no session is given, so a
    visitor cannot be signed in to someone else's account by a link. *)
Theorem callback_needs_the_state_cookie provider client r w :
  Query_Get r "state" = "" ∨ Cookie_ r WebFlows.oauthStateCookieName ≠ Some (Query_Get r "state") →
  ∀ h, h ∈ [WebFlows.oauthCallback site provider; WebFlows.ssoCallback site client] →
  let s := fst (h r (w, no_response)) in
  db s.1 = db w ∧ ∀ c, c ∈ resp_Cookies s.2 → cookie_Name c = WebFlows.oauthStateCookieName ∧ cookie_Value c = "" ∧ cookie_MaxAge c = -1.
Proof.
  intros Hno h Hh s. subst s.
  assert (WebFlows.oauthStateBound r (Query_Get r "state") = false) as Hb.
  { unfold WebFlows.oauthStateBound. destruct (Cookie_ r _) as [value|]; [|done].
    destruct (String.eqb_spec (Query_Get r "state") ""); [done|]. destruct (String.eqb_spec value (Query_Get r "state")); [|done]. destruct Hno; congruence. }
  assert (∀ s : World * Response, ∀ m : Web unit, m ∈ [WebFlows.oauthFailureRedirect r; WebFlows.ssoClientFailure r] ∨
    (∃ l rt, m = redirectLocalized l rt) → (fst (m s)).1 = s.1 ∧ resp_Cookies (fst (m s)).2 = resp_Cookies s.2) as Hanswer.
  { intros s m. unfold WebFlows.oauthFailureRedirect, WebFlows.ssoClientFailure, redirectWithStatus, redirectLocalized.
    intros [[->|[->|[]%not_elem_of_nil]%elem_of_cons]%elem_of_cons|(l & rt & ->)]; repeat case_match; done. }
  assert (∀ m w', m ∈ [WebFlows.oauthFailureRedirect r; WebFlows.ssoClientFailure r] ∨ (∃ l rt, m = redirectLocalized l rt) → db w' = db w →
    let s := fst (m (w', snd (fst (WebFlows.clearOAuthStateCookie site (w, no_response))))) in
    db s.1 = db w ∧ ∀ c, c ∈ resp_Cookies s.2 → cookie_Name c = WebFlows.oauthStateCookieName ∧ cookie_Value c = "" ∧ cookie_MaxAge c = -1) as Hcleared.
  { intros m w' Hm Hd. cbv zeta. destruct (Hanswer (w', snd (fst (WebFlows.clearOAuthStateCookie site (w, no_response)))) m Hm) as [-> ->].
    split; [done|]. intros c. simpl. by intros ->%list_elem_of_singleton. }
  apply elem_of_cons in Hh as [->|Hh]; [|apply elem_of_cons in Hh as [->|Hh%not_elem_of_nil]; [|done]].
  - unfold WebFlows.oauthCallback. destruct (negb _).
    + destruct (Hanswer (w, no_response) (WebFlows.oauthFailureRedirect r) ltac:(left; apply list_elem_of_here)) as [-> ->].
      split; [done|]. intros c Hc. by apply not_elem_of_nil in Hc.
    + rewrite Hb. apply (Hcleared (WebFlows.oauthFailureRedirect r) w); [left; apply list_elem_of_here|done].
  - set (s1 := fst (WebFlows.clearOAuthStateCookie site (w, no_response))).
    destruct (currentUser_runs r s1) as (w' & [actor signedIn] & E & Hd).
    assert (WebFlows.ssoCallback site client r (w, no_response) = WebFlows.ssoCallbackFailure r (signedIn && user_IsGuest actor) None (w', s1.2)) as ->.
    { unfold WebFlows.ssoCallback. rewrite Hb. change (WebFlows.clearOAuthStateCookie site) with (write (λ r, mkResponse (resp_Status r) (resp_Headers r)
        (resp_Cookies r ++ resp_Cookies s1.2) (resp_Body r))). by rewrite (bind_of_ok _ _ _ s1 tt eq_refl), (bind_of_ok _ _ _ _ _ E). }
    apply Hcleared; [|done].
    unfold WebFlows.ssoCallbackFailure. destruct (negb _); [left; apply list_elem_of_further, list_elem_of_here|right; by eexists _, _].
Qed.

(** A page of the signed-in account is shown, and its forms are carried
    out, for the account of the live session in the browser's cookie and for no
    other: either the handler runs with exactly that account, on unchanged
    data, or it does not run at all. *)
Theorem pages_act_for_the_session r s :
  db_wf (db s.1) →
  (∃ id row user w', Read cookie r = Some id ∧ sessions (db s.1) !! sessionDigest id = Some row ∧
     session_RevokedAt row = None ∧ Unix (clock s.1) < session_ExpiresAt row ∧
     users (db s.1) !! session_UserID row = Some user ∧ user_ID user = session_UserID row ∧ db w' = db s.1 ∧
     ∀ next, WebSettings.withPageUser site r next s = next user (recoveryLanguage r) (w', s.2)) ∨
  (∀ next next', WebSettings.withPageUser site r next s = WebSettings.withPageUser site r next' s).
Proof.
  intros Hwf. unfold WebSettings.withPageUser, authenticate. destruct (call_runs (Authenticate cookie r) s) as (w1 & p & E & Ea).
  destruct p as [p|e]; [|right; intros next next'; by rewrite !(bind_of_ok _ _ _ _ _ E)].
  apply Authenticate_ok in Ea as (id & row & user & Hid & Hrow & Hn & Hx & Hu & Huid & Hp & _ & Hd).
  destruct (ParseInt (principal_ID p)) as [userID|] eqn:Epi; [|right; intros next next'; by rewrite !(bind_of_ok _ _ _ _ _ E), Epi].
  assert (userID = session_UserID row) as ->.
  { destruct (wf_users _ Hwf _ _ Hu) as [(_ & Hpos & _) _]. rewrite Hp, ParseInt_FormatInt_pos in Epi by lia. destruct (in_range _ _ _); congruence. }
  destruct (call_runs (FindUserByID (session_UserID row)) (w1, s.2)) as (w2 & u & Eu & Hfind). simpl in Eu, Hfind.
  pose proof (FindUserByID_db (session_UserID row) w1) as Hd2. rewrite Hfind in Hd2. simpl in Hd2.
  destruct u as [u|]; [|right; intros next next'; by rewrite !(bind_of_ok _ _ _ _ _ E), Epi, !(bind_of_ok _ _ _ _ _ Eu)].
  apply FindUserByID_ok in Hfind as (_ & Hu2 & _). rewrite Hd, Hu in Hu2. injection Hu2 as <-.
  left. exists id, row, user, w2. split_and!; try done; [congruence|]. intros next.
  rewrite (bind_of_ok _ _ _ _ _ E), Epi, (bind_of_ok _ _ _ _ _ Eu), Huid, Z.eqb_refl. done.
Qed.

(** Every cookie the site ever writes is one of its four: hidden from
    scripts, limited to requests of the same site (as far as configured for the
    session), and marked secure when the site is. *)
Theorem cookies_are_protected config r w :
  NewSessionCookie config = Ok cookie →
  Forall (λ c, own_cookie site c ∧ validSameSite (cookie_SameSite c) = true) (resp_Cookies (snd (fst (router r (w, no_response))))).
Proof.
  intros Hc. apply NewSessionCookie_ok in Hc as (_ & _ & _ & _ & Hss).
  destruct (router_cookies site Hsite proxy log enqueue Hlog Henq r (w, no_response)) as (cs & -> & Hcs).
  eapply Forall_impl; [exact Hcs|]. intros c Hown. split; [done|]. pose proof (own_same_site _ _ Hown) as Hin.
  apply elem_of_cons in Hin as [->|Hin]; [done|]. apply elem_of_cons in Hin as [->|Hin]; [done|]. by apply list_elem_of_singleton in Hin as ->.
Qed.
End web.

(** ** The administrator area is for administrators *)

Section admin.
Context `{Unicode, MailParser, Postgres, Crypto, PasswordHashing, URLParser, !PasswordHashingLaws, FloatParser, ReferenceParser, Templates}.
Context (site : Site).
#[local] Abbreviation cookie := (site_cookie site).
#[local] Abbreviation same := (preserves (on_site eq)).

(** The session in the browser's cookie is live and of an administrator. *)
Definition administrator_of (r : Request) (w : World) (user : User) : Prop :=
  ∃ id row, Read cookie r = Some id ∧ sessions (db w) !! sessionDigest id = Some row ∧
    session_RevokedAt row = None ∧ Unix (clock w) < session_ExpiresAt row ∧
    users (db w) !! session_UserID row = Some user ∧ user_ID user = session_UserID row ∧ user_IsAdmin user = true.
Lemma authorize_cases r s : db_wf (db s.1) →
  (∃ user w', administrator_of r s.1 user ∧ db w' = db s.1 ∧ ∀ next, WebAdmin.authorize site r next s = next user (recoveryLanguage r) (w', s.2)) ∨
  ∀ next next', WebAdmin.authorize site r next s = WebAdmin.authorize site r next' s.
Proof.
  intros Hwf. unfold WebAdmin.authorize, authenticate. destruct (call_runs (Authenticate cookie r) s) as (w1 & p & E & Ea).
  destruct p as [p|e]; [|right; intros next next'; by rewrite !(bind_of_ok _ _ _ _ _ E)].
  apply Authenticate_ok in Ea as (id & row & user & Hid & Hrow & Hn & Hx & Hu & Huid & Hp & _ & Hd).
  destruct (ParseInt (principal_ID p)) as [userID|] eqn:Epi; [|right; intros next next'; by rewrite !(bind_of_ok _ _ _ _ _ E), Epi].
  assert (userID = session_UserID row) as ->.
  { destruct (wf_users _ Hwf _ _ Hu) as [(_ & Hpos & _) _]. rewrite Hp, ParseInt_FormatInt_pos in Epi by lia. destruct (in_range _ _ _); congruence. }
  destruct (session_UserID row <=? 0) eqn:E0; [right; intros next next'; by rewrite !(bind_of_ok _ _ _ _ _ E), Epi, E0|].
  destruct (call_runs (FindUserByID (session_UserID row)) (w1, s.2)) as (w2 & u & Eu & Hfind). simpl in Eu, Hfind.
  pose proof (FindUserByID_db (session_UserID row) w1) as Hd2. rewrite Hfind in Hd2. simpl in Hd2.
  destruct u as [u|]; [|right; intros next next'; by rewrite !(bind_of_ok _ _ _ _ _ E), Epi, E0, !(bind_of_ok _ _ _ _ _ Eu)].
  apply FindUserByID_ok in Hfind as (_ & Hu2 & _). rewrite Hd, Hu in Hu2. injection Hu2 as <-.
  destruct (user_IsAdmin user) eqn:Ha.
  - left. exists user, w2. split_and!; [exists id, row; by split_and!|congruence|]. intros next.
    by rewrite (bind_of_ok _ _ _ _ _ E), Epi, E0, (bind_of_ok _ _ _ _ _ Eu), Huid, Z.eqb_refl, Ha.
  - right. intros next next'. by rewrite !(bind_of_ok _ _ _ _ _ E), Epi, E0, !(bind_of_ok _ _ _ _ _ Eu), Huid, Z.eqb_refl, Ha.
Qed.

(** ** Answers leave the data alone *)
#[local] Hint Resolve preserves_call : go_preserves.
#[local] Hint Extern 1 (same (call _)) => (apply preserves_call; solve [eauto with go_preserves]) : go_preserves.
Lemma same_page r p st : same (RenderRequestStatus r p st).
Proof. unfold RenderRequestStatus, renderStatus. preserves_tac. Qed.
#[local] Hint Resolve same_page : go_preserves.
Lemma same_state r l st : same (WebAdmin.renderState site r l st).
Proof. unfold WebAdmin.renderState, RenderState, renderError. preserves_tac. Qed.
Lemma same_authenticate r : same (authenticate site r).
Proof. apply preserves_call, WebSession.preserves_Authenticate. apply _. Qed.
Lemma same_find id : same (call (FindUserByID id)).
Proof. intros s. unfold on_site, db_of, call. pose proof (FindUserByID_db id s.1) as Hd. by destruct (FindUserByID id s.1). Qed.
#[local] Hint Resolve same_state same_authenticate same_find : go_preserves.
Lemma same_refused r : same (WebAdmin.authorize site r (λ _ _, ret tt)).
Proof. unfold WebAdmin.authorize, renderError, hx_redirect, redirectLocalized. preserves_tac. Qed.
Lemma authorized_only r next s : db_wf (db s.1) →
  (∃ user, administrator_of r s.1 user) ∨ db_of (WebAdmin.authorize site r next s).1 = db_of s.
Proof.
  intros Hwf. destruct (authorize_cases r s Hwf) as [(user & w' & Ha & _)|Hno]; [left; by exists user|right].
  rewrite (Hno next (λ _ _, ret tt)). symmetry. exact (same_refused r s).
Qed.

(** ** Routes *)
#[local] Hint Extern 1 (same (currentUser site _)) => unfold currentUser; preserves_tac : go_preserves.
Lemma same_render_public r l p : same (Routes.render_public site r l p).
Proof. unfold Routes.render_public, Routes.applySessionState, Middlewares.internal_error. cbv zeta. preserves_tac. Qed.
#[local] Hint Resolve same_render_public : go_preserves.
Lemma same_not_found r : same (renderNotFound (site_catalogs site) r).
Proof. unfold renderNotFound, RenderState, Middlewares.internal_error. preserves_tac. Qed.
#[local] Hint Resolve same_not_found : go_preserves.
Lemma same_home r : same (Routes.home site r).
Proof.
  unfold Routes.home, Middlewares.internal_error. destruct (ParsePath _) as [[l rt]|]; [|preserves_tac].
  repeat case_match; preserves_tac.
Qed.
#[local] Hint Resolve same_home : go_preserves.
Lemma same_localized r : same (Routes.localized site r).
Proof. unfold Routes.localized. destruct (ParsePath _) as [[l rt]|]; [|preserves_tac]. repeat case_match; preserves_tac. Qed.
Lemma same_default r : same (Routes.defaultLocale r).
Proof. unfold Routes.defaultLocale, Middlewares.internal_error. preserves_tac. Qed.

(** Behind [authorize], or out of the way of the area, or without effect. *)
Definition guarded_route (rt : route) : Prop :=
  (∀ r, ∃ next, route_Handler rt r = WebAdmin.authorize site r next) ∨
  (∀ l rest, Routes.matches (route_Pattern rt) (l :: "admin" :: rest) = None) ∨ (∀ r, same (route_Handler rt r)).
Ltac elsewhere := right; left; intros l' rest; simpl; repeat (case_match; try done).
Ltac guarded_tac := repeat first [apply Forall_nil; done | apply Forall_cons; split | apply Forall_app; split].
Lemma routes_guarded : Forall guarded_route (Routes.routes site).
Proof.
  unfold Routes.routes. apply Forall_app. split; [apply WebSteps.Forall_bind; intros l|apply Forall_app; split].
  - unfold Routes.language_routes. rewrite !Forall_app. split_and!.
    + destruct (App.ssoClient _) as [c|]; [unfold Routes.client_routes, Routes.get_post; cbn [app]; guarded_tac; elsewhere|].
      apply Forall_app. split.
      * unfold Routes.credential_routes, Routes.get_post. cbn [app]. guarded_tac; try elsewhere.
        apply WebSteps.Forall_bind. intros n. unfold Routes.provider_routes. guarded_tac; elsewhere.
      * unfold Routes.credential_admin_routes, Routes.get_post. cbn [app]. guarded_tac; left; intros r; eexists; reflexivity.
    + unfold Routes.common_routes, Routes.get_post. cbn [app]. guarded_tac; elsewhere.
    + unfold Routes.admin_routes, Routes.get_post. cbn [app]. guarded_tac; left; intros r; eexists; reflexivity.
  - unfold Routes.sso_routes. apply Forall_app. split; [destruct (App.ssoProvider _)|destruct (App.ssoClient _)]; guarded_tac; elsewhere.
  - guarded_tac; [elsewhere|elsewhere|right; right; intros; apply same_localized|right; right; intros; apply same_default].
Qed.

(** C5. The administrator area is closed to everybody else: whatever a request
    under /<language>/admin asks for, page or action, either the cookie it
    carries belongs to a live session of an administrator or it leaves the data
    exactly as they were. *)
Theorem admin_area_is_for_administrators r language rest s :
  db_wf (db s.1) → Routes.segments_of (req_Path r) = language :: "admin" :: rest →
  (∃ user, administrator_of r s.1 user) ∨ db_of (Routes.ServeMux (Routes.routes site) r s).1 = db_of s.
Proof.
  intros Hwf Hpath. unfold Routes.ServeMux. destruct (Routes.find_route _ _ _) as [[h v]|] eqn:E.
  - apply find_route_In in E as (rt & Hin & -> & Hv). pose proof routes_guarded as Hf. rewrite Forall_forall in Hf. rewrite Hpath in Hv.
    destruct (Hf rt Hin) as [Hg|[Hno|Hs]].
    + destruct (Hg (with_PathValues v r)) as [next ->]. exact (authorized_only (with_PathValues v r) next s Hwf).
    + by rewrite Hno in Hv.
    + right. symmetry. exact (Hs (with_PathValues v r) s).
  - right. destruct (String.eqb _ ""); reflexivity.
Qed.
End admin.
