(* ===== verification/WebDemo.v ===== *)
(** * A concrete site behind its router

    The parameters of the web layer made concrete, a site over the database of
    Demo.v, a few requests, and the witnesses of the properties of WebProps.v,
    Middleware.v, WebSession.v and Catalog.v.  Nothing here models the program. *)
From S2P Require Export GroupProps WebProps.
Import UserRepository SessionRepository Sessions Locale WebSession WebAuth Middlewares.

(** A path with an optional query; decimal counts; a page shows its template's name. *)
Fixpoint cut_query (s : string) : string * string :=
  match s with
  | EmptyString => ("", "")
  | String "?" s => ("", s)
  | String c s => let (path, query) := cut_query s in (String c path, query)
  end.
#[export] Instance demo_references : ReferenceParser :=
  {| parse_reference s := let (path, query) := cut_query s in Some (mkReference "" "" path query "") |}.
#[export] Instance demo_floats : FloatParser :=
  {| ParseFloat s := (λ v, Num (QArith_base.inject_Z v)) <$> (if String.eqb s "" then None else decimal_value 0 s) |}.
#[export] Instance demo_templates : Templates := {| ExecuteTemplate name _ := Some name |}.

Definition entry (language : string) (hello items : string) : Catalog.Entry :=
  Catalog.mkEntry (language +:+ ".json") false
    (Some (<["nav.home" := Catalog.mkMessage hello "" ""]> {["items" := Catalog.mkMessage "" "{count} item" items]})).
Definition demo_entries : list Catalog.Entry := [entry "en" "Home" "{count} items"; entry "hu" "Otthon" "{count} darab"].
Definition demo_catalogs : Catalog.Catalogs :=
  match Catalog.LoadCatalogs demo_entries with Ok c => c | Err _ => Catalog.mkCatalogs "" ∅ end.

Definition cookie_config : SessionCookieConfig := mkCookieConfig "" "" true (3600 * second) SameSiteUnset.
Definition demo_cookie : SessionCookie := mkSessionCookie "goweb_session" "/" true (3600 * second) SameSiteLaxMode.
Definition local_cfg : Config :=
  mkConfig (3600 * second) false (mkURL "https" "goweb.example" "") 0 (24 * 3600 * second)
    {["acme" := mkProvider "Acme" (Some acme)]} None None.
Lemma local_quiet : quiet_ports local_cfg.
Proof. split; [exact (quiet_clients _ demo_quiet)|done|done]. Qed.
(** A process that has just started. *)
Definition demo_ports : AdminPorts := mkAdminPorts
  (mkSystemSettings "development" ":8080" "https://goweb.example" false true ["acme"] false "" 0 0 0 0 0 "" "standalone" "" "")
  (ret (mkRuntimeInfo "dev" 0 0 "go1.26" "linux" "amd64" 1 1 1 0 0 0)) (ret []) (ret (mkQueueStats 1024 0 0 0 0))
  (ret (mkCounts 0 0 0 0 0 0 0 0 0 0 0 0)) (ret []) (ret []).
Definition demo_site : Site := mkSite local_cfg demo_cookie demo_catalogs "" "" demo_ports.
Lemma demo_process : quiet_process demo_ports.
Proof. split; intros; intros w; try reflexivity. Qed.
Lemma demo_site_quiet : quiet_site demo_site.
Proof. split; [exact local_quiet|exact demo_process]. Qed.
Definition sso_site : Site := mkSite demo_cfg demo_cookie demo_catalogs "" "" demo_ports.

Definition no_log : LogLine → Web unit := λ _, ret tt.
Definition no_usage : UsageEvent → Web unit := λ _, ret tt.
Lemma no_log_quiet : quiet_port no_log.
Proof. by intros a s. Qed.
Lemma no_usage_quiet : quiet_port no_usage.
Proof. by intros a s. Qed.

(** A browser's request: a form of this site when it posts. *)
Definition visit (method path : string) (cookies form : list (string * string)) : Request :=
  mkRequest method path "goweb.example" true "203.0.113.5:4711" [("Sec-Fetch-Site", "same-origin")] cookies "" [] true 0 form []
    None None None None None.
(** A link followed from elsewhere. *)
Definition follow (path : string) (query cookies : list (string * string)) : Request :=
  mkRequest "GET" path "goweb.example" true "203.0.113.5:4711" [("Sec-Fetch-Site", "cross-site")] cookies "" query true 0 [] []
    None None None None None.
Definition token : string := sid.
Definition bobs : list (string * string) := [("goweb_session", sid); ("goweb_csrf", token)].
Definition day : list Request :=
  [visit "GET" "/en/home" bobs []; visit "POST" "/en/groups/1/leave" bobs [("_csrf", token)]; visit "POST" "/en/sign-out" bobs []].

(** Bob may look at his home page but cannot leave: the group has no other administrator. *)
Example bobs_day : (λ r, resp_Status (snd (fst (Routes.router demo_site "" no_log no_usage r (site, no_response))))) <$> day
  = [200; 422; 403].
Proof. vm_compute. reflexivity. Qed.

(** ** Witnesses *)
Lemma requests_keep_the_site_sound_witness :
  let d := db (serve_requests (Routes.router demo_site "" no_log no_usage) day site) in
  db_wf d ∧ has_site_admin d ∧ groups_administered d.
Proof.
  destruct (requests_keep_the_site_sound demo_site demo_site_quiet "" no_log no_usage no_log_quiet no_usage_quiet day site site_wf) as (Hwf & Ha & Hg).
  split; [exact Hwf|]. split; [exact (Ha (proj1 site_administered))|exact (Hg ltac:(repeat (constructor; [reflexivity|]); constructor) (proj2 site_administered))].
Defined.

Lemma sign_out_ends_the_session_witness :
  let r := visit "POST" "/en/sign-out" bobs [] in
  let s := fst (signOut demo_site r (site, no_response)) in
  resp_Cookies s.2 = [cleared demo_cookie] ∧
  match Authenticate demo_cookie r (serve_requests (Routes.router demo_site "" no_log no_usage) day s.1) with
  | (_, Ok p) => principal_ID p ≠ "2"
  | (_, Err _) => True
  end.
Proof.
  set (r := visit "POST" "/en/sign-out" bobs []).
  destruct (sign_out_ends_the_session demo_site demo_site_quiet "" no_log no_usage no_log_quiet no_usage_quiet r sid
    (mkSession (sessionDigest sid) 2 1000 100000 None "" "") site site_wf eq_refl ltac:(evaluates) ltac:(evaluates)) as [[[Hc Hno]|[Hc _]] Hfine].
  - split; [exact Hc|]. exact (Hno day _ r eq_refl ltac:(evaluates)).
  - exfalso. rewrite (Hfine eq_refl eq_refl) in Hc. discriminate Hc.
Defined.


(** A second member of the group reads its page. *)
Lemma detail_hides_from_members_witness :
  ∃ w d, Groups.Detail 3 1 (fst (Groups.Join 3 "abcdefghjkmn" site)) = (w, Ok d) ∧
    detail_IsAdmin d = false ∧ detail_InviteCode d = "" ∧ group_InviteCode (detail_Group d) = "ABCDEFGHJKMN".
Proof.
  run (Groups.Detail 3 1) from (fst (Groups.Join 3 "abcdefghjkmn" site)) as d E Er.
  destruct (detail_hides_from_members demo_site 3 1 _ _ d E) as (_ & _ & _ & _ & _ & _ & Hm).
  assert (detail_IsAdmin d = false ∧ group_InviteCode (detail_Group d) = "ABCDEFGHJKMN") as [Ha Hc].
  { vm_compute in Er. injection Er as <-. split; evaluates. }
  split; [exact Ha|]. split; [exact (proj1 (Hm Ha))|exact Hc].
Defined.

(** Mallory's link does not sign Bob in: his browser never started it. *)
Lemma callback_needs_the_state_cookie_witness :
  let s := fst (WebFlows.oauthCallback demo_site "acme"
    (follow "/en/oauth/acme/callback" [("state", "mallory"); ("code", "mallory")] bobs) (site, no_response)) in
  db s.1 = db site.
Proof.
  exact (proj1 (callback_needs_the_state_cookie demo_site "acme"
    (mkSSOClient demo_issuer (App.sessionService demo_cfg) 600 "")
    (follow "/en/oauth/acme/callback" [("state", "mallory"); ("code", "mallory")] bobs) site ltac:(right; discriminate) (WebFlows.oauthCallback demo_site "acme") ltac:(apply list_elem_of_here))).
Defined.

Lemma pages_act_for_the_session_witness :
  let r := visit "GET" "/en/account/settings" bobs [] in
  (∃ user w', users (db site) !! 2 = Some user ∧ ∀ next, WebSettings.withPageUser demo_site r next (site, no_response) = next user "en" (w', no_response)).
Proof.
  set (r := visit "GET" "/en/account/settings" bobs []).
  destruct (pages_act_for_the_session demo_site r (site, no_response) site_wf)
    as [(id & row & user & w' & Hid & Hrow & _ & _ & Hu & _ & _ & Hnext)|Hno].
  - assert (id = sid) as -> by (vm_compute in Hid; injection Hid as <-; reflexivity).
    assert (session_UserID row = 2) as E by (vm_compute in Hrow; injection Hrow as <-; reflexivity).
    rewrite E in Hu. exists user, w'. split; [exact Hu|exact Hnext].
  - exfalso. specialize (Hno (λ _ _, ret tt) (λ _ _, WriteHeader 200)).
    apply (f_equal (λ x, resp_Status (snd (fst x)))) in Hno. vm_compute in Hno. discriminate Hno.
Defined.

Lemma cookies_are_protected_witness :
  Forall (λ c, own_cookie demo_site c ∧ validSameSite (cookie_SameSite c) = true)
    (resp_Cookies (snd (fst (Routes.router demo_site "" no_log no_usage (visit "GET" "/en/sign-in" [] []) (site, no_response))))).
Proof.
  exact (cookies_are_protected demo_site demo_site_quiet "" no_log no_usage no_log_quiet no_usage_quiet cookie_config
    (visit "GET" "/en/sign-in" [] []) site eq_refl).
Defined.

(** Middleware.v, WebSession.v, Catalog.v. *)
Lemma state_changes_carry_the_site_token_witness :
  let e := Routes.site_edge demo_site "" no_log no_usage in
  let r := visit "POST" "/en/sign-out" bobs [] in
  (∀ t, ¬ carries_token (limited maxRequestBodyBytes r) t) ∧ ∃ s', ∀ mux, newRouter e mux r (site, no_response) = (s', Ok tt).
Proof.
  set (e := Routes.site_edge demo_site "" no_log no_usage). set (r := visit "POST" "/en/sign-out" bobs []).
  destruct (state_changes_carry_the_site_token e r site ltac:(split; [intros ? [= <-]; exact (λ a, no_log_quiet _)|intros ? [= <-]; exact no_usage_quiet|intros ? ? [= <-] [= <-]; exact no_log_quiet])
    ltac:(split; evaluates)) as [(t & (Ht & _ & Hform & _) & _)|(Hno & s' & Hs & _)].
  - exfalso. vm_compute in Ht. injection Ht as <-. vm_compute in Hform. discriminate Hform.
  - split; [exact Hno|]. exists s'. exact Hs.
Defined.

Lemma form_token_round_trip_witness :
  let config := mkCSRFConfig true [] in
  ∃ t, ∀ r', isSafeMethod (req_Method r') = false → Cookie_ r' CSRFCookieName = Some t → sends_back r' t →
    ∀ next', CSRF config next' r' = next' (with_CSRF (Some t) r').
Proof.
  destruct (form_token_round_trip (mkCSRFConfig true []) (λ _, ret tt) (visit "GET" "/en/sign-in" [] []) (site, no_response) eq_refl)
    as [(s' & Hs & _)|(t & s' & _ & _ & _ & _ & Hback)].
  - exfalso. apply (f_equal snd) in Hs. vm_compute in Hs. discriminate Hs.
  - exists t. intros r' Hm Hc Hb next'. exact (Hback r' next' Hm eq_refl Hc Hb).
Defined.

Lemma session_cookie_round_trip_witness :
  ∃ w1 x, Sessions.create (App.sessionService local_cfg) 2 "" "" site = (w1, Ok x) ∧
  ∀ r, Cookie_ r "goweb_session" = Some (session_ID x) → Read demo_cookie r = Some (session_ID x).
Proof.
  run (Sessions.create (App.sessionService local_cfg) 2 "" "") from site as x E Ex.
  destruct (session_cookie_round_trip cookie_config demo_cookie (App.sessionService local_cfg) 2 "" "" site _ x 0 (site, no_response)
    eq_refl eq_refl ltac:(lia) E) as (c & resp & Hset & _ & _ & Hv & _ & _ & _ & _ & _ & Hread).
  exact (λ r Hr, Hread r (eq_trans Hr (f_equal Some (eq_sym Hv)))).
Defined.

Lemma complete_catalogs_translate_witness :
  Catalog.Translate demo_catalogs "hu" "items" {["count" := "3"]} = Ok "3 darab" ∧
  is_ok (Catalog.Translate demo_catalogs "hu" "items" {["count" := "3"]}) = true.
Proof.
  split; [evaluates|].
  apply (proj2 (proj2 (complete_catalogs_translate demo_entries demo_catalogs "hu" "items" (Catalog.mkMessage "" "{count} item" "{count} items")
    {["count" := "3"]} eq_refl eq_refl eq_refl ltac:(evaluates)))).
  split; [exists {["count"]}; split; [evaluates|set_solver]|]. intros _. exists "3", (Num (QArith_base.inject_Z 3)). split; evaluates.
Defined.

(** Bob asks for the removal of another account. *)
Lemma admin_area_is_for_administrators_witness :
  let r := visit "POST" "/en/admin/users/1/delete" bobs [("_csrf", token)] in
  db_of (Routes.ServeMux (Routes.routes demo_site) r (site, no_response)).1 = db site.
Proof.
  set (r := visit "POST" "/en/admin/users/1/delete" bobs [("_csrf", token)]).
  destruct (admin_area_is_for_administrators demo_site r "en" ["users"; "1"; "delete"] (site, no_response) site_wf ltac:(evaluates))
    as [(user & id & row & Hid & Hrow & _ & _ & Hu & _ & Ha)|Hsame]; [exfalso|exact Hsame].
  vm_compute in Hid. injection Hid as <-. vm_compute in Hrow. injection Hrow as <-. vm_compute in Hu. injection Hu as <-. discriminate Ha.
Defined.
