(* ===== verification/Oidc.v ===== *)
(** * The OpenID Connect client: internal/adapter/oidc/client.go

    Discovery, the cached key set, and the verification of identity and logout
    tokens.  The network ([HTTPClient]), the grammar of JSON, RSA signatures
    and [url.Parse] are parameters.  A client runs in [OIDC]: the world and
    the client's own cache; its mutex makes [discover] and [key] atomic and is
    not modelled.  [endpoint.Query()] with [Set] and [Encode] is a parameter,
    [SetQuery]. *)
From S2P Require Export HttpClient SSOClient.
Import OAuth.

Record PublicKey := mkPublicKey { key_N : Z; key_E : Z }.
#[export] Instance PublicKey_eq_dec : EqDecision PublicKey.
Proof. solve_decision. Defined.
(** [rsa.VerifyPKCS1v15(key, crypto.SHA256, digest, signature) == nil]. *)
Class RSA := { VerifyPKCS1v15 : PublicKey → string → string → bool }.
(** The URL with the parameters set in its query, encoded. *)
Class QueryEncoder := { SetQuery : string → list (string * string) → string }.

(** [base64.RawURLEncoding.DecodeString]. *)
Definition url_digit (c : ascii) : ascii :=
  if Ascii.eqb c "-" then "+"%char else if Ascii.eqb c "_" then "/"%char
  else if Ascii.eqb c "+" || Ascii.eqb c "/" then "="%char else c.
Definition b64url_decode (s : string) : option string := b64_decode (map_chars url_digit s).
Lemma url_digit_alphabet v : 0 ≤ v < 64 → url_digit (url_alphabet (b64_char v)) = b64_char v.
Proof.
  intros Hv. assert (∀ n, (n < 64)%nat → Ascii.eqb (url_digit (url_alphabet (b64_char (Z.of_nat n)))) (b64_char (Z.of_nat n)) = true) as Hall.
  { intros n Hn. do 64 (destruct n as [|n]; [vm_compute; reflexivity|]). lia. }
  specialize (Hall (Z.to_nat v) ltac:(lia)). rewrite Z2Nat.id in Hall by lia. by apply Ascii.eqb_eq.
Qed.
Lemma b64url_round_trip s : b64url_decode (b64url_encode s) = Some s.
Proof.
  unfold b64url_decode, b64url_encode. rewrite <- (b64_round_trip s). f_equal.
  induction s as [|a|a b|a b c s IH] using str_ind3; [done| | |]; cbn [b64_encode map_chars]; rewrite ?IH, !url_digit_alphabet by b64_lia; done.
Qed.
Lemma b64url_encode_inj s t : b64url_encode s = b64url_encode t → s = t.
Proof. intros Heq. pose proof (b64url_round_trip s) as Hs. rewrite Heq, b64url_round_trip in Hs. congruence. Qed.

(** [time.Time] as seconds since the year 1 and nanoseconds: [time.Unix] wraps,
    [Add] of a whole number of seconds saturates. *)
Definition Time : Type := Z * Z.
Definition unixToInternal : Z := 62135596800.
Definition time_Unix (sec : Z) : Time := (wrap64 (sec + unixToInternal), 0).
Definition time_of (nanos : Z) : Time := (nanos / second + unixToInternal, nanos mod second).
Definition addSec (d : Z) (t : Time) : Time :=
  (if max_int64 <? t.1 + d then max_int64 else if t.1 + d <? min_int64 then - max_int64 else t.1 + d, t.2).
Definition Before (t u : Time) : bool := (t.1 <? u.1) || ((t.1 =? u.1) && (t.2 <? u.2)).
Definition After (t u : Time) : bool := Before u t.

Record metadata := mkMetadata {
  meta_Issuer : string; meta_AuthorizationEndpoint : string; meta_TokenEndpoint : string; meta_JWKSURI : string; meta_EndSessionEndpoint : string }.
Record jwk := mkJWK { jwk_KeyType : string; jwk_KeyID : string; jwk_Use : string; jwk_Algorithm : string; jwk_Modulus : string; jwk_Exponent : string }.
(** [Critical] is whether the member is there. *)
Record TokenHeader := mkHeader { header_Algorithm : string; header_KeyID : string; header_Critical : option json }.
Record claims := mkClaims {
  Issuer : string; Subject : string; Audience : list string; AuthorizedParty : string; Expiry : Z; IssuedAt : Z; JWTID : string; SessionID : string;
  Nonce : option string; Events : option (gmap string json); claim_Email : string; claim_EmailVerified : bool; claim_Name : string; claim_Locale : string }.

(** The issuer client and what it has fetched. *)
Record OIDCClient := mkOIDCClient { oidc_issuer : string; oidc_clientID : string; oidc_clientSecret : string; oidc_redirectURL : string }.
Record OIDCCache := mkCache {
  cache_metadata : option metadata; cache_keys : gmap string PublicKey; cache_onlyKey : option PublicKey; cache_keysRefreshedAt : option Z }.
Definition empty_cache : OIDCCache := mkCache None ∅ None None.
Definition OIDC : Type → Type := ST (World * OIDCCache).

Module Oidc.
Definition maxResponseBytes : Z := 1048576.
Definition maxTokenBytes : Z := 16384.
Definition clockSkew : Z := 60.
Definition maxLogoutTokenAge : Z := 300.
Definition minRSAKeyBits : Z := 2048.
Definition keyRefreshPause : Z := 30 * second.
Definition scopes : string := "openid email profile".
Definition backChannelEvent : string := "http://schemas.openid.net/event/backchannel-logout".
Definition ErrInvalidConfig : error := Opaque "oidc: invalid configuration".
Definition ErrDiscovery : error := Opaque "oidc: discovery failed".
Definition ErrTokenExchange : error := Opaque "oidc: token exchange failed".
Definition ErrInvalidToken : error := Opaque "oidc: invalid token".
(** [fmt.Errorf("%w: reason", ErrInvalidToken)]. *)
Definition invalid (reason : string) : error := Errorf reason ErrInvalidToken.

Section decoding.
(** [audience.UnmarshalJSON]: a string ([null] too) or a list of them. *)
Definition as_audience (_ : list string) (v : json) : option (list string) :=
  match as_string "" v with
  | Some single => Some [single]
  | None => as_list (as_string "") [] v
  end.
Definition decode_metadata : json → option metadata := decode_struct (λ fs,
  issuer ← decode_field as_string "issuer" fs ""; authorization ← decode_field as_string "authorization_endpoint" fs "";
  token ← decode_field as_string "token_endpoint" fs ""; jwks ← decode_field as_string "jwks_uri" fs "";
  end_session ← decode_field as_string "end_session_endpoint" fs ""; Some (mkMetadata issuer authorization token jwks end_session)).
Definition decode_jwk : json → option jwk := decode_struct (λ fs,
  kty ← decode_field as_string "kty" fs ""; kid ← decode_field as_string "kid" fs ""; use ← decode_field as_string "use" fs "";
  alg ← decode_field as_string "alg" fs ""; n ← decode_field as_string "n" fs ""; e ← decode_field as_string "e" fs "";
  Some (mkJWK kty kid use alg n e)).
Definition decode_key_set : json → option (list jwk) := decode_struct (λ fs, decode_field (as_list decode_jwk) "keys" fs []).
Definition decode_id_token : json → option string := decode_struct (λ fs, decode_field as_string "id_token" fs "").
Definition decode_header : json → option TokenHeader := decode_struct (λ fs,
  alg ← decode_field as_string "alg" fs ""; kid ← decode_field as_string "kid" fs ""; crit ← decode_field as_raw "crit" fs None;
  Some (mkHeader alg kid crit)).
Definition decode_claims : json → option claims := decode_struct (λ fs,
  iss ← decode_field as_string "iss" fs ""; sub ← decode_field as_string "sub" fs ""; aud ← decode_field as_audience "aud" fs [];
  azp ← decode_field as_string "azp" fs ""; exp ← decode_field as_int64 "exp" fs 0; iat ← decode_field as_int64 "iat" fs 0;
  jti ← decode_field as_string "jti" fs ""; sid ← decode_field as_string "sid" fs ""; nonce ← decode_field as_string_pointer "nonce" fs None;
  events ← decode_field as_raw_map "events" fs None; email ← decode_field as_string "email" fs "";
  verified ← decode_field as_bool "email_verified" fs false; name ← decode_field as_string "name" fs "";
  locale ← decode_field as_string "locale" fs "";
  Some (mkClaims iss sub aud azp exp iat jti sid nonce events email verified name locale)).
End decoding.

(** [big.Int.SetBytes], [BitLen]. *)
Fixpoint SetBytes (acc : Z) (s : string) : Z :=
  match s with EmptyString => acc | String c s => SetBytes (acc * 256 + byte_of c) s end.
Definition BitLen (n : Z) : Z := if n =? 0 then 0 else Z.log2 n + 1.
Definition rsaKey (modulus exponent : string) : option PublicKey :=
  match b64url_decode modulus, b64url_decode exponent with
  | Some n, Some e =>
    if (len e =? 0) || (4 <? len e) then None else
    let key := mkPublicKey (SetBytes 0 n) (SetBytes 0 e) in
    if (BitLen (key_N key) <? minRSAKeyBits) || (key_E key <? 3) || (key_E key mod 2 =? 0) then None else Some key
  | _, _ => None
  end.
(** The keys of a set the client can use, with their identifiers. *)
Definition usable_key (k : jwk) : option (string * PublicKey) :=
  if negb (String.eqb (jwk_KeyType k) "RSA")
     || (negb (String.eqb (jwk_Use k) "") && negb (String.eqb (jwk_Use k) "sig"))
     || (negb (String.eqb (jwk_Algorithm k) "") && negb (String.eqb (jwk_Algorithm k) "RS256"))
  then None else (λ key, (jwk_KeyID k, key)) <$> rsaKey (jwk_Modulus k) (jwk_Exponent k).
Definition jsonObject (raw : json) : bool := match raw with JObject _ => true | _ => false end.

Section client.
Context `{Unicode, Crypto, URLParser, JSONParser, net : HTTPClient, RSA, QueryEncoder}.

Definition absoluteHTTPURL (raw : string) : bool :=
  match url_Parse raw with
  | Some (scheme, host, user) => negb (String.eqb host "") && negb user && (String.eqb scheme "http" || String.eqb scheme "https")
  | None => false
  end.
Definition New (issuer clientID clientSecret redirectURL : string) : outcome OIDCClient :=
  let issuer := TrimSpace issuer in
  if negb (absoluteHTTPURL issuer) || String.eqb (TrimSpace clientID) "" || String.eqb clientSecret "" || negb (absoluteHTTPURL redirectURL)
  then Err ErrInvalidConfig else Ok (mkOIDCClient issuer (TrimSpace clientID) clientSecret redirectURL).

Definition world {A} (m : M A) : OIDC A := λ s, let (w, r) := m s.1 in ((w, s.2), r).
Definition cached : OIDC OIDCCache := gets snd.
Definition put_cache (st : OIDCCache) : OIDC unit := λ s, ((s.1, st), Ok tt).

(** [http.NewRequestWithContext] fails on an address that does not parse. *)
Definition NewRequest (bad : error) (request : HTTPRequest) : OIDC HTTPRequest :=
  guard (is_nil (url_Parse (http_URL request))) bad ;;; ret request.
Definition doJSON {A} (decode : json → option A) (request : HTTPRequest) : OIDC A :=
  let! response := world (http_Do request) in
  match response with
  | None => throw (Opaque "request failed")
  | Some response =>
    guard ((http_Status response <? 200) || (300 <=? http_Status response)) (Opaque "status") ;;;
    match json_first (substring 0 (Z.to_nat maxResponseBytes) (http_Body response)) ≫= decode with
    | Some a => ret a
    | None => throw (Opaque "malformed response")
    end
  end.
Definition http_get (url : string) : HTTPRequest := mkHTTPRequest "GET" url [] None NoBody.

Section methods.
Context (c : OIDCClient).

Definition unusable (meta : metadata) : bool :=
  negb (String.eqb (meta_Issuer meta) (oidc_issuer c)) || negb (absoluteHTTPURL (meta_AuthorizationEndpoint meta))
  || negb (absoluteHTTPURL (meta_TokenEndpoint meta)) || negb (absoluteHTTPURL (meta_JWKSURI meta))
  || (negb (String.eqb (meta_EndSessionEndpoint meta) "") && negb (absoluteHTTPURL (meta_EndSessionEndpoint meta))).
Definition discovery_url : string := TrimRightSlash (oidc_issuer c) +:+ "/.well-known/openid-configuration".
Definition discover : OIDC metadata :=
  let! st := cached in
  match cache_metadata st with
  | Some meta => ret meta
  | None =>
    let! request := NewRequest ErrDiscovery (http_get discovery_url) in
    let! meta := map_err (λ e, Join ErrDiscovery e) (doJSON decode_metadata request) in
    guard (unusable meta) (Errorf "unusable document" ErrDiscovery) ;;;
    put_cache (mkCache (Some meta) (cache_keys st) (cache_onlyKey st) (cache_keysRefreshedAt st)) ;;;
    ret meta
  end.

(** ** Keys *)
Definition lookup_key (st : OIDCCache) (keyID : string) : option PublicKey :=
  if String.eqb keyID "" then cache_onlyKey st else cache_keys st !! keyID.
Definition install (set : list jwk) (st : OIDCCache) : OIDCCache :=
  let usable := omap usable_key set in
  let named := List.filter (λ kv, negb (String.eqb kv.1 "")) usable in
  mkCache (cache_metadata st) (fold_left (λ m kv, <[kv.1 := kv.2]> m) named ∅)
    (match usable with [kv] => Some kv.2 | _ => None end) (cache_keysRefreshedAt st).
Definition stamped (now : Z) (st : OIDCCache) : OIDCCache :=
  mkCache (cache_metadata st) (cache_keys st) (cache_onlyKey st) (Some now).
(** The pause since the last refresh is not over. *)
Definition refreshed_lately (st : OIDCCache) : OIDC bool :=
  match cache_keysRefreshedAt st with
  | None => ret false
  | Some t => let! now := world time_Now in ret (now - t <? keyRefreshPause)
  end.
Definition key (keyID : string) : OIDC PublicKey :=
  let! meta := discover in
  let! st := cached in
  match lookup_key st keyID with
  | Some key => ret key
  | None =>
    let! lately := refreshed_lately st in
    guard lately (invalid "unknown key") ;;;
    let! now := world time_Now in
    put_cache (stamped now st) ;;;
    let! request := NewRequest (invalid "key set request") (http_get (meta_JWKSURI meta)) in
    let! set := map_err (λ _, invalid "key set unavailable") (doJSON decode_key_set request) in
    put_cache (install set (stamped now st)) ;;;
    match lookup_key (install set (stamped now st)) keyID with
    | Some key => ret key
    | None => throw (invalid "unknown key")
    end
  end.

(** ** Tokens *)
Definition decodeSegment {A} (decode : json → option A) (segment : string) : option A :=
  raw ← b64url_decode segment; value ← json_text raw; decode value.
Definition verify (raw : string) : OIDC claims :=
  guard (String.eqb raw "" || (maxTokenBytes <? len raw)) (invalid "missing or oversized token") ;;;
  match Split "." raw with
  | [head; body; sig] =>
    match decodeSegment decode_header head with
    | None => throw (invalid "malformed header")
    | Some header =>
      guard (negb (String.eqb (header_Algorithm header) "RS256") || negb (is_nil (header_Critical header))) (invalid "unsupported header") ;;;
      match b64url_decode sig with
      | None => throw (invalid "malformed signature")
      | Some signature =>
        let! key := key (header_KeyID header) in
        guard (negb (VerifyPKCS1v15 key (sha256 (head +:+ "." +:+ body)) signature)) (invalid "bad signature") ;;;
        match decodeSegment decode_claims body with
        | None => throw (invalid "malformed claims")
        | Some verified =>
          guard (negb (String.eqb (Issuer verified) (oidc_issuer c))) (invalid "wrong issuer") ;;;
          guard (negb (existsb (String.eqb (oidc_clientID c)) (Audience verified))) (invalid "wrong audience") ;;;
          ret verified
        end
      end
    end
  | _ => throw (invalid "malformed token")
  end.

Definition verifyIDToken (raw : string) : OIDC claims :=
  let! verified := verify raw in
  let! nanos := world time_Now in
  let now := time_of nanos in
  guard (String.eqb (TrimSpace (Subject verified)) "") (invalid "ID token without sub") ;;;
  guard ((Expiry verified =? 0) || negb (Before now (addSec clockSkew (time_Unix (Expiry verified))))) (invalid "ID token expired") ;;;
  guard ((IssuedAt verified =? 0) || After (time_Unix (IssuedAt verified)) (addSec clockSkew now)) (invalid "ID token issued in the future") ;;;
  guard ((1 <? Z.of_nat (length (Audience verified))) && negb (String.eqb (AuthorizedParty verified) (oidc_clientID c)))
    (invalid "ID token for several audiences without matching azp") ;;;
  guard (negb (String.eqb (AuthorizedParty verified) "") && negb (String.eqb (AuthorizedParty verified) (oidc_clientID c)))
    (invalid "ID token azp is another client") ;;;
  guard (negb (is_nil (Events verified))) (invalid "token carries events") ;;;
  ret verified.

Definition AuthorizationURL (state codeChallenge : string) : OIDC string :=
  let! meta := discover in
  ret (SetQuery (meta_AuthorizationEndpoint meta)
    [("response_type", "code"); ("client_id", oidc_clientID c); ("redirect_uri", oidc_redirectURL c); ("scope", scopes); ("state", state);
     ("nonce", codeChallenge); ("code_challenge", codeChallenge); ("code_challenge_method", "S256")]).

Definition Exchange (code codeVerifier : string) : OIDC SSOIdentity :=
  let! meta := discover in
  let! request := NewRequest ErrTokenExchange (mkHTTPRequest "POST" (meta_TokenEndpoint meta)
    [("Content-Type", "application/x-www-form-urlencoded"); ("Accept", "application/json")]
    (Some (query_escape (oidc_clientID c), query_escape (oidc_clientSecret c)))
    (FormBody [("grant_type", "authorization_code"); ("code", code); ("redirect_uri", oidc_redirectURL c); ("code_verifier", codeVerifier)])) in
  let! token := map_err (λ e, Join ErrTokenExchange e) (doJSON decode_id_token request) in
  let! verified := verifyIDToken token in
  guard (negb (bool_decide (Nonce verified = Some (b64url_encode (sha256 codeVerifier))))) (invalid "nonce mismatch") ;;;
  ret (mkSSOIdentity (Subject verified) (claim_Email verified) (claim_EmailVerified verified) (claim_Name verified) (claim_Locale verified)
         (SessionID verified) token).

Definition VerifyLogoutToken (raw : string) : OIDC string :=
  let! verified := verify raw in
  let! nanos := world time_Now in
  let now := time_of nanos in
  let issuedAt := time_Unix (IssuedAt verified) in
  guard ((IssuedAt verified =? 0) || After issuedAt (addSec clockSkew now) || Before issuedAt (addSec (- maxLogoutTokenAge - clockSkew) now))
    (invalid "logout token issued at an unacceptable time") ;;;
  guard (negb (Expiry verified =? 0) && negb (Before now (addSec clockSkew (time_Unix (Expiry verified))))) (invalid "logout token expired") ;;;
  guard (String.eqb (TrimSpace (JWTID verified)) "") (invalid "logout token without jti") ;;;
  guard (match Events verified ≫= (.!! backChannelEvent) with Some event => negb (jsonObject event) | None => true end)
    (invalid "logout token without the back-channel event") ;;;
  guard (negb (is_nil (Nonce verified))) (invalid "logout token with a nonce") ;;;
  guard (String.eqb (TrimSpace (SessionID verified)) "") (invalid "logout token without sid") ;;;
  ret (SessionID verified).

Definition EndSessionURL (idTokenHint postLogoutRedirect : string) : OIDC string :=
  let! meta := discover in
  guard (String.eqb (meta_EndSessionEndpoint meta) "") (Errorf "issuer has no end_session_endpoint" ErrDiscovery) ;;;
  ret (SetQuery (meta_EndSessionEndpoint meta) [("id_token_hint", idTokenHint); ("post_logout_redirect_uri", postLogoutRedirect)]).
End methods.
End client.
End Oidc.
