(* ===== verification/OidcProps.v ===== *)
(** * What the OpenID Connect client accepts

    The tokens it accepts, the requests it makes, and an issuer for evaluation. *)
From S2P Require Export Demo RateLimitProps Oidc.
Import Oidc.

(** ** Decoded numbers fit their type *)
Lemma decode_field_inv {A} (P : A → Prop) (decode : A → json → option A) field fs a b :
  (∀ x v y, P x → decode x v = Some y → P y) → P a → decode_field decode field fs a = Some b → P b.
Proof.
  intros Hd. revert a. induction fs as [|[k v] fs IH]; simpl; intros a Ha; [by intros [= <-]|].
  destruct (names_field field k); [|by apply IH]. destruct (decode a v) as [a'|] eqn:E; [|done]. apply IH. by eapply Hd.
Qed.
Lemma as_int64_range x v y : int64 x → as_int64 x v = Some y → int64 y.
Proof.
  intros Hx. destruct v; simpl; try done; [congruence|]. unfold ParseInt. destruct (match literal with EmptyString => _ | _ => _ end) as [sign digits].
  destruct (String.eqb digits ""); [done|]. destruct (decimal_value 0 digits) as [n|]; [|done].
  destruct (in_range _ _ _) eqn:E; [|done]. intros [= <-]. unfold in_range in E. apply andb_true_iff in E as [?%Z.leb_le ?%Z.leb_le]. split; lia.
Qed.
Lemma decode_claims_times v cl : decode_claims v = Some cl → int64 (Expiry cl) ∧ int64 (IssuedAt cl).
Proof.
  assert (int64 0) as Hzero by (unfold int64, min_int64, max_int64; lia).
  unfold decode_claims, decode_struct. destruct v as [| | | | |fs]; try done; [|set (members := fs)].
  - intros [= <-]. done.
  - simpl. intros Hd. repeat (apply bind_Some in Hd as (? & ? & Hd)). injection Hd as <-. simpl.
    split; eapply (decode_field_inv int64); eauto using as_int64_range.
Qed.

(** ** Time *)
Lemma wrap64_shift x : int64 x →
  wrap64 (x + unixToInternal) = if x + unixToInternal <=? max_int64 then x + unixToInternal else x + unixToInternal - 18446744073709551616.
Proof.
  unfold int64, wrap64, unixToInternal, min_int64, max_int64. intros Hx. destruct (_ <=? _) eqn:E.
  - apply Z.leb_le in E. rewrite Z.mod_small; lia.
  - apply Z.leb_gt in E. rewrite <- (Z.mod_unique _ 18446744073709551616 1 (x + 62135596800 + 9223372036854775808 - 18446744073709551616)); lia.
Qed.
Lemma Before_true t u : Before t u = true ↔ t.1 < u.1 ∨ t.1 = u.1 ∧ t.2 < u.2.
Proof. unfold Before. rewrite orb_true_iff, andb_true_iff, !Z.ltb_lt, Z.eqb_eq. done. Qed.
Lemma not_expired nanos exp :
  0 ≤ nanos → int64 exp → Before (time_of nanos) (addSec clockSkew (time_Unix exp)) = true → nanos < (exp + clockSkew) * second.
Proof.
  intros Hn He. rewrite Before_true. unfold time_of, time_Unix, addSec, clockSkew. cbn [fst snd]. rewrite wrap64_shift by done.
  unfold unixToInternal, int64, min_int64, max_int64, second in *. pose proof (Z.div_mod nanos 1000000000 ltac:(lia)).
  pose proof (Z.mod_pos_bound nanos 1000000000 ltac:(lia)). pose proof (Z.div_pos nanos 1000000000 Hn ltac:(lia)).
  repeat case_match; bool_props; lia.
Qed.
(** A time of issue beyond the range of [time.Time] wraps around to the past;
    below it, no more than the skew ahead. *)
Definition last_representable : Z := max_int64 - unixToInternal.
Lemma not_from_the_future nanos iat :
  0 ≤ nanos → int64 iat → After (time_Unix iat) (addSec clockSkew (time_of nanos)) = false →
  iat * second ≤ nanos + clockSkew * second ∨ last_representable < iat.
Proof.
  intros Hn He. unfold After. intros Hf. apply not_true_iff_false in Hf. rewrite Before_true in Hf. revert Hf.
  unfold time_of, time_Unix, addSec, clockSkew, last_representable. cbn [fst snd]. rewrite wrap64_shift by done.
  unfold unixToInternal, int64, min_int64, max_int64, second in *. pose proof (Z.div_mod nanos 1000000000 ltac:(lia)).
  pose proof (Z.mod_pos_bound nanos 1000000000 ltac:(lia)). pose proof (Z.div_pos nanos 1000000000 Hn ltac:(lia)).
  repeat case_match; bool_props; lia.
Qed.
Lemma recent_enough nanos iat :
  0 ≤ nanos ≤ max_int64 → int64 iat → Before (time_Unix iat) (addSec (- maxLogoutTokenAge - clockSkew) (time_of nanos)) = false →
  nanos ≤ (iat + maxLogoutTokenAge + clockSkew) * second ∧ iat ≤ last_representable.
Proof.
  intros Hn He Hf. apply not_true_iff_false in Hf. rewrite Before_true in Hf. revert Hf.
  unfold time_of, time_Unix, addSec, clockSkew, maxLogoutTokenAge, last_representable. cbn [fst snd]. rewrite wrap64_shift by done.
  unfold unixToInternal, int64, min_int64, max_int64, second in *. pose proof (Z.div_mod nanos 1000000000 ltac:(lia)).
  pose proof (Z.mod_pos_bound nanos 1000000000 ltac:(lia)). pose proof (Z.div_pos nanos 1000000000 (proj1 Hn) ltac:(lia)).
  repeat case_match; bool_props; lia.
Qed.

(** ** Keys *)
Definition strong (key : PublicKey) : Prop := minRSAKeyBits ≤ BitLen (key_N key) ∧ 3 ≤ key_E key ∧ key_E key mod 2 ≠ 0.
Lemma usable_key_strong k kid key : usable_key k = Some (kid, key) → strong key.
Proof.
  unfold usable_key, rsaKey. intros Hk. case_in Hk. apply fmap_Some in Hk as (key' & Hk & [= -> ->]).
  destruct (b64url_decode (jwk_Modulus k)); [|done]. destruct (b64url_decode (jwk_Exponent k)); [|done].
  case_in Hk. case_in Hk. injection Hk as <-. bool_props. unfold strong. simpl in *. lia.
Qed.

Section client.
Context `{Unicode, Crypto, URLParser, JSONParser, net : HTTPClient, RSA, QueryEncoder}.
Context (c : OIDCClient).

Lemma world_ok {A} (m : M A) s s' a : world m s = (s', Ok a) → m s.1 = (s'.1, Ok a) ∧ s'.2 = s.2.
Proof. unfold world. destruct (m s.1) as [w r] eqn:E. by intros [= <- ->]. Qed.
(** The value a request decodes to, and where it came from. *)
Lemma doJSON_ok {A} (decode : json → option A) request s s' a :
  doJSON decode request s = (s', Ok a) →
  ∃ response value, http_Do request s.1 = (s'.1, Ok (Some response)) ∧ s'.2 = s.2 ∧
    json_first (substring 0 (Z.to_nat maxResponseBytes) (http_Body response)) = Some value ∧ decode value = Some a.
Proof.
  unfold doJSON. intros Hr. apply bind_ok in Hr as (s1 & [response|] & Hd & Hr); [|done].
  apply world_ok in Hd as [Hd Hs]. apply bind_ok in Hr as (? & ? & Hg & Hr). apply guard_ok in Hg as [_ ->].
  destruct (json_first _) as [value|] eqn:E; simpl in Hr; [|done].
  destruct (decode value) eqn:Ed; [|done]. inv_ok. eauto 10.
Qed.

(** *** What the issuer publishes *)
Context (genuine : metadata → Prop) (published : PublicKey → Prop).

(** The issuer's discovery address serves its own documents, and the key set a
    genuine document points to holds its keys. *)
Record IssuerServes : Prop := {
  serves_metadata s s' meta :
    doJSON decode_metadata (http_get (discovery_url c)) s = (s', Ok meta) → meta_Issuer meta = oidc_issuer c → genuine meta;
  serves_keys meta s s' set :
    genuine meta → doJSON decode_key_set (http_get (meta_JWKSURI meta)) s = (s', Ok set) →
    Forall (λ k, ∀ kid key, usable_key k = Some (kid, key) → published key) set;
}.
(** The cache holds nothing but what the issuer published. *)
Definition held (key : PublicKey) : Prop := published key ∧ strong key.
Record cache_good (st : OIDCCache) : Prop := {
  good_metadata meta : cache_metadata st = Some meta → genuine meta;
  good_keys : map_Forall (λ _ key, held key) (cache_keys st);
  good_only key : cache_onlyKey st = Some key → held key;
}.
Lemma empty_cache_good : cache_good empty_cache.
Proof. split; [done | apply map_Forall_empty | done]. Qed.
Lemma cache_good_fields st st' :
  cache_good st → (∀ meta, cache_metadata st' = Some meta → genuine meta) → cache_keys st' = cache_keys st → cache_onlyKey st' = cache_onlyKey st →
  cache_good st'.
Proof. intros [] ? Hk Ho. split; rewrite ?Hk, ?Ho; done. Qed.
Lemma lookup_key_held st kid key : cache_good st → lookup_key st kid = Some key → held key.
Proof. intros Hg. unfold lookup_key. destruct (String.eqb kid ""); [apply Hg|]. intros Hk. exact (good_keys _ Hg _ _ Hk). Qed.
Lemma install_good set st :
  cache_good st → Forall (λ k, ∀ kid key, usable_key k = Some (kid, key) → published key) set → cache_good (install set st).
Proof.
  intros Hg Hset. assert (∀ kv, kv ∈ omap usable_key set → held kv.2) as Hall.
  { intros [kid key] (k & Hin & Hk)%list_elem_of_omap. rewrite Forall_forall in Hset.
    split; [by eapply Hset | by eapply usable_key_strong]. }
  split; unfold install; simpl; [apply Hg| |].
  - assert (∀ l m, map_Forall (λ _ key, held key) m → (∀ kv, kv ∈ l → held kv.2) →
      map_Forall (λ _ key, held key) (fold_left (λ (m : gmap string PublicKey) kv, <[kv.1 := kv.2]> m) l m)) as Hfold.
    { induction l as [|kv l IH]; simpl; intros m Hm Hl; [done|].
      apply IH; [apply map_Forall_insert_2; [|done]; apply Hl, list_elem_of_here | intros; apply Hl; by constructor]. }
    apply Hfold; [apply map_Forall_empty|]. intros kv Hin. apply Hall. apply list_elem_of_In, filter_In in Hin as [Hin _].
    by apply list_elem_of_In.
  - destruct (omap usable_key set) as [|kv [|]] eqn:E; try done. simpl. intros ? [= <-]. apply Hall, list_elem_of_here.
Qed.

Lemma map_err_run {A} f (m : OIDC A) s : (map_err f m s).1 = (m s).1.
Proof. unfold map_err. by destruct (m s) as [? []]. Qed.
Lemma doJSON_cache {A} (decode : json → option A) request s : (doJSON decode request s).1.2 = s.2.
Proof.
  unfold doJSON, bind, world. destruct (http_Do request s.1) as [w [[response|]|e]]; simpl; try done.
  destruct (_ || _); simpl; [done|]. destruct (json_first _ ≫= _); done.
Qed.

Context (Hserves : IssuerServes).
Definition keeps_good : relation (World * OIDCCache) := λ s s', cache_good s.2 → cache_good s'.2.
#[local] Instance keeps_good_preorder : PreOrder keeps_good.
Proof. split; unfold keeps_good; repeat intro; eauto. Qed.

Lemma discover_good : preserves keeps_good (discover c).
Proof.
  intros s Hg. unfold discover, bind at 1, cached, gets. destruct (cache_metadata s.2) as [meta|] eqn:Em; [done|].
  unfold NewRequest, bind. simpl. destruct (is_nil _); simpl; [done|].
  destruct (map_err _ _ s) as [s' r] eqn:E. assert (s'.2 = s.2) as Hs'.
  { change s' with ((s', r).1). rewrite <- E, map_err_run. apply doJSON_cache. }
  destruct r as [meta|e]; simpl; [|by rewrite Hs']. apply map_err_ok in E.
  destruct (unusable c meta) eqn:Eu; simpl; [by rewrite Hs'|]. unfold unusable in Eu. bool_props.
  apply (cache_good_fields _ _ Hg); try done. simpl. intros ? [= <-]. by eapply serves_metadata.
Qed.
Lemma discover_ok s s' meta : cache_good s.2 → discover c s = (s', Ok meta) → genuine meta ∧ cache_good s'.2.
Proof.
  intros Hg Hd. pose proof (discover_good s Hg) as Hg'. rewrite Hd in Hg'. split; [|done].
  assert (cache_metadata s'.2 = Some meta) as Hm; [|by eapply good_metadata].
  unfold discover, cached, gets in Hd. apply bind_ok in Hd as (? & st & [= <- <-] & Hd).
  destruct (cache_metadata s.2) eqn:Em; [by inv_ok|]. unfold NewRequest, put_cache in Hd. inv_ok. done.
Qed.

Lemma key_good kid : preserves keeps_good (key c kid).
Proof.
  intros s Hg. unfold key, bind at 1. pose proof (discover_ok s) as Hd. pose proof (discover_good s Hg) as Hg1.
  destruct (discover c s) as [s1 [meta|e]]; [|done]. destruct (Hd _ _ Hg eq_refl) as [Hmeta _]. simpl in Hg1. clear Hd.
  unfold bind at 1, cached, gets. destruct (lookup_key s1.2 kid); [done|].
  unfold bind at 1. destruct (refreshed_lately s1.2 s1) as [s2 r] eqn:El. assert (s2.2 = s1.2) as Hs2.
  { revert El. unfold refreshed_lately. destruct (cache_keysRefreshedAt s1.2); [|by intros [= <- <-]]. unfold world, time_Now, bind, gets. simpl.
    by intros [= <- <-]. }
  assert (cache_good s2.2) as Hg2 by by rewrite Hs2. clear El Hs2.
  destruct r as [lately|e]; [|done]. unfold bind at 1. destruct lately; [done|]. simpl.
  unfold bind at 1, world at 1. destruct (time_Now s2.1) as [w3 [now|e]]; [|done]. simpl.
  assert (cache_good (stamped now s1.2)) as Hst by by apply (cache_good_fields _ _ Hg1); try done; apply Hg1.
  unfold NewRequest, bind. simpl. destruct (is_nil _); simpl; [done|]. destruct (map_err _ _ _) as [s' r] eqn:E.
  assert (s'.2 = stamped now s1.2) as Hs'. { change s' with ((s', r).1). by rewrite <- E, map_err_run, doJSON_cache. }
  destruct r as [set|e]; simpl; [|by rewrite Hs']. apply map_err_ok in E.
  assert (cache_good (install set (stamped now s1.2))) as Hi by (apply install_good; [done|]; by eapply serves_keys).
  by destruct (lookup_key _ _).
Qed.
Lemma key_ok kid s s' k : cache_good s.2 → key c kid s = (s', Ok k) → held k ∧ cache_good s'.2.
Proof.
  intros Hg Hk. pose proof (key_good kid s Hg) as Hg'. rewrite Hk in Hg'. split; [|done].
  assert (lookup_key s'.2 kid = Some k) as Hl; [|by eapply lookup_key_held]. clear Hg Hg' Hserves.
  unfold key, cached, gets in Hk. apply bind_ok in Hk as (s1 & meta & _ & Hk). apply bind_ok in Hk as (? & st & [= <- <-] & Hk).
  destruct (lookup_key s1.2 kid) eqn:E; [by inv_ok|]. unfold NewRequest, put_cache in Hk. inv_ok.
  destruct (lookup_key (install _ _) kid) eqn:E'; inv_ok; done.
Qed.

(** *** Tokens *)

(** A compact RS256 token under [k] for this client, with its claims. *)
Definition signed (k : PublicKey) (raw : string) (cl : claims) : Prop :=
  ∃ head body sig header signature,
    Split "." raw = [head; body; sig] ∧ len raw ≤ maxTokenBytes ∧
    decodeSegment decode_header head = Some header ∧ header_Algorithm header = "RS256" ∧ header_Critical header = None ∧
    b64url_decode sig = Some signature ∧ VerifyPKCS1v15 k (sha256 (head +:+ "." +:+ body)) signature = true ∧
    decodeSegment decode_claims body = Some cl ∧ Issuer cl = oidc_issuer c ∧ In (oidc_clientID c) (Audience cl).
Lemma signed_times k raw cl : signed k raw cl → int64 (Expiry cl) ∧ int64 (IssuedAt cl).
Proof.
  intros (?&?&?&?&?&?&?&?&?&?&?&?&Hd&?). unfold decodeSegment in Hd. apply bind_Some in Hd as (? & _ & Hd).
  apply bind_Some in Hd as (v & _ & Hd). by apply decode_claims_times in Hd.
Qed.
(** A token has one reading. *)
Lemma signed_claims k k' raw cl cl' : signed k raw cl → signed k' raw cl' → cl = cl'.
Proof. intros (?&?&?&?&?&Hs&?&?&?&?&?&?&?&?) (?&?&?&?&?&Hs'&?&?&?&?&?&?&?&?). rewrite Hs in Hs'. simplify_eq. congruence. Qed.

Lemma is_nil_None {A} (o : option A) : is_nil o = true → o = None.
Proof. by destruct o. Qed.
Lemma verify_key raw s s' cl :
  verify c raw s = (s', Ok cl) → ∃ kid k s1, key c kid s1 = (s', Ok k) ∧ s1 = s ∧ signed k raw cl.
Proof.
  unfold verify. intros Hv. apply bind_ok in Hv as (? & ? & Hg & Hv). apply guard_ok in Hg as [Hsize ->].
  destruct (Split "." raw) as [|head [|body [|sig [|]]]] eqn:Es; try done.
  destruct (decodeSegment decode_header head) as [header|] eqn:Eh; [|done].
  apply bind_ok in Hv as (? & ? & Hg & Hv). apply guard_ok in Hg as [Halg ->].
  destruct (b64url_decode sig) as [signature|] eqn:Eg; [|done].
  apply bind_ok in Hv as (s1 & k & Hk & Hv). apply bind_ok in Hv as (? & ? & Hg & Hv). apply guard_ok in Hg as [Hver ->].
  destruct (decodeSegment decode_claims body) as [cl'|] eqn:Ec; [|done].
  inv_ok. bool_props. eexists _, k, s. split_and!; [done..|]. exists head, body, sig, header, signature.
  split_and!; try done; [by apply is_nil_None|].
  match goal with Ha : existsb _ _ = true |- _ => apply existsb_exists in Ha as (? & Hin & ?) end. bool_props. by subst.
Qed.
Lemma verify_ok raw s s' cl :
  cache_good s.2 → verify c raw s = (s', Ok cl) → cache_good s'.2 ∧ ∃ k, held k ∧ signed k raw cl.
Proof. intros Hg Hv. apply verify_key in Hv as (kid & k & ? & Hk & -> & Hs). apply key_ok in Hk as [? ?]; eauto. Qed.

(** What the claims of an identity token say of its holder and of the time. *)
Record id_token_claims (cl : claims) (now : Z) : Prop := {
  id_subject : TrimSpace (Subject cl) ≠ "";
  id_unexpired : now < (Expiry cl + clockSkew) * second;
  id_issued : IssuedAt cl * second ≤ now + clockSkew * second ∨ last_representable < IssuedAt cl;
  id_party : AuthorizedParty cl = oidc_clientID c ∨ AuthorizedParty cl = "" ∧ (length (Audience cl) ≤ 1)%nat;
  id_no_events : Events cl = None;
}.
Lemma world_now s s' nanos : world time_Now s = (s', Ok nanos) → clock s'.1 = nanos ∧ s'.2 = s.2.
Proof. intros [[= <- <-] ?]%world_ok. done. Qed.
Lemma verifyIDToken_ok raw s s' cl :
  cache_good s.2 → verifyIDToken c raw s = (s', Ok cl) →
  cache_good s'.2 ∧ (0 ≤ clock s'.1 → id_token_claims cl (clock s'.1)) ∧ Events cl = None ∧ ∃ k, held k ∧ signed k raw cl.
Proof.
  intros Hg Hv. unfold verifyIDToken in Hv. apply bind_ok in Hv as (s1 & cl' & Hv1 & Hv). apply verify_ok in Hv1 as (Hg1 & k & Hk & Hs); [|done].
  apply bind_ok in Hv as (s2 & nanos & Hn & Hv). apply world_now in Hn as [Hn Hc].
  repeat (apply bind_ok in Hv as (? & ? & Hx & Hv); apply guard_ok in Hx as [? ->]). apply ret_ok in Hv as [<- <-].
  assert (Events cl' = None) as Hev by (apply is_nil_None; by bool_props). pose proof (signed_times _ _ _ Hs) as [He Hi].
  split_and!; [by rewrite Hc| |done|by eauto]. rewrite Hn. intros Hpos.
  repeat match goal with Hb : (_ || _) = false |- _ => apply orb_false_iff in Hb as [? ?] end. bool_props.
  split; [done | by apply not_expired | by apply not_from_the_future | | done].
  repeat match goal with Hb : (_ && _) = false |- _ => apply andb_false_iff in Hb as [Hb|Hb] end; bool_props; auto with lia.
Qed.

Lemma keeps_cache {A} (m : OIDC A) : (∀ s, (m s).1.2 = s.2) → preserves keeps_good m.
Proof. intros Hm s. unfold keeps_good. by rewrite Hm. Qed.
#[local] Hint Resolve discover_good key_good : go_preserves.
#[local] Hint Extern 2 (preserves keeps_good (doJSON _ _)) => apply keeps_cache, doJSON_cache : go_preserves.
#[local] Hint Extern 2 (preserves keeps_good (world time_Now)) => apply keeps_cache; reflexivity : go_preserves.
Lemma verify_good raw : preserves keeps_good (verify c raw).
Proof. unfold verify. preserves_tac. Qed.
#[local] Hint Resolve verify_good : go_preserves.

(** A call of the client: what the relying party may ask of it. *)
Inductive oidc_call : ∀ A, OIDC A → Prop :=
| call_AuthorizationURL state challenge : oidc_call _ (AuthorizationURL c state challenge)
| call_Exchange code verifier : oidc_call _ (Exchange c code verifier)
| call_VerifyLogoutToken raw : oidc_call _ (VerifyLogoutToken c raw)
| call_EndSessionURL hint address : oidc_call _ (EndSessionURL c hint address).
Lemma calls_good A (m : OIDC A) : oidc_call A m → preserves keeps_good m.
Proof.
  destruct 1; unfold AuthorizationURL, Exchange, VerifyLogoutToken, EndSessionURL, verifyIDToken, NewRequest; cbv zeta; preserves_tac.
Qed.

Lemma Exchange_claims s code verifier s' identity :
  Exchange c code verifier s = (s', Ok identity) →
  ∃ cl k, signed k (sso_IDToken identity) cl ∧ Nonce cl = Some (b64url_encode (sha256 verifier)) ∧ Events cl = None.
Proof.
  unfold Exchange, verifyIDToken, NewRequest. intros Hx. inv_ok.
  match goal with Hv : verify c _ _ = _ |- _ => apply verify_key in Hv as (? & k & ? & _ & _ & Hs) end.
  bool_props. eexists _, k. split_and!; try done. by apply is_nil_None.
Qed.

(** C27. The identity that [Exchange] returns is read from a token the issuer
    signed: three segments, RS256 without critical extensions, under a key of
    the issuer's published set of at least 2048 bits; its issuer is the
    client's, its audience includes the client, no other party is authorized,
    it has a subject, is not expired, carries no events, and its nonce is the
    challenge of the code verifier of this very sign-in. *)
Theorem identity_is_vouched_for s code verifier s' identity :
  cache_good s.2 → Exchange c code verifier s = (s', Ok identity) → 0 ≤ clock s'.1 →
  ∃ k cl, published k ∧ strong k ∧ signed k (sso_IDToken identity) cl ∧ id_token_claims cl (clock s'.1) ∧
    Nonce cl = Some (b64url_encode (sha256 verifier)) ∧
    identity = mkSSOIdentity (Subject cl) (claim_Email cl) (claim_EmailVerified cl) (claim_Name cl) (claim_Locale cl) (SessionID cl)
                 (sso_IDToken identity).
Proof.
  intros Hg Hx Hpos. unfold Exchange, NewRequest in Hx. apply bind_ok in Hx as (s1 & meta & Hd & Hx). apply discover_ok in Hd as [_ Hg1]; [|done].
  inv_ok. match goal with Hv : verifyIDToken c _ _ = _ |- _ => apply verifyIDToken_ok in Hv as (_ & Hc & _ & k & [Hp Hk] & Hs) end.
  - bool_props. eexists k, _. split_and!; try done. by apply Hc.
  - match goal with Hj : doJSON _ _ ?s0 = (?s2, _) |- cache_good ?s2.2 => apply doJSON_ok in Hj as (? & ? & _ & -> & _) end. done.
Qed.

(** C28. A logout token the client accepts comes from the issuer in the same
    way, was issued in the last five minutes (give or take a minute of skew),
    has an identifier of its own, the back-channel event and no nonce, and the
    session it ends is the one it names. *)
Theorem logout_is_ordered_by_the_issuer s raw s' sid :
  cache_good s.2 → VerifyLogoutToken c raw s = (s', Ok sid) → 0 ≤ clock s'.1 ≤ max_int64 →
  ∃ k cl event, published k ∧ strong k ∧ signed k raw cl ∧ SessionID cl = sid ∧ TrimSpace sid ≠ "" ∧ TrimSpace (JWTID cl) ≠ "" ∧
    Nonce cl = None ∧ Events cl ≫= (.!! backChannelEvent) = Some (JObject event) ∧
    IssuedAt cl * second ≤ clock s'.1 + clockSkew * second ∧ clock s'.1 ≤ (IssuedAt cl + maxLogoutTokenAge + clockSkew) * second.
Proof.
  intros Hg Hv Hpos. unfold VerifyLogoutToken in Hv. apply bind_ok in Hv as (s1 & cl & Hv1 & Hv). apply verify_ok in Hv1 as (Hg1 & k & [Hp Hk] & Hs); [|done].
  apply bind_ok in Hv as (s2 & nanos & Hn & Hv). apply world_now in Hn as [Hn Hc]. cbv zeta in Hv.
  repeat (apply bind_ok in Hv as (? & ? & Hx & Hv); apply guard_ok in Hx as [? ->]). apply ret_ok in Hv as [<- <-].
  pose proof (signed_times _ _ _ Hs) as [_ Hi]. rewrite Hn in *. bool_props.
  destruct (Events cl ≫= (.!! backChannelEvent)) as [[| | | | |event]|] eqn:Ee; try done.
  exists k, cl, event. destruct (recent_enough nanos (IssuedAt cl)); [done..|].
  destruct (not_from_the_future nanos (IssuedAt cl)); [lia|done|done| |]; split_and!; try done; try (by apply is_nil_None); unfold maxLogoutTokenAge, clockSkew, second in *; lia.
Qed.

(** An identity token answers one sign-in and is never a logout token: no
    code verifier but the one whose challenge it carries redeems it, and what
    passes as an identity token does not pass as a logout token. *)
Theorem id_token_serves_one_purpose `{!CryptoLaws} s code verifier s' identity t code' verifier' t' identity' u u' sid :
  Exchange c code verifier s = (s', Ok identity) →
  (Exchange c code' verifier' t = (t', Ok identity') → sso_IDToken identity' = sso_IDToken identity → verifier' = verifier) ∧
  (VerifyLogoutToken c (sso_IDToken identity) u = (u', Ok sid) → False).
Proof.
  intros (cl & k & Hs & Hn & He)%Exchange_claims. split.
  - intros (cl' & k' & Hs' & Hn' & He')%Exchange_claims Heq. rewrite Heq in Hs'. rewrite (signed_claims _ _ _ _ _ Hs' Hs), Hn in Hn'.
    injection Hn' as Hn'%b64url_encode_inj. symmetry. by apply sha256_inj.
  - unfold VerifyLogoutToken. intros Hv. apply bind_ok in Hv as (s1 & cl' & Hv1 & Hv). apply verify_key in Hv1 as (? & k' & ? & _ & _ & Hs').
    apply bind_ok in Hv as (s2 & nanos & _ & Hv). cbv zeta in Hv.
    repeat (apply bind_ok in Hv as (? & ? & Hx & Hv); apply guard_ok in Hx as [? ->]).
    rewrite (signed_claims _ _ _ _ _ Hs' Hs) in *. rewrite He in *. done.
Qed.
End client.

(** ** Requests for the key set *)
Section pause.
Context `{Unicode, Crypto, URLParser, JSONParser, RSA, QueryEncoder}.
Context (c : OIDCClient).
Implicit Types (net : HTTPClient) (s : World * OIDCCache).

(** The key set was asked for less than the pause ago. *)
Definition pausing s : Prop :=
  cache_metadata s.2 ≠ None ∧ ∃ t, cache_keysRefreshedAt s.2 = Some t ∧ clock (time_Now s.1).1 - t < keyRefreshPause.
Lemma discover_cached net s meta : cache_metadata s.2 = Some meta → discover (net := net) c s = (s, Ok meta).
Proof. intros Hm. unfold discover, bind, cached, gets. simpl. by rewrite Hm. Qed.
(** Asking the issuer for the key set. *)
Definition fetch_keys net kid meta st : OIDC PublicKey :=
  let! now := world time_Now in
  put_cache (stamped now st) ;;;
  let! request := NewRequest (invalid "key set request") (http_get (meta_JWKSURI meta)) in
  let! set := map_err (λ _, invalid "key set unavailable") (doJSON decode_key_set request) in
  put_cache (install set (stamped now st)) ;;;
  match lookup_key (install set (stamped now st)) kid with Some key => ret key | None => throw (invalid "unknown key") end.
Lemma key_cached net kid s meta : cache_metadata s.2 = Some meta →
  key (net := net) c kid s =
  match lookup_key s.2 kid with
  | Some key => (s, Ok key)
  | None => (let! lately := refreshed_lately s.2 in guard lately (invalid "unknown key") ;;; fetch_keys net kid meta s.2) s
  end.
Proof.
  intros Hm. unfold key. rewrite (bind_of_ok _ _ _ _ _ (discover_cached net s meta Hm)). unfold cached, gets, bind at 1.
  by destruct (lookup_key s.2 kid).
Qed.
Lemma key_pausing net net' kid s : pausing s → key (net := net) c kid s = key (net := net') c kid s.
Proof.
  intros [Hm (t & Ht & Hlt)]. destruct (cache_metadata s.2) as [meta|] eqn:E; [|done].
  rewrite !(key_cached _ _ _ _ E). destruct (lookup_key s.2 kid); [done|]. unfold refreshed_lately. rewrite Ht.
  unfold world, bind, time_Now, ret. simpl in *. apply Z.ltb_lt in Hlt. by rewrite Hlt.
Qed.
Lemma verify_key_only net net' raw s :
  (∀ kid, key (net := net) c kid s = key (net := net') c kid s) → verify (net := net) c raw s = verify (net := net') c raw s.
Proof.
  intros Hk. unfold verify, bind, guard. destruct (_ || _); [done|]. simpl. destruct (Split "." raw) as [|? [|? [|? []]]]; try done.
  destruct (decodeSegment decode_header _); [|done]. destruct (_ || _); [done|]. simpl. destruct (b64url_decode _); [|done]. by rewrite Hk.
Qed.
Definition stamped_since (since : Z) (s : World * OIDCCache) : Prop :=
  cache_metadata s.2 ≠ None ∧ ∃ t, cache_keysRefreshedAt s.2 = Some t ∧ since ≤ t.
Lemma fetch_keys_stamps net kid meta st s :
  cache_metadata st = Some meta → stamped_since (clock s.1) (fetch_keys net kid meta st s).1.
Proof.
  intros Hm. unfold fetch_keys. destruct (world time_Now s) as [s1 [now|e]] eqn:En; [|done].
  rewrite (bind_of_ok _ _ _ _ _ En). injection En as <- <-.
  set (now := _ + _). assert (clock s.1 ≤ now) as Hle by (subst now; destruct (ticks s.1); lia).
  assert (∀ w set, stamped_since (clock s.1) (w, stamped now st) ∧ stamped_since (clock s.1) (w, install set (stamped now st))) as Hs.
  { intros. unfold stamped_since. simpl. rewrite Hm. eauto 10. }
  unfold put_cache, NewRequest, bind at 1 2 3 4. simpl. destruct (is_nil _); [by refine (proj1 (Hs _ []))|]. simpl.
  unfold bind. destruct (map_err _ _ _) as [s' r] eqn:E. assert (s'.2 = stamped now st) as Hs'.
  { change s' with ((s', r).1). by rewrite <- E, map_err_run, doJSON_cache. }
  destruct s' as [w' st']. simpl in Hs'. subst st'. destruct r as [set|e]; simpl; [|by refine (proj1 (Hs _ []))].
  destruct (lookup_key _ _); exact (proj2 (Hs _ _)).
Qed.
(** A lookup that depends on the issuer's answer leaves the time it asked. *)
Lemma key_stamps net net' kid s :
  cache_metadata s.2 ≠ None → key (net := net) c kid s ≠ key (net := net') c kid s → stamped_since (clock s.1) (key (net := net) c kid s).1.
Proof.
  intros Hm. destruct (cache_metadata s.2) as [meta|] eqn:E; [|done]. rewrite !(key_cached _ _ _ _ E).
  destruct (lookup_key s.2 kid); [done|].
  assert (∃ s1 lately, refreshed_lately s.2 s = (s1, Ok lately) ∧ clock s.1 ≤ clock s1.1) as (s1 & lately & Hl & Hle).
  { unfold refreshed_lately. destruct (cache_keysRefreshedAt s.2); [|by eexists s, _]. unfold bind, world, time_Now, ret. eexists _, _.
    split; [reflexivity|]. simpl. destruct (ticks s.1); lia. }
  rewrite !(bind_of_ok _ _ _ _ _ Hl). destruct lately; [done|]. intros _.
  destruct (fetch_keys_stamps net kid meta s.2 s1 E) as [? (t & ? & ?)]. split; [done|]. exists t. split; [done | lia].
Qed.

Lemma bind_guard {B} b e (f : unit → OIDC B) s : bind (guard b e) f s = if b then (s, Err e) else f tt s.
Proof. by destruct b. Qed.
Lemma run_keeps {A B} (m : OIDC A) (f : A → OIDC B) s : (∀ a s1, (f a s1).1 = s1) → (bind m f s).1 = (m s).1.
Proof. intros Hf. unfold bind. destruct (m s) as [s1 [a|e]]; [apply Hf | done]. Qed.
Lemma verify_asks net net' raw s :
  verify (net := net) c raw s ≠ verify (net := net') c raw s →
  ∃ kid, key (net := net) c kid s ≠ key (net := net') c kid s ∧ (verify (net := net) c raw s).1 = (key (net := net) c kid s).1.
Proof.
  unfold verify. rewrite !bind_guard. destruct (_ || _); [done|]. destruct (Split "." raw) as [|head [|body [|sig []]]]; try done.
  destruct (decodeSegment decode_header _) as [header|]; [|done]. rewrite !bind_guard. destruct (_ || _); [done|].
  destruct (b64url_decode _) as [signature|]; [|done]. intros Hne. exists (header_KeyID header). split.
  - intros Heq. apply Hne. unfold bind at 1 3. by rewrite Heq.
  - apply run_keeps. intros k s1. rewrite bind_guard. destruct (negb _); [done|]. destruct (decodeSegment _ _); [|done].
    rewrite bind_guard. destruct (negb _); [done|]. rewrite bind_guard. by destruct (negb _).
Qed.

(** A token cannot make the client ask for the key set at will: once a
    verification has asked the issuer (its outcome depends on the network),
    every verification in the next thirty seconds, whatever the token and its
    key identifier, is decided without a request. *)
Theorem key_set_is_asked_for_once_per_pause net net' raw s :
  cache_metadata s.2 ≠ None → verify (net := net) c raw s ≠ verify (net := net') c raw s →
  ∃ asked, clock s.1 ≤ asked ∧
    ∀ w raw' net2 net2', clock (time_Now w).1 < asked + keyRefreshPause →
      let st := (verify (net := net) c raw s).1.2 in
      verify (net := net2) c raw' (w, st) = verify (net := net2') c raw' (w, st).
Proof.
  intros Hm Hne. assert (stamped_since (clock s.1) (verify (net := net) c raw s).1) as [Hm' (t & Ht & Hle)].
  { apply verify_asks in Hne as (kid & Hk & ->). by apply (key_stamps net net'). }
  exists t. split; [done|]. intros w raw' net2 net2' Hlt. apply verify_key_only. intros kid. apply key_pausing.
  split; [done|]. exists t. split; [done|]. simpl in *. lia.
Qed.
End pause.

(** ** An issuer for evaluation

    A network with one issuer, its key set of one key and a token endpoint
    that grants two codes (one whose token carries another nonce), a parser
    that knows the documents they use, and the witnesses of the properties.
    Nothing here models the program. *)

Definition issuer_client : OIDCClient := mkOIDCClient "https://id.example" "app" "secret" "https://app.example/callback".
#[local] Existing Instance plain_hash | 0.
#[local] Existing Instance plain_hash_laws.
#[local] Instance issuer_encoder : QueryEncoder := {| SetQuery url _ := url |}.
#[local] Instance issuer_signatures : RSA := {| VerifyPKCS1v15 _ _ signature := String.eqb signature "sig" |}.
Fixpoint repeat_byte (n : nat) (c : ascii) : string := match n with O => "" | S n => String c (repeat_byte n c) end.
Definition issuer_modulus : string := repeat_byte 342 "_".
Definition id_claims (nonce : string) : json := JObject
  [("iss", JString "https://id.example"); ("sub", JString "dora"); ("aud", JArray [JString "app"]); ("exp", JNumber "2000");
   ("iat", JNumber "1000"); ("nonce", JString nonce); ("email", JString "dora@example.org"); ("email_verified", JBool true)].
Definition logout_claims : json := JObject
  [("iss", JString "https://id.example"); ("aud", JString "app"); ("iat", JNumber "1000"); ("jti", JString "j1"); ("sid", JString "s1");
   ("events", JObject [(backChannelEvent, JObject [])])].
Definition documents : list (string * json) :=
  [("metadata", JObject [("issuer", JString "https://id.example"); ("authorization_endpoint", JString "https://id.example/authorize");
                         ("token_endpoint", JString "https://id.example/token"); ("jwks_uri", JString "https://id.example/keys")]);
   ("keys", JObject [("keys", JArray [JObject [("kty", JString "RSA"); ("kid", JString "k1"); ("n", JString issuer_modulus); ("e", JString "AQAB")]])]);
   ("header", JObject [("alg", JString "RS256"); ("kid", JString "k1")]);
   ("forged", JObject [("alg", JString "RS256"); ("kid", JString "k2")]);
   ("claims", id_claims (b64url_encode "verifier")); ("logout", logout_claims)].
Definition compact (header body : string) : string := b64url_encode header +:+ "." +:+ b64url_encode body +:+ "." +:+ b64url_encode "sig".
Definition find_document (s : string) : option json :=
  match find (λ d, String.eqb d.1 s) documents with
  | Some d => Some d.2
  | None => if String.eqb s "token" then Some (JObject [("id_token", JString (compact "header" "claims"))]) else None
  end.
#[local] Instance issuer_json : JSONParser := {| json_text := find_document; json_first := find_document |}.
Definition issuer_answer (request : HTTPRequest) : option HTTPResponse :=
  if String.eqb (http_URL request) "https://id.example/.well-known/openid-configuration" then Some (mkHTTPResponse 200 "metadata")
  else if String.eqb (http_URL request) "https://id.example/keys" then Some (mkHTTPResponse 200 "keys")
  else if String.eqb (http_URL request) "https://id.example/token" && String.eqb (http_Method request) "POST" then Some (mkHTTPResponse 200 "token")
  else None.
#[local] Instance issuer_net : HTTPClient := {| http_Do request := ret (issuer_answer request) |}.
(** No address answers. *)
Definition dead_net : HTTPClient := {| http_Do _ := ret None |}.

Definition at_noon (seconds : Z) : World := mkWorld empty_db (seconds * second) [] [] [] [] [].
Example sign_in_succeeds : is_ok (Exchange issuer_client "code" "verifier" (at_noon 1100, empty_cache)).2 = true.
Proof. vm_compute. reflexivity. Qed.
Example logout_succeeds : (VerifyLogoutToken issuer_client (compact "header" "logout") (at_noon 1100, empty_cache)).2 = Ok "s1".
Proof. vm_compute. reflexivity. Qed.

Definition issuer_metadata : metadata :=
  mkMetadata "https://id.example" "https://id.example/authorize" "https://id.example/token" "https://id.example/keys" "".
Definition issuer_key : PublicKey := mkPublicKey (SetBytes 0 (default "" (b64url_decode issuer_modulus))) 65537.
Lemma issuer_serves : IssuerServes issuer_client (eq issuer_metadata) (eq issuer_key).
Proof.
  split.
  - intros s s' meta (response & value & Hd & _ & Hv & Hm)%doJSON_ok _. injection Hd as _ <-. vm_compute in Hv. injection Hv as <-.
    vm_compute in Hm. by injection Hm as <-.
  - intros meta s s' set <- (response & value & Hd & _ & Hv & Hm)%doJSON_ok. injection Hd as _ <-. vm_compute in Hv. injection Hv as <-.
    vm_compute in Hm. injection Hm as <-. constructor; [|constructor]. intros kid key Hk. vm_compute in Hk. injection Hk as _ <-. by vm_compute.
Qed.

Lemma identity_is_vouched_for_witness :
  ∃ k cl, issuer_key = k ∧ signed issuer_client k (compact "header" "claims") cl ∧ Subject cl = "dora".
Proof.
  pose (r := Exchange issuer_client "code" "verifier" (at_noon 1100, empty_cache)).
  destruct (identity_is_vouched_for issuer_client (eq issuer_metadata) (eq issuer_key) issuer_serves (at_noon 1100, empty_cache) "code" "verifier" r.1
    (mkSSOIdentity "dora" "dora@example.org" true "" "" "" (compact "header" "claims"))) as (k & cl & Hk & _ & Hs & _ & _ & Hi).
  - apply empty_cache_good.
  - subst r. vm_compute. reflexivity.
  - subst r. vm_compute. discriminate.
  - exists k, cl. split_and!; [exact Hk | exact Hs |]. injection Hi as <-. reflexivity.
Defined.
Lemma logout_is_ordered_by_the_issuer_witness :
  ∃ k cl, issuer_key = k ∧ signed issuer_client k (compact "header" "logout") cl ∧ SessionID cl = "s1".
Proof.
  pose (r := VerifyLogoutToken issuer_client (compact "header" "logout") (at_noon 1100, empty_cache)).
  destruct (logout_is_ordered_by_the_issuer issuer_client (eq issuer_metadata) (eq issuer_key) issuer_serves (at_noon 1100, empty_cache)
    (compact "header" "logout") r.1 "s1") as (k & cl & event & Hk & _ & Hs & Hi & _).
  - apply empty_cache_good.
  - subst r. vm_compute. reflexivity.
  - subst r. vm_compute. split; discriminate.
  - exists k, cl. split_and!; [exact Hk | exact Hs | exact Hi].
Defined.
Lemma id_token_serves_one_purpose_witness :
  is_ok (Exchange issuer_client "code" "another" (at_noon 1100, empty_cache)).2 = false.
Proof.
  pose (s := (at_noon 1100, empty_cache)). pose (x := mkSSOIdentity "dora" "dora@example.org" true "" "" "" (compact "header" "claims")).
  destruct (Exchange issuer_client "code" "another" s) as [t [identity|e]] eqn:E; [exfalso|reflexivity].
  destruct (id_token_serves_one_purpose issuer_client s "code" "verifier" (Exchange issuer_client "code" "verifier" s).1 x
    s "code" "another" t identity s s "") as [Hone _]; [vm_compute; reflexivity|].
  assert (sso_IDToken identity = sso_IDToken x) as Ht by (vm_compute in E; discriminate).
  discriminate (Hone E Ht).
Defined.
Lemma key_set_is_asked_for_once_per_pause_witness :
  ∃ asked, 1100 * second ≤ asked.
Proof.
  pose (s := (at_noon 1100, mkCache (Some issuer_metadata) ∅ None None)).
  destruct (key_set_is_asked_for_once_per_pause issuer_client issuer_net dead_net (compact "forged" "claims") s) as (asked & Ha & _).
  - discriminate.
  - intros Heq. apply (f_equal (λ r, cache_onlyKey r.1.2)) in Heq. vm_compute in Heq. discriminate.
  - exists asked. exact Ha.
Defined.
