(* ===== verification/Start.v ===== *)
(** * Starting the site

    What cmd/web/main.go and [New] of internal/app/app.go make of a loaded
    configuration: every constructor with its refusals, the bootstrap
    administrator (internal/app/bootstrap.go), and the site the router serves.
    The migrations are in Migrations.v, [main] itself in Process.v; signals and
    the goroutines of the worker and the queue are not modelled. *)
From S2P Require Export WebProps Oidc Adapters WebDemo.
Import UserRepository.
#[local] Existing Instance addresses | 0.
#[local] Existing Instance mail_addresses | 0.

(** The sender [New] picks. *)
Inductive mail_sender :=
| DevelopmentSender
| ResendDelivery (s : MailSenders.ResendSender)
| SMTPDelivery (s : MailSenders.SMTPSender).
(** The parts of [Graph] that come from the configuration; the settings of the
    system overview as [New] gives them to [NewSystemInfoService], which
    [SystemConfiguration_] applies. *)
Record Graph := mkGraph {
  graph_config : Config; graph_Mail : mail_sender; graph_Maintenance : MaintenanceWorker; graph_Usage : UsageQueue;
  graph_SystemInfo : SystemInfoSettings }.

Module Start.
Definition ErrMailDeliveryNotConfigured : error := Opaque "app: mail delivery not configured".
Definition ErrBootstrapAdminForbidden : error := Opaque "app: bootstrap administrator is not allowed in production".

(** [New] keeps no state: a computation that can fail. *)
Definition Build : Type → Type := ST unit.
(** [fmt.Errorf("construct ...: %w", err)]. *)
Definition construct {A} (what : string) (r : outcome A) : Build A := map_err (Errorf what) (lift r).

Section start.
Context `{Unicode, AddressParser, AddressText, MailAddressParser, ReferenceParser, Postgres, Crypto, PasswordHashing, Argon2, JSONParser, net : HTTPClient}.
(** The OpenID Connect client with its cache, as the port it is to [SSOClient]. *)
Context (connect : OIDCClient → SSORelyingParty).
Implicit Types c : Config.Config.

(** [config.PublicURL] as the services take it. *)
Definition public_URL c : URL := let u := Config.PublicURL c in mkURL (u_Scheme u) (u_Host u) (u_Path u).
Definition newSSOProvider c : Build SSOAdmin :=
  let! admin := construct "construct hydra admin client" (Hydra.NewAdminClient (Config.HydraAdminURL c)) in
  construct "construct sso provider service"
    (SSOProvider.NewSSOProviderService (Hydra.admin admin) (Config.SessionLifetime c) (Config.EmailConfirmationRequired c)) ;;;
  ret (Hydra.admin admin).
Definition newSSOClient c (sessions : SessionService) : Build SSORelyingParty :=
  let! client := construct "construct oidc client" (Oidc.New (Config.SSOIssuerURL c) (Config.SSOClientID c)
    (Config.Reveal (Config.SSOClientSecret c)) (Config.SSORedirectURL c)) in
  let! signInPath := construct "derive post-logout redirect" (Locale.Path Locale.Default "/sign-in") in
  construct "construct sso client service" (SSOClient.NewSSOClientService (connect client) sessions App.DefaultOAuthStateLifetime
    (TrimRightSlash (url_String (public_URL c)) +:+ signInPath)) ;;;
  ret (connect client).
Definition newProviderRegistry c : Build (gmap string OAuthProvider) :=
  if negb (Config.GoogleOAuthConfigured c) then construct "construct oauth provider registry" (Providers.NewProviderRegistry [])
  else
    let! google := construct "construct google oauth client"
      (Google.NewGoogleClient (Config.GoogleClientID c) (Config.Reveal (Config.GoogleClientSecret c)) (Config.GoogleRedirectURL c)) in
    construct "construct oauth provider registry" (Providers.NewProviderRegistry [Google.provider google]).
Definition mailSender c : Build mail_sender :=
  if Config.IsSet (Config.ResendAPIKey c) then
    let! s := construct "construct resend sender" (MailSenders.NewResendSender (Config.Reveal (Config.ResendAPIKey c)) (Config.MailFrom c)) in
    ret (ResendDelivery s)
  else if Config.IsSet (Config.MailRelay c) then
    let! s := construct "construct smtp sender" (MailSenders.NewSMTPSender (Config.Reveal (Config.MailRelay c)) (Config.MailFrom c)) in
    ret (SMTPDelivery s)
  else ret DevelopmentSender.
(** The check of [NewRateLimiterWithStore] on a limiter of [App]. *)
Definition limiter (scope : string) (l : RateLimiter World) : Build unit :=
  construct ("construct " +:+ scope +:+ " rate limiter") (NewRateLimiterWithStore (limiter_config l) (limiter_now l) (limiter_store l)) ;;; ret tt.
Definition mailRelayLabel c : string :=
  if Config.IsSet (Config.ResendAPIKey c) then "https://api.resend.com" else Config.Reveal (Config.MailRelay c).
Definition retention c : RetentionConfig :=
  Upkeep.withRetentionDefaults (mkRetentionConfig (Config.GuestRetention c) (Config.LoginAttemptRetention c) (Config.UsageRetention c)).

Definition new c : Build Graph :=
  guard (String.eqb (Config.Environment c) Config.EnvironmentProduction && negb (Config.MailConfigured c)) ErrMailDeliveryNotConfigured ;;;
  let mode := if String.eqb (Config.AuthMode c) "" then Config.AuthModeLocal else Config.AuthMode c in
  let! _ := construct "construct session service" (Sessions.NewSessionService (Config.SessionLifetime c) None) in
  let! hydra := if String.eqb mode Config.AuthModeProvider then let! admin := newSSOProvider c in ret (Some admin) else ret None in
  let! _ := construct "construct password hasher" (PasswordHasher.NewPasswordHasher PasswordHasher.zeroConfig) in
  let! mail := mailSender c in
  let base := mkConfig (Config.SessionLifetime c) (Config.EmailConfirmationRequired c) (public_URL c) (Config.AuthRateLimit c)
    (cfg_GuestRetention (retention c)) ∅ hydra None in
  limiter "signin" (App.signInLimiter base) ;;;
  limiter "confirmation" App.confirmationLimiter ;;;
  limiter "password reset" App.passwordResetLimiter ;;;
  let! _ := construct "construct confirmation service"
    (Confirmation.NewEmailConfirmationService (public_URL c) App.DefaultEmailConfirmationLifetime) in
  let! _ := construct "construct password reset service"
    (PasswordReset.NewPasswordResetService App.passwordResetLimiter (public_URL c) App.DefaultPasswordResetLifetime) in
  let! providers := newProviderRegistry c in
  let! issuer := if String.eqb mode Config.AuthModeClient
                 then let! rp := newSSOClient c (App.sessionService base) in ret (Some rp) else ret None in
  let! _ := construct "construct oauth service"
    (OAuth.NewOAuthSignInService providers (App.sessionService base) App.DefaultOAuthStateLifetime) in
  limiter "guest" App.guestLimiter ;;;
  guard (cfg_GuestRetention (retention c) <=? 0) (Errorf "construct guest cleanup service" (Opaque "service: invalid guest cleanup config")) ;;;
  limiter "group join" App.groupJoinLimiter ;;;
  let! queue := construct "construct usage queue" (UsageQueues.NewUsageQueue UsageQueues.DefaultUsageQueueCapacity) in
  let! worker := lift (Upkeep.maintenanceWorker (retention c)) in
  let config := mkConfig (Config.SessionLifetime c) (Config.EmailConfirmationRequired c) (public_URL c) (Config.AuthRateLimit c)
    (cfg_GuestRetention (retention c)) providers hydra issuer in
  ret (mkGraph config mail worker queue (mkSystemSettings (Config.Environment c) (Config.HTTPAddress c)
    (url_String (public_URL c)) (Config.EmailConfirmationRequired c) (Config.SessionCookieSecure c) (Providers.Names providers)
    (Config.MailConfigured c) (mailRelayLabel c) (Config.SessionLifetime c) (cfg_GuestRetention (retention c))
    (cfg_LoginAttemptRetention (retention c)) (cfg_UsageRetention (retention c)) (worker_interval worker) (Config.TrustedProxy c) mode
    (Config.SSOIssuerURL c) (Config.HydraAdminURL c))).
Definition New c : outcome Graph := snd (new c tt).

(** ** The site of [main] *)
(** Logout of the issuer in provider mode; the account page in client mode. *)
Definition SSOLogoutURL c (g : Graph) : string :=
  match hydra (graph_config g) with Some _ => TrimRightSlash (Config.SSOIssuerURL c) +:+ "/oauth2/sessions/logout" | None => "" end.
Definition SSOAccountURL c (g : Graph) : string := match issuer (graph_config g) with Some _ => Config.SSOAccountURL c | None => "" end.
(** [host] answers for what the process keeps in memory. *)
Definition admin_ports (host : AdminPorts) (g : Graph) : AdminPorts :=
  mkAdminPorts (graph_SystemInfo g) (port_runtime host) (port_migrations host) (port_queue host) (port_counts host) (port_jobs host) (port_run host).
Definition session_cookie_config c : SessionCookieConfig :=
  mkCookieConfig "" "" (Config.SessionCookieSecure c) (Config.SessionLifetime c) SameSiteUnset.
Definition site_of c (host : AdminPorts) (catalogs : Catalog.Catalogs) : outcome Site :=
  match New c with
  | Err e => Err e
  | Ok g =>
    match WebSession.NewSessionCookie (session_cookie_config c) with
    | Err e => Err e
    | Ok cookie => Ok (mkSite (graph_config g) cookie catalogs (SSOLogoutURL c g) (SSOAccountURL c g) (admin_ports host g))
    end
  end.

(** ** The bootstrap administrator *)
Definition EnsureBootstrapAdmin c : M unit :=
  if negb (Config.BootstrapAdminConfigured c) then ret tt else
  guard (String.eqb (Config.Environment c) Config.EnvironmentProduction) ErrBootstrapAdminForbidden ;;;
  match NormalizeEmail (Config.BootstrapAdminEmail c) with
  | Err _ | Ok "" => throw Config.ErrInvalidBootstrapAdmin
  | Ok email =>
    let! found := attempt (FindUserByEmail email) in
    match found with
    | Ok _ => ret tt
    | Err e =>
      guard (negb (errors_Is e ErrUserNotFound)) (Errorf "find bootstrap administrator" e) ;;;
      let! hash := map_err (Errorf "hash bootstrap administrator password") (Hash (Config.Reveal (Config.BootstrapAdminPassword c))) in
      let! now := unix_now in
      let! created := attempt (CreateUser (mkUser 0 (Some email) None (Some hash) None true false "light" "en" now (Some now) 0)) in
      match created with
      | Ok _ => ret tt
      | Err e => if errors_Is e ErrDuplicateEmail then ret tt else throw (Errorf "create bootstrap administrator" e)
      end
    end
  end.
End start.
End Start.

(** ** What [New] refuses of a loaded configuration *)
(** [url.Parse] on the text of a parsed address with a plain route after it. *)
Class AddressLaws `{AddressParser} : Prop := {
  address_joined raw u route : parse_url raw = Some u → Config.plain_address u = true → plain_route route = true →
    ∃ path, parse_url (TrimRightSlash (Config.address_String u) +:+ route) = Some (mkParsedURL (u_Scheme u) (u_Host u) false path "" "");
}.
(** A computation of [Build] keeps no state. *)
Definition starts {A} (m : Start.Build A) : Prop := ∃ a, m tt = (tt, Ok a).
Lemma starts_bind {A B} (m : Start.Build A) (f : A → Start.Build B) a : m tt = (tt, Ok a) → starts (f a) → starts (bind m f).
Proof. intros Hm [b Hb]. exists b. by rewrite (bind_of_ok _ _ _ _ _ Hm). Qed.
Lemma starts_split {A B} (m : Start.Build A) (f : A → Start.Build B) : starts (bind m f) → ∃ a, m tt = (tt, Ok a) ∧ starts (f a).
Proof. intros [b Hb]. apply bind_ok in Hb as ([] & a & Ha & Hb). exists a. split; [done|by exists b]. Qed.
Lemma starts_ret {A} (a : A) : starts (ret a).
Proof. by exists a. Qed.
Lemma construct_ok {A} what (a : A) : Start.construct what (Ok a) tt = (tt, Ok a).
Proof. done. Qed.
Lemma construct_only {A} what (r : outcome A) a : Start.construct what r tt = (tt, Ok a) → r = Ok a.
Proof. destruct r; [by intros [= ->]|done]. Qed.
Lemma limiter_starts scope l : 0 < Limit (limiter_config l) → 0 < Window (limiter_config l) → Start.limiter scope l tt = (tt, Ok tt).
Proof.
  intros Hl Hw. unfold Start.limiter, NewRateLimiterWithStore.
  assert ((Limit (limiter_config l) <=? 0) || (Window (limiter_config l) <=? 0) = false) as -> by (rewrite orb_false_iff; lia). done.
Qed.

Section starting.
Context `{Unicode, !UnicodeLaws, AddressParser, !AddressLaws, AddressText, MailAddressParser, !MailAddressLaws, DurationParser, ReferenceParser, !ReferenceParserLaws}.
Context `{Postgres, Crypto, PasswordHashing, Argon2, JSONParser, net : HTTPClient} (connect : OIDCClient → SSORelyingParty).
Implicit Types (env : string → string) (c : Config.Config).

Lemma web_address_absolute no_user raw : some_web_address raw → ∃ u, absolute_address no_user raw = Some u.
Proof.
  intros (scheme & _ & u & Hu & Hp & Hw & _). exists u. unfold absolute_address. rewrite Hu. simpl. unfold Config.plain_address in Hp. bool_props.
  match goal with E : u_User u = false |- _ => rewrite E, andb_false_r end.
  match goal with E : u_Host u ≠ "" |- _ => apply String.eqb_neq in E; rewrite E end. by rewrite Hw.
Qed.
Lemma web_address_http raw : some_web_address raw → Oidc.absoluteHTTPURL raw = true.
Proof.
  intros (scheme & _ & u & Hu & Hp & Hw & _). unfold Oidc.absoluteHTTPURL, url_Parse. simpl. rewrite Hu. simpl. unfold Config.plain_address in Hp. unfold Config.web_scheme in Hw. bool_props.
  rewrite Hw. match goal with E : u_User u = false |- _ => rewrite E end.
  match goal with E : u_Host u ≠ "" |- _ => apply String.eqb_neq in E; rewrite E end. done.
Qed.


Lemma sign_in_path : Locale.Path Locale.Default "/sign-in" = Ok "/en/sign-in".
Proof. unfold Locale.Path. rewrite (parse_plain "/sign-in" eq_refl). reflexivity. Qed.
Lemma callback_path : Locale.Path Locale.Default "/oauth/google/callback" = Ok "/en/oauth/google/callback".
Proof. unfold Locale.Path. rewrite (parse_plain "/oauth/google/callback" eq_refl). reflexivity. Qed.
Lemma public_joined env c route : Config.Load env = Ok c → plain_route route = true →
  ∃ p, parse_url (TrimRightSlash (Config.address_String (Config.PublicURL c)) +:+ route) = Some (mkParsedURL (u_Scheme (Config.PublicURL c)) (u_Host (Config.PublicURL c)) false p "" "").
Proof. intros (Hs & _ & _)%load_ok Hp. destruct Hs as [((raw & Hraw) & Hpl & _) _]. by eapply address_joined. Qed.
Lemma public_ok env c : Config.Load env = Ok c → (u_Scheme (Config.PublicURL c) = "http" ∨ u_Scheme (Config.PublicURL c) = "https") ∧ u_Host (Config.PublicURL c) ≠ "".
Proof.
  intros (Hs & _ & _)%load_ok. destruct Hs as [(_ & Hp & Hw) _]. unfold Config.plain_address in Hp. unfold Config.web_scheme in Hw. bool_props. split; [|done].
  apply orb_true_iff in Hw. rewrite !String.eqb_eq in Hw. done.
Qed.

(** Each part [New] builds. *)
Lemma admin_starts env c : Config.Load env = Ok c → Config.AuthMode c = Config.AuthModeProvider → second ≤ Config.SessionLifetime c → starts (Start.newSSOProvider c).
Proof.
  intros (_ & [Hr [Ht _]] & _)%load_ok Hm Hl. destruct Hr as [(Hr & _)|[(_ & Hh & _)|(Hr & _)]]; [by rewrite Hm in Hr| |by rewrite Hm in Hr].
  unfold Start.newSSOProvider. destruct (web_address_absolute true _ Hh) as [u Hu].
  eapply starts_bind; [unfold Hydra.NewAdminClient; rewrite Ht, Hu; apply construct_ok|].
  eapply starts_bind; [|apply starts_ret]. unfold SSOProvider.NewSSOProviderService. destruct (Z.ltb_spec (Config.SessionLifetime c) second); [lia|]. apply construct_ok.
Qed.
Lemma client_starts env c sessions : Config.Load env = Ok c → Config.AuthMode c = Config.AuthModeClient → starts (Start.newSSOClient connect c sessions).
Proof.
  intros Hload Hm. pose proof Hload as (_ & [Hr [_ Ht]] & _)%load_ok.
  destruct Hr as [(Hr & _)|[(Hr & _)|(_ & _ & Hi & Hid & Hidt & Hsec & Hred & _)]]; [by rewrite Hm in Hr|by rewrite Hm in Hr|].
  unfold Start.newSSOClient. eapply starts_bind.
  { unfold Oidc.New. rewrite Ht, Hidt, (web_address_http _ Hi), (web_address_http _ Hred). apply String.eqb_neq in Hid. rewrite Hid.
    unfold Config.IsSet in Hsec. apply negb_true_iff in Hsec. unfold Config.Reveal. rewrite Hsec. apply construct_ok. }
  eapply starts_bind; [rewrite sign_in_path; apply construct_ok|]. eapply starts_bind; [|apply starts_ret].
  assert (OAuth.safeOAuthURL (TrimRightSlash (url_String (Start.public_URL c)) +:+ "/en/sign-in") = true) as Hsafe.
  { unfold OAuth.safeOAuthURL, url_Parse. simpl addresses.
    destruct (public_joined env c "/en/sign-in" Hload eq_refl) as [p Hp]. destruct (public_ok env c Hload) as [Hs Hh].
    unfold Config.address_String in Hp. unfold Start.public_URL. cbv zeta. simpl. rewrite Hp. simpl.
    apply String.eqb_neq in Hh. rewrite Hh. by destruct Hs as [-> | ->]. }
  unfold SSOClient.NewSSOClientService. rewrite Hsafe. apply construct_ok.
Qed.
(** The redirect address is not trimmed again. *)
Lemma google_redirect_trimmed env c : Config.Load env = Ok c → TrimSpace (Config.GoogleRedirectURL c) = Config.GoogleRedirectURL c.
Proof.
  intros Hload. pose proof Hload as (Hs & _ & _)%load_ok. destruct Hs as (_ & _ & _ & _ & _ & _ & _ & _ & [_ Hc] & _).
  destruct Hc as [Hc|Hc]; [done|]. unfold Config.derived_URL in Hc. rewrite callback_path in Hc. injection Hc as <-.
  destruct (public_ok env c Hload) as [Hs _].
  assert (∃ p q, TrimRightSlash (Config.address_String (Config.PublicURL c)) +:+ "/en/oauth/google/callback" = String "h" p ∧ String "h" p = q +:+ "k") as (p & q & -> & Hq).
  { unfold Config.address_String, url_String. cbn [url_Scheme].
    assert (∀ a s, TrimRightSlash (String a s) +:+ "/en/oauth/google/callback" = String "h" (TrimRightSlash s +:+ "/en/oauth/google/callback") ∨ a ≠ "h"%char) as Hh.
    { intros a s. destruct (decide (a = "h"%char)) as [->|]; [left|by right]. simpl. by destruct (TrimRightSlash s). }
    match goal with |- context [TrimRightSlash (?sch +:+ ?rest)] => assert (∃ s, sch +:+ rest = String "h" s) as [s ->] by (destruct Hs as [-> | ->]; eexists; reflexivity) end.
    destruct (Hh "h"%char s) as [->|]; [|done]. eexists _, (String "h" (TrimRightSlash s +:+ "/en/oauth/google/callbac")). split; [reflexivity|].
    change (String "h" (TrimRightSlash s +:+ "/en/oauth/google/callback") = String "h" ((TrimRightSlash s +:+ "/en/oauth/google/callbac") +:+ "k")).
    f_equal. exact (eq_sym (str_app_assoc (TrimRightSlash s) "/en/oauth/google/callbac" "k")). }
  by eapply (TrimSpace_id "h" p q "k").
Qed.
Lemma google_starts env c : Config.Load env = Ok c →
  starts (Start.newProviderRegistry c) ↔ (Config.GoogleOAuthConfigured c = true → Config.blank (Config.Reveal (Config.GoogleClientSecret c)) = false).
Proof.
  intros Hload. pose proof Hload as (Hs & _ & _)%load_ok. destruct Hs as (_ & _ & _ & _ & _ & _ & _ & _ & _ & Hg).
  unfold Start.newProviderRegistry. destruct (Config.GoogleOAuthConfigured c) eqn:Eg; simpl; [|split; [done|by eexists]].
  destruct Hg as [[_ Hn]|(Hid & Hidt & Hset & Hweb)].
  { exfalso. unfold Config.GoogleOAuthConfigured in Eg. by rewrite Hn, andb_false_r in Eg. }
  assert (Google.validRedirectURL (Config.GoogleRedirectURL c) = true) as Hv.
  { unfold Google.validRedirectURL. by destruct (web_address_absolute true _ Hweb) as [u ->]. }
  split.
  - intros (g & Hgc & _)%starts_split _. apply construct_only in Hgc. unfold Google.NewGoogleClient in Hgc. case_in Hgc. bool_props. by apply String.eqb_neq.
  - intros Hb. specialize (Hb eq_refl). eapply starts_bind.
    { unfold Google.NewGoogleClient. rewrite Hidt, (google_redirect_trimmed env c Hload), Hv. apply String.eqb_neq in Hid. rewrite Hid.
      unfold Config.blank in Hb. rewrite Hb. apply construct_ok. }
    eexists. reflexivity.
Qed.
(** What the senders ask of the relay and, trimmed, of the sender's address. *)
Definition relay_has_host c : Prop :=
  Config.IsSet (Config.MailRelay c) = true →
  ∃ u, parse_url (TrimSpace (Config.Reveal (Config.MailRelay c))) = Some u ∧ Hostname u ≠ "".
Definition sender_parses c : Prop :=
  Config.MailConfigured c = true →
  ∃ name address, mail_ParseAddress (TrimSpace (Config.MailFrom c)) = Some (name, address) ∧
    (Config.IsSet (Config.ResendAPIKey c) = true → name = "").
Lemma construct_starts {A} what (r : outcome A) (f : A → mail_sender) :
  starts (bind (Start.construct what r) (λ s, ret (f s))) ↔ ∃ s, r = Ok s.
Proof.
  split; [intros (s & Hs & _)%starts_split; exists s; by apply construct_only in Hs|].
  intros [s ->]. eapply starts_bind; [apply construct_ok|apply starts_ret].
Qed.
Lemma mail_starts env c : Config.Load env = Ok c → starts (Start.mailSender c) ↔ relay_has_host c ∧ sender_parses c.
Proof.
  intros Hload. pose proof Hload as (Hs & _ & _)%load_ok. destruct Hs as (_ & _ & _ & _ & _ & (Hrelay & Hkey) & _).
  unfold Start.mailSender, relay_has_host, sender_parses, Config.MailConfigured.
  destruct (Config.IsSet (Config.ResendAPIKey c)) eqn:Ek.
  - destruct (Hkey eq_refl) as (Hv & Hl & Hc). rewrite construct_starts, orb_true_r.
    unfold MailSenders.NewResendSender, Config.Reveal. rewrite Hv, TrimSpace_idemp, <- Hv.
    unfold Config.IsSet in Ek. apply negb_true_iff in Ek. rewrite Ek, Hc.
    destruct (Z.ltb_spec 256 (len (Config.value (Config.ResendAPIKey c)))); [lia|]. cbn [orb]. split.
    + intros [s Hsnd]. split; [intros Hr; by destruct (Hrelay Hr)|]. intros _.
      destruct (mail_ParseAddress _) as [[name a]|]; [|done]. exists name, a. split; [done|]. intros _.
      case_in Hsnd. by bool_props.
    + intros [_ Hf]. destruct (Hf eq_refl) as (name & a & Hp & Hn). rewrite Hp, (Hn eq_refl), (address_one_line _ _ _ Hp). by eexists.
  - destruct (Config.IsSet (Config.MailRelay c)) eqn:Er; cbn [orb].
    2: { split; [done|intros _; apply starts_ret]. }
    destruct (Hrelay eq_refl) as (_ & u & Hu & Ha). unfold Config.Reveal. rewrite Hu. unfold Config.relay_address in Ha. bool_props.
    rewrite construct_starts. unfold MailSenders.NewSMTPSender. rewrite Hu.
    match goal with E : u_User u = false |- _ => rewrite E end. cbn [orb]. cbv zeta.
    match goal with E : _ || _ = true |- _ => apply orb_true_iff in E; rewrite !String.eqb_eq in E; rename E into Hscheme end. split.
    + intros [s Hsnd]. split; intros _.
      * exists u. split; [done|]. intros E. by rewrite E in Hsnd.
      * case_in Hsnd. destruct (mail_ParseAddress _) as [[name a]|]; [by exists name, a|].
        by destruct Hscheme as [Es|Es]; rewrite Es in Hsnd.
    + intros [Hh Hf]. destruct (Hh eq_refl) as (u' & [= <-] & Hne). apply String.eqb_neq in Hne. rewrite Hne.
      destruct (Hf eq_refl) as (name & a & Hp & _). rewrite Hp, (address_one_line _ _ _ Hp).
      destruct Hscheme as [E|E]; rewrite E; by eexists.
Qed.
Lemma mode_known env c : Config.Load env = Ok c → (if String.eqb (Config.AuthMode c) "" then Config.AuthModeLocal else Config.AuthMode c) = Config.AuthMode c.
Proof. intros (_ & [Hr _] & _)%load_ok. by destruct Hr as [[-> _]|[[-> _]|[-> _]]]. Qed.
Lemma production_has_mail env c : Config.Load env = Ok c → String.eqb (Config.Environment c) Config.EnvironmentProduction && negb (Config.MailConfigured c) = false.
Proof.
  intros (_ & _ & Hv)%load_ok. unfold Config.validateProduction in Hv. destruct (String.eqb _ _); [|done]. simpl in *.
  destruct (Config.problems c) eqn:Hp; [|done]. unfold Config.problems in Hp. repeat (apply app_eq_nil in Hp as [?Hq Hp]). by apply problem_none in Hq3.
Qed.
Lemma New_starts c : (∃ g, Start.New connect c = Ok g) ↔ starts (Start.new connect c).
Proof. unfold Start.New, starts. split; intros [g Hg]; exists g; [|by rewrite Hg]. destruct (Start.new connect c tt) as [[] r]. simpl in Hg. by subst. Qed.
Ltac next_start := eapply starts_bind; [first [apply construct_ok | by apply limiter_starts | reflexivity]|].
Lemma signin_budget cfg : 0 < Limit (App.authenticationRateLimitConfig cfg) ∧ 0 < Window (App.authenticationRateLimitConfig cfg).
Proof. unfold App.authenticationRateLimitConfig. destruct (Z.ltb_spec 0 (AuthRateLimit cfg)); by split. Qed.
(** With its conditions, every step of [new] succeeds. *)
Lemma loaded_starts env c : Config.Load env = Ok c → second ≤ Config.SessionLifetime c →
  starts (Start.mailSender c) → starts (Start.newProviderRegistry c) → starts (Start.new connect c).
Proof.
  intros Hload Hl [mail Hmail] [providers Hprov]. unfold Start.new. rewrite (production_has_mail env c Hload), (mode_known env c Hload).
  destruct (public_ok env c Hload) as [Hs Hh]. pose proof Hload as (Hset & [Hr _] & _)%load_ok.
  destruct Hset as (_ & (_ & Hg & Ha & Hu) & Hlimit & _). next_start. cbv zeta.
  eapply starts_bind; [unfold Sessions.NewSessionService; destruct (Z.ltb_spec (Config.SessionLifetime c) second); [lia|apply construct_ok]|].
  assert (∃ h, (if String.eqb (Config.AuthMode c) Config.AuthModeProvider then let! admin := Start.newSSOProvider c in ret (Some admin) else ret None : Start.Build _) tt = (tt, Ok h)) as [h Hh1].
  { destruct (String.eqb_spec (Config.AuthMode c) Config.AuthModeProvider) as [Em|]; [|by eexists].
    destruct (admin_starts env c Hload Em Hl) as [a Hadm]. eapply starts_bind; [exact Hadm|apply starts_ret]. }
  eapply starts_bind; [exact Hh1|]. next_start. eapply starts_bind; [exact Hmail|].
  eapply starts_bind; [apply limiter_starts; apply signin_budget|]. do 2 next_start.
  assert (negb (String.eqb (u_Scheme (Config.PublicURL c)) "http") && negb (String.eqb (u_Scheme (Config.PublicURL c)) "https") = false ∧ String.eqb (u_Host (Config.PublicURL c)) "" = false) as [Hu1 Hu2].
  { apply String.eqb_neq in Hh. rewrite Hh. by destruct Hs as [-> | ->]. }
  eapply starts_bind; [unfold Confirmation.NewEmailConfirmationService, Start.public_URL; simpl; rewrite Hu1, Hu2; apply construct_ok|].
  eapply starts_bind; [unfold PasswordReset.NewPasswordResetService, Start.public_URL; simpl; rewrite Hu1, Hu2; apply construct_ok|].
  eapply starts_bind; [exact Hprov|].
  match goal with |- starts (bind ?m _) => assert (starts m) as [issuer Hi] end.
  { destruct (String.eqb_spec (Config.AuthMode c) Config.AuthModeClient) as [Em|]; [|apply starts_ret].
    destruct (client_starts env c (App.sessionService (mkConfig (Config.SessionLifetime c) (Config.EmailConfirmationRequired c) (Start.public_URL c)
      (Config.AuthRateLimit c) (cfg_GuestRetention (Start.retention c)) ∅ h None)) Hload Em) as [rp Hrp]. eapply starts_bind; [exact Hrp|apply starts_ret]. }
  eapply starts_bind; [exact Hi|]. do 2 next_start.
  eapply starts_bind.
  { unfold guard. simpl. destruct (Z.leb_spec (Config.GuestRetention c) 0); [lia|]. destruct (Z.leb_spec (Config.GuestRetention c) 0); [lia|]. reflexivity. }
  do 2 next_start. destruct (maintenanceWorker_total (Start.retention c)) as [worker Hw].
  eapply starts_bind; [by rewrite Hw|]. apply starts_ret.
Qed.

(** C32. What loads starts, but for four settings that [Load] lets through:
    [New] builds the site from a loaded configuration exactly when a session
    lasts a second or longer, a configured Google client secret is not blank,
    a mail relay has a host name, and, if mail is to be sent, the sender's
    address still parses once it is trimmed (for Resend, as an address without
    a name). *)
Theorem what_loads_starts env c :
  Config.Load env = Ok c →
  (∃ g, Start.New connect c = Ok g) ↔
  second ≤ Config.SessionLifetime c ∧
  (Config.GoogleOAuthConfigured c = true → Config.blank (Config.Reveal (Config.GoogleClientSecret c)) = false) ∧
  (Config.IsSet (Config.MailRelay c) = true → ∃ u, parse_url (TrimSpace (Config.Reveal (Config.MailRelay c))) = Some u ∧ Hostname u ≠ "") ∧
  (Config.MailConfigured c = true →
     ∃ name address, mail_ParseAddress (TrimSpace (Config.MailFrom c)) = Some (name, address) ∧
       (Config.IsSet (Config.ResendAPIKey c) = true → name = "")).
Proof.
  intros Hload. fold (relay_has_host c) (sender_parses c).
  rewrite New_starts, <- (google_starts env c Hload), <- (mail_starts env c Hload). split.
  - intros Hn. unfold Start.new in Hn. apply starts_split in Hn as (? & _ & Hn). cbv zeta in Hn. apply starts_split in Hn as (ss & Hss & Hn).
    apply construct_only in Hss. unfold Sessions.NewSessionService in Hss. case_in Hss. bool_props. split; [done|].
    apply starts_split in Hn as (? & _ & Hn). apply starts_split in Hn as (? & _ & Hn). apply starts_split in Hn as (mail & Hmail & Hn).
    do 5 (apply starts_split in Hn as (? & _ & Hn)). apply starts_split in Hn as (providers & Hp & _). split; by eexists.
  - intros (Hl & Hg & Hm). by eapply loaded_starts.
Qed.
End starting.

(** ** The site that starts *)
Section started.
Context `{Unicode, AddressParser, AddressText, MailAddressParser, DurationParser, ReferenceParser}.
Context `{Postgres, Crypto, PasswordHashing, !PasswordHashingLaws, Argon2, JSONParser, FloatParser, Templates, net : HTTPClient} (connect : OIDCClient → SSORelyingParty).
Context (Hnet : ∀ request, quiet (http_Do request)) (Hconnect : ∀ client, quiet_relying_party (connect client)).
Implicit Types c : Config.Config.
#[local] Hint Resolve Hnet : go_preserves.

Lemma send_quiet a method path query body : quiet (Hydra.send a method path query body).
Proof. unfold quiet, Hydra.send. preserves_tac. apply Hnet. Qed.
Lemma call_quiet {A} a method path query body (decode : json → option A) : quiet (Hydra.call a method path query body decode).
Proof. unfold quiet, Hydra.call. preserves_tac. apply send_quiet. Qed.
Lemma hydra_quiet a : quiet_admin (Hydra.admin a).
Proof.
  assert (∀ path query body, quiet (Hydra.redirect a path query body)) as Hredirect.
  { intros. unfold quiet, Hydra.redirect. preserves_tac. apply call_quiet. }
  assert (∀ path query, quiet (Hydra.revoke a path query)) as Hrevoke.
  { intros. unfold quiet, Hydra.revoke. preserves_tac. apply send_quiet. }
  assert (∀ A a method path query body (decode : json → option A), quiet (Hydra.call a method path query body decode)) as Hcall by (intros; apply call_quiet).
  split; intros; unfold Hydra.admin;
    cbn [LoginRequest AcceptLogin RejectLogin ConsentRequest AcceptConsent RejectConsent LogoutRequest AcceptLogout RevokeLoginSession RevokeConsentSessions];
    unfold Hydra.LoginRequest, Hydra.AcceptLogin, Hydra.RejectLogin, Hydra.ConsentRequest, Hydra.AcceptConsent, Hydra.RejectConsent,
      Hydra.LogoutRequest, Hydra.AcceptLogout, Hydra.RevokeLoginSession, Hydra.RevokeConsentSessions; auto with nocore.
Qed.
Lemma google_quiet g : quiet_client (mkClient (Google.AuthorizationURL g) (Google.Exchange g)).
Proof.
  assert (∀ A e decode request, quiet (Google.ask (A := A) e decode request)) as Hask.
  { intros. unfold quiet, Google.ask. preserves_tac. apply Hnet. }
  split; intros; unfold quiet; simpl; unfold Google.AuthorizationURL, Google.Exchange, Google.exchangeCode, Google.fetchProfile; preserves_tac; apply Hask.
Qed.

Lemma google_only c providers : Start.newProviderRegistry c tt = (tt, Ok providers) → quiet_providers providers.
Proof.
  unfold Start.newProviderRegistry. case_match.
  - intros E%construct_only n p client Hn. unfold Providers.NewProviderRegistry in E. simpl in E. injection E as <-. by rewrite lookup_empty in Hn.
  - intros E. apply bind_ok in E as ([] & google & _ & E). apply construct_only in E. intros n p client Hn Hc.
    assert (p = Google.provider google) as ->; [|injection Hc as <-; apply google_quiet].
    unfold Providers.NewProviderRegistry in E. cbn [Providers.register] in E. case_in E. rewrite lookup_empty in E. injection E as <-.
    apply lookup_insert_Some in Hn as [[_ <-]|[_ Hn]]; [done|by rewrite lookup_empty in Hn].
Qed.
(** What [New] gives the services of other systems, and the settings it copies. *)
Lemma New_ok c g : Start.New connect c = Ok g →
  quiet_ports (graph_config g) ∧ SessionLifetime (graph_config g) = Config.SessionLifetime c ∧ second ≤ Config.SessionLifetime c.
Proof.
  unfold Start.New. intros Hg. assert (Start.new connect c tt = (tt, Ok g)) as Hn by (destruct (Start.new connect c tt) as [[] r]; simpl in Hg; by subst).
  clear Hg. unfold Start.new in Hn. set (mode := if String.eqb (Config.AuthMode c) "" then _ else _) in Hn. apply bind_ok in Hn as ([] & ? & _ & Hn). cbv zeta in Hn.
  apply bind_ok in Hn as ([] & ss & Hss & Hn). apply construct_only in Hss. unfold Sessions.NewSessionService in Hss. case_in Hss. bool_props.
  apply bind_ok in Hn as ([] & hydra & Hhydra & Hn).
  do 2 (apply bind_ok in Hn as ([] & ? & _ & Hn)). do 5 (apply bind_ok in Hn as ([] & ? & _ & Hn)).
  apply bind_ok in Hn as ([] & providers & Hp & Hn). apply bind_ok in Hn as ([] & issuer & Hi & Hn).
  do 6 (apply bind_ok in Hn as ([] & ? & _ & Hn)). injection Hn as <-. simpl. split; [|done]. split; simpl.
  - by apply (google_only c).
  - intros a ->. destruct (String.eqb mode Config.AuthModeProvider) in Hhydra; [|done]. apply bind_ok in Hhydra as ([] & admin & Ha & Hhydra). injection Hhydra as ->.
    unfold Start.newSSOProvider in Ha. apply bind_ok in Ha as ([] & admin' & _ & Ha). apply bind_ok in Ha as ([] & ? & _ & Ha). injection Ha as <-. apply hydra_quiet.
  - intros rp ->. destruct (String.eqb mode Config.AuthModeClient) in Hi; [|done]. apply bind_ok in Hi as ([] & rp' & Ha & Hi). injection Hi as ->.
    unfold Start.newSSOClient in Ha. apply bind_ok in Ha as ([] & client & _ & Ha). apply bind_ok in Ha as ([] & ? & _ & Ha).
    apply bind_ok in Ha as ([] & ? & _ & Ha). injection Ha as <-. apply Hconnect.
Qed.
Lemma site_of_ok c host catalogs site : Start.site_of connect c host catalogs = Ok site → quiet_process host →
  quiet_site site ∧ sc_secure (site_cookie site) = Config.SessionCookieSecure c ∧ sc_sameSite (site_cookie site) = SameSiteLaxMode.
Proof.
  unfold Start.site_of. intros Hs [? ? ? ? ? ?]. destruct (Start.New connect c) as [g|] eqn:Hg; [|done]. apply New_ok in Hg as (Hq & _).
  destruct (WebSession.NewSessionCookie _) as [cookie|] eqn:Hc; [|done]. injection Hs as <-. split; [split; [done|by split]|].
  unfold WebSession.NewSessionCookie in Hc. simpl in Hc. case_in Hc. by injection Hc as <-.
Qed.

(** C4. A deployment keeps its promises: a site started from a loaded
    configuration, with its own clients of Hydra and Google, serves any requests
    in any order with its data well formed and an administrator in place, and
    all cookies it writes are hidden from scripts and kept to requests of the
    site, in production marked secure. *)
Theorem deployment_keeps_its_promises env c host catalogs site proxy log enqueue :
  Config.Load env = Ok c → Start.site_of connect c host catalogs = Ok site → quiet_process host → quiet_port log → quiet_port enqueue →
  (∀ rs w, db_wf (db w) → has_site_admin (db w) →
    let w' := serve_requests (Routes.router site proxy log enqueue) rs w in db_wf (db w') ∧ has_site_admin (db w')) ∧
  (∀ r w, Forall (λ k, cookie_HttpOnly k = true ∧ cookie_SameSite k ∈ [SameSiteLaxMode; SameSiteStrictMode] ∧
      (Config.Environment c = Config.EnvironmentProduction → cookie_Secure k = true))
    (resp_Cookies (snd (fst (Routes.router site proxy log enqueue r (w, no_response)))))).
Proof.
  intros Hload Hsite Hhost Hlog Henq. apply site_of_ok in Hsite as (Hquiet & Hsecure & Hlax); [|done]. split.
  - intros rs w Hwf Ha. pose proof (serve_requests_upkeep site Hquiet proxy log enqueue Hlog Henq true rs w (any_requests rs)) as Hu.
    eapply (upkeep_keep true has_site_admin) in Hu; eauto using purges_site_admin. intros. by eapply change_site_admin.
  - intros r w. destruct (router_cookies site Hquiet proxy log enqueue Hlog Henq r (w, no_response)) as (ks & -> & Hks).
    eapply Forall_impl; [exact Hks|]. intros k [_ Hh Hs Hsame]. rewrite Hlax in Hsame. rewrite Hsecure in Hs. split_and!; [done|by repeat (apply elem_of_cons in Hsame as [->|Hsame]; [by repeat constructor|]); apply elem_of_nil in Hsame|].
    intros Henv. apply Hs. apply load_ok in Hload as (_ & _ & Hv). unfold Config.validateProduction in Hv. rewrite Henv in Hv. simpl in Hv.
    destruct (Config.problems c) eqn:Hp; [|done]. unfold Config.problems in Hp. apply app_eq_nil in Hp as [Hp _]. apply problem_none in Hp. by bool_props.
Qed.
End started.

(** ** A production deployment that starts *)
Section deployment.
Definition known_hosts : list (string * ParsedURL) :=
  [("https://goweb.example", mkParsedURL "https" "goweb.example" false "" "" "");
   ("https://id.example", mkParsedURL "https" "id.example" false "" "" "");
   ("smtp://relay.example:587", mkParsedURL "smtp" "relay.example:587" false "" "" "");
   ("smtp://:25", mkParsedURL "smtp" ":25" false "" "" "")].
#[local] Instance known_addresses : AddressParser := {| parse_url s := snd <$> List.find (λ h, String.prefix h.1 s) known_hosts |}.
#[local] Instance known_laws : AddressLaws.
Proof.
  split. intros raw u route Hraw _ Hr. simpl in Hraw. destruct route as [|slash route]; [done|]. exists "". simpl in Hraw.
  repeat match type of Hraw with context [if ?b then _ else _] => destruct b end; simpl in Hraw; try done; injection Hraw as <-; vm_compute; reflexivity.
Qed.
#[local] Instance plain_text : AddressText := {| address_text s := s |}.
#[local] Instance line_mail : MailAddressParser :=
  {| mail_ParseAddress s := if contains_char "@" s && MailSenders.one_line s then Some ("", s) else None |}.
#[local] Instance line_mail_laws : MailAddressLaws.
Proof.
  split; [|reflexivity]. intros s name a. simpl. destruct (contains_char "@" s); [|done]. simpl.
  destruct (MailSenders.one_line s) eqn:E; [|done]. by intros [= _ <-].
Qed.
#[local] Instance some_periods : DurationParser :=
  {| ParseDuration s := if String.eqb s "720h" then Some (720 * Config.hour) else if String.eqb s "500ms" then Some (second / 2) else None |}.
Lemma no_query s : all_chars path_safe s = true → cut_query s = (s, "").
Proof.
  induction s as [|c s IH]; [done|]. cbn [all_chars]. intros [Hc Hs]%andb_true_iff. specialize (IH Hs).
  destruct c as [[] [] [] [] [] [] [] []]; cbn [cut_query]; rewrite ?IH; first [done | discriminate Hc].
Qed.
#[local] Instance demo_references_laws : ReferenceParserLaws.
Proof.
  split. intros route Hr. cbn [parse_reference demo_references]. rewrite no_query; [done|].
  destruct route as [|c s]; [done|]. destruct c as [[] [] [] [] [] [] [] []]; try discriminate Hr. cbn [plain_route] in Hr.
  apply andb_true_iff in Hr as [_ Hr]. exact Hr.
Qed.
#[local] Instance no_argon2 : Argon2 := {| IDKey _ _ _ _ _ _ := "" |}.
#[local] Instance no_json : JSONParser := {| json_text _ := None; json_first _ := None |}.
#[local] Instance silent_net : HTTPClient := {| http_Do _ := ret None |}.
Definition connect_demo (_ : OIDCClient) : SSORelyingParty := demo_issuer.
Lemma silent_net_quiet request : quiet (http_Do request).
Proof. by intros w. Qed.
Lemma connect_demo_quiet : quiet_relying_party demo_issuer.
Proof. exact (quiet_issuer _ demo_quiet _ eq_refl). Qed.
Definition impatient_env (name : string) : string := if String.eqb name Config.SessionLifetimeEnv then "500ms" else production_env name.
Definition nameless_env (name : string) : string := if String.eqb name Config.MailRelayEnv then "smtp://:25" else production_env name.

(** What the witnesses need to know of a configuration, evaluated. *)
Definition facts_of (c : Config.Config) : string * string * bool * bool * string * Z :=
  (Config.Environment c, Config.MailFrom c, Config.GoogleOAuthConfigured c, Config.IsSet (Config.MailRelay c), Config.Reveal (Config.MailRelay c),
   Config.SessionLifetime c).
Definition loaded_facts (env : string → string) : option (string * string * bool * bool * string * Z) :=
  match Config.Load env with Ok c => Some (facts_of c) | Err _ => None end.
Example production_facts : loaded_facts production_env =
  Some ("production", "no-reply@goweb.example", false, true, "smtp://relay.example:587", 24 * Config.hour).
Proof. vm_compute. reflexivity. Qed.
Example impatient_facts : loaded_facts impatient_env =
  Some ("production", "no-reply@goweb.example", false, true, "smtp://relay.example:587", second / 2).
Proof. vm_compute. reflexivity. Qed.
Example nameless_facts : loaded_facts nameless_env = Some ("production", "no-reply@goweb.example", false, true, "smtp://:25", 24 * Config.hour).
Proof. vm_compute. reflexivity. Qed.
Lemma facts_loaded env f : loaded_facts env = Some f → ∃ c, Config.Load env = Ok c ∧ facts_of c = f.
Proof. unfold loaded_facts. destruct (Config.Load env) as [c|]; [|done]. intros [= <-]. by exists c. Qed.

Lemma what_loads_starts_witness :
  (∃ c g, Config.Load production_env = Ok c ∧ Start.New connect_demo c = Ok g) ∧
  (∃ c, Config.Load impatient_env = Ok c ∧ ¬ ∃ g, Start.New connect_demo c = Ok g) ∧
  (∃ c, Config.Load nameless_env = Ok c ∧ ¬ ∃ g, Start.New connect_demo c = Ok g).
Proof.
  split; [|split].
  - destruct (facts_loaded _ _ production_facts) as (c & Hc & [= _ Hfrom Hg _ Hrelay Hlife]). exists c.
    destruct (proj2 (what_loads_starts connect_demo production_env c Hc)) as [g Hn]; [|exists g; split; assumption].
    rewrite Hlife, Hg, Hrelay, Hfrom. split; [vm_compute; discriminate|]. split; [intros E; discriminate E|]. split; intros _.
    + eexists. split; [vm_compute; reflexivity|vm_compute; discriminate].
    + eexists _, _. split; [vm_compute; reflexivity|reflexivity].
  - destruct (facts_loaded _ _ impatient_facts) as (c & Hc & [= _ Hfrom _ _ _ Hlife]). exists c. split; [exact Hc|]. intros Hn.
    destruct (proj1 (what_loads_starts connect_demo impatient_env c Hc) Hn) as [Hl _]. rewrite Hlife in Hl. apply Hl. reflexivity.
  - destruct (facts_loaded _ _ nameless_facts) as (c & Hc & [= _ Hfrom _ Hset Hrelay _]). exists c. split; [exact Hc|]. intros Hn.
    destruct (proj1 (what_loads_starts connect_demo nameless_env c Hc) Hn) as (_ & _ & Hr & _). destruct (Hr Hset) as (u & Hu & Hne).
    rewrite Hrelay in Hu. vm_compute in Hu. injection Hu as <-. apply Hne. vm_compute. reflexivity.
Defined.

Lemma production_site_starts :
  match Config.Load production_env with Ok c => is_ok (Start.site_of connect_demo c demo_ports demo_catalogs) | Err _ => false end = true.
Proof. vm_compute. reflexivity. Qed.
Lemma deployment_keeps_its_promises_witness :
  ∃ site, (∃ c, Config.Load production_env = Ok c ∧ Start.site_of connect_demo c demo_ports demo_catalogs = Ok site) ∧
  has_site_admin (db (serve_requests (Routes.router site "" no_log no_usage) day Demo.site)) ∧
  Forall (λ k, cookie_Secure k = true) (resp_Cookies (snd (fst (Routes.router site "" no_log no_usage (visit "GET" "/en/sign-in" [] []) (Demo.site, no_response))))).
Proof.
  destruct (facts_loaded _ _ production_facts) as (c & Hc & [= Henv Hfrom Hg _ Hrelay Hlife]).
  destruct (Start.site_of connect_demo c demo_ports demo_catalogs) as [site|e] eqn:Hsite.
  - exists site. split; [exists c; split; [exact Hc|exact Hsite]|].
    destruct (deployment_keeps_its_promises connect_demo silent_net_quiet (λ _, connect_demo_quiet)
      production_env c demo_ports demo_catalogs site "" no_log no_usage Hc Hsite demo_process no_log_quiet no_usage_quiet) as [Hdata Hcookies].
    split; [exact (proj2 (Hdata day Demo.site site_wf (proj1 site_administered)))|].
    eapply Forall_impl; [apply Hcookies|]. intros k (_ & _ & Hk). apply Hk. exact Henv.
  - exfalso. pose proof production_site_starts as Hs. rewrite Hc, Hsite in Hs. discriminate Hs.
Defined.
End deployment.
