(* ===== verification/Process.v ===== *)
(** * The process: internal/server/server.go and cmd/web/main.go

    The HTTP server with the dependencies it closes, and [main] from the
    environment to the last close.  What the outside does (listening, serving,
    shutting down, opening the database, the signal) arrives as results;
    [effect]s record the calls in order.  The goroutines of the worker and the
    usage queue, logging and timeouts while serving are not modelled here. *)
From S2P Require Export Start Migrations.

Inductive effect := DatabaseOpened | DatabaseClosed | Listened | Served | ShutDown | DependencyClosed (name : string).
#[export] Instance effect_eq_dec : EqDecision effect.
Proof. solve_decision. Defined.
(** [http.Server.Serve]'s answer; [http.ErrServerClosed] is told apart. *)
Inductive serve_result := ServeNil | ErrServerClosed | ServeFailed (e : error).
(** [io.Closer]: what its [Close] logs and answers. *)
Record Closer := mkCloser { closer_effect : effect; closer_Close : option error }.

Module Server.
Definition defaultShutdownTimeout : Z := 10 * second.
Definition ErrEmptyAddress : error := Opaque "server: empty listen address".
Definition ErrInvalidShutdownTimeout : error := Opaque "server: invalid shutdown timeout".
Definition ErrNilDependency : error := Opaque "server: nil dependency".
Definition ErrNilListener : error := Opaque "server: nil listener".

(** [closeOnce] has run when [closed]. *)
Record Server := mkServer {
  server_Addr : string; shutdownTimeout : Z; dependencies : list Closer; closed : bool; closeErr : option error; log : list effect }.
Inductive Option_ := WithShutdownTimeout (timeout : Z) | WithDependency (dependency : option Closer).
(** [errors.Join]: nil when all are nil. *)
Definition joins (es : list (option error)) : option error := errors_Join (omap id es).
Definition apply_option (o : Option_) (s : Server) : outcome Server :=
  match o with
  | WithShutdownTimeout timeout =>
    if timeout <=? 0 then Err (Errorf "must be positive" ErrInvalidShutdownTimeout)
    else Ok (mkServer (server_Addr s) timeout (dependencies s) (closed s) (closeErr s) (log s))
  | WithDependency None => Err ErrNilDependency
  | WithDependency (Some dependency) =>
    Ok (mkServer (server_Addr s) (shutdownTimeout s) (dependencies s ++ [dependency]) (closed s) (closeErr s) (log s))
  end.
(** A nil option is skipped. *)
Fixpoint apply_options (options : list (option Option_)) (s : Server) : outcome Server :=
  match options with
  | [] => Ok s
  | None :: options => apply_options options s
  | Some o :: options => match apply_option o s with Ok s => apply_options options s | Err e => Err e end
  end.
Definition New (address : string) (options : list (option Option_)) : outcome Server :=
  if String.eqb address "" then Err ErrEmptyAddress
  else apply_options options (mkServer address defaultShutdownTimeout [] false None []).

(** A call on a server: the server after it, and its error or nil. *)
Definition Call : Type := Server → Server * option error.
Definition note (e : effect) (s : Server) : Server :=
  mkServer (server_Addr s) (shutdownTimeout s) (dependencies s) (closed s) (closeErr s) (log s ++ [e]).
Definition closeDependencies : Call := λ s,
  if closed s then (s, closeErr s) else
  let failures := foldl (λ e dependency, match closer_Close dependency with Some e' => joins [e; Some e'] | None => e end) (closeErr s) (dependencies s) in
  (mkServer (server_Addr s) (shutdownTimeout s) (dependencies s) true failures (log s ++ (closer_effect <$> dependencies s)), failures).
Definition normalizeServeError (r : serve_result) : option error :=
  match r with ServeNil | ErrServerClosed => None | ServeFailed e => Some (Errorf "serve" e) end.
(** [http.Server.Shutdown] answers [stopped]. *)
Definition Shutdown (stopped : option error) : Call := λ s,
  let (s, e) := closeDependencies (note ShutDown s) in (s, joins [stopped; e]).
(** Which of the two the [select] of [Serve] sees first: the end of serving, or
    the context, and then the answers of [Shutdown] and of serving. *)
Inductive ending := ServingEnded (r : serve_result) | ContextDone (stopped : option error) (r : serve_result).
Definition Serve (listener : bool) (how : ending) : Call := λ s,
  if negb listener then let (s, e) := closeDependencies s in (s, joins [Some ErrNilListener; e]) else
  let s := note Served s in
  match how with
  | ServingEnded r => let (s, e) := closeDependencies s in (s, joins [normalizeServeError r; e])
  | ContextDone stopped r =>
    let (s, shutdownErr) := Shutdown stopped s in
    (s, match normalizeServeError r with Some e => joins [shutdownErr; Some e] | None => shutdownErr end)
  end.
(** [Run]; [refused] is the error of [net.Listen]. *)
Definition Run (refused : option error) (how : ending) : Call := λ s,
  let s := note Listened s in
  match refused with
  | Some e => let (s, closing) := closeDependencies s in (s, joins [Some (Errorf "listen" e); closing])
  | None => Serve true how s
  end.
End Server.

(** ** [main] *)
Module Main.
Import Server.
(** What the outside answers: opening and closing the database, listening, serving. *)
Record Outside := mkOutside { out_open : option error; out_close : option error; out_listen : option error; out_ending : ending }.
(** How the process ends: nil, or [log.Fatal]. *)
Record Exit := mkExit { exit_world : World; exit_log : list effect; exit_fatal : option error; exit_site : option Site }.

Section main.
Context `{Unicode, AddressParser, AddressText, MailAddressParser, DurationParser, ReferenceParser}.
Context `{Postgres, Crypto, PasswordHashing, Argon2, JSONParser, net : HTTPClient} (connect : OIDCClient → SSORelyingParty).
Context {T : Type} `{ScriptEngine T, Migrator.LedgerOrder} (migrations : MigrationFS) (host : AdminPorts) (catalogs : Catalog.Catalogs).

(** From the composed site to the end of the process. *)
Definition run_server (c : Config.Config) (outside : Outside) (w : World) (opened : list effect) (site : option Site) : Exit :=
  let database := mkCloser DatabaseClosed (out_close outside) in
  match New (Config.HTTPAddress c) (match site with Some _ => [Some (WithDependency (Some database))] | None => [] end) with
  | Err e => mkExit w (opened ++ match site with Some _ => [DatabaseClosed] | None => [] end) (Some e) None
  | Ok server => let (server, e) := Run (out_listen outside) (out_ending outside) server in mkExit w (opened ++ log server) e site
  end.
Definition main (env : string → string) (outside : Outside) (d : Migrator.Database T) (w : World) : Migrator.Database T * Exit :=
  match Config.Load env with
  | Err e => (d, mkExit w [] (Some e) None)
  | Ok c =>
    if negb (Config.IsSet (Config.DatabaseURL c)) then (d, run_server c outside w [] None) else
    match out_open outside with
    | Some e => (d, mkExit w [] (Some e) None)
    | None =>
      let fatal d w e := (d, mkExit w [DatabaseOpened; DatabaseClosed] (Some e) None) in
      match Migrator.Apply migrations d with
      | (d, Err e) => fatal d w e
      | (d, Ok _) =>
        match Start.New connect c with
        | Err e => fatal d w e
        | Ok _ =>
          match Start.EnsureBootstrapAdmin c w with
          | (w, Err e) => fatal d w e
          | (w, Ok _) =>
            match Start.site_of connect c host catalogs with
            | Err e => fatal d w e
            | Ok site => (d, run_server c outside w [DatabaseOpened] (Some site))
            end
          end
        end
      end
    end
  end.
End main.
End Main.

(** ** What the server closes *)
Section server.
Import Server.
Implicit Types (s : Server) (e : option error).

Lemma joins_None es : joins es = None ↔ Forall (λ e, e = None) es.
Proof.
  unfold joins. induction es as [|e es IH]; [done|]. destruct e as [e|]; simpl.
  - split; [done|]. intros Hf. by apply Forall_cons in Hf as [? _].
  - rewrite IH, Forall_cons. tauto.
Qed.
Lemma close_failures deps : ∀ e,
  foldl (λ e dependency, match closer_Close dependency with Some e' => joins [e; Some e'] | None => e end) e deps = None ↔
  e = None ∧ Forall (λ d, closer_Close d = None) deps.
Proof.
  induction deps as [|d deps IH]; intros e; simpl; [by split; [|intros [? _]]|]. rewrite IH, Forall_cons. destruct (closer_Close d) as [e'|]; [|tauto].
  rewrite joins_None, !Forall_cons. split; [intros ((_ & ? & _) & _); done|intros (_ & ? & _); done].
Qed.
Lemma close_once s : closed s = false → closeErr s = None → ∃ s' e, closeDependencies s = (s', e) ∧ closed s' = true ∧
  log s' = log s ++ (closer_effect <$> dependencies s) ∧ (e = None ↔ Forall (λ d, closer_Close d = None) (dependencies s)).
Proof.
  intros Hc He. unfold closeDependencies. rewrite Hc, He. eexists _, _. split; [reflexivity|]. split; [done|split; [done|]].
  rewrite close_failures. tauto.
Qed.
Lemma close_again s : closed s = true → closeDependencies s = (s, closeErr s).
Proof. unfold closeDependencies. by intros ->. Qed.
(** What the outside of a run failed at. *)
Definition went_well (refused : option error) (how : ending) : Prop :=
  refused = None ∧ match how with ServingEnded r => normalizeServeError r = None | ContextDone stopped r => stopped = None ∧ normalizeServeError r = None end.

Lemma Run_closes refused how s : closed s = false → closeErr s = None → ∃ s' e, Run refused how s = (s', e) ∧ closed s' = true ∧
  (∃ calls, calls ∈ [[Listened]; [Listened; Served]; [Listened; Served; ShutDown]] ∧ log s' = log s ++ calls ++ (closer_effect <$> dependencies s)) ∧
  (e = None ↔ went_well refused how ∧ Forall (λ d, closer_Close d = None) (dependencies s)).
Proof.
  intros Hc He. unfold Run, Serve, Shutdown, went_well. destruct refused as [e|].
  - destruct (close_once (note Listened s)) as (s' & e' & -> & Hs & Hl & _); [done|done|]. eexists _, _. split; [reflexivity|]. split; [done|split].
    + exists [Listened]. split; [apply list_elem_of_here|]. rewrite Hl. simpl. by rewrite <- app_assoc.
    + rewrite joins_None, !Forall_cons. split; [intros (? & _); done|intros ((? & _) & _); done].
  - simpl negb. cbv iota. destruct how as [r|stopped r].
    + destruct (close_once (note Served (note Listened s))) as (s' & e' & -> & Hs & Hl & He'); [done|done|]. eexists _, _. split; [reflexivity|]. split; [done|split].
      * exists [Listened; Served]. split; [apply list_elem_of_further, list_elem_of_here|]. rewrite Hl. simpl. by rewrite <- !app_assoc.
      * rewrite joins_None, !Forall_cons, He'. simpl. pose proof (Forall_nil_2 (λ e : option error, e = None)). tauto.
    + destruct (close_once (note ShutDown (note Served (note Listened s)))) as (s' & e' & -> & Hs & Hl & He'); [done|done|]. eexists _, _. split; [reflexivity|]. split; [done|split].
      * exists [Listened; Served; ShutDown]. split; [do 2 apply list_elem_of_further; apply list_elem_of_here|]. rewrite Hl. simpl. by rewrite <- !app_assoc.
      * assert (joins [stopped; e'] = None ↔ stopped = None ∧ Forall (λ d, closer_Close d = None) (dependencies s)) as Hj.
        { rewrite joins_None, !Forall_cons, He'. simpl. pose proof (Forall_nil_2 (λ e : option error, e = None)). tauto. }
        destruct (normalizeServeError r) as [e|]; [|rewrite Hj; tauto]. rewrite joins_None, !Forall_cons. split; [intros (_ & ? & _); done|intros ((_ & _ & ?) & _); done].
Qed.

(** However a run of the server ends, and whatever fails, it ends by closing
    each dependency once, in the order of registration and after serving has
    stopped; shutting down again closes none twice; and it answers nil exactly
    when nothing failed. *)
Theorem server_closes_its_dependencies refused how s :
  closed s = false → closeErr s = None →
  let (s', e) := Run refused how s in
  (∃ calls, calls ∈ [[Listened]; [Listened; Served]; [Listened; Served; ShutDown]] ∧ log s' = log s ++ calls ++ (closer_effect <$> dependencies s)) ∧
  (∀ stopped, log (fst (Shutdown stopped s')) = log s' ++ [ShutDown]) ∧
  (e = None ↔ went_well refused how ∧ Forall (λ d, closer_Close d = None) (dependencies s)).
Proof.
  intros Hc He. destruct (Run_closes refused how s Hc He) as (s' & e & -> & Hs & Hl & Hn). split; [done|split; [|done]].
  intros stopped. unfold Shutdown. by rewrite close_again.
Qed.
End server.

(** ** What [main] serves *)
Section process.
Context `{Unicode, AddressParser, AddressText, MailAddressParser, DurationParser, ReferenceParser}.
Context `{Postgres, Crypto, PasswordHashing, Argon2, JSONParser, net : HTTPClient} (connect : OIDCClient → SSORelyingParty).
Context {T : Type} `{ScriptEngine T, Migrator.LedgerOrder} (migrations : MigrationFS) (host : AdminPorts) (catalogs : Catalog.Catalogs).
Import Main.
#[local] Abbreviation run_main := (main connect migrations host catalogs).

Lemma New_fresh address options s : Server.New address options = Ok s →
  (∀ o, o ∈ options → o = None ∨ ∃ d, o = Some (Server.WithDependency d)) →
  Server.closed s = false ∧ Server.closeErr s = None ∧ Server.log s = [] ∧
  Server.dependencies s = omap (λ o, match o with Some (Server.WithDependency d) => d | _ => None end) options.
Proof.
  unfold Server.New. destruct (String.eqb address ""); [done|].
  set (s0 := Server.mkServer address _ [] _ _ _). assert (Server.dependencies s0 = [] ∧ Server.closed s0 = false ∧ Server.closeErr s0 = None ∧ Server.log s0 = []) as H0s by done.
  destruct H0s as (Hd & Hc & He & Hl). rewrite <- (app_nil_l (omap _ _)), <- Hd. clear Hd. revert Hc He Hl. generalize s0. clear s0.
  induction options as [|o options IH]; simpl; intros s0 Hc He Hl; [intros [= <-] _; by rewrite app_nil_r|]. intros Hn Ho.
  destruct (Ho o (list_elem_of_here _ _)) as [->|[[d|] ->]]; simpl in *.
  - apply IH; try done. intros o' Hin. apply Ho. by apply list_elem_of_further.
  - apply IH in Hn as (? & ? & ? & Hd); [|done..|intros o' Hin; apply Ho; by apply list_elem_of_further]. simpl in Hd. by rewrite <- app_assoc in Hd.
  - done.
Qed.
(** Whether the database is closed as often as it is opened, at the end. *)
Definition balanced (log : list effect) : Prop :=
  ((DatabaseOpened ∉ log) ∧ (DatabaseClosed ∉ log)) ∨
  ∃ calls, log = DatabaseOpened :: calls ++ [DatabaseClosed] ∧ (DatabaseOpened ∉ calls) ∧ (DatabaseClosed ∉ calls).
Lemma run_server_balanced c outside w site :
  let x := run_server c outside w (match site with Some _ => [DatabaseOpened] | None => [] end) site in
  balanced (exit_log x) ∧ exit_world x = w ∧ (Listened ∈ exit_log x → exit_site x = site).
Proof.
  unfold run_server. cbv zeta. destruct (Server.New _ _) as [s|e] eqn:Hs.
  - apply New_fresh in Hs as (Hc & He & Hl & Hd).
    2:{ intros o Ho. destruct site; [apply list_elem_of_singleton in Ho as ->; right; by eexists|by apply elem_of_nil in Ho]. }
    destruct (Run_closes (out_listen outside) (out_ending outside) s Hc He) as (s' & e & -> & _ & (calls & Hcalls & Hlog) & _). simpl.
    split; [|done]. rewrite Hlog, Hl, Hd. simpl. assert ((DatabaseOpened ∉ calls) ∧ (DatabaseClosed ∉ calls)) as [Ho Hcl].
    { repeat (apply elem_of_cons in Hcalls as [->|Hcalls]; [split; by apply (bool_decide_unpack _)|]). by apply elem_of_nil in Hcalls. }
    destruct site; simpl; [right; by exists calls|left]. by rewrite app_nil_r.
  - simpl. split; [|split; [done|]].
    + destruct site; simpl; [right; exists []; split; [done|]|left]; split; by apply not_elem_of_nil.
    + destruct site; simpl; intros Hin; [|by apply elem_of_nil in Hin]. repeat (apply elem_of_cons in Hin as [|Hin]; [done|]). by apply elem_of_nil in Hin.
Qed.

(** C40. [main] leaves no database open and serves nothing half prepared: it
    closes the database it opened exactly once, last, on every path; and if it
    ever listens, the configuration was loaded, and a site with services is
    there exactly when a database is configured, after the migrations of the
    release were installed, the bootstrap administrator was seen to, and every
    service was built. *)
Theorem main_serves_only_what_is_prepared env outside d w :
  let (d', x) := run_main env outside d w in
  balanced (exit_log x) ∧
  (Listened ∈ exit_log x → ∃ c, Config.Load env = Ok c ∧
    match exit_site x with
    | None => Config.IsSet (Config.DatabaseURL c) = false ∧ d' = d ∧ exit_world x = w
    | Some site => Config.IsSet (Config.DatabaseURL c) = true ∧ Migrator.Apply migrations d = (d', Ok tt) ∧
        Start.EnsureBootstrapAdmin c w = (exit_world x, Ok tt) ∧ Start.site_of connect c host catalogs = Ok site
    end).
Proof.
  assert (balanced [] ∧ balanced [DatabaseOpened; DatabaseClosed]) as [B0 B2].
  { split; [left; by split; apply not_elem_of_nil|right; exists []; split_and!; [done|by apply not_elem_of_nil..]]. }
  assert (∀ log, (log = [] ∨ log = [DatabaseOpened; DatabaseClosed]) → Listened ∈ log → False) as Hno.
  { intros l [->| ->] Hin; repeat (apply elem_of_cons in Hin as [|Hin]; [done|]); by apply elem_of_nil in Hin. }
  unfold main. destruct (Config.Load env) as [c|e] eqn:Hload; [|split; [done|]; intros Hin; exfalso; by apply (Hno []); auto].
  destruct (Config.IsSet (Config.DatabaseURL c)) eqn:Hset; simpl negb; cbv iota.
  2:{ pose proof (run_server_balanced c outside w None) as (Hb & Hw & Hs). split; [exact Hb|]. intros Hin. exists c. split; [done|]. rewrite (Hs Hin). done. }
  destruct (out_open outside); [split; [done|]; intros Hin; exfalso; by apply (Hno []); auto|].
  assert (∀ (d : Migrator.Database T) e w, let (d', x) := (d, mkExit w [DatabaseOpened; DatabaseClosed] (Some e) None) in balanced (exit_log x) ∧ (Listened ∈ exit_log x → False)) as Hfatal.
  { intros ? e ?. split; [done|]. intros Hin. eapply Hno; [|exact Hin]. by right. }
  destruct (Migrator.Apply migrations d) as [d1 [[]|e]] eqn:Ha; [|destruct (Hfatal d1 e w) as [? Hl]; split; [done|by intros ?%Hl]].
  destruct (Start.New connect c) as [g|e]; [|destruct (Hfatal d1 e w) as [? Hl]; split; [done|by intros ?%Hl]].
  destruct (Start.EnsureBootstrapAdmin c w) as [w1 [[]|e]] eqn:Hb; [|destruct (Hfatal d1 e w1) as [? Hl]; split; [done|by intros ?%Hl]].
  destruct (Start.site_of connect c host catalogs) as [site|e] eqn:Hsite; [|destruct (Hfatal d1 e w1) as [? Hl]; split; [done|by intros ?%Hl]].
  pose proof (run_server_balanced c outside w1 (Some site)) as (Hbal & Hw & Hs). split; [exact Hbal|]. intros Hin. exists c. split; [done|].
  rewrite (Hs Hin), Hw, Hsite. by split_and!.
Qed.
End process.
