(* ===== verification/Findings.v ===== *)
(** * Where the code and its documentation part

    Runs of the model on the concrete site of Demo that show what the code does
    where a comment or the product description says otherwise.  The findings on
    the usage queue are in UsageQueue. *)
From S2P Require Export Upkeep UsageQueue GroupProps OAuthProps WebDemo.

(** Deleting the account of the only administrator of a group removes the
    membership with it: the group stays, without an administrator. *)
Theorem account_deletion_orphans_its_groups :
  groups_administered (db site) ∧
  ¬ groups_administered (after demo_cfg [DoAdminDelete (mkActor 1 "192.0.2.7") 2 0] site).
Proof.
  split; [exact (proj2 site_administered)|]. intros Ha.
  assert (Hg : is_nil (groups (after demo_cfg [DoAdminDelete (mkActor 1 "192.0.2.7") 2 0] site) !! 1) = false) by evaluates.
  assert (Hs : is_Some (groups (after demo_cfg [DoAdminDelete (mkActor 1 "192.0.2.7") 2 0] site) !! 1)).
  { destruct (groups _ !! 1); [by eexists|done]. }
  destruct (Ha 1 Hs) as (uid & m & Hm & _).
  assert (Hn : size (group_members (after demo_cfg [DoAdminDelete (mkActor 1 "192.0.2.7") 2 0] site)) = 0%nat) by evaluates.
  apply map_size_empty_inv in Hn. rewrite Hn, lookup_empty in Hm. discriminate Hm.
Qed.

(** A new group is stored as created at the epoch: [Create] leaves [CreatedAt]
    unset and the repository stores it as it is. *)
Theorem created_group_has_no_date :
  ∃ summary, snd (Groups.Create 2 "Go club" site) = Ok summary ∧
    group_CreatedAt (summary_Group summary) = 0 ∧ Unix (clock site) = 2000.
Proof. eexists. split; [evaluates|]. split; reflexivity. Qed.

(** Submitting an unchanged profile writes a new revision. *)
Theorem unchanged_profile_writes_a_revision :
  ∃ u u', users (db site) !! 2 = Some u ∧ user_Username u = Some "bob" ∧ user_DisplayName u = None ∧
    users (after demo_cfg [DoUpdateProfile 2 (mkProfileInput "bob" "")] site) !! 2 = Some u' ∧
    user_Version u' = user_Version u + 1.
Proof. eexists _, _. split; [evaluates|]. do 2 (split; [reflexivity|]). split; evaluates. Qed.

(** When linking fails after the account was created, the account is left with
    the address and no way to sign in, and the retry is refused. *)
Definition unlucky : World :=
  mkWorld (db site) (clock site) (ticks site) (entropy site)
    [None; None; None; Some (mkFault ServerError false)] [] [].
Definition carol : OAuthProfile := mkProfile "subject-1" "carol@example.org" true "Carol".
Definition first_try := OAuth.signInWithProfile (App.oauth demo_cfg) "acme" carol 2000 unlucky.
Theorem failed_link_strands_the_account :
  (∃ e, snd first_try = Err e) ∧
  size (oauth_identities (db (fst first_try))) = 0%nat ∧
  (∃ u, users (db (fst first_try)) !! 4 = Some u ∧ user_Email u = Some "carol@example.org" ∧ user_PasswordHash u = None) ∧
  ∃ e, snd (OAuth.signInWithProfile (App.oauth demo_cfg) "acme" carol 2000 (fst first_try)) = Err e.
Proof.
  split; [eexists; evaluates|]. split; [evaluates|]. split; [|eexists; evaluates].
  eexists. split; [evaluates|]. split; reflexivity.
Qed.

(** ** Where the web layer and its documentation part

    Facts of the chain of middlewares and runs of the router of WebDemo.v. *)
Import UserRepository SessionRepository Sessions Locale WebSession WebAuth Middlewares.

(** ** Usage events carry no account

    Nothing puts a principal into a request's context, and [Usage] asks the
    request it was given, so the account of an event is always missing. *)
Definition anonymous (e : UsageEvent) : UsageEvent :=
  mkUsageEvent (usage_CreatedAt e) (usage_Method e) (usage_Route e) (usage_Status e) (usage_RequestID e) (usage_TraceID e) None (usage_IP e).
(** Handlers that do the same for requests without a principal. *)
Definition same_for_all (h h' : handler) : Prop := ∀ r, ctx_Principal r = None → ∀ s, h r s = h' r s.

Section usage.
Context `{URLParser}.
Lemma bind_ext {S A B} (m : ST S A) (f g : A → ST S B) s : (∀ a s', f a s' = g a s') → bind m f s = bind m g s.
Proof. intros Hf. unfold bind. destruct (m s) as [s' [a|e]]; [apply Hf|done]. Qed.
Lemma same_WithRequestID h h' : same_for_all h h' → same_for_all (WithRequestID h) (WithRequestID h').
Proof.
  intros Hh r Hr s. unfold WithRequestID. apply bind_ext. intros [id|] s'; [|done]. destruct (negb _); [done|].
  apply bind_ext. intros _ s''. by apply Hh.
Qed.
Lemma same_SecurityHeaders h h' : same_for_all h h' → same_for_all (SecurityHeaders h) (SecurityHeaders h').
Proof. intros Hh r Hr s. unfold SecurityHeaders. do 6 (apply bind_ext; intros _ ?). by apply Hh. Qed.
Lemma same_Recover h h' : same_for_all h h' → same_for_all (Recover h) (Recover h').
Proof. intros Hh r Hr s. unfold Recover. by rewrite (Hh r Hr). Qed.
Lemma same_SecurityEvents log n h h' : same_for_all h h' → same_for_all (SecurityEvents log n h) (SecurityEvents log n h').
Proof. intros Hh r Hr s. unfold SecurityEvents, bind at 1 3. by rewrite (Hh r Hr). Qed.
Lemma same_Usage enqueue n h : same_for_all (Usage enqueue n h) (Usage (λ e, enqueue (anonymous e)) n h).
Proof.
  intros r Hr s. unfold Usage. apply bind_ext. intros _ s'. apply bind_ext. intros status s''. f_equal. f_equal.
  unfold anonymous, usage_event, event_user, PrincipalFromContext. simpl. by rewrite Hr.
Qed.
Lemma same_Span tracer n h h' : same_for_all h h' → same_for_all (Span tracer n h) (Span tracer n h').
Proof.
  intros Hh r Hr s. unfold Span. apply bind_ext. intros [trace|] s1; [|by apply Hh]. apply bind_ext. intros startedAt s2. unfold deferred. by rewrite Hh.
Qed.
Theorem usage_events_carry_no_account e enqueue mux r s :
  edge_usage e = Some enqueue → ctx_Principal r = None →
  newRouter e mux r s =
  newRouter (mkEdge (edge_TrustedProxy e) (edge_tracer e) (edge_security_log e) (Some (λ ev, enqueue (anonymous ev))) (edge_request_log e) (edge_csrf e)) mux r s.
Proof.
  intros He Hr. unfold newRouter, shared, Chain. rewrite !foldr_app. simpl. rewrite He. simpl.
  revert r Hr s. apply same_WithRequestID. intros r Hr s. unfold ClientIP_.
  apply same_SecurityHeaders; [|done]. apply same_Recover.
  destruct (edge_tracer e) as [tracer|]; simpl; [apply same_Span|]; (destruct (edge_security_log e) as [log|]; simpl; [apply same_SecurityEvents|]; apply same_Usage).
Qed.
End usage.

(** Routes are recorded with the identifiers of records in them. *)
Theorem usage_routes_keep_record_ids :
  NormalizeUsageRoute (visit "GET" "/en/groups/42" [] []) = "/{language}/groups/42" ∧
  NormalizeUsageRoute (visit "GET" "/en/groups/43" [] []) = "/{language}/groups/43".
Proof. split; reflexivity. Qed.

(** [Span] reports the status when the handler is done, but the 500 of a panic
    is written outside of it, by [Recover]: the span of such a request says 200. *)
Theorem span_of_a_panic_reports_success :
  let spy line := set_header "Span-Status" (value_or_empty "status" (line_attributes line)) in
  let s := fst (Recover (Span (Spans.NewSpanTracer "" (Some spy)) NormalizeUsageRoute (λ _ s, (s, Err (Opaque "panic"))))
    (visit "GET" "/en/home" [] []) (site, no_response)) in
  resp_Status s.2 = StatusInternalServerError ∧ value_or_empty "Span-Status" (resp_Headers s.2) = "200".
Proof. vm_compute. split; reflexivity. Qed.

(** ** Runs of the site *)
Definition answer (r : Request) (w : World) : World * Response := fst (Routes.router demo_site "" no_log no_usage r (w, no_response)).
Definition Location (resp : Response) : string := value_or_empty "Location" (resp_Headers resp).
Definition settings_form (page : string) (form : list (string * string)) : Request :=
  visit "POST" ("/en/account/settings/" +:+ page) bobs (("_csrf", token) :: form).

(** Bob chooses Hungarian; without a language in the address the site still
    answers in the default language. *)
Theorem chosen_language_is_not_used :
  let s := answer (settings_form "locale" [("locale", "hu")]) site in
  user_Locale <$> users (db s.1) !! 2 = Some "hu" ∧ Location (snd (answer (visit "GET" "/" bobs []) s.1)) = "/en/".
Proof. vm_compute. split; reflexivity. Qed.

(** "HU" is stored as "hu", but the answer is an internal error. *)
Theorem capital_language_is_saved_and_fails :
  let s := answer (settings_form "locale" [("locale", "HU")]) site in
  user_Locale <$> users (db s.1) !! 2 = Some "hu" ∧ resp_Status s.2 = StatusInternalServerError.
Proof. vm_compute. split; reflexivity. Qed.

(** The settings page says whether the account has a password; after a change
    of the profile it says that Bob has none. *)
#[local] Instance password_template : Templates :=
  {| ExecuteTemplate _ page := match page_Settings page with
                               | Some v => Some (if set_HasPassword v then "change password" else "set password")
                               | None => None
                               end |}.
Theorem profile_page_forgets_the_password :
  let page r := resp_Body (snd (fst (Routes.router demo_site "" no_log no_usage r (site, no_response)))) in
  page (visit "GET" "/en/account/settings" bobs []) = ["change password"] ∧
  page (settings_form "profile" [("username", "bob"); ("display_name", "Robert")]) = ["set password"].
Proof. vm_compute. split; reflexivity. Qed.
